(* ===== verification/_CoqProject ===== *)
-Q . S2P
Prelude.v
Words.v
PageTypes.v
Rand.v
Bitmaps.v
RingBuffers.v
TaskLists.v
Tasks.v
TasksRefinement.v
Queueing.v
Scheduling.v
Switching.v
SchedulerTheorems.v
Locking.v
Physical.v
Paging.v
VirtualMem.v
LinkedLists.v
KString.v
Printf.v
Clock.v
Display.v
Console.v
ConsoleTypes.v
Primes.v
Interrupts.v
KernelMap.v
Handoff.v
Logging.v
Serial.v
Entry.v
Start.v
EarlyBoot.v
Panics.v
PanicScreen.v
Demos.v
Heap.v
Welcome.v
Stubs.v
