(* ===== verification/Prelude.v ===== *)
(** * A verified model of the Xyris kernel

    Xyris is a small kernel for i686 processors, written in C++ (src/Kernel).
    This library models its parts as functions on explicit states and proves
    what makes them correct.  This header says what is where; every other file
    opens with a comment of its own.

    ** The program and its parts

    Stage 1 (stivale2.c) maps the kernel to its high addresses and switches
    paging on.  [kernelEntry] (Entry.cpp) then sets up descriptor tables and
    devices, hands the memory map of the boot loader to the manager of page
    frames, builds the kernel's page tables, starts graphics and the scheduler,
    and creates the tasks.  From then on tasks run, block on each other through
    mutexes and semaphores, sleep, and print; the interval timer interrupts them.

    - Start (Arch/i686/Bootloader, Bootloader).  EarlyBoot.v: the page tables of
      stage 1, judged by the processor's walk, and the early panic (C13).
      Handoff.v: the tags of the boot loader, the command line's arguments, and
      the frames that are handed out in the end (C26).  Entry.v: [kernelEntry] up
      to [Memory::init], composed over one state (C40), and Arch::CPU.  Start.v:
      its tasks, from [tasks_init] on, with the stacks that the memory gives them
      (C14).  Welcome.v: the banner and the time on the screen
      ([welcome_painted]), and the tones.

    - Scheduler (Scheduler/tasks.cpp, Assembly/tasks.s, Arch/i686/timer.cpp).
      TaskLists.v holds the task structures, their intrusive lists over a heap
      of pointers ([Ptr]) and the same interface over FIFO queues ([Fifo]);
      Tasks.v has every operation of tasks.cpp once, over the interface
      [TaskQueues]; TasksRefinement.v proves that the pointers refine the
      queues, Queueing.v and Scheduling.v that every operation keeps the
      scheduler's invariant, Switching.v what the context switch does to
      registers and stacks.  SchedulerTheorems.v states C1 to C7 and C32.
    - Locks (Locking/Mutex.cpp, Semaphore.cpp, Support/cxa_guard.cpp): Locking.v
      has their code as atomic steps of tasks, in a transition relation for any
      interleaving (C8 to C10).
    - Memory (Arch/i686/Memory, Memory/Physical.hpp, paging.cpp, heap.cpp,
      Virtual.cpp).  PageTypes.v has the bit-fields of page tables and of
      addresses; Physical.v memory sections, the memory map and the frame
      manager; Paging.v the kernel's page directory, mapping,
      [newPage] and [freePage] (C15, C16); KernelMap.v what [Memory::init] makes
      of them, by the processor's walk (C17); Heap.v the hooks of the allocator;
      VirtualMem.v the manager of an address space (C19).
    - Library (Library).  Words.v: machine integers.  Bitmaps.v: Bitset.hpp and
      the interface [Bitmap] that the frame manager, the paging code, the
      address spaces and the prime sieve are proved against (C27).
      RingBuffers.v: RingBuffer.hpp (C29).  LinkedLists.v: LinkedList.hpp over a
      heap of nodes (C20).  KString.v: string.cpp over a byte memory (C21,
      C22).  Rand.v: rand.cpp and its period (C23).  Printf.v: the format machine
      of printf.cpp for any callback, and [kvsprintf] (C24, C25).
    - Messages (Logger.cpp, Locking/RAII.hpp, Devices/Serial/rs232.cpp).
      Logging.v: levels, writers and the shared buffer, over any writers;
      Serial.v: the serial line as a writer, and its input (C12, C28).
    - Panics (Panic.cpp, Stacktrace.cpp, Arch/i686/Arch.cpp): Panics.v, over two
      terminals of the interface [Terminal], which the serial line implements
      there and the console in PanicScreen.v (C11, C33).
    - Clocks (Devices/Clock/rtc.cpp, Library/time.cpp): Clock.v (C30, C31).
    - Graphics (Devices/Graphics): Display.v has framebuffer, double buffer and
      glyphs, Console.v the escape sequences and the printing on
      it, over the interface [Screen], which Display.v implements (C36, C37);
      ConsoleTypes.v its behaviour on any input (C39).
    - Applications: Primes.v, the sieve (C38); Demos.v, the animation (C35) and
      the spinner, which shares the console with other tasks (C18).
    - Interrupts.v: descriptor tables, interrupt dispatch, interval timer and
      speaker (gdt.cpp, idt.cpp, isr.cpp, timer.cpp, spkr.cpp), used by Entry.v.
      Stubs.v: the assembly between the processor and isr.cpp (interrupt.s, C34).

    ** How code becomes definitions

    A function keeps its name; a class becomes a module or a file.  Functions
    that only return values are functions to [outcome]; functions that change
    state are of type [K S A], a state monad over [outcome] with the part of the
    kernel's memory that they reach as the state.  [outcome] separates a return
    from a call of [panic], from what C++ leaves undefined ([Fault]: a bad
    index or pointer, an [int] overflow, a shift too far) and from code that has
    not returned ([Stuck]).  Integers are [Z], wrapped where the code stores or
    computes in an unsigned type; sizes and pointers have 32 bits.  Memory is a
    finite map from addresses, so that an access outside of what is mapped is a
    [Fault].  Shared objects and aliasing are kept where the code has them: task
    lists, list nodes and byte strings are pointers into a heap.

    What is not in src/ is a parameter: malloc and free (the submodule
    liballoc) in Paging.v and Display.v, the addresses the linker gives
    ([KernelImage], [KernelText]), the real time clock and the ports as
    functions of time, interrupts and time stamps as lists of inputs.
    Their documented behaviour is the hypothesis of the theorems that need it,
    and a witness shows each time that it can hold.

    ** Groups of theorems

    - Refinement: C2 (scheduler lists to FIFO queues), C20 (linked list to
      lists), C29 (ring buffer to a bounded queue), C36 (console text to terminal
      operations), C24 and C25 (formatted output to the meaning of a format).
    - Composition: C40 and C14, the start of the kernel and of its tasks, C17,
      paging with allocation, as the processor decodes the tables, and C35,
      drawing from the initialisation to the screen.
    - Types: C39, the console's variables on any text.
    - Invariants and safety under interleaving: C1, C8, C9, C10; C18 for
      the console, C37 for the screen; C11 for what a panic writes.
    - Liveness: C32, every ready task gets its turn, and C14, those that the
      kernel starts.
    - Functional correctness on all branches, errors included: C3 to C5, C7,
      C12, C13, C15, C16, C19, C21, C23, C26, C27, C28, C35, C38.
    - Termination: loops are functions with fuel, and the theorems give fuel
      that is enough, so that they say that the code returns: C16, C17, C30.
    - Round trips: C6 (context switch), C34 (interrupts), C31 (epochs and dates).
    - Machine integers and bounds: C22, C28, C33.

    Theorems that are not numbered show where the code does something else than
    it means to; among them [second_exit_loses_a_ready_task],
    [Mutex.wakeup_can_be_lost], [Manager.setUsed_section_wrong_frame],
    [freePage_frees_another_page], [map_refuses_free_page],
    [RemoveBefore_head_faults], [strstr_finds_suffixes],
    [memcmp_ignores_first_byte], [noon_reads_as_midnight],
    [Draw_outside_table], [one_coordinate_faults], [sleep_wraps],
    [large_kernel_is_not_mapped], [high_memory_aliases_low],
    [log_lock_is_released_at_once], [interrupt_while_reading_blocks],
    [fault_words_inverted], [first_message_not_ascii], [vendor_is_garbled],
    [double_buffer_is_not_allocated] and [nested_region_is_interruptible].

    ** Bounds and fuel

    - Loops over a string or a block of bytes have the number of mapped bytes as
      fuel: every round visits another address.
    - Loops over a list of tasks have the number of stored tasks as fuel.
      [_schedule] calls itself through the release of its lock at most once,
      and is unfolded twice.
    - The idle loop of the scheduler consumes one interrupt a round, from the
      list [irqs]; runs that exhaust it are [Stuck].
    - Searches through bitmaps and page tables are counting loops of their full
      length; [mapKernelRange] has the number of pages as fuel.
    - Digits: ten for 32 bits in [itoa], eleven in base 8 in [printf].
    - [RTC::read] takes the fuel of its two loops as arguments; C30 shows that
      three rounds and the length of an update are enough.  The loops of the
      sieve likewise take their fuel from C38.
    - The walk over the boot loader's tags has their number as fuel, and the
      loops of stage 1 the number of pages.  A wait for the serial line has the
      fuel [patience], and C12 and C28 assume that the line is ready by then.

    ** Not modelled

    - The layout of the boot loader's tags, which is in a submodule whose files
      are not here: a tag is what it says.  Stage 2 (Loader.cpp), which calls
      global constructors and the kernel, and the headers for the boot loader.
    - Log messages inside other components, and the texts of banners.
    - The halt at the end of a panic, and its end in other components, where a
      panic is an outcome.
    - The step from one part of kernelEntry to the next where they meet over no
      state: Entry.v, Start.v, the graphics and Welcome.v are models of their
      own, and interrupts between the calls of kernelEntry are not modelled.
    - The calls of global constructors (crti.s, crtn.s), the task state segment,
      which nothing loads, and Memory::Virtual::Kernel, which nothing creates. *)
From Stdlib Require Import ZArith Lia Bool.
From stdpp Require Import base list gmap strings numbers.

#[local] Open Scope Z_scope.

(** * Outcomes of kernel code

    Every modelled operation that can do something else than return is given
    the type [outcome].  [Panic] is a call of [panic] (Kernel/Panic.cpp), which
    never returns.  [Fault] is behaviour that C++ leaves undefined: a null or
    dangling dereference, an array access out of range, a signed overflow, a
    shift by the width of the type.  [Stuck] is code that has not returned: the
    fuel of an unbounded loop, or the supply of input events, is used up. *)
Inductive outcome (A : Type) : Type :=
  | Done (a : A)
  | Panic (msg : string)
  | Fault
  | Stuck.
Arguments Done {A} a.
Arguments Panic {A} msg.
Arguments Fault {A}.
Arguments Stuck {A}.

#[global] Instance outcome_ret : MRet outcome := fun A a => Done a.
#[global] Instance outcome_bind : MBind outcome := fun A B f m =>
  match m with
  | Done a => f a
  | Panic msg => Panic msg
  | Fault => Fault
  | Stuck => Stuck
  end.
#[global] Instance outcome_fmap : FMap outcome := fun A B f m =>
  match m with
  | Done a => Done (f a)
  | Panic msg => Panic msg
  | Fault => Fault
  | Stuck => Stuck
  end.

#[global] Instance outcome_eq_dec {A} `{EqDecision A} : EqDecision (outcome A).
Proof. solve_decision. Defined.

(** ** Stateful operations *)

(** [K S A] is the type of an operation that reads and updates a state [S]. *)
Definition K (S A : Type) : Type := S -> outcome (A * S).

#[global] Instance K_ret {S} : MRet (K S) := fun A a s => Done (a, s).
#[global] Instance K_bind {S} : MBind (K S) := fun A B f m s =>
  match m s with
  | Done (a, s') => f a s'
  | Panic msg => Panic msg
  | Fault => Fault
  | Stuck => Stuck
  end.

Definition kget {S} : K S S := fun s => Done (s, s).
Definition kgets {S A} (f : S -> A) : K S A := fun s => Done (f s, s).
Definition kput {S} (s : S) : K S unit := fun _ => Done (tt, s).
Definition kmodify {S} (f : S -> S) : K S unit := fun s => Done (tt, f s).
Definition kpanic {S A} (msg : string) : K S A := fun _ => Panic msg.
Definition kfault {S A} : K S A := fun _ => Fault.
Definition kstuck {S A} : K S A := fun _ => Stuck.
(** An operation that only reads. *)
Definition kread {S A} (f : S -> outcome A) : K S A := fun s =>
  match f s with
  | Done a => Done (a, s)
  | Panic msg => Panic msg
  | Fault => Fault
  | Stuck => Stuck
  end.
(** Lift an operation on a part of the state. *)
Definition kzoom {S T A} (get : S -> T) (set : T -> S -> S) (m : K T A) : K S A :=
  fun s =>
    match m (get s) with
    | Done (a, t) => Done (a, set t s)
    | Panic msg => Panic msg
    | Fault => Fault
    | Stuck => Stuck
    end.
(** [kwhen b m] is [if (b) m;]. *)
Definition kwhen {S} (b : bool) (m : K S unit) : K S unit :=
  if b then m else mret tt.

Lemma run_bind {S A B} (m : K S A) (f : A -> K S B) s :
  (m ≫= f) s = match m s with
               | Done (a, s') => f a s'
               | Panic msg => Panic msg
               | Fault => Fault
               | Stuck => Stuck
               end.
Proof. reflexivity. Qed.

Lemma run_bind_done {S A B} (m : K S A) (f : A -> K S B) s a s' :
  m s = Done (a, s') -> (m ≫= f) s = f a s'.
Proof. intros H. by rewrite run_bind, H. Qed.

Lemma run_ret {S A} (a : A) (s : S) : (mret a : K S A) s = Done (a, s).
Proof. reflexivity. Qed.

Lemma run_bind_assoc {S A B C} (m : K S A) (f : A -> K S B) (g : B -> K S C) s :
  ((m ≫= f) ≫= g) s = (m ≫= fun a => f a ≫= g) s.
Proof. rewrite !run_bind. destruct (m s) as [[a s']| | |]; reflexivity. Qed.

(** ** Loops *)

(** [kfor n i step body] is [n] rounds of a counting loop:
    [for (x = i; ...; x += step) body(x);]. *)
Fixpoint kfor {S} (n : nat) (i step : Z) (body : Z -> K S unit) : K S unit :=
  match n with
  | O => mret tt
  | S n' => body i ;; kfor n' (i + step) step body
  end.

(** [search n i body] is a counting loop that is left by a [return] in its
    body: the first [Some] a round yields. *)
Fixpoint search {A} (n : nat) (i : Z) (body : Z -> outcome (option A)) : outcome (option A) :=
  match n with
  | O => Done None
  | S n' =>
      match body i with
      | Done (Some a) => Done (Some a)
      | Done None => search n' (i + 1) body
      | Panic msg => Panic msg
      | Fault => Fault
      | Stuck => Stuck
      end
  end.

Lemma kfor_inv {S} (I : Z -> S -> Prop) n i step body (s : S) :
  I i s ->
  (forall k s', 0 <= k < Z.of_nat n -> I (i + k * step) s' ->
     exists s'', body (i + k * step) s' = Done (tt, s'') /\ I (i + (k + 1) * step) s'') ->
  exists s', kfor n i step body s = Done (tt, s') /\ I (i + Z.of_nat n * step) s'.
Proof.
  revert i s. induction n as [|n IH]; intros i s Hi Hb.
  - exists s. split; [reflexivity|]. by replace (i + Z.of_nat 0 * step) with i by lia.
  - destruct (Hb 0 s) as (s1 & E1 & H1); [lia|by replace (i + 0 * step) with i by lia|].
    replace (i + 0 * step) with i in E1 by lia.
    replace (i + (0 + 1) * step) with (i + step) in H1 by lia.
    destruct (IH (i + step) s1 H1) as (s2 & E2 & H2).
    { intros k s' Hk HI. destruct (Hb (k + 1) s') as (s'' & E & H'); [lia| |].
      - by replace (i + (k + 1) * step) with (i + step + k * step) by lia.
      - exists s''. replace (i + (k + 1) * step) with (i + step + k * step) in E by lia.
        replace (i + (k + 1 + 1) * step) with (i + step + (k + 1) * step) in H' by lia. done. }
    exists s2. split.
    + cbn [kfor]. by rewrite (run_bind_done _ _ _ _ _ E1).
    + by replace (i + Z.of_nat (Datatypes.S n) * step) with (i + step + Z.of_nat n * step) by lia.
Qed.

(** A search whose rounds all return runs to its end: it yields the value of
    the first round that has one, or [None] when no round has. *)
Lemma search_pure {A} n i (body : Z -> outcome (option A)) (f : Z -> option A) :
  (forall k, i <= k < i + Z.of_nat n -> body k = Done (f k)) ->
  exists r, search n i body = Done r /\
    match r with
    | Some a => exists k, i <= k < i + Z.of_nat n /\ f k = Some a /\
                  forall j, i <= j < k -> f j = None
    | None => forall k, i <= k < i + Z.of_nat n -> f k = None
    end.
Proof.
  revert i. induction n as [|n IH]; intros i Hb.
  - exists None. split; [reflexivity|]. intros k Hk. lia.
  - cbn [search]. rewrite (Hb i) by lia. destruct (f i) as [a|] eqn:Ei.
    + exists (Some a). split; [reflexivity|]. exists i. repeat split; [lia|lia|done|].
      intros j Hj. lia.
    + destruct (IH (i + 1)) as (r & Er & Hr); [intros k Hk; apply Hb; lia|].
      exists r. split; [exact Er|]. destruct r as [a|].
      * destruct Hr as (k & Hk & Hf & Hmin). exists k. repeat split; [lia|lia|done|].
        intros j Hj. destruct (decide (j = i)) as [->|]; [done|]. apply Hmin. lia.
      * intros k Hk. destruct (decide (k = i)) as [->|]; [done|]. apply Hr. lia.
Qed.

Lemma if_none {A} (c : bool) (x : A) : (if c then Some x else None) = None -> c = false.
Proof. by destruct c. Qed.

(** ** Counting *)

(** Number of positions below [n] at which [f] holds. *)
Fixpoint count_true (f : Z -> bool) (n : nat) : Z :=
  match n with
  | O => 0
  | S k => count_true f k + Z.b2z (f (Z.of_nat k))
  end.

Lemma count_true_range f n : 0 <= count_true f n <= Z.of_nat n.
Proof. induction n as [|n IH]; cbn [count_true]; [lia|]. destruct (f (Z.of_nat n)); cbn; lia. Qed.

Lemma count_true_ext f g n :
  (forall i, 0 <= i < Z.of_nat n -> f i = g i) -> count_true f n = count_true g n.
Proof.
  induction n as [|n IH]; intros H; cbn [count_true]; [done|].
  rewrite IH by (intros; apply H; lia). by rewrite (H (Z.of_nat n)) by lia.
Qed.

(** Changing one position changes the count by the difference there. *)
Lemma count_true_update f g n i :
  0 <= i < Z.of_nat n -> (forall j, 0 <= j < Z.of_nat n -> j <> i -> g j = f j) ->
  count_true g n = count_true f n - Z.b2z (f i) + Z.b2z (g i).
Proof.
  induction n as [|n IH]; intros Hi H; [lia|]. cbn [count_true].
  destruct (decide (i = Z.of_nat n)) as [->|Hne].
  - rewrite (count_true_ext g f n) by (intros j Hj; apply H; lia). lia.
  - rewrite IH by (lia || (intros j Hj Hji; apply H; lia)).
    rewrite (H (Z.of_nat n)) by lia. lia.
Qed.

Lemma count_true_zero f n : count_true f n = 0 <-> forall i, 0 <= i < Z.of_nat n -> f i = false.
Proof.
  induction n as [|n IH]; cbn [count_true].
  - split; [intros _ i Hi; lia|done].
  - pose proof (count_true_range f n). split.
    + intros E i Hi. destruct (f (Z.of_nat n)) eqn:Ef; cbn in E; [lia|].
      destruct (decide (i = Z.of_nat n)) as [->|]; [done|]. apply IH; lia.
    + intros Hall. rewrite (proj2 IH) by (intros; apply Hall; lia).
      by rewrite (Hall (Z.of_nat n)) by lia.
Qed.

Lemma count_true_full f n :
  count_true f n = Z.of_nat n <-> forall i, 0 <= i < Z.of_nat n -> f i = true.
Proof.
  induction n as [|n IH]; cbn [count_true].
  - split; [intros _ i Hi; lia|done].
  - pose proof (count_true_range f n). split.
    + intros E i Hi. destruct (f (Z.of_nat n)) eqn:Ef; cbn in E; [|lia].
      destruct (decide (i = Z.of_nat n)) as [->|]; [done|]. apply IH; lia.
    + intros Hall. rewrite (proj2 IH) by (intros; apply Hall; lia).
      rewrite (Hall (Z.of_nat n)) by lia. cbn. lia.
Qed.

Lemma search_true (f : Z -> bool) n :
  (exists j, 0 <= j < Z.of_nat n /\ f j = true) \/ (forall j, 0 <= j < Z.of_nat n -> f j = false).
Proof.
  induction n as [|n [(j & Hj & E)|IH]].
  - right. intros j Hj. lia.
  - left. exists j. split; [lia|done].
  - destruct (f (Z.of_nat n)) eqn:E.
    + left. exists (Z.of_nat n). split; [lia|done].
    + right. intros j Hj. destruct (decide (j = Z.of_nat n)) as [->|]; [done|]. apply IH. lia.
Qed.

(** ** Safety triples

    [triple P m Q]: run from a state in [P], [m] neither panics nor runs into
    undefined behaviour, and if it returns then in a state in [Q]. *)
Definition triple {S A} (P : S -> Prop) (m : K S A) (Q : A -> S -> Prop) : Prop :=
  forall s, P s ->
    match m s with
    | Done (a, s') => Q a s'
    | Stuck => True
    | Panic _ | Fault => False
    end.

Lemma triple_ret {S A} (P : S -> Prop) (Q : A -> S -> Prop) x :
  (forall s, P s -> Q x s) -> triple P (mret x) Q.
Proof. intros H s Hs. by apply H. Qed.

Lemma triple_bind {S A B} P Q (R : B -> S -> Prop) (m : K S A) f :
  triple P m Q -> (forall x, triple (Q x) (f x) R) -> triple P (m ≫= f) R.
Proof.
  intros Hm Hf s Hs. rewrite run_bind. specialize (Hm s Hs). destruct (m s) as [[x s']| | |]; try done.
  by apply Hf.
Qed.

Lemma triple_ret_bind {S A B} P (R : B -> S -> Prop) (x : A) f :
  triple P (f x) R -> triple P (mret x ≫= f) R.
Proof. done. Qed.

Lemma triple_conseq {S A} (P P' : S -> Prop) (Q Q' : A -> S -> Prop) m :
  triple P' m Q' -> (forall s, P s -> P' s) -> (forall x s, Q' x s -> Q x s) -> triple P m Q.
Proof.
  intros Hm HP HQ s Hs. specialize (Hm s (HP s Hs)). destruct (m s) as [[x s']| | |]; eauto.
Qed.

Lemma triple_when {S} (P : S -> Prop) Q b m :
  (b = true -> triple P m Q) -> (b = false -> forall s, P s -> Q tt s) -> triple P (kwhen b m) Q.
Proof. destruct b; cbn; intros H1 H2; [by apply H1|]. intros s Hs. by apply H2. Qed.

Lemma triple_stuck {S A} (P : S -> Prop) (Q : A -> S -> Prop) : triple P kstuck Q.
Proof. by intros s Hs. Qed.

Lemma triple_modify {S} (P : S -> Prop) (Q : unit -> S -> Prop) f :
  (forall s, P s -> Q tt (f s)) -> triple P (kmodify f) Q.
Proof. intros H s Hs. by apply H. Qed.

(** The value a read returns is known in the rest of the block. *)
Lemma triple_gets {S A B} (P : S -> Prop) (g : S -> A) (f : A -> K S B) Q :
  (forall x, triple (fun s => P s /\ g s = x) (f x) Q) -> triple P (kgets g ≫= f) Q.
Proof. intros H s Hs. rewrite run_bind. by apply H. Qed.

(** ** Symbolic execution

    [krun] unfolds the monad's own operations, so that the run of a block of
    statements becomes a cascade of matches on the calls it makes. *)
Ltac krun :=
  cbv [mbind K_bind mret K_ret outcome_bind outcome_ret kget kgets kput kmodify kread kwhen
       kpanic kfault kstuck kzoom].
Tactic Notation "krun" "in" hyp(H) :=
  cbv [mbind K_bind mret K_ret outcome_bind outcome_ret kget kgets kput kmodify kread kwhen
       kpanic kfault kstuck kzoom] in H.
