(* ===== verification/Words.v ===== *)
(** * Machine integers of the i686 target

    Integers are [Z]; the width is written out where the code stores, shifts
    or wraps them.  [size_t], [uintptr_t], [unsigned long] and [uint32_t] are
    32 bits wide on i686, [int] and [long] are 32-bit two's complement, [char]
    is a signed byte.  The file holds the conversions, the bit lemmas the
    bitmap and paging files share, and the [words] hint database. *)
From S2P Require Import Prelude.
From Stdlib Require Import ZArith Lia Bool.
From stdpp Require Import base list numbers.
#[local] Open Scope Z_scope.

Create HintDb words.

(** Conversion to an unsigned type of [w] bits. *)
Definition wrap (w z : Z) : Z := z mod 2 ^ w.
Definition u8 (z : Z) : Z := wrap 8 z.
Definition u16 (z : Z) : Z := wrap 16 z.
Definition u32 (z : Z) : Z := wrap 32 z.
Definition u64 (z : Z) : Z := wrap 64 z.

(** Conversion to a signed type of [w] bits (implementation-defined in C++
    before C++20, two's complement from C++20 on). *)
Definition swrap (w z : Z) : Z :=
  let m := z mod 2 ^ w in if m <? 2 ^ (w - 1) then m else m - 2 ^ w.
Definition s8 (z : Z) : Z := swrap 8 z.
Definition s32 (z : Z) : Z := swrap 32 z.

Definition SIZE_MAX : Z := 2 ^ 32 - 1.
Definition INT_MAX : Z := 2 ^ 31 - 1.
Definition INT_MIN : Z := - 2 ^ 31.

(** The value of an [int] expression: overflow is undefined. *)
Definition int_ok (z : Z) : outcome Z :=
  if (INT_MIN <=? z) && (z <=? INT_MAX) then Done z else Fault.

Definition in_u32 (z : Z) : Prop := 0 <= z < 2 ^ 32.

Ltac unfold_words :=
  unfold u8, u16, u32, u64, s8, s32, wrap, swrap, SIZE_MAX, INT_MAX, INT_MIN, in_u32 in *.

Lemma wrap_range w z : 0 <= w -> 0 <= wrap w z < 2 ^ w.
Proof. intros. apply Z.mod_pos_bound. by apply Z.pow_pos_nonneg. Qed.

Lemma wrap_small w z : 0 <= z < 2 ^ w -> wrap w z = z.
Proof. apply Z.mod_small. Qed.

Lemma wrap_wrap w z : wrap w (wrap w z) = wrap w z.
Proof.
  unfold wrap. destruct (decide (2 ^ w = 0)) as [E|E].
  - rewrite E. by rewrite !Z.mod_0_r.
  - by rewrite Z.mod_mod.
Qed.

Lemma u32_range z : in_u32 (u32 z).
Proof. apply (wrap_range 32). lia. Qed.

Lemma u32_small z : in_u32 z -> u32 z = z.
Proof. apply (wrap_small 32). Qed.

Lemma u8_range z : 0 <= u8 z < 256.
Proof. apply (wrap_range 8). lia. Qed.

Lemma u8_small z : 0 <= z < 256 -> u8 z = z.
Proof. apply (wrap_small 8). Qed.

Lemma u64_range z : 0 <= u64 z < 2 ^ 64.
Proof. apply (wrap_range 64). lia. Qed.

Lemma s32_small z : INT_MIN <= z <= INT_MAX -> s32 z = z.
Proof.
  unfold_words. intros H. change (2 ^ (32 - 1)) with (2 ^ 31).
  destruct (decide (0 <= z)).
  - rewrite Z.mod_small by lia. destruct (Z.ltb_spec z (2 ^ 31)); lia.
  - replace (z mod 2 ^ 32) with (z + 2 ^ 32)
      by (apply Z.mod_unique with (-1); lia).
    destruct (Z.ltb_spec (z + 2 ^ 32) (2 ^ 31)); lia.
Qed.

Lemma int_ok_done z : INT_MIN <= z <= INT_MAX -> int_ok z = Done z.
Proof.
  intros H. unfold int_ok.
  destruct (Z.leb_spec INT_MIN z), (Z.leb_spec z INT_MAX); simpl; [done|lia..].
Qed.

#[export] Hint Resolve u32_range u8_range u64_range : words.
#[export] Hint Rewrite u32_small u8_small s32_small using (unfold_words; lia) : words.

(** ** Bits *)

Lemma testbit_above w z i : 0 <= z < 2 ^ w -> 0 <= w <= i -> Z.testbit z i = false.
Proof.
  intros Hz Hi. rewrite <- (Z.mod_small z (2 ^ w)) by lia.
  apply Z.mod_pow2_bits_high. lia.
Qed.

Lemma wrap_testbit w z i : 0 <= w -> 0 <= i ->
  Z.testbit (wrap w z) i = (i <? w) && Z.testbit z i.
Proof.
  intros Hw Hi. unfold wrap. destruct (Z.ltb_spec i w).
  - by rewrite Z.mod_pow2_bits_low by lia.
  - by rewrite Z.mod_pow2_bits_high by lia.
Qed.

Lemma testbit_one_shl o i : 0 <= o -> 0 <= i -> Z.testbit (Z.shiftl 1 o) i = (i =? o).
Proof.
  intros Ho Hi. rewrite Z.shiftl_spec by lia. destruct (Z.eqb_spec i o) as [->|Hn].
  - by rewrite Z.sub_diag.
  - destruct (decide (i < o)).
    + by rewrite Z.testbit_neg_r by lia.
    + replace 1 with (2 ^ 0) by done. apply Z.pow2_bits_false. lia.
Qed.

Lemma land1_testbit z : Z.land z 1 = Z.b2z (Z.testbit z 0).
Proof.
  change 1 with (Z.ones 1). rewrite Z.land_ones by lia.
  rewrite Z.testbit_spec' by lia. by rewrite Z.div_1_r.
Qed.

Lemma bits_range w z : 0 <= w -> 0 <= z -> (forall i, w <= i -> Z.testbit z i = false) -> z < 2 ^ w.
Proof.
  intros Hw Hz Hb. destruct (decide (z = 0)) as [->|Hn]; [by apply Z.pow_pos_nonneg|].
  apply Z.log2_lt_pow2; [lia|]. destruct (decide (Z.log2 z < w)); [done|].
  exfalso. specialize (Hb (Z.log2 z) ltac:(lia)).
  rewrite Z.bit_log2 in Hb by lia. done.
Qed.

(** [x & ((1 << n) - 1)] is zero exactly when the low [n] bits are clear. *)
Lemma land_ones_zero x n : 0 <= n ->
  Z.land x (Z.ones n) = 0 <-> forall k, 0 <= k < n -> Z.testbit x k = false.
Proof.
  intros Hn. split.
  - intros H k Hk. assert (Hb : Z.testbit (Z.land x (Z.ones n)) k = false)
      by by rewrite H, Z.testbit_0_l.
    rewrite Z.land_spec, Z.ones_spec_low, andb_true_r in Hb by lia. done.
  - intros H. apply Z.bits_inj'. intros k Hk. rewrite Z.land_spec, Z.testbit_0_l.
    destruct (decide (k < n)).
    + by rewrite H by lia.
    + rewrite Z.ones_spec_high by lia. apply andb_false_r.
Qed.

(** [x & (1 << i)] as a condition. *)
Lemma land_pow2 x i : 0 <= i -> (Z.land x (2 ^ i) =? 0) = negb (Z.testbit x i).
Proof.
  intros Hi. assert (H : forall k, 0 <= k -> Z.testbit (Z.land x (2 ^ i)) k = Z.testbit x k && (k =? i)).
  { intros k Hk. rewrite Z.land_spec. f_equal. rewrite <- (Z.shiftl_1_l i). by apply testbit_one_shl. }
  destruct (Z.eqb_spec (Z.land x (2 ^ i)) 0) as [E|E].
  - specialize (H i Hi). rewrite E, Z.testbit_0_l, Z.eqb_refl, andb_true_r in H. by rewrite <- H.
  - destruct (Z.testbit x i) eqn:Eb; [done|]. exfalso. apply E. apply Z.bits_inj'. intros k Hk.
    rewrite H, Z.testbit_0_l by done. destruct (Z.eqb_spec k i) as [->|]; [by rewrite Eb|apply andb_false_r].
Qed.
