(* ===== verification/PageTypes.v ===== *)
(** * Pages and addresses (Arch/i686/Memory/Types.h, Functions.h, Address.hpp, Arch/Memory.hpp)

    Bit-fields as lists of widths, packed from the least significant bit up, and
    with them the entries of page tables and directories and the two views of
    an address; page alignment. *)
From S2P Require Import Prelude Words.
From Stdlib Require Import ZArith Lia Bool.
From stdpp Require Import base strings numbers list.
#[local] Open Scope Z_scope.

(** ** Bit-fields *)
Module Bitfield.

Fixpoint pack (ws vs : list Z) : Z :=
  match ws, vs with
  | w :: ws', v :: vs' => v mod 2 ^ w + 2 ^ w * pack ws' vs'
  | _, _ => 0
  end.
Fixpoint unpack (ws : list Z) (x : Z) : list Z :=
  match ws with [] => [] | w :: ws' => x mod 2 ^ w :: unpack ws' (x / 2 ^ w) end.

Definition widths_ok (ws : list Z) : Prop := Forall (fun w => 0 <= w) ws.
(** Every value fits its field. *)
Definition fits (ws vs : list Z) : Prop := Forall2 (fun w v => 0 <= v < 2 ^ w) ws vs.

Lemma unpack_pack ws vs : widths_ok ws -> fits ws vs -> unpack ws (pack ws vs) = vs.
Proof.
  intros Hw Hf. induction Hf as [|w v ws vs Hv Hf IH]; [done|]. apply Forall_cons in Hw as [Hw0 Hw].
  cbn. assert (0 < 2 ^ w) by (by apply Z.pow_pos_nonneg).
  replace (v mod 2 ^ w + 2 ^ w * pack ws vs) with (v mod 2 ^ w + pack ws vs * 2 ^ w) by lia.
  rewrite Z.mod_add, Z.div_add by lia. rewrite Z.mod_mod by lia. rewrite Z.mod_small by done.
  rewrite Z.div_small by done. rewrite Z.add_0_l. f_equal. by apply IH.
Qed.

Lemma pack_unpack ws x : widths_ok ws -> 0 <= x < 2 ^ (foldr Z.add 0 ws) -> pack ws (unpack ws x) = x.
Proof.
  revert x. induction ws as [|w ws IH]; intros x Hw Hx; cbn in *; [lia|].
  apply Forall_cons in Hw as [Hw0 Hw].
  assert (Hp : 0 < 2 ^ w) by (by apply Z.pow_pos_nonneg).
  assert (Hs : 0 <= foldr Z.add 0 ws).
  { clear -Hw. induction ws as [|v ws IH]; cbn; [lia|]. apply Forall_cons in Hw as [Hv Hw]. specialize (IH Hw). lia. }
  rewrite Z.pow_add_r in Hx by lia. rewrite Z.mod_mod by lia. rewrite IH; [|done|].
  - pose proof (Z.div_mod x (2 ^ w)). lia.
  - split; [apply Z.div_pos; lia|]. apply Z.div_lt_upper_bound; lia.
Qed.

Lemma unpack_fits ws x : widths_ok ws -> fits ws (unpack ws x).
Proof.
  revert x. induction ws as [|w ws IH]; intros x Hw; [constructor|].
  apply Forall_cons in Hw as [Hw0 Hw]. constructor; [|by apply IH].
  apply Z.mod_pos_bound. by apply Z.pow_pos_nonneg.
Qed.

Lemma pack_range ws vs : widths_ok ws -> 0 <= pack ws vs < 2 ^ (foldr Z.add 0 ws).
Proof.
  revert vs. induction ws as [|w ws IH]; intros vs Hw; cbn; [lia|]. apply Forall_cons in Hw as [Hw0 Hw].
  assert (Hs : 0 <= foldr Z.add 0 ws).
  { clear -Hw. induction ws as [|v ws IH]; cbn; [lia|]. apply Forall_cons in Hw as [Hv Hw]. specialize (IH Hw). lia. }
  rewrite Z.pow_add_r by lia. assert (Hp : 0 < 2 ^ w) by (by apply Z.pow_pos_nonneg).
  destruct vs as [|v vs].
  - split; [lia|]. apply Z.mul_pos_pos; [lia|]. apply Z.pow_pos_nonneg; lia.
  - specialize (IH vs Hw). pose proof (Z.mod_pos_bound v (2 ^ w) Hp). nia.
Qed.

(** *** The last field *)
Definition total (ws : list Z) : Z := foldr Z.add 0 ws.
Lemma total_pos ws : widths_ok ws -> 0 <= total ws.
Proof. induction 1 as [|w ws Hw _ IH]; cbn; [lia|]. unfold total in IH. lia. Qed.

Lemma pack_unpack_mod ws x : widths_ok ws -> pack ws (unpack ws x) = x mod 2 ^ total ws.
Proof.
  intros Hw. revert x. induction Hw as [|w ws Hw0 Hw IH]; intros x; cbn [pack unpack total foldr]; [by rewrite Z.mod_1_r|].
  pose proof (total_pos ws Hw) as Hs. fold (total ws). rewrite IH, Z.mod_mod by (apply Z.pow_nonzero; lia).
  rewrite Z.pow_add_r by lia. rewrite Z.rem_mul_r; [done|apply Z.pow_nonzero; lia|apply Z.pow_pos_nonneg; lia].
Qed.
Lemma pack_last ws vs w v : widths_ok ws -> length vs = length ws ->
  pack (ws ++ [w]) (vs ++ [v]) = pack ws vs + 2 ^ total ws * (v mod 2 ^ w).
Proof.
  intros Hw. revert vs. induction Hw as [|w0 ws Hw0 Hw IH]; intros [|v0 vs] Hl; try discriminate Hl; cbn [app pack total foldr].
  - rewrite Z.pow_0_r. lia.
  - injection Hl as Hl. rewrite IH by done. fold (total ws). rewrite Z.pow_add_r by (lia || by apply total_pos). lia.
Qed.
Lemma unpack_length ws x : length (unpack ws x) = length ws.
Proof. revert x. induction ws as [|w ws IH]; intros x; cbn; [done|]. by rewrite IH. Qed.
End Bitfield.
Export Bitfield.

(** ** Control registers (regs.hpp) *)
Module Registers.

Record CR0 := mkCR0 {
  protectedMode : Z; monitorCoProcessor : Z; emulation : Z; taskSwitched : Z; extensionType : Z; numericError : Z;
  reservedA : Z; writeProtection : Z; reservedB : Z; alignmentMask : Z; reservedC : Z; nonWriteThrough : Z;
  cacheDisable : Z; pagingEnable : Z;
}.
Definition CR0_widths : list Z := [1; 1; 1; 1; 1; 1; 10; 1; 1; 1; 10; 1; 1; 1].
Definition CR0_fields (c : CR0) : list Z :=
  [protectedMode c; monitorCoProcessor c; emulation c; taskSwitched c; extensionType c; numericError c;
   reservedA c; writeProtection c; reservedB c; alignmentMask c; reservedC c; nonWriteThrough c; cacheDisable c; pagingEnable c].
(** The register as the processor has it, and back. *)
Definition CR0_word (c : CR0) : Z := pack CR0_widths (CR0_fields c).
Definition word_CR0 (x : Z) : CR0 :=
  match unpack CR0_widths x with
  | [a; b; c; d; e; f; g; h; i; j; k; l; m; n] => mkCR0 a b c d e f g h i j k l m n
  | _ => mkCR0 0 0 0 0 0 0 0 0 0 0 0 0 0 0
  end.
(** [cr0.pagingEnable = v]. *)
Definition set_pagingEnable (v : Z) (c : CR0) : CR0 :=
  mkCR0 (protectedMode c) (monitorCoProcessor c) (emulation c) (taskSwitched c) (extensionType c) (numericError c)
    (reservedA c) (writeProtection c) (reservedB c) (alignmentMask c) (reservedC c) (nonWriteThrough c) (cacheDisable c) (v mod 2).

(** The assignment changes bit 31 and no other. *)
Lemma set_pagingEnable_word v x : CR0_word (set_pagingEnable v (word_CR0 x)) = x mod 2 ^ 31 + 2 ^ 31 * (v mod 2).
Proof.
  set (ws := [1; 1; 1; 1; 1; 1; 10; 1; 1; 1; 10; 1; 1]).
  assert (Hw : widths_ok ws) by by repeat constructor.
  assert (E : CR0_fields (set_pagingEnable v (word_CR0 x)) = unpack ws x ++ [v mod 2]) by reflexivity.
  unfold CR0_word. rewrite E. change CR0_widths with (ws ++ [1]). rewrite pack_last by (done || apply unpack_length).
  rewrite pack_unpack_mod by done. change (total ws) with 31. change (2 ^ 1) with 2. by rewrite Z.mod_mod by lia.
Qed.

End Registers.

(** ** Constants *)
Definition ARCH_PAGE_DIR_ENTRIES : Z := 1024.
Definition ARCH_PAGE_TABLE_ENTRIES : Z := 1024.
Definition ARCH_PAGE_SIZE : Z := 4096.
Definition ARCH_PAGE_ALIGN : Z := 0xFFFFF000.
Definition ARCH_PAGE_DIR_ENTRY_SHIFT : Z := 22.
Definition ARCH_PAGE_TABLE_ENTRY_SHIFT : Z := 12.
Definition ARCH_DIR_ALIGN (x : Z) : Z := Z.land x 0xFFC00000.
Definition ARCH_DIR_ALIGN_UP (x : Z) : Z := Z.land (u32 (x + (0x00400000 - 1))) 0xFFC00000.

Definition ADDRESS_SPACE_SIZE : Z := 0x100000000.
Definition MEM_BITMAP_SIZE : Z := ADDRESS_SPACE_SIZE / ARCH_PAGE_SIZE.
Definition PAGE_IDX_TO_ADDRESS (idx : Z) : Z := u32 (idx * ARCH_PAGE_SIZE).
Definition ADDRESS_TO_PAGE_IDX (addr : Z) : Z := addr / ARCH_PAGE_SIZE.
Definition B_TO_PAGES (bytes : Z) : Z := u32 (bytes + ARCH_PAGE_SIZE - 1) / ARCH_PAGE_SIZE.
(** The pages [newPage] and [freePage] take for a size in bytes. *)
Definition PAGE_COUNT (s : Z) : Z := s / ARCH_PAGE_SIZE + 1.
Definition B_TO_MB (b : Z) : Z := b / 1024 / 1024.

(** ** Entries of page tables *)
Record TableEntry := mkTableEntry {
  present : Z; readWrite : Z; usermode : Z; writeThrough : Z; cacheDisable : Z; accessed : Z;
  dirty : Z; pageAttrTable : Z; global : Z; unused : Z; pageAddr : Z;
}.
Definition table_entry_widths : list Z := [1; 1; 1; 1; 1; 1; 1; 1; 1; 3; 20].
Definition table_entry_fields (e : TableEntry) : list Z :=
  [present e; readWrite e; usermode e; writeThrough e; cacheDisable e; accessed e;
   dirty e; pageAttrTable e; global e; unused e; pageAddr e].
(** The entry as the processor sees it, and back. *)
Definition table_entry_word (e : TableEntry) : Z := pack table_entry_widths (table_entry_fields e).
Definition word_table_entry (x : Z) : TableEntry :=
  match unpack table_entry_widths x with
  | [a; b; c; d; e; f; g; h; i; j; k] => mkTableEntry a b c d e f g h i j k
  | _ => mkTableEntry 0 0 0 0 0 0 0 0 0 0 0
  end.
(** All of the bytes are zero. *)
Definition zero_entry : TableEntry := mkTableEntry 0 0 0 0 0 0 0 0 0 0 0.
Definition getPhysicalAddress (e : TableEntry) : Z := u32 (pageAddr e * ARCH_PAGE_SIZE).

Record DirectoryEntry := mkDirectoryEntry {
  d_present : Z; d_readWrite : Z; d_usermode : Z; d_writeThrough : Z; d_cacheDisable : Z; d_accessed : Z;
  d_ignoredA : Z; d_size : Z; d_ignoredB : Z; d_tableAddr : Z;
}.
Definition directory_entry_widths : list Z := [1; 1; 1; 1; 1; 1; 1; 1; 4; 20].
Definition directory_entry_fields (e : DirectoryEntry) : list Z :=
  [d_present e; d_readWrite e; d_usermode e; d_writeThrough e; d_cacheDisable e; d_accessed e;
   d_ignoredA e; d_size e; d_ignoredB e; d_tableAddr e].
Definition directory_entry_word (e : DirectoryEntry) : Z := pack directory_entry_widths (directory_entry_fields e).
Definition word_directory_entry (x : Z) : DirectoryEntry :=
  match unpack directory_entry_widths x with
  | [a; b; c; d; e; f; g; h; i; j] => mkDirectoryEntry a b c d e f g h i j
  | _ => mkDirectoryEntry 0 0 0 0 0 0 0 0 0 0
  end.

(** ** The views of an address (class Address) *)
Record VirtualAddress := mkVirtualAddress { offset : Z; tableIndex : Z; dirIndex : Z }.
Record Page := mkPage { p_offset : Z; p_pageAddr : Z }.
Definition vaddr_widths : list Z := [12; 10; 10].
Definition page_widths : list Z := [12; 20].

(** [Address(addr).virtualAddress()] and [Address(vaddr).val()], and likewise
    for [page()]. *)
Definition virtualAddress (addr : Z) : VirtualAddress :=
  match unpack vaddr_widths addr with [o; t; d] => mkVirtualAddress o t d | _ => mkVirtualAddress 0 0 0 end.
Definition address_of_vaddr (v : VirtualAddress) : Z := pack vaddr_widths [offset v; tableIndex v; dirIndex v].
Definition page (addr : Z) : Page :=
  match unpack page_widths addr with [o; p] => mkPage o p | _ => mkPage 0 0 end.
Definition address_of_page (p : Page) : Z := pack page_widths [p_offset p; p_pageAddr p].
Definition address_add (addr val : Z) : Z := u32 (addr + val).
Definition address_sub (addr val : Z) : Z := u32 (addr - val).

(** ** Alignment (Functions.h) *)
Definition pageAlign (addr : Z) : Z := Z.land addr ARCH_PAGE_ALIGN.
Definition pageAlignUp (addr : Z) : Z :=
  Z.land (u32 (addr + (2 ^ 32 - 1 - ARCH_PAGE_ALIGN))) ARCH_PAGE_ALIGN.
Definition pageIsAligned (addr : Z) : bool := addr mod ARCH_PAGE_SIZE =? 0.

(** ** Lemmas *)

Lemma fits_table_entry e : fits table_entry_widths (table_entry_fields e) -> word_table_entry (table_entry_word e) = e.
Proof.
  intros Hf. unfold word_table_entry, table_entry_word. rewrite unpack_pack; [by destruct e| |done].
  by repeat constructor.
Qed.
Lemma word_table_entry_word x : in_u32 x -> table_entry_word (word_table_entry x) = x.
Proof.
  intros Hx. unfold table_entry_word. rewrite <- (pack_unpack table_entry_widths x) at 2; [|by repeat constructor|done].
  done.
Qed.
Lemma word_directory_entry_word x : in_u32 x -> directory_entry_word (word_directory_entry x) = x.
Proof.
  intros Hx. unfold directory_entry_word.
  rewrite <- (pack_unpack directory_entry_widths x) at 2; [|by repeat constructor|done]. done.
Qed.
Lemma fits_directory_entry e : fits directory_entry_widths (directory_entry_fields e) ->
  word_directory_entry (directory_entry_word e) = e.
Proof.
  intros Hf. unfold word_directory_entry, directory_entry_word. rewrite unpack_pack; [by destruct e| |done].
  by repeat constructor.
Qed.

Lemma virtualAddress_eq addr : in_u32 addr ->
  virtualAddress addr = mkVirtualAddress (addr mod 4096) (addr / 4096 mod 1024) (addr / 4194304).
Proof.
  intros Ha. unfold virtualAddress, vaddr_widths. cbn [unpack].
  change (2 ^ 12) with 4096. change (2 ^ 10) with 1024. rewrite Z.div_div by lia.
  change (4096 * 1024) with 4194304. f_equal. apply Z.mod_small. unfold in_u32 in Ha.
  split; [apply Z.div_pos; lia|]. apply Z.div_lt_upper_bound; lia.
Qed.
Lemma page_eq addr : in_u32 addr -> page addr = mkPage (addr mod 4096) (addr / 4096).
Proof.
  intros Ha. unfold page, page_widths. cbn [unpack]. change (2 ^ 12) with 4096. f_equal.
  apply Z.mod_small. unfold in_u32 in Ha. split; [apply Z.div_pos; lia|]. apply Z.div_lt_upper_bound; lia.
Qed.

(** The mask clears the low twelve bits. *)
Lemma pageAlign_eq a : in_u32 a -> pageAlign a = a / 4096 * 4096.
Proof.
  intros Ha. unfold pageAlign, ARCH_PAGE_ALIGN. change 0xFFFFF000 with (Z.shiftl (Z.ones 20) 12).
  change 4096 with (2 ^ 12). rewrite <- Z.shiftr_div_pow2, <- Z.shiftl_mul_pow2 by lia.
  apply Z.bits_inj'. intros i Hi. rewrite Z.land_spec.
  destruct (decide (i < 12)) as [Hlt|Hge].
  - rewrite !Z.shiftl_spec_low by lia. by rewrite andb_false_r.
  - rewrite !Z.shiftl_spec_high by lia. rewrite Z.shiftr_spec by lia. replace (i - 12 + 12) with i by lia.
    destruct (decide (i < 32)) as [Hl|Hl].
    + rewrite Z.ones_spec_low by lia. by rewrite andb_true_r.
    + rewrite (testbit_above 32) by (done || lia). done.
Qed.

Lemma pageAlignUp_eq a : in_u32 a -> pageAlignUp a = u32 (a + 4095) / 4096 * 4096.
Proof. intros Ha. unfold pageAlignUp. apply (pageAlign_eq (u32 _)), u32_range. Qed.

(** ** Theorems *)

(** The bit-fields the processor reads are what the structures say: an
    entry of a page table or directory whose members fit their fields survives
    being stored and loaded, and any 32-bit word survives being taken apart
    (also as an address, in its two views). *)
Theorem paging_structures_roundtrip x e d : in_u32 x ->
  fits table_entry_widths (table_entry_fields e) -> fits directory_entry_widths (directory_entry_fields d) ->
  table_entry_word (word_table_entry x) = x /\ word_table_entry (table_entry_word e) = e /\
  directory_entry_word (word_directory_entry x) = x /\ word_directory_entry (directory_entry_word d) = d /\
  address_of_vaddr (virtualAddress x) = x /\ address_of_page (page x) = x /\
  in_u32 (table_entry_word e) /\ in_u32 (directory_entry_word d).
Proof.
  intros Hx He Hd.
  split; [by apply word_table_entry_word|]. split; [by apply fits_table_entry|].
  split; [by apply word_directory_entry_word|]. split; [by apply fits_directory_entry|].
  unfold address_of_vaddr, virtualAddress, address_of_page, page.
  split; [by apply (pack_unpack vaddr_widths); [repeat constructor|]|].
  split; [by apply (pack_unpack page_widths); [repeat constructor|]|].
  split; [apply (pack_range table_entry_widths)|apply (pack_range directory_entry_widths)]; by repeat constructor.
Qed.

Lemma paging_structures_roundtrip_witness :
  table_entry_word (word_table_entry 0x00123027) = 0x00123027 /\
  address_of_vaddr (virtualAddress 0xC0123ABC) = 0xC0123ABC.
Proof.
  assert (Hx : in_u32 0x00123027) by (unfold in_u32; lia).
  assert (Hy : in_u32 0xC0123ABC) by (unfold in_u32; lia).
  assert (He : fits table_entry_widths (table_entry_fields zero_entry))
    by (repeat (constructor; [cbn; lia|]); constructor).
  set (d := mkDirectoryEntry 1 1 0 0 0 0 0 0 0 0x123).
  assert (Hd : fits directory_entry_widths (directory_entry_fields d))
    by (repeat (constructor; [cbn; lia|]); constructor).
  destruct (paging_structures_roundtrip _ _ _ Hx He Hd) as (E & _).
  destruct (paging_structures_roundtrip _ _ _ Hy He Hd) as (_ & _ & _ & _ & E' & _).
  split; [exact E|exact E'].
Defined.

(** [pageAlign] is the start of the page an address is in, [pageAlignUp]
    the first page start at or after it unless there is none below 4 GiB, and
    both leave aligned addresses alone. *)
Theorem page_alignment a : in_u32 a ->
  pageIsAligned (pageAlign a) = true /\ pageAlign a <= a < pageAlign a + ARCH_PAGE_SIZE /\
  pageIsAligned (pageAlignUp a) = true /\
  (a <= 2 ^ 32 - ARCH_PAGE_SIZE -> a <= pageAlignUp a < a + ARCH_PAGE_SIZE) /\
  (2 ^ 32 - ARCH_PAGE_SIZE < a -> pageAlignUp a = 0) /\
  (pageIsAligned a = true -> pageAlign a = a /\ pageAlignUp a = a).
Proof.
  intros Ha. rewrite pageAlign_eq, pageAlignUp_eq by done. unfold pageIsAligned, ARCH_PAGE_SIZE, in_u32 in *.
  assert (Hm : forall b, b / 4096 * 4096 mod 4096 = 0) by (intros b; apply Z.mod_mul; lia).
  rewrite !Hm. pose proof (Z.div_mod a 4096). pose proof (Z.mod_pos_bound a 4096).
  split; [done|]. split; [lia|]. split; [done|]. split; [|split].
  - intros Hle. rewrite u32_small by (unfold in_u32; lia).
    pose proof (Z.div_mod (a + 4095) 4096). pose proof (Z.mod_pos_bound (a + 4095) 4096). lia.
  - intros Hgt. replace (u32 (a + 4095)) with (a + 4095 - 2 ^ 32).
    + rewrite Z.div_small by lia. done.
    + unfold_words. rewrite <- (Z.mod_small (a + 4095 - 2 ^ 32) (2 ^ 32)) by lia.
      replace (a + 4095) with (a + 4095 - 2 ^ 32 + 1 * 2 ^ 32) at 2 by lia. by rewrite Z.mod_add by lia.
  - intros Hal%Z.eqb_eq. assert (Hdiv : a / 4096 * 4096 = a) by lia. split; [done|].
    rewrite u32_small by (unfold in_u32; lia).
    replace (a + 4095) with (a / 4096 * 4096 + 4095) by lia. rewrite Z.div_add_l by lia.
    rewrite (Z.div_small 4095) by lia. lia.
Qed.

Lemma page_alignment_witness : pageAlign 0xC0123ABC = 0xC0123000 /\ pageAlignUp 0xC0123000 = 0xC0123000.
Proof.
  assert (Hx : in_u32 0xC0123ABC) by (unfold in_u32; lia).
  assert (Hy : in_u32 0xC0123000) by (unfold in_u32; lia).
  destruct (page_alignment _ Hx) as (H1 & H2 & _).
  destruct (page_alignment _ Hy) as (_ & _ & _ & _ & _ & H3).
  split; [reflexivity|]. apply H3. reflexivity.
Defined.
