(* ===== verification/Rand.v ===== *)
(** * Pseudo random numbers (Library/rand.cpp)

    The linear congruential generator and its period. *)
From S2P Require Import Prelude Words.
From Stdlib Require Import ZArith Lia Bool.
From stdpp Require Import base numbers list.
#[local] Open Scope Z_scope.

Definition MAX_RAND : Z := 32767.

(** The state is [_seedrand], an [unsigned long] of 32 bits, at first 1. *)
Definition _seedrand : Z := 1.
Definition advance (seed : Z) : Z := u32 (seed * 214013 + 2531011).
Definition rand : K Z Z :=
  kmodify advance ;;
  seed ← kget ;
  mret (Z.land (Z.shiftr seed 16) MAX_RAND).
Definition srand (seed : Z) : K Z unit := kput seed.

(** ** Steps as affine maps modulo 2^32 *)
Definition affine (p : Z * Z) (x : Z) : Z := u32 (p.1 * x + p.2).
Definition twice (p : Z * Z) : Z * Z := (u32 (p.1 * p.1), u32 (p.1 * p.2 + p.2)).
(** [2^j] steps. *)
Definition steps (j : nat) : Z * Z := Nat.iter j twice (214013, 2531011).

Lemma affine_twice p x : affine (twice p) x = affine p (affine p x).
Proof.
  destruct p as [a c]. unfold affine, twice, u32, wrap. cbn [fst snd].
  rewrite (Z.mod_eq (a * a)), (Z.mod_eq (a * c + c)), (Z.mod_eq (a * x + c) (2 ^ 32)) by lia.
  set (q1 := a * a / _). set (q2 := (a * c + c) / _). set (q3 := (a * x + c) / _).
  rewrite <- (Z.mod_add (a * (a * x + c - 2 ^ 32 * q3) + c) (a * q3 - q1 * x - q2)) by lia. f_equal. ring.
Qed.

Lemma iter_add {A} (f : A -> A) n m x : Nat.iter (n + m) f x = Nat.iter n f (Nat.iter m f x).
Proof. apply Nat.iter_add. Qed.

Lemma steps_run j x : in_u32 x -> Nat.iter (2 ^ j) advance x = affine (steps j) x.
Proof.
  intros Hx. revert x Hx. induction j as [|j IH]; intros x Hx.
  - cbn. unfold advance, affine. cbn [fst snd]. f_equal. lia.
  - rewrite Nat.pow_succ_r', Nat.mul_succ_l, Nat.mul_1_l, iter_add, (IH x Hx).
    rewrite IH by apply u32_range. change (steps (S j)) with (twice (steps j)). by rewrite affine_twice.
Qed.

(** Up to bit [j], [2^j] steps add [2^j]. *)
Lemma steps_bits : Forall (fun j : nat => (steps j).1 mod 2 ^ (Z.of_nat j + 1) = 1 /\ (steps j).2 mod 2 ^ (Z.of_nat j + 1) = 2 ^ Z.of_nat j) (seq 0 32).
Proof. by apply (bool_decide_unpack _); vm_compute. Qed.

Lemma iter_range n x : in_u32 x -> in_u32 (Nat.iter n advance x).
Proof. intros Hx. destruct n as [|n]; [done|]. apply u32_range. Qed.

Lemma steps_mod (j : nat) x : (j < 32)%nat -> in_u32 x ->
  Nat.iter (2 ^ j) advance x mod 2 ^ (Z.of_nat j + 1) = (x + 2 ^ Z.of_nat j) mod 2 ^ (Z.of_nat j + 1).
Proof.
  intros Hj Hx. rewrite steps_run by done. pose proof steps_bits as Hb. rewrite Forall_forall in Hb.
  destruct (Hb j) as [Ha Hc]; [apply elem_of_seq; lia|]. unfold affine, u32, wrap.
  assert (Hp : 0 < 2 ^ (Z.of_nat j + 1)) by (apply Z.pow_pos_nonneg; lia).
  assert (Hd : (2 ^ (Z.of_nat j + 1) | 2 ^ 32)).
  { exists (2 ^ (32 - (Z.of_nat j + 1))). rewrite <- Z.pow_add_r by lia. f_equal. lia. }
  rewrite Z.mod_mod_divide by done.
  rewrite Z.add_mod, Z.mul_mod, Ha, Hc by lia. rewrite Z.mul_1_l, Z.mod_mod, Z.add_mod_idemp_l by lia. done.
Qed.

(** [2^32] steps lead back. *)
Lemma steps_full x : in_u32 x -> Nat.iter (2 ^ 32) advance x = x.
Proof.
  intros Hx. rewrite steps_run by done. assert (E : steps 32 = (1, 0)) by (vm_compute; reflexivity). rewrite E.
  unfold affine. cbn [fst snd]. rewrite Z.mul_1_l, Z.add_0_r. by apply u32_small.
Qed.

Lemma pow2_divide (j k : nat) : (j <= k)%nat -> (2 ^ Z.of_nat j | 2 ^ Z.of_nat k).
Proof. intros H. exists (2 ^ (Z.of_nat k - Z.of_nat j)). rewrite <- Z.pow_add_r by lia. f_equal. lia. Qed.

(** A power of two steps, repeated an odd number of times, changes bit [j]. *)
Lemma odd_steps (j m : nat) x : (j < 32)%nat -> in_u32 x -> Nat.Odd m -> Nat.iter (2 ^ j * m) advance x <> x.
Proof.
  intros Hj Hx Hm E. assert (Hiter : forall i, Nat.iter (2 ^ j * i) advance x mod 2 ^ (Z.of_nat j + 1) =
    (x + Z.of_nat i * 2 ^ Z.of_nat j) mod 2 ^ (Z.of_nat j + 1)).
  { induction i as [|i IH]; [by rewrite Nat.mul_0_r, Z.mul_0_l, Z.add_0_r|].
    rewrite Nat.mul_succ_r, Nat.add_comm, iter_add, steps_mod by (done || by apply iter_range).
    rewrite <- Z.add_mod_idemp_l, IH, Z.add_mod_idemp_l by lia. f_equal. lia. }
  specialize (Hiter m). rewrite E in Hiter. destruct Hm as [i ->].
  assert (Hp : 0 < 2 ^ Z.of_nat j) by (apply Z.pow_pos_nonneg; lia).
  assert (E2 : (x + 2 ^ Z.of_nat j) mod 2 ^ (Z.of_nat j + 1) = x mod 2 ^ (Z.of_nat j + 1)).
  { rewrite Hiter. rewrite <- (Z.mod_add _ (Z.of_nat i)) by lia. f_equal.
    rewrite Z.pow_add_r, Nat2Z.inj_add, Nat2Z.inj_mul by lia. ring. }
  rewrite !Z.mod_eq in E2 by lia. rewrite Z.pow_add_r in E2 by lia. change (2 ^ 1) with 2 in E2.
  set (q1 := (x + _) / _) in *. set (q2 := x / _) in *. set (P := 2 ^ Z.of_nat j) in *. clearbody q1 q2 P.
  assert (H0 : (2 * (q1 - q2) - 1) * P = 0) by lia. apply Z.mul_eq_0 in H0. lia.
Qed.

Lemma odd_part n : (0 < n)%nat -> exists j m, (n = 2 ^ j * m)%nat /\ Nat.Odd m.
Proof.
  induction n as [n IH] using lt_wf_ind. intros Hn. destruct (Nat.Even_or_Odd n) as [[h ->]|Ho].
  - destruct (IH h) as (j & m & E & Hm); [lia|lia|]. exists (S j), m. split; [|done]. rewrite E at 1. cbn [Nat.pow]. lia.
  - exists 0%nat, n. cbn. split; [lia|done].
Qed.

(** Every value of the low [j] bits is reached. *)
Lemma low_bits_reached (j : nat) x v : (j <= 32)%nat -> in_u32 x ->
  exists n, Nat.iter n advance x mod 2 ^ Z.of_nat j = v mod 2 ^ Z.of_nat j.
Proof.
  intros Hj Hx. induction j as [|j IH]; [exists 0%nat; by rewrite !Z.mod_1_r|].
  destruct IH as [n Hn]; [lia|]. replace (Z.of_nat (S j)) with (Z.of_nat j + 1) by lia.
  assert (Hp : 0 < 2 ^ Z.of_nat j) by (apply Z.pow_pos_nonneg; lia).
  assert (Ep : 2 ^ (Z.of_nat j + 1) = 2 * 2 ^ Z.of_nat j) by (rewrite Z.pow_add_r by lia; lia).
  destruct (decide (Nat.iter n advance x mod 2 ^ (Z.of_nat j + 1) = v mod 2 ^ (Z.of_nat j + 1))) as [E|Hne]; [by exists n|].
  exists (2 ^ j + n)%nat. rewrite iter_add, steps_mod by (lia || by apply iter_range).
  set (y := Nat.iter n advance x) in *. set (P := 2 ^ Z.of_nat j) in *. rewrite Ep in *. clearbody y P.
  assert (Hb : forall z, z mod (2 * P) = z mod P \/ z mod (2 * P) = z mod P + P).
  { intros z. pose proof (Z.div_mod z (2 * P) ltac:(lia)). pose proof (Z.div_mod z P ltac:(lia)).
    pose proof (Z.mod_pos_bound z (2 * P) ltac:(lia)). pose proof (Z.mod_pos_bound z P ltac:(lia)).
    assert (z / P = 2 * (z / (2 * P)) \/ z / P = 2 * (z / (2 * P)) + 1) by nia. nia. }
  assert (Hs : (y + P) mod P = y mod P) by (rewrite <- (Z.mod_add y 1 P) by lia; f_equal; lia).
  assert (Hd : (y + P) mod (2 * P) <> y mod (2 * P)).
  { intros E. pose proof (Z.div_mod y (2 * P) ltac:(lia)). pose proof (Z.div_mod (y + P) (2 * P) ltac:(lia)).
    set (q1 := y / _) in *. set (q2 := (y + P) / _) in *. clearbody q1 q2.
    assert (Hz : (2 * (q2 - q1) - 1) * P = 0) by lia. apply Z.mul_eq_0 in Hz. lia. }
  destruct (Hb y), (Hb v), (Hb (y + P)); lia.
Qed.

(** ** Theorems *)

(** C23. [rand] returns a number from 0 to [MAX_RAND] and has the full period:
    from any seed the generator comes back to it after 2^32 calls and not
    before, and every number is returned again and again, from any seed. *)
Theorem rand_full_period seed : in_u32 seed ->
  (exists r, rand seed = Done (r, advance seed) /\ 0 <= r <= MAX_RAND) /\
  (forall n, Nat.iter n advance seed = seed <-> (2 ^ 32 | Z.of_nat n)) /\
  (forall r, 0 <= r <= MAX_RAND -> exists n, rand (Nat.iter n advance seed) = Done (r, Nat.iter (S n) advance seed)).
Proof.
  intros Hs. assert (Hland : forall z, Z.land z MAX_RAND = z mod 2 ^ 15) by (intros z; exact (Z.land_ones z 15 ltac:(lia))).
  assert (Hrun : forall s, rand s = Done ((Z.shiftr (advance s) 16) mod 2 ^ 15, advance s)) by (intros s; by rewrite <- Hland).
  split; [|split].
  - eexists. split; [apply Hrun|]. pose proof (Z.mod_pos_bound (Z.shiftr (advance seed) 16) (2 ^ 15) ltac:(lia)). unfold MAX_RAND. lia.
  - intros n. split.
    + intros E. destruct (Nat.eq_0_gt_0_cases n) as [->|Hn]; [by exists 0|].
      destruct (odd_part n Hn) as (j & m & -> & Hm). destruct (decide (j < 32)%nat) as [Hj|Hj]; [by destruct (odd_steps j m seed Hj Hs Hm)|].
      rewrite Nat2Z.inj_mul, Nat2Z.inj_pow. apply Z.divide_mul_l. exact (pow2_divide 32 j ltac:(lia)).
    + intros [k Hk]. assert (n = 2 ^ 32 * Z.to_nat k)%nat as ->.
      { apply Nat2Z.inj. rewrite Nat2Z.inj_mul, Nat2Z.inj_pow, Hk. change (Z.of_nat 2 ^ Z.of_nat 32) with (2 ^ 32). lia. }
      clear Hk. induction (Z.to_nat k) as [|i IH]; [by rewrite Nat.mul_0_r|]. by rewrite Nat.mul_succ_r, Nat.add_comm, iter_add, IH, steps_full.
  - intros r Hr. destruct (low_bits_reached 32 (advance seed) (Z.shiftl r 16) ltac:(lia) ltac:(apply u32_range)) as [n Hn].
    change (Z.of_nat 32) with 32 in Hn. exists n. rewrite Hrun. change (advance (Nat.iter n advance seed)) with (Nat.iter (S n) advance seed).
    rewrite Nat.iter_succ_r. pose proof (iter_range n (advance seed) (u32_range _)) as Hv.
    assert (E : Nat.iter n advance (advance seed) = Z.shiftl r 16).
    { rewrite <- (Z.mod_small _ (2 ^ 32)) at 1 by done. rewrite Hn. unfold MAX_RAND in Hr. rewrite Z.shiftl_mul_pow2 in * by lia. apply Z.mod_small. lia. }
    rewrite E. unfold MAX_RAND in Hr. rewrite Z.shiftr_shiftl_l, Z.shiftl_0_r, Z.mod_small by lia. done.
Qed.

Lemma rand_full_period_witness : (exists r, rand _seedrand = Done (r, 2745024) /\ 0 <= r <= MAX_RAND) /\
  exists n, rand (Nat.iter n advance _seedrand) = Done (12345, Nat.iter (S n) advance _seedrand).
Proof.
  destruct (rand_full_period _seedrand) as (H1 & _ & H3).
  - split; [discriminate|reflexivity].
  - split; [exact H1|]. apply (H3 12345). split; discriminate.
Defined.
