(* ===== verification/Bitmaps.v ===== *)
(** * Kernel/Library/Bitset.hpp

    The bitmap template, as an array of 32-bit words, and the [Bitmap]
    interface its clients (physical frames, virtual pages, the prime sieve)
    are verified against. *)
From S2P Require Import Prelude Words.
From Stdlib Require Import ZArith Lia Bool.
From stdpp Require Import base list numbers.
#[local] Open Scope Z_scope.

(** ** The interface

    What a client may rely on: a bitmap of [bm_size] bits is a function from
    positions to booleans, [Set] and [Clear] change one position, the searches
    return the first hit, or [npos]. *)
Class Bitmap (B : Type) := {
  bm_size : Z;
  bm_ok : B -> Prop;
  bm_bit : B -> Z -> bool;
  bm_Test : B -> Z -> outcome bool;
  bm_Set : Z -> K B unit;
  bm_Clear : Z -> K B unit;
  bm_FindFirstBit : B -> bool -> outcome Z;
  bm_FindFirstRange : B -> Z -> bool -> outcome Z;
  bm_size_range : 32 <= bm_size < 2 ^ 32;
  bm_Test_spec b i : bm_ok b -> 0 <= i < bm_size -> bm_Test b i = Done (bm_bit b i);
  bm_Set_spec b i : bm_ok b -> 0 <= i < bm_size ->
    exists b', bm_Set i b = Done (tt, b') /\ bm_ok b' /\
      forall j, 0 <= j < bm_size -> bm_bit b' j = (j =? i) || bm_bit b j;
  bm_Clear_spec b i : bm_ok b -> 0 <= i < bm_size ->
    exists b', bm_Clear i b = Done (tt, b') /\ bm_ok b' /\
      forall j, 0 <= j < bm_size -> bm_bit b' j = negb (j =? i) && bm_bit b j;
  bm_FindFirstBit_spec b v : bm_ok b ->
    exists r, bm_FindFirstBit b v = Done r /\
      ((0 <= r < bm_size /\ bm_bit b r = v /\ forall j, 0 <= j < r -> bm_bit b j = negb v) \/
       (r = SIZE_MAX /\ forall j, 0 <= j < bm_size -> bm_bit b j = negb v));
  bm_FindFirstRange_clear_spec b n : bm_ok b -> 0 < n < 32 ->
    exists r, bm_FindFirstRange b n false = Done r /\
      ((0 <= r < bm_size - n /\ (forall k, r <= k < r + n -> bm_bit b k = false) /\
        forall j, 0 <= j < r -> exists k, j <= k < j + n /\ bm_bit b k = true) \/
       (r = SIZE_MAX /\
        forall j, 0 <= j < bm_size - n -> exists k, j <= k < j + n /\ bm_bit b k = true));
}.

Module Bitset.

(** The object.  [t_num_bits] is the template parameter.  [m_next] is not a
    member: it is the word that follows [m_bitset] in memory, which
    [FindFirstRange] reads when it looks at a position in the last word. *)
Record Bitset (t_num_bits : Z) := mkBitset {
  m_numBits : Z;
  m_count : Z;
  m_bitset : list Z;
  m_next : Z;
}.
Arguments mkBitset {t_num_bits} _ _ _ _.
Arguments m_numBits {t_num_bits} _.
Arguments m_count {t_num_bits} _.
Arguments m_bitset {t_num_bits} _.
Arguments m_next {t_num_bits} _.

Section bitset.
Context {t_num_bits : Z}.
Abbreviation Bitset := (Bitset t_num_bits).

Definition npos : Z := SIZE_MAX.
Definition TypeSize : Z := 4 * 8.
Definition Index (position : Z) : Z := position / TypeSize.
Definition Offset (position : Z) : Z := position mod TypeSize.

(** Number of words of the array member. *)
Definition num_words : nat := Z.to_nat (t_num_bits / (8 * 4)).

(** [Bitset(bool defaultValue)]. *)
Definition Bitset_init (defaultValue : bool) (next : Z) : Bitset :=
  mkBitset t_num_bits 0
    (replicate num_words (if defaultValue then SIZE_MAX else 0)) next.

(** [Bitset() = default] of an object with static storage: all zero. *)
Definition Bitset_default (next : Z) : Bitset := mkBitset 0 0 (replicate num_words 0) next.

Definition Size (b : Bitset) : Z := m_numBits b.
Definition Count (b : Bitset) : Z := m_count b.
Definition Any (b : Bitset) : bool := 0 <? m_count b.
Definition None_ (b : Bitset) : bool := m_count b =? 0.
Definition All (b : Bitset) : bool := m_count b =? m_numBits b.

(** [m_bitset[idx]]. *)
Definition word (b : Bitset) (idx : Z) : outcome Z :=
  match m_bitset b !! Z.to_nat idx with
  | Some w => Done w
  | None => Fault
  end.

(** [m_bitset[idx] = w]. *)
Definition store_word (idx w : Z) (b : Bitset) : outcome (unit * Bitset) :=
  if bool_decide (Z.to_nat idx < length (m_bitset b))%nat then
    Done (tt, mkBitset (m_numBits b) (m_count b) (<[Z.to_nat idx := w]> (m_bitset b)) (m_next b))
  else Fault.

Definition set_count (c : Z) (b : Bitset) : Bitset :=
  mkBitset (m_numBits b) c (m_bitset b) (m_next b).

Definition Set_ (pos : Z) : K Bitset unit :=
  kmodify (fun b => set_count (u32 (m_count b + 1)) b) ;;
  w ← kread (fun b => word b (Index pos)) ;
  store_word (Index pos) (Z.lor w (u32 (Z.shiftl 1 (Offset pos)))).

Definition Clear (pos : Z) : K Bitset unit :=
  kmodify (fun b => set_count (u32 (m_count b - 1)) b) ;;
  w ← kread (fun b => word b (Index pos)) ;
  store_word (Index pos) (Z.land w (u32 (Z.lnot (u32 (Z.shiftl 1 (Offset pos)))))).

Definition Test (b : Bitset) (pos : Z) : outcome bool :=
  w ← word b (Index pos) ;
  Done (bool_decide (Z.land (Z.shiftr w (Offset pos)) 1 ≠ 0)).

Definition Flip (pos : Z) : K Bitset unit :=
  t ← kread (fun b => Test b pos) ;
  if t : bool then Clear pos else Set_ pos.

(** The result of a [for] loop with a [return] inside and [return npos] after it. *)
Definition or_npos (r : outcome (option Z)) : outcome Z :=
  o ← r ; Done (default npos o).

Definition FindFirstBit (b : Bitset) (isSet : bool) : outcome Z :=
  or_npos (search (Z.to_nat t_num_bits) 0 (fun i =>
    t ← Test b i ; Done (if Bool.eqb t isSet then Some i else None))).

(** [m_bitset[idx + 1]], which may be the word after the array. *)
Definition word_after (b : Bitset) (idx : Z) : outcome Z :=
  if idx + 1 =? Z.of_nat (length (m_bitset b)) then Done (m_next b) else word b (idx + 1).

(** One round of the loop of [FindFirstRange]. *)
Definition range_round (b : Bitset) (mask : Z) (isSet : bool) (i : Z) : outcome (option Z) :=
  let idx := Index i in
  let offset := Offset i in
  w ← word b idx ;
  let checkLow := Z.shiftr w offset in
  checkHigh ← (if offset =? 0 then Done 0
               else w' ← word_after b idx ; Done (u32 (Z.shiftl w' (TypeSize - offset)))) ;
  let check := Z.lor checkLow checkHigh in
  Done (if Z.land check mask =? Z.b2z isSet then Some i else None).

Definition FindFirstRange (b : Bitset) (count : Z) (isSet : bool) : outcome Z :=
  (* a shift by the width of the type is undefined *)
  if TypeSize <=? count then Fault else
  let mask := u32 (u32 (Z.shiftl 1 count) - 1) in
  or_npos (search (Z.to_nat (u32 (t_num_bits - count))) 0 (range_round b mask isSet)).

(** ** Abstraction *)

(** The bit at a position. *)
Definition bit (b : Bitset) (i : Z) : bool :=
  Z.testbit (default 0 (m_bitset b !! Z.to_nat (i / 32))) (i mod 32).

(** Well-formed objects: the array has its length and holds 32-bit words. *)
Record wf (b : Bitset) : Prop := {
  wf_size : 32 <= t_num_bits < 2 ^ 32;
  wf_mult : t_num_bits mod 32 = 0;
  wf_length : length (m_bitset b) = num_words;
  wf_words : Forall (fun w => in_u32 w) (m_bitset b);
  wf_next : in_u32 (m_next b);
}.

Lemma pos_index i : 0 <= i -> 0 <= i / 32 /\ 0 <= i mod 32 < 32 /\ i = 32 * (i / 32) + i mod 32.
Proof.
  intros Hi. pose proof (Z.mod_pos_bound i 32 ltac:(lia)).
  pose proof (Z.div_pos i 32 Hi ltac:(lia)). pose proof (Z.div_mod i 32 ltac:(lia)). lia.
Qed.

Lemma index_lt b i : wf b -> 0 <= i < t_num_bits -> (Z.to_nat (i / 32) < length (m_bitset b))%nat.
Proof.
  intros [H1 H2 H3 _ _] Hi. rewrite H3. unfold num_words. change (8 * 4) with 32.
  pose proof (pos_index i ltac:(lia)). pose proof (pos_index t_num_bits ltac:(lia)).
  apply Z2Nat.inj_lt; lia.
Qed.

Lemma word_lookup b i : wf b -> 0 <= i < t_num_bits ->
  exists w, m_bitset b !! Z.to_nat (i / 32) = Some w /\ in_u32 w /\
            word b (Index i) = Done w /\ bit b i = Z.testbit w (i mod 32).
Proof.
  intros Hwf Hi. pose proof (index_lt b i Hwf Hi) as Hlt.
  apply lookup_lt_is_Some in Hlt as [w Hw]. exists w. split; [done|]. split.
  - exact (Forall_lookup_1 _ _ _ _ (wf_words _ Hwf) Hw).
  - unfold word, bit, Index, TypeSize. change (4 * 8) with 32. by rewrite Hw.
Qed.

Lemma Test_spec b i : wf b -> 0 <= i < t_num_bits -> Test b i = Done (bit b i).
Proof.
  intros Hwf Hi. destruct (word_lookup b i Hwf Hi) as (w & _ & Hr & Hw & Hb).
  unfold Test. rewrite Hw. cbn. f_equal. rewrite Hb, land1_testbit.
  unfold Offset, TypeSize. change (4 * 8) with 32.
  pose proof (pos_index i ltac:(lia)).
  rewrite Z.shiftr_spec, Z.add_0_l by lia.
  by destruct (Z.testbit w (i mod 32)).
Qed.

Lemma eqb_offset i j : 0 <= i -> 0 <= j -> i / 32 = j / 32 ->
  (i mod 32 =? j mod 32) = (j =? i).
Proof.
  intros Hi Hj E. pose proof (pos_index i Hi). pose proof (pos_index j Hj).
  destruct (Z.eqb_spec (i mod 32) (j mod 32)), (Z.eqb_spec j i); (done || lia).
Qed.

(** Storing word [w'] at the word of [i] changes only the bits of that word. *)
Lemma bit_store b i w' c : wf b -> 0 <= i < t_num_bits -> in_u32 w' ->
  exists b', store_word (Index i) w' (set_count c b) = Done (tt, b') /\ wf b' /\
    m_count b' = c /\ m_numBits b' = m_numBits b /\
    forall j, 0 <= j < t_num_bits ->
      bit b' j = if i / 32 =? j / 32 then Z.testbit w' (j mod 32) else bit b j.
Proof.
  intros Hwf Hi Hw'. pose proof (index_lt b i Hwf Hi) as Hlt.
  unfold store_word, Index, TypeSize. change (4 * 8) with 32. cbn.
  rewrite bool_decide_true by done. eexists. split; [reflexivity|].
  destruct Hwf as [H1 H2 H3 H4 H5]. repeat split; cbn; try done; [lia|lia|..].
  - by rewrite length_insert.
  - apply Forall_insert; done.
  - unfold in_u32 in *; lia.
  - unfold in_u32 in *; lia.
  - intros j Hj. unfold bit at 1. cbn. destruct (Z.eqb_spec (i / 32) (j / 32)) as [E|E].
    + rewrite E in *. by rewrite list_lookup_insert_eq.
    + rewrite list_lookup_insert_ne; [done|].
      pose proof (pos_index i ltac:(lia)). pose proof (pos_index j ltac:(lia)). lia.
Qed.

Lemma offset_range i : 0 <= i -> 0 <= Offset i < 32.
Proof. intros. unfold Offset, TypeSize. change (4 * 8) with 32. apply (pos_index i H). Qed.

Lemma shl1_u32 o : 0 <= o < 32 -> u32 (Z.shiftl 1 o) = 2 ^ o.
Proof.
  intros Ho. rewrite Z.shiftl_1_l. apply u32_small. split.
  - by apply Z.pow_nonneg.
  - by apply Z.pow_lt_mono_r; lia.
Qed.

Lemma lor_in_u32 a b : in_u32 a -> in_u32 b -> in_u32 (Z.lor a b).
Proof.
  intros [Ha1 Ha2] [Hb1 Hb2]. split; [apply Z.lor_nonneg; lia|].
  apply bits_range; [lia|apply Z.lor_nonneg; lia|]. intros i Hi.
  rewrite Z.lor_spec, !(testbit_above 32) by lia. done.
Qed.

Lemma land_in_u32 a b : in_u32 a -> in_u32 (Z.land a b).
Proof.
  intros [Ha1 Ha2]. split; [apply Z.land_nonneg; lia|].
  apply bits_range; [lia|apply Z.land_nonneg; lia|]. intros i Hi.
  rewrite Z.land_spec, (testbit_above 32 a) by lia. done.
Qed.

Lemma Set_spec b i : wf b -> 0 <= i < t_num_bits ->
  exists b', Set_ i b = Done (tt, b') /\ wf b' /\
    m_count b' = u32 (m_count b + 1) /\ m_numBits b' = m_numBits b /\
    forall j, 0 <= j < t_num_bits -> bit b' j = (j =? i) || bit b j.
Proof.
  intros Hwf Hi. destruct (word_lookup b i Hwf Hi) as (w & Hlk & Hr & Hw & Hb).
  pose proof (offset_range i ltac:(lia)) as Ho.
  destruct (bit_store b i (Z.lor w (u32 (Z.shiftl 1 (Offset i)))) (u32 (m_count b + 1)) Hwf Hi)
    as (b' & E & Hwf' & Hc & Hn & Hbit).
  { apply lor_in_u32; [done|apply u32_range]. }
  exists b'. split; [|split; [done|split; [done|split; [done|]]]].
  - unfold Set_, kread. rewrite !run_bind. cbn [kmodify].
    rewrite run_bind. change (word (set_count (u32 (m_count b + 1)) b) (Index i)) with (word b (Index i)).
    by rewrite Hw.
  - intros j Hj. rewrite Hbit by done.
    pose proof (pos_index i ltac:(lia)). pose proof (pos_index j ltac:(lia)).
    destruct (Z.eqb_spec (i / 32) (j / 32)) as [Ed|Ed].
    + rewrite Z.lor_spec, (shl1_u32 _ Ho), Z.pow2_bits_eqb by lia.
      unfold bit. rewrite <- Ed, Hlk. cbn.
      unfold Offset, TypeSize. change (4 * 8) with 32. by rewrite orb_comm, eqb_offset by (lia || done).
    + destruct (Z.eqb_spec j i) as [->|]; done.
Qed.

Lemma Clear_spec b i : wf b -> 0 <= i < t_num_bits ->
  exists b', Clear i b = Done (tt, b') /\ wf b' /\
    m_count b' = u32 (m_count b - 1) /\ m_numBits b' = m_numBits b /\
    forall j, 0 <= j < t_num_bits -> bit b' j = negb (j =? i) && bit b j.
Proof.
  intros Hwf Hi. destruct (word_lookup b i Hwf Hi) as (w & Hlk & Hr & Hw & Hb).
  pose proof (offset_range i ltac:(lia)) as Ho.
  destruct (bit_store b i (Z.land w (u32 (Z.lnot (u32 (Z.shiftl 1 (Offset i))))))
              (u32 (m_count b - 1)) Hwf Hi) as (b' & E & Hwf' & Hc & Hn & Hbit).
  { by apply land_in_u32. }
  exists b'. split; [|split; [done|split; [done|split; [done|]]]].
  - unfold Clear, kread. rewrite !run_bind. cbn [kmodify].
    rewrite run_bind. change (word (set_count (u32 (m_count b - 1)) b) (Index i)) with (word b (Index i)).
    by rewrite Hw.
  - intros j Hj. rewrite Hbit by done.
    pose proof (pos_index i ltac:(lia)). pose proof (pos_index j ltac:(lia)).
    destruct (Z.eqb_spec (i / 32) (j / 32)) as [Ed|Ed].
    + unfold u32 at 1. rewrite Z.land_spec, wrap_testbit, Z.lnot_spec, (shl1_u32 _ Ho), Z.pow2_bits_eqb by lia.
      rewrite (proj2 (Z.ltb_lt (j mod 32) 32)) by lia.
      unfold bit. rewrite <- Ed, Hlk. cbn.
      unfold Offset, TypeSize. change (4 * 8) with 32. by rewrite andb_comm, eqb_offset by (lia || done).
    + destruct (Z.eqb_spec j i) as [->|]; done.
Qed.

Lemma FindFirstBit_spec b v : wf b ->
  exists r, FindFirstBit b v = Done r /\
    ((0 <= r < t_num_bits /\ bit b r = v /\ forall j, 0 <= j < r -> bit b j = negb v) \/
     (r = SIZE_MAX /\ forall j, 0 <= j < t_num_bits -> bit b j = negb v)).
Proof.
  intros Hwf. pose proof (wf_size _ Hwf) as Hsz.
  destruct (search_pure (Z.to_nat t_num_bits) 0
    (fun i => t ← Test b i ; Done (if Bool.eqb t v then Some i else None))
    (fun i => if Bool.eqb (bit b i) v then Some i else None)) as (r & E & Hr).
  { intros k Hk. rewrite Test_spec by (done || lia). reflexivity. }
  unfold FindFirstBit. rewrite E. exists (default npos r). split; [reflexivity|].
  assert (Hneg : forall j, (if Bool.eqb (bit b j) v then Some j else None) = None -> bit b j = negb v).
  { intros j. by destruct (bit b j), v. }
  destruct r as [a|]; cbn.
  - left. destruct Hr as (k & Hk & Hf & Hmin).
    destruct (Bool.eqb (bit b k) v) eqn:Eb; [|done]. injection Hf as <-.
    split; [lia|]. split; [by apply eqb_prop|]. intros j Hj. apply Hneg, Hmin. lia.
  - right. split; [done|]. intros j Hj. apply Hneg, Hr. lia.
Qed.

(** The window [FindFirstRange] looks at: bit [k] of [check] is bit [i + k] of
    the map, for all [k] such that position [i + k] exists. *)
Definition window (b : Bitset) (i : Z) : Z :=
  let w := default 0 (m_bitset b !! Z.to_nat (i / 32)) in
  let w' := if i / 32 + 1 =? Z.of_nat (length (m_bitset b)) then m_next b
            else default 0 (m_bitset b !! Z.to_nat (i / 32 + 1)) in
  Z.lor (Z.shiftr w (i mod 32))
        (if i mod 32 =? 0 then 0 else u32 (Z.shiftl w' (32 - i mod 32))).

Lemma div_add_small i k : 0 <= i -> 0 <= k -> i mod 32 + k < 32 ->
  (i + k) / 32 = i / 32 /\ (i + k) mod 32 = i mod 32 + k.
Proof.
  intros Hi Hk Hs. pose proof (pos_index i Hi) as (? & ? & ?).
  assert (E : (i + k) / 32 = i / 32) by (symmetry; apply Z.div_unique with (i mod 32 + k); lia).
  split; [done|]. symmetry. apply Z.mod_unique with (i / 32); lia.
Qed.

Lemma div_add_next i k : 0 <= i -> 0 <= k < 32 -> 32 <= i mod 32 + k ->
  (i + k) / 32 = i / 32 + 1 /\ (i + k) mod 32 = i mod 32 + k - 32.
Proof.
  intros Hi Hk Hs. pose proof (pos_index i Hi) as (? & ? & ?).
  split; symmetry.
  - apply Z.div_unique with (i mod 32 + k - 32); lia.
  - apply Z.mod_unique with (i / 32 + 1); lia.
Qed.

Lemma window_testbit b i k : wf b -> 0 <= i -> 0 <= k < 32 -> i + k < t_num_bits ->
  Z.testbit (window b i) k = bit b (i + k).
Proof.
  intros Hwf Hi Hk Hlt. destruct (word_lookup b i Hwf ltac:(lia)) as (w & Hlk & Hr & _ & _).
  pose proof (pos_index i Hi) as (Hq & Ho & He). unfold window. rewrite Hlk. cbn [default].
  rewrite Z.lor_spec, Z.shiftr_spec by lia.
  destruct (decide (i mod 32 + k < 32)) as [Hs|Hs].
  - destruct (div_add_small i k Hi ltac:(lia) Hs) as [E1 E2].
    unfold bit. rewrite E1, E2, Hlk. cbn. rewrite (Z.add_comm k).
    destruct (Z.eqb_spec (i mod 32) 0); [by rewrite Z.testbit_0_l, orb_false_r|].
    unfold u32. rewrite wrap_testbit, Z.shiftl_spec by lia.
    rewrite (Z.testbit_neg_r _ (k - (32 - i mod 32))) by lia. by rewrite andb_false_r, orb_false_r.
  - destruct (div_add_next i k Hi ltac:(lia) ltac:(lia)) as [E1 E2].
    rewrite (testbit_above 32 w) by (unfold in_u32 in *; lia). cbn [orb].
    destruct (Z.eqb_spec (i mod 32) 0); [lia|].
    unfold u32. rewrite wrap_testbit, Z.shiftl_spec by lia.
    rewrite (proj2 (Z.ltb_lt k 32)) by lia. cbn [andb].
    unfold bit. rewrite E1, E2. replace (k - (32 - i mod 32)) with (i mod 32 + k - 32) by lia.
    destruct (Z.eqb_spec (i / 32 + 1) (Z.of_nat (length (m_bitset b)))) as [En|]; [|done].
    exfalso. pose proof (index_lt b (i + k) Hwf ltac:(lia)) as Hl. rewrite E1 in Hl. lia.
Qed.

Lemma FindFirstRange_round b count isSet i : wf b -> 0 < count < 32 -> 0 <= i < t_num_bits ->
  range_round b (u32 (u32 (Z.shiftl 1 count) - 1)) isSet i
  = Done (if Z.land (window b i) (Z.ones count) =? Z.b2z isSet then Some i else None).
Proof.
  intros Hwf Hc Hi. destruct (word_lookup b i Hwf Hi) as (w & Hlk & Hr & Hw & _).
  unfold range_round. rewrite Hw. cbn [mbind outcome_bind]. unfold window. rewrite Hlk. cbn [default].
  unfold Index, Offset, TypeSize. change (4 * 8) with 32.
  pose proof (pos_index i ltac:(lia)) as (Hq & Ho & He).
  assert (Hm : u32 (u32 (Z.shiftl 1 count) - 1) = Z.ones count).
  { rewrite shl1_u32 by lia. rewrite Z.ones_equiv. apply u32_small.
    pose proof (Z.pow_lt_mono_r 2 count 32 ltac:(lia) ltac:(lia) ltac:(lia)).
    pose proof (Z.pow_pos_nonneg 2 count ltac:(lia) ltac:(lia)). unfold in_u32. lia. }
  rewrite Hm. destruct (Z.eqb_spec (i mod 32) 0) as [E0|E0]; [reflexivity|].
  unfold word_after. destruct (Z.eqb_spec (i / 32 + 1) (Z.of_nat (length (m_bitset b)))) as [En|En];
    [reflexivity|].
  assert (Hlt : (Z.to_nat (i / 32 + 1) < length (m_bitset b))%nat).
  { pose proof (index_lt b i Hwf ltac:(lia)). lia. }
  apply lookup_lt_is_Some in Hlt as [w' Hw']. unfold word. by rewrite Hw'.
Qed.

Lemma window_clear b count i : wf b -> 0 < count < 32 -> 0 <= i -> i + count <= t_num_bits ->
  (Z.land (window b i) (Z.ones count) =? Z.b2z false) = true <->
  forall k, i <= k < i + count -> bit b k = false.
Proof.
  intros Hwf Hc Hi Hle. cbn [Z.b2z]. rewrite Z.eqb_eq, land_ones_zero by lia. split.
  - intros H k Hk. replace k with (i + (k - i)) by lia.
    rewrite <- window_testbit by (done || lia). apply H. lia.
  - intros H k Hk. rewrite window_testbit by (done || lia). apply H. lia.
Qed.

Lemma window_not_clear b count i : wf b -> 0 < count < 32 -> 0 <= i -> i + count <= t_num_bits ->
  (Z.land (window b i) (Z.ones count) =? Z.b2z false) = false ->
  exists k, i <= k < i + count /\ bit b k = true.
Proof.
  intros Hwf Hc Hi Hle E.
  assert (Hd : ∃ k, (k < Z.to_nat count)%nat /\ bit b (i + Z.of_nat k) = true \/
               ∀ k, (k < Z.to_nat count)%nat -> bit b (i + Z.of_nat k) = false).
  { induction (Z.to_nat count) as [|n IH].
    - exists O. right. lia.
    - destruct IH as (k & [[Hk Hb]|Hall]).
      + exists k. left. split; [lia|done].
      + destruct (bit b (i + Z.of_nat n)) eqn:Eb.
        * exists n. left. split; [lia|done].
        * exists O. right. intros k' Hk'. destruct (decide (k' = n)) as [->|]; [done|].
          apply Hall. lia. }
  destruct Hd as (k & [[Hk Hb]|Hall]).
  - exists (i + Z.of_nat k). split; [lia|done].
  - exfalso. apply not_true_iff_false in E. apply E, window_clear; try done.
    intros k' Hk'. replace k' with (i + Z.of_nat (Z.to_nat (k' - i))) by lia. apply Hall. lia.
Qed.

Lemma FindFirstRange_clear_spec b n : wf b -> 0 < n < 32 ->
  exists r, FindFirstRange b n false = Done r /\
    ((0 <= r < t_num_bits - n /\ (forall k, r <= k < r + n -> bit b k = false) /\
      forall j, 0 <= j < r -> exists k, j <= k < j + n /\ bit b k = true) \/
     (r = SIZE_MAX /\
      forall j, 0 <= j < t_num_bits - n -> exists k, j <= k < j + n /\ bit b k = true)).
Proof.
  intros Hwf Hn. pose proof (wf_size _ Hwf) as Hsz. unfold FindFirstRange.
  unfold TypeSize at 1. destruct (Z.leb_spec (4 * 8) n) as [Hbig|_]; [lia|].
  rewrite (u32_small (t_num_bits - n)) by (unfold in_u32; lia).
  destruct (search_pure (Z.to_nat (t_num_bits - n)) 0 (range_round b (u32 (u32 (Z.shiftl 1 n) - 1)) false)
    (fun i => if Z.land (window b i) (Z.ones n) =? Z.b2z false then Some i else None)) as (r & E & Hr).
  { intros k Hk. apply FindFirstRange_round; (done || lia). }
  rewrite E. exists (default npos r). split; [reflexivity|].
       destruct r as [a|]; cbn.
       - left. destruct Hr as (k & Hk & Hf & Hmin).
         destruct (_ =? _) eqn:Eb; [|done]. injection Hf as <-.
         split; [lia|]. split; [apply window_clear; (done || lia || exact Eb)|].
         intros j Hj. apply window_not_clear; try (done || lia).
         exact (if_none _ _ (Hmin j ltac:(lia))).
       - right. split; [done|]. intros j Hj. apply window_not_clear; try (done || lia).
         exact (if_none _ _ (Hr j ltac:(lia))).
Qed.

(** ** The population count

    [m_count] is maintained by [Set] and [Clear] without looking at the bit;
    it is the population count for the histories that never set a set bit and
    never clear a clear one, and for [Flip] always. *)
Definition popcount (b : Bitset) : Z := count_true (bit b) (Z.to_nat t_num_bits).
Definition counted (b : Bitset) : Prop := m_count b = popcount b.

Lemma popcount_range b : wf b -> in_u32 (popcount b) /\ popcount b <= t_num_bits.
Proof.
  intros Hwf. pose proof (wf_size _ Hwf). unfold popcount, in_u32.
  pose proof (count_true_range (bit b) (Z.to_nat t_num_bits)). lia.
Qed.

Lemma popcount_change b b' i v : wf b -> 0 <= i < t_num_bits -> bit b' i = v ->
  (forall j, 0 <= j < t_num_bits -> j <> i -> bit b' j = bit b j) ->
  popcount b' = popcount b - Z.b2z (bit b i) + Z.b2z v.
Proof.
  intros Hwf Hi <- H. unfold popcount. apply count_true_update; [lia|].
  intros j Hj Hne. apply H; lia.
Qed.

Lemma Set_counted b i : wf b -> 0 <= i < t_num_bits -> counted b -> bit b i = false ->
  exists b', Set_ i b = Done (tt, b') /\ wf b' /\ counted b'.
Proof.
  intros Hwf Hi Hc Hb. destruct (Set_spec b i Hwf Hi) as (b' & E & Hwf' & Hcnt & _ & Hbit).
  exists b'. split; [done|]. split; [done|]. unfold counted. rewrite Hcnt, Hc.
  assert (Hp : popcount b' = popcount b + 1).
  { rewrite (popcount_change b b' i true); [rewrite Hb; cbn; lia|done|done| |].
    - rewrite Hbit by done. by rewrite Z.eqb_refl.
    - intros j Hj Hne. rewrite Hbit by done. by rewrite (proj2 (Z.eqb_neq j i)). }
  rewrite <- Hp. apply u32_small, popcount_range, Hwf'.
Qed.

Lemma Clear_counted b i : wf b -> 0 <= i < t_num_bits -> counted b -> bit b i = true ->
  exists b', Clear i b = Done (tt, b') /\ wf b' /\ counted b'.
Proof.
  intros Hwf Hi Hc Hb. destruct (Clear_spec b i Hwf Hi) as (b' & E & Hwf' & Hcnt & _ & Hbit).
  exists b'. split; [done|]. split; [done|]. unfold counted. rewrite Hcnt, Hc.
  assert (Hp : popcount b' = popcount b - 1).
  { rewrite (popcount_change b b' i false); [rewrite Hb; cbn; lia|done|done| |].
    - rewrite Hbit by done. by rewrite Z.eqb_refl.
    - intros j Hj Hne. rewrite Hbit by done. by rewrite (proj2 (Z.eqb_neq j i)). }
  rewrite <- Hp. apply u32_small, popcount_range, Hwf'.
Qed.

Lemma counted_queries b : wf b -> counted b -> m_numBits b = t_num_bits ->
  (Any b = true <-> exists j, 0 <= j < t_num_bits /\ bit b j = true) /\
  (None_ b = true <-> forall j, 0 <= j < t_num_bits -> bit b j = false) /\
  (All b = true <-> forall j, 0 <= j < t_num_bits -> bit b j = true).
Proof.
  intros Hwf Hc Hn. pose proof (wf_size _ Hwf). unfold Any, None_, All.
  rewrite Hc, Hn. unfold popcount. pose proof (count_true_zero (bit b) (Z.to_nat t_num_bits)) as H0.
  pose proof (count_true_full (bit b) (Z.to_nat t_num_bits)) as H1.
  pose proof (count_true_range (bit b) (Z.to_nat t_num_bits)) as Hr.
  rewrite Z2Nat.id in H0, H1 by lia. rewrite Z.ltb_lt, !Z.eqb_eq. split; [|split; [exact H0|exact H1]].
  split.
  - intros Hlt. destruct (search_true (bit b) (Z.to_nat t_num_bits)) as [(j & Hj & Eb)|Hall].
    + exists j. split; [lia|done].
    + rewrite (proj2 H0) in Hlt; [lia|]. intros i Hi. apply Hall. lia.
  - intros (j & Hj & Eb). destruct (Z.eq_dec (count_true (bit b) (Z.to_nat t_num_bits)) 0) as [E|]; [|lia].
    apply H0 with (i := j) in E; [congruence|lia].
Qed.

(** A first-fit answer is unique. *)
Lemma first_fit_unique (f : Z -> bool) N n r r' : 0 < n -> N < 2 ^ 32 ->
  ((0 <= r < N - n /\ (forall k, r <= k < r + n -> f k = false) /\
    forall j, 0 <= j < r -> exists k, j <= k < j + n /\ f k = true) \/
   (r = SIZE_MAX /\ forall j, 0 <= j < N - n -> exists k, j <= k < j + n /\ f k = true)) ->
  ((0 <= r' < N - n /\ (forall k, r' <= k < r' + n -> f k = false) /\
    forall j, 0 <= j < r' -> exists k, j <= k < j + n /\ f k = true) \/
   (r' = SIZE_MAX /\ forall j, 0 <= j < N - n -> exists k, j <= k < j + n /\ f k = true)) ->
  r' = r.
Proof.
  assert (Hno : forall x y, 0 <= x < y -> (forall k, x <= k < x + n -> f k = false) ->
    (forall j, 0 <= j < y -> exists k, j <= k < j + n /\ f k = true) -> False).
  { intros x y Hxy Hcl Hex. destruct (Hex x Hxy) as (k & Hk & E). by rewrite Hcl in E. }
  intros Hn HN [(Hr & Hcl & Hmin)|[-> Hall]] [(Hr' & Hcl' & Hmin')|[-> Hall']]; try done.
  - destruct (Z.lt_trichotomy r r') as [|[|]]; [exfalso|done|exfalso].
    + apply (Hno r r'); try done; lia.
    + apply (Hno r' r); try done; lia.
  - exfalso. apply (Hno r (N - n)); done.
  - exfalso. apply (Hno r' (N - n)); done.
Qed.

End bitset.


(** ** Constructors *)

Lemma bit_init N v next i : 0 <= i < N -> N mod 32 = 0 ->
  bit (Bitset_init (t_num_bits := N) v next) i = v.
Proof.
  intros Hi Hm. unfold bit, Bitset_init, num_words. cbn [m_bitset].
  change (8 * 4) with 32. pose proof (pos_index i ltac:(lia)). pose proof (pos_index N ltac:(lia)).
  rewrite lookup_replicate_2 by lia. cbn. destruct v; [|apply Z.testbit_0_l].
  unfold SIZE_MAX. replace (2 ^ 32 - 1) with (Z.ones 32) by done. apply Z.ones_spec_low. lia.
Qed.

Lemma wf_init N v next : 32 <= N < 2 ^ 32 -> N mod 32 = 0 -> in_u32 next ->
  wf (Bitset_init (t_num_bits := N) v next).
Proof.
  intros HN Hm Hnext. split; try done; cbn.
  - by rewrite length_replicate.
  - apply Forall_replicate. destruct v; unfold_words; lia.
Qed.

Lemma wf_default N next : 32 <= N < 2 ^ 32 -> N mod 32 = 0 -> in_u32 next ->
  wf (Bitset_default (t_num_bits := N) next).
Proof. intros HN Hm Hnext. destruct (wf_init N false next) as [H1 H2 H3 H4 H5]; try done. Qed.

Lemma bit_default N next i : 0 <= i < N -> N mod 32 = 0 ->
  bit (Bitset_default (t_num_bits := N) next) i = false.
Proof. exact (bit_init N false next i). Qed.

(** ** Properties *)

(** C27. [FindFirstRange(count, false)] is first-fit: for every range of 1 to 31
    bits it returns the lowest position before [t_num_bits - count] from which
    [count] bits are clear, and [npos] exactly when there is none; the word
    behind the array, which it reads for positions in the last word, never
    influences the result. *)
Theorem FindFirstRange_first_fit N (b : Bitset N) (count : Z) :
  wf b -> 0 < count < 32 ->
  exists r,
    (forall next, in_u32 next ->
       FindFirstRange (mkBitset (m_numBits b) (m_count b) (m_bitset b) next : Bitset N) count false = Done r) /\
    (r = npos <-> forall j, 0 <= j < N - count -> exists k, j <= k < j + count /\ bit b k = true) /\
    (r <> npos -> 0 <= r < N - count /\ (forall k, r <= k < r + count -> bit b k = false) /\
       forall j, 0 <= j < r -> exists k, j <= k < j + count /\ bit b k = true).
Proof.
  intros Hwf Hc. destruct (FindFirstRange_clear_spec b count Hwf Hc) as (r & E & Hr).
  pose proof (wf_size _ Hwf) as Hsz. exists r.
  split; [|split; [|intros Hn; destruct Hr as [Hr|[Hr _]]; [exact Hr|by destruct Hn]]].
  - intros next Hnext. set (b' := mkBitset (m_numBits b) (m_count b) (m_bitset b) next : Bitset N).
    assert (Hwf' : wf b') by (destruct Hwf; by split).
    destruct (FindFirstRange_clear_spec b' count Hwf' Hc) as (r' & E' & Hr').
    rewrite E'. f_equal. change (bit b') with (bit b) in Hr'. apply (first_fit_unique (bit b) N count); [lia|lia|exact Hr|exact Hr'].
  - split.
    + intros ->. destruct Hr as [Hr|[_ Hr]]; [unfold npos, SIZE_MAX in Hr; lia|exact Hr].
    + intros Hall. destruct Hr as [(Hr & Hcl & _)|[Hr _]]; [|exact Hr].
      destruct (Hall r Hr) as (k & Hk & Hb). by rewrite Hcl in Hb.
Qed.

(** [Flip] inverts exactly one bit and keeps [m_count] the population
    count, so [Any], [None] and [All] answer for the bits of the map. *)
Theorem Flip_correct N (b : Bitset N) (i : Z) :
  wf b -> counted b -> m_numBits b = N -> 0 <= i < N ->
  exists b', Flip i b = Done (tt, b') /\ wf b' /\ counted b' /\ m_numBits b' = N /\
    (forall j, 0 <= j < N -> bit b' j = xorb (j =? i) (bit b j)) /\
    (Any b' = true <-> exists j, 0 <= j < N /\ bit b' j = true) /\
    (None_ b' = true <-> forall j, 0 <= j < N -> bit b' j = false) /\
    (All b' = true <-> forall j, 0 <= j < N -> bit b' j = true).
Proof.
  intros Hwf Hc Hn Hi.
  assert (Hf : exists b', Flip i b = Done (tt, b') /\ wf b' /\ counted b' /\ m_numBits b' = N /\
                 forall j, 0 <= j < N -> bit b' j = xorb (j =? i) (bit b j)).
  { unfold Flip, kread. rewrite run_bind, (Test_spec _ _ Hwf Hi). destruct (bit b i) eqn:Eb.
    - destruct (Clear_counted b i Hwf Hi Hc Eb) as (b' & E & Hwf' & Hc').
      destruct (Clear_spec b i Hwf Hi) as (b'' & E' & _ & _ & Hn' & Hb').
      rewrite E in E'. injection E' as <-. exists b'. rewrite Hn'. do 4 (split; [done|]).
      intros j Hj. rewrite Hb' by done. destruct (Z.eqb_spec j i) as [->|]; [by rewrite Eb|by destruct (bit b j)].
    - destruct (Set_counted b i Hwf Hi Hc Eb) as (b' & E & Hwf' & Hc').
      destruct (Set_spec b i Hwf Hi) as (b'' & E' & _ & _ & Hn' & Hb').
      rewrite E in E'. injection E' as <-. exists b'. rewrite Hn'. do 4 (split; [done|]).
      intros j Hj. rewrite Hb' by done. destruct (Z.eqb_spec j i) as [->|]; [by rewrite Eb|by destruct (bit b j)]. }
  destruct Hf as (b' & E & Hwf' & Hc' & Hn' & Hb'). exists b'.
  do 5 (split; [done|]). by apply counted_queries.
Qed.

Definition demo_map : Bitset 64 := Bitset_init false 7.

Lemma FindFirstRange_first_fit_witness :
  wf demo_map /\ FindFirstRange demo_map 3 false = Done 0.
Proof.
  assert (H : wf demo_map) by (apply wf_init; unfold_words; (lia || reflexivity)).
  split; [exact H|].
  destruct (FindFirstRange_first_fit 64 demo_map 3 H ltac:(lia)) as (r & E & _).
  specialize (E 7 ltac:(unfold_words; lia)). vm_compute in E. injection E as <-. reflexivity.
Defined.

Lemma Flip_correct_witness :
  exists b', Flip 33 demo_map = Done (tt, b') /\ bit b' 33 = true /\ Any b' = true.
Proof.
  assert (H : wf demo_map) by (apply wf_init; unfold_words; (lia || reflexivity)).
  destruct (Flip_correct 64 demo_map 33 H eq_refl eq_refl ltac:(lia))
    as (b' & E & _ & _ & _ & Hb & Hany & _).
  exists b'. rewrite E. split; [reflexivity|].
  assert (E33 : bit b' 33 = true) by (rewrite Hb by lia; reflexivity).
  split; [exact E33|]. apply Hany. exists 33. split; [lia|exact E33].
Defined.

End Bitset.

(** The template implements the interface, whatever its size. *)
Definition bitset_bitmap (N : Z) (HN : 32 <= N < 2 ^ 32) : Bitmap (Bitset.Bitset N).
Proof.
  refine {| bm_size := N; bm_ok := Bitset.wf; bm_bit := Bitset.bit; bm_Test := Bitset.Test; bm_Set := Bitset.Set_;
            bm_Clear := Bitset.Clear; bm_FindFirstBit := Bitset.FindFirstBit;
            bm_FindFirstRange := Bitset.FindFirstRange; bm_size_range := HN;
            bm_Test_spec := Bitset.Test_spec; bm_FindFirstBit_spec := Bitset.FindFirstBit_spec;
            bm_FindFirstRange_clear_spec := Bitset.FindFirstRange_clear_spec |}.
  - intros b i Hb Hi. destruct (Bitset.Set_spec b i Hb Hi) as (b' & ? & ? & _ & _ & ?). eauto.
  - intros b i Hb Hi. destruct (Bitset.Clear_spec b i Hb Hi) as (b' & ? & ? & _ & _ & ?). eauto.
Defined.
