(* ===== verification/RingBuffers.v ===== *)
(** * Kernel/Library/RingBuffer.hpp and Kernel/Library/errno.hpp

    The ring buffer template, refined to a bounded FIFO queue: every sequence
    of calls returns what the queue would return. *)
From S2P Require Import Prelude Words.
From Stdlib Require Import ZArith Lia Bool.
From stdpp Require Import base list numbers.
#[local] Open Scope Z_scope.

(** [enum KernelError]. *)
Inductive KernelError := LockTaken | BufferFull | InvalidValue | GenericError | OK.
Definition KernelError_code (e : KernelError) : Z :=
  match e with
  | LockTaken => -4 | BufferFull => -3 | InvalidValue => -2 | GenericError => -1 | OK => 0
  end.

Module RingBuffer.
Section ring.
(** The template parameters; [zero] is the conversion of [0] to [T]. *)
Context {T : Type} (zero : T) (S : Z).

Record RingBuffer := mkRing {
  data : list T;
  head : Z;
  tail : Z;
  length : Z;
  error : Z;
}.

(** The constructor leaves [data] uninitialised. *)
Definition RingBuffer_init (garbage : list T) : RingBuffer := mkRing garbage 0 0 0 0.

Definition IsEmpty (r : RingBuffer) : bool := length r =? 0.
Definition IsFull (r : RingBuffer) : bool := length r =? S.
Definition Length (r : RingBuffer) : Z := s32 (length r).
Definition Capacity : Z := s32 S.
Definition Error (r : RingBuffer) : Z := error r.

(** [data[idx]] and [data[idx] = val]. *)
Definition read_data (idx : Z) : K RingBuffer T := kread (fun r =>
  match data r !! Z.to_nat idx with Some v => Done v | None => Fault end).
Definition write_data (idx : Z) (val : T) : K RingBuffer unit := fun r =>
  if bool_decide (Z.to_nat idx < List.length (data r))%nat then
    Done (tt, mkRing (<[Z.to_nat idx := val]> (data r)) (head r) (tail r) (length r) (error r))
  else Fault.

Definition set_error (e : KernelError) (r : RingBuffer) : RingBuffer :=
  mkRing (data r) (head r) (tail r) (length r) (KernelError_code e).
Definition advance_head (r : RingBuffer) : RingBuffer :=
  mkRing (data r) (u32 (head r + 1) mod S) (tail r) (u32 (length r + 1)) (error r).
Definition advance_tail (r : RingBuffer) : RingBuffer :=
  mkRing (data r) (head r) (u32 (tail r + 1) mod S) (u32 (length r - 1)) (error r).

(** [int Enqueue(T val)]. *)
Definition Enqueue (val : T) : K RingBuffer Z :=
  full ← kgets IsFull ;
  if full : bool then
    kmodify (set_error BufferFull) ;; mret (-1)
  else
    h ← kgets head ; write_data h val ;;
    kmodify advance_head ;; mret 0.

(** [int Dequeue(T* buf)]: the status, and what is stored through [buf]. *)
Definition Dequeue_to : K RingBuffer (Z * option T) :=
  empty ← kgets IsEmpty ;
  if empty : bool then
    kmodify (set_error InvalidValue) ;; mret (-1, None)
  else
    t ← kgets tail ; v ← read_data t ;
    kmodify advance_tail ;; mret (0, Some v).

(** [T Dequeue()]. *)
Definition Dequeue : K RingBuffer T :=
  empty ← kgets IsEmpty ;
  if empty : bool then
    kmodify (set_error InvalidValue) ;; mret zero
  else
    t ← kgets tail ; v ← read_data t ;
    kmodify advance_tail ;; mret v.

(** [int Peek(T* buf)]. *)
Definition Peek : K RingBuffer (Z * option T) :=
  empty ← kgets IsEmpty ;
  if empty : bool then
    kmodify (set_error InvalidValue) ;; mret (-1, None)
  else
    t ← kgets tail ; v ← read_data t ; mret (0, Some v).

(** ** Specification: a FIFO queue of at most [S] values and an error code *)

Inductive call := CEnqueue (v : T) | CDequeueTo | CDequeue | CPeek | CLength | CError.
Inductive answer := AStatus (z : Z) | AStatusVal (z : Z) (v : option T) | AVal (v : T).

Definition run_call (c : call) : K RingBuffer answer :=
  match c with
  | CEnqueue v => z ← Enqueue v ; mret (AStatus z)
  | CDequeueTo => p ← Dequeue_to ; mret (AStatusVal p.1 p.2)
  | CDequeue => v ← Dequeue ; mret (AVal v)
  | CPeek => p ← Peek ; mret (AStatusVal p.1 p.2)
  | CLength => z ← kgets Length ; mret (AStatus z)
  | CError => z ← kgets Error ; mret (AStatus z)
  end.

Definition spec_call (c : call) (q : list T * Z) : answer * (list T * Z) :=
  let '(l, e) := q in
  match c, l with
  | CEnqueue v, _ =>
      if Z.of_nat (List.length l) =? S then (AStatus (-1), (l, -3))
      else (AStatus 0, (l ++ [v], e))
  | CDequeueTo, [] => (AStatusVal (-1) None, ([], -2))
  | CDequeueTo, v :: l' => (AStatusVal 0 (Some v), (l', e))
  | CDequeue, [] => (AVal zero, ([], -2))
  | CDequeue, v :: l' => (AVal v, (l', e))
  | CPeek, [] => (AStatusVal (-1) None, ([], -2))
  | CPeek, v :: l' => (AStatusVal 0 (Some v), (l, e))
  | CLength, _ => (AStatus (Z.of_nat (List.length l)), (l, e))
  | CError, _ => (AStatus e, (l, e))
  end.

Fixpoint run_calls (cs : list call) : K RingBuffer (list answer) :=
  match cs with
  | [] => mret []
  | c :: cs' => a ← run_call c ; l ← run_calls cs' ; mret (a :: l)
  end.

Fixpoint spec_calls (cs : list call) (q : list T * Z) : list answer :=
  match cs with
  | [] => []
  | c :: cs' => let '(a, q') := spec_call c q in a :: spec_calls cs' q'
  end.

(** ** The representation *)

Definition slot (r : RingBuffer) (k : nat) : option T :=
  data r !! Z.to_nat ((tail r + Z.of_nat k) mod S).

(** [repr r (l, e)]: [r] holds the queue [l], oldest first, and the code [e]. *)
Record repr (r : RingBuffer) (q : list T * Z) : Prop := {
  repr_data : Z.of_nat (List.length (data r)) = S;
  repr_len : length r = Z.of_nat (List.length q.1);
  repr_cap : length r <= S;
  repr_tail : 0 <= tail r < S;
  repr_head : head r = (tail r + length r) mod S;
  repr_slots : forall k, (k < List.length q.1)%nat -> slot r k = q.1 !! k;
  repr_err : error r = q.2;
}.

Hypothesis HS : 0 < S < 2 ^ 31.

Lemma repr_init garbage : Z.of_nat (List.length garbage) = S ->
  repr (RingBuffer_init garbage) ([], 0).
Proof using HS.
  intros Hg. split; cbn; (done || lia || (intros k Hk; lia)).
Qed.

Lemma advance_mod x : 0 <= x < S -> u32 (x + 1) mod S = (x + 1) mod S.
Proof using HS. intros Hx. by rewrite u32_small by (unfold in_u32; lia). Qed.

Lemma mod_neq t k k' : 0 <= t < S -> 0 <= k < S -> 0 <= k' < S -> k <> k' ->
  (t + k) mod S <> (t + k') mod S.
Proof using HS.
  intros Ht Hk Hk' Hne E.
  assert (H : forall x, 0 <= x < S -> (t + x) mod S = t + x \/ (t + x) mod S = t + x - S).
  { intros x Hx. destruct (decide (t + x < S)).
    - left. apply Z.mod_small. lia.
    - right. symmetry. apply Z.mod_unique with 1; lia. }
  destruct (H k Hk), (H k' Hk'); lia.
Qed.

Lemma ring_enqueue_ok r l e v : repr r (l, e) -> Z.of_nat (List.length l) <> S ->
  exists r', Enqueue v r = Done (0, r') /\ repr r' (l ++ [v], e).
Proof using HS.
  intros [Hd Hl Hc Ht Hh Hs He] Hn. cbn in *.
  unfold Enqueue, kgets, write_data. rewrite !run_bind. unfold IsFull.
  destruct (Z.eqb_spec (length r) S) as [|_]; [lia|]. rewrite !run_bind.
  pose proof (Z.mod_pos_bound (tail r + length r) S ltac:(lia)) as Hm. rewrite <- Hh in Hm.
  rewrite bool_decide_true by lia. eexists. split; [reflexivity|].
  split; cbn; rewrite ?length_insert, ?length_app; cbn.
  - done.
  - rewrite u32_small by (unfold in_u32; lia). lia.
  - rewrite u32_small by (unfold in_u32; lia). lia.
  - done.
  - rewrite advance_mod, u32_small by (unfold in_u32; lia). rewrite Hh.
    rewrite Zplus_mod_idemp_l. f_equal. lia.
  - intros k Hk. unfold slot. cbn. rewrite Hh. destruct (decide (k = List.length l)) as [->|Hne].
    + rewrite <- Hl. rewrite list_lookup_insert_eq.
      * rewrite lookup_app_r by lia. by rewrite Nat.sub_diag.
      * pose proof (Z.mod_pos_bound (tail r + length r) S ltac:(lia)). lia.
    + rewrite list_lookup_insert_ne.
      * rewrite lookup_app_l by lia. apply Hs. lia.
      * pose proof (mod_neq (tail r) (length r) (Z.of_nat k) Ht ltac:(lia) ltac:(lia) ltac:(lia)).
        pose proof (Z.mod_pos_bound (tail r + length r) S ltac:(lia)).
        pose proof (Z.mod_pos_bound (tail r + Z.of_nat k) S ltac:(lia)). lia.
  - done.
Qed.

Lemma front_slot r v l e : repr r (v :: l, e) -> data r !! Z.to_nat (tail r) = Some v.
Proof using HS.
  intros [Hd Hl Hc Ht Hh Hs He]. specialize (Hs O ltac:(cbn; lia)). unfold slot in Hs.
  rewrite Z.add_0_r, Z.mod_small in Hs by lia. exact Hs.
Qed.

Lemma advance_tail_ok r v l e : repr r (v :: l, e) -> repr (advance_tail r) (l, e).
Proof using HS.
  intros [Hd Hl Hc Ht Hh Hs He]. cbn [fst snd List.length] in *.
  split; cbn; rewrite ?advance_mod by lia.
  - done.
  - rewrite u32_small by (unfold in_u32; lia). lia.
  - rewrite u32_small by (unfold in_u32; lia). lia.
  - apply Z.mod_pos_bound. lia.
  - rewrite u32_small by (unfold in_u32; lia). rewrite Zplus_mod_idemp_l, Hh. f_equal. lia.
  - intros k Hk. unfold slot. cbn. rewrite advance_mod by lia.
    rewrite Zplus_mod_idemp_l. specialize (Hs (Datatypes.S k) ltac:(lia)). unfold slot in Hs.
    replace (tail r + 1 + Z.of_nat k) with (tail r + Z.of_nat (Datatypes.S k)) by lia.
    exact Hs.
  - done.
Qed.

Lemma set_error_ok r l e c : repr r (l, e) -> repr (set_error c r) (l, KernelError_code c).
Proof using HS. intros [Hd Hl Hc Ht Hh Hs He]. by split. Qed.

Lemma isempty_nil r e : repr r ([], e) -> IsEmpty r = true.
Proof using. intros Hr. unfold IsEmpty. by rewrite (repr_len _ _ Hr). Qed.

Lemma isempty_cons r v l e : repr r (v :: l, e) -> IsEmpty r = false.
Proof using. intros Hr. unfold IsEmpty. by rewrite (repr_len _ _ Hr). Qed.

(** One call answers as the queue does and re-establishes the representation. *)
Lemma run_call_refines c r q : repr r q ->
  exists r', run_call c r = Done ((spec_call c q).1, r') /\ repr r' (spec_call c q).2.
Proof using HS.
  destruct q as [l e]. intros Hr. pose proof (repr_len _ _ Hr) as Hl. cbn in Hl.
  pose proof (repr_cap _ _ Hr) as Hcap. cbn in Hcap.
  destruct c as [v| | | | |]; cbn [run_call spec_call].
  - destruct (Z.eqb_spec (Z.of_nat (List.length l)) S) as [Ef|Ef]; cbn [fst snd].
    + exists (set_error BufferFull r). split; [|by apply (set_error_ok r l e BufferFull)].
      unfold Enqueue, kgets, IsFull. rewrite !run_bind.
      by rewrite (proj2 (Z.eqb_eq (length r) S)) by lia.
    + destruct (ring_enqueue_ok r l e v Hr Ef) as (r' & E & Hr'). exists r'. split; [|done].
      by rewrite (run_bind_done _ _ _ _ _ E).
  - destruct l as [|v l]; unfold Dequeue_to, read_data; krun; cbn [fst snd].
    + rewrite (isempty_nil _ _ Hr). exists (set_error InvalidValue r). split; [done|].
      by apply (set_error_ok r _ e InvalidValue).
    + rewrite (isempty_cons _ _ _ _ Hr), (front_slot _ _ _ _ Hr).
      exists (advance_tail r). split; [done|]. by apply advance_tail_ok with v.
  - destruct l as [|v l]; unfold Dequeue, read_data; krun; cbn [fst snd].
    + rewrite (isempty_nil _ _ Hr). exists (set_error InvalidValue r). split; [done|].
      by apply (set_error_ok r _ e InvalidValue).
    + rewrite (isempty_cons _ _ _ _ Hr), (front_slot _ _ _ _ Hr).
      exists (advance_tail r). split; [done|]. by apply advance_tail_ok with v.
  - destruct l as [|v l]; unfold Peek, read_data; krun; cbn [fst snd].
    + rewrite (isempty_nil _ _ Hr). exists (set_error InvalidValue r). split; [done|].
      by apply (set_error_ok r _ e InvalidValue).
    + rewrite (isempty_cons _ _ _ _ Hr), (front_slot _ _ _ _ Hr).
      by exists r.
  - exists r. split; [|done]. unfold kgets, Length. rewrite run_bind. cbn [fst]. rewrite Hl.
    by rewrite s32_small by (unfold INT_MIN, INT_MAX; lia).
  - exists r. split; [|done]. unfold kgets, Error. rewrite run_bind. cbn [fst].
    by rewrite (repr_err _ _ Hr).
Qed.

(** The calls that the serial driver makes. *)
Lemma ring_enqueue r l e v : repr r (l, e) ->
  exists z r', Enqueue v r = Done (z, r') /\
    repr r' (if Z.of_nat (List.length l) =? S then (l, -3) else (l ++ [v], e)).
Proof using HS zero.
  intros Hr. destruct (run_call_refines (CEnqueue v) r (l, e) Hr) as (r' & E & Hr').
  cbn [run_call] in E. rewrite run_bind in E. destruct (Enqueue v r) as [[z r1]| | |]; [|done..].
  injection E as _ <-. exists z, r1. split; [done|]. cbn [spec_call] in Hr'. by destruct (_ =? S).
Qed.
Lemma ring_dequeue r v l e : repr r (v :: l, e) -> exists r', Dequeue r = Done (v, r') /\ repr r' (l, e).
Proof using HS zero.
  intros Hr. destruct (run_call_refines CDequeue r (v :: l, e) Hr) as (r' & E & Hr').
  cbn [run_call] in E. rewrite run_bind in E. destruct (Dequeue r) as [[z r1]| | |]; [|done..].
  injection E as -> <-. by exists r1.
Qed.

Lemma run_calls_refines cs r q : repr r q ->
  exists r', run_calls cs r = Done (spec_calls cs q, r').
Proof using HS.
  revert r q. induction cs as [|c cs IH]; intros r q Hr; cbn [run_calls spec_calls].
  - by exists r.
  - destruct (run_call_refines c r q Hr) as (r1 & E1 & H1). destruct (spec_call c q) as [a q'].
    destruct (IH r1 q' H1) as (r2 & E2). exists r2.
    rewrite (run_bind_done _ _ _ _ _ E1), (run_bind_done _ _ _ _ _ E2). reflexivity.
Qed.

End ring.


End RingBuffer.
