(* ===== verification/TaskLists.v ===== *)
(** * Task control blocks and task lists (Kernel/Scheduler/tasks.hpp, tasks.cpp)

    The intrusive singly linked lists of the scheduler over a store of task
    structures, the interface [TaskQueues] the scheduler is written against,
    its pointer implementation (the code) and its specification (FIFO queues),
    and the simulation between the two. *)
From S2P Require Import Prelude Words.
From Stdlib Require Import ZArith Lia Bool.
From stdpp Require Import base strings numbers functions gmap list.
#[local] Open Scope Z_scope.

(** ** Data *)

Inductive task_state :=
  | TASK_RUNNING | TASK_READY | TASK_SLEEPING | TASK_BLOCKED | TASK_STOPPED | TASK_PAUSED.
#[export] Instance task_state_eq_dec : EqDecision task_state.
Proof. solve_decision. Defined.

Inductive task_alloc := ALLOC_STATIC | ALLOC_DYNAMIC.
#[export] Instance task_alloc_eq_dec : EqDecision task_alloc.
Proof. solve_decision. Defined.

(** The address of a [struct task]; [NULL] is [None]. *)
Abbreviation tid := positive.

(** [struct task] without its [next] member. *)
Record tcb := mkTcb {
  stack_top : Z;
  page_dir : Z;
  state : task_state;
  time_used : Z;
  wakeup_time : Z;
  name : string;
  alloc : task_alloc;
}.
(** [struct task]. *)
Record task := mkTask { next : option tid; fields : tcb }.

Definition set_state (st : task_state) (k : tcb) : tcb :=
  mkTcb (stack_top k) (page_dir k) st (time_used k) (wakeup_time k) (name k) (alloc k).
Definition set_wakeup_time (w : Z) (k : tcb) : tcb :=
  mkTcb (stack_top k) (page_dir k) (state k) (time_used k) w (name k) (alloc k).
Definition set_time_used (u : Z) (k : tcb) : tcb :=
  mkTcb (stack_top k) (page_dir k) (state k) u (wakeup_time k) (name k) (alloc k).
Definition set_stack_top (p : Z) (k : tcb) : tcb :=
  mkTcb p (page_dir k) (state k) (time_used k) (wakeup_time k) (name k) (alloc k).
Definition set_next (n : option tid) (t : task) : task := mkTask n (fields t).
Definition set_fields (f : tcb -> tcb) (t : task) : task := mkTask (next t) (f (fields t)).

(** [struct tasklist]. *)
Record tasklist := mkList { head : option tid; tail : option tid }.
Definition empty_list : tasklist := mkList None None.

(** The lists: [tasks_ready], [tasks_sleeping], [tasks_stopped], and the
    [waiting] member of each [struct task_sync]. *)
Inductive qid := QReady | QSleeping | QStopped | QSync (sync : positive).
#[export] Instance qid_eq_dec : EqDecision qid.
Proof. solve_decision. Defined.

(** [_state_lists]: the list a task of a given state is in, if it is a fixed one. *)
Definition _state_lists (st : task_state) : option qid :=
  match st with
  | TASK_RUNNING => None
  | TASK_READY => Some QReady
  | TASK_SLEEPING => Some QSleeping
  | TASK_BLOCKED => None
  | TASK_STOPPED => Some QStopped
  | TASK_PAUSED => None
  end.

(** The wakeup time [_wakeup] leaves behind. *)
Definition NEVER : Z := u64 (0 - 1).
Definition woken (k : tcb) : tcb := set_wakeup_time NEVER (set_state TASK_READY k).

(** ** The interface of the scheduler to its queues *)
Class TaskQueues (X : Type) := {
  tq_fields : tid -> X -> outcome tcb;
  tq_modify : tid -> (tcb -> tcb) -> K X unit;
  tq_enqueue : qid -> tid -> K X unit;
  tq_dequeue : qid -> K X (option tid);
  tq_empty : qid -> X -> bool;
  (** move the sleeping tasks whose time has come to the ready list *)
  tq_wake_expired : Z -> K X bool;
  (** move all tasks of a waiting list to the ready list *)
  tq_wake_all : qid -> K X unit;
  tq_new : tid -> tcb -> K X unit;
  tq_free : tid -> K X unit;
}.

(** ** The implementation: lists threaded through the task structures *)

Module Ptr.

Abbreviation store := (gmap tid task).

(** All of the task structures, and all of the list headers. *)
Record queues := mkQueues { tasks : store; lists : qid -> tasklist }.

(** [task->...]: a load and a store through a task pointer. *)
Definition load (t : tid) (m : store) : outcome task :=
  match m !! t with Some k => Done k | None => Fault end.
Definition update (t : tid) (f : task -> task) : K (tasklist * store) unit := fun s =>
  match s.2 !! t with Some k => Done (tt, (s.1, <[t := f k]> s.2)) | None => Fault end.
(** [list->head = p] and [list->tail = p]. *)
Definition set_head (p : option tid) : K (tasklist * store) unit :=
  kmodify (fun s => (mkList p (tail s.1), s.2)).
Definition set_tail (p : option tid) : K (tasklist * store) unit :=
  kmodify (fun s => (mkList (head s.1) p, s.2)).
Definition get_next (t : tid) : K (tasklist * store) (option tid) :=
  kread (fun s => k ← load t s.2 ; Done (next k)).

Definition _enqueue_task (t : tid) : K (tasklist * store) unit :=
  l ← kgets fst ;
  (match head l with None => set_head (Some t) | Some _ => mret tt end) ;;
  (match tail l with Some last => update last (set_next (Some t)) | None => mret tt end) ;;
  update t (set_next None) ;;
  set_tail (Some t).

Definition _dequeue_task : K (tasklist * store) (option tid) :=
  l ← kgets fst ;
  match head l with
  | None => mret None
  | Some t =>
      n ← get_next t ;
      set_head n ;;
      (match n with None => set_tail None | Some _ => mret tt end) ;;
      update t (set_next None) ;;
      mret (Some t)
  end.

Definition _remove_task (t : tid) (previous : option tid) : K (tasklist * store) unit :=
  (match previous with
   | None => mret tt
   | Some p => n ← get_next p ;
               if bool_decide (n ≠ Some t) then kpanic "Bogus arguments to _remove_task." else mret tt
   end) ;;
  l ← kgets fst ;
  n ← get_next t ;
  kwhen (bool_decide (head l = Some t)) (set_head n) ;;
  kwhen (bool_decide (tail l = Some t)) (set_tail previous) ;;
  (match previous with None => mret tt | Some p => update p (set_next n) end) ;;
  update t (set_next None).

(** Run a list operation on one of the lists. *)
Definition on_list {A} (q : qid) (m : K (tasklist * store) A) : K queues A :=
  kzoom (fun x => (lists x q, tasks x))
        (fun y x => mkQueues y.2 (<[q := y.1]> (lists x))) m.

Definition fields_of (t : tid) (x : queues) : outcome tcb := k ← load t (tasks x) ; Done (fields k).
Definition modify (t : tid) (f : tcb -> tcb) : K queues unit := fun x =>
  match tasks x !! t with
  | Some k => Done (tt, mkQueues (<[t := set_fields f k]> (tasks x)) (lists x))
  | None => Fault
  end.
Definition enqueue (q : qid) (t : tid) : K queues unit := on_list q (_enqueue_task t).
Definition dequeue (q : qid) : K queues (option tid) := on_list q _dequeue_task.
Definition is_empty (q : qid) (x : queues) : bool := bool_decide (head (lists x q) = None).
Definition next_of (t : tid) : K queues (option tid) :=
  kread (fun x => k ← load t (tasks x) ; Done (next k)).

Definition _wakeup (t : tid) : K queues unit :=
  modify t (set_state TASK_READY) ;;
  modify t (set_wakeup_time NEVER) ;;
  enqueue QReady t.

(** [task->next = NULL] after a wake-up. *)
Definition clear_next (t : tid) : K queues unit := fun x =>
  match tasks x !! t with
  | Some k => Done (tt, mkQueues (<[t := set_next None k]> (tasks x)) (lists x))
  | None => Fault
  end.

(** The loop of [_on_timer] over [tasks_sleeping]; the fuel bounds the length
    of the list. *)
Fixpoint wake_loop (fuel : nat) (time : Z) (pre t : option tid) (need_schedule : bool)
    : K queues bool :=
  match t, fuel with
  | None, _ => mret need_schedule
  | Some _, O => kstuck
  | Some task, S fuel' =>
      n ← next_of task ;
      k ← kread (fields_of task) ;
      if wakeup_time k <=? time then
        on_list QSleeping (_remove_task task pre) ;;
        _wakeup task ;;
        clear_next task ;;
        wake_loop fuel' time pre n true
      else
        wake_loop fuel' time (Some task) n need_schedule
  end.

Definition wake_expired (time : Z) : K queues bool :=
  x ← kget ; wake_loop (size (tasks x)) time None (head (lists x QSleeping)) false.

(** The loop of [tasks_sync_unblock] over [ts->waiting]. *)
Fixpoint unblock_loop (fuel : nat) (t : option tid) : K queues unit :=
  match t, fuel with
  | None, _ => mret tt
  | Some _, O => kstuck
  | Some task, S fuel' =>
      n ← next_of task ;
      _wakeup task ;;
      clear_next task ;;
      unblock_loop fuel' n
  end.

Definition wake_all (q : qid) : K queues unit :=
  x ← kget ; unblock_loop (size (tasks x)) (head (lists x q)) ;;
  on_list q (set_head None) ;; on_list q (set_tail None).

Definition new_task (t : tid) (k : tcb) : K queues unit :=
  kmodify (fun x => mkQueues (<[t := mkTask None k]> (tasks x)) (lists x)).
Definition free_task (t : tid) : K queues unit := fun x =>
  match tasks x !! t with
  | Some _ => Done (tt, mkQueues (delete t (tasks x)) (lists x))
  | None => Fault
  end.

#[global] Instance ptr_queues : TaskQueues queues := {|
  tq_fields := fields_of; tq_modify := modify; tq_enqueue := enqueue; tq_dequeue := dequeue;
  tq_empty := is_empty; tq_wake_expired := wake_expired; tq_wake_all := wake_all;
  tq_new := new_task; tq_free := free_task |}.

End Ptr.

(** ** The specification: FIFO queues, and every task in at most one of them *)

Module Fifo.

Record atask := mkATask { a_fields : tcb; a_in : option qid }.
Record queues := mkQueues { tcbs : gmap tid atask; queue : qid -> list tid }.

Definition load (t : tid) (x : queues) : outcome atask :=
  match tcbs x !! t with Some k => Done k | None => Fault end.
Definition fields_of (t : tid) (x : queues) : outcome tcb := k ← load t x ; Done (a_fields k).
Definition modify (t : tid) (f : tcb -> tcb) : K queues unit := fun x =>
  match tcbs x !! t with
  | Some k => Done (tt, mkQueues (<[t := mkATask (f (a_fields k)) (a_in k)]> (tcbs x)) (queue x))
  | None => Fault
  end.
(** Queueing a task that is already queued is an error of the caller. *)
Definition enqueue (q : qid) (t : tid) : K queues unit := fun x =>
  match tcbs x !! t with
  | Some (mkATask k None) =>
      Done (tt, mkQueues (<[t := mkATask k (Some q)]> (tcbs x)) (<[q := queue x q ++ [t]]> (queue x)))
  | _ => Fault
  end.
Definition dequeue (q : qid) : K queues (option tid) := fun x =>
  match queue x q with
  | [] => Done (None, x)
  | t :: l =>
      match tcbs x !! t with
      | Some k => Done (Some t, mkQueues (<[t := mkATask (a_fields k) None]> (tcbs x)) (<[q := l]> (queue x)))
      | None => Fault
      end
  end.
Definition remove (q : qid) (t : tid) : K queues unit := fun x =>
  match tcbs x !! t with
  | Some k =>
      if bool_decide (a_in k = Some q) then
        Done (tt, mkQueues (<[t := mkATask (a_fields k) None]> (tcbs x))
                           (<[q := filter (.≠ t) (queue x q)]> (queue x)))
      else Fault
  | None => Fault
  end.
Definition is_empty (q : qid) (x : queues) : bool := bool_decide (queue x q = []).
Definition wakeup (t : tid) : K queues unit := modify t woken ;; enqueue QReady t.

Fixpoint wake_loop (time : Z) (l : list tid) (need_schedule : bool) : K queues bool :=
  match l with
  | [] => mret need_schedule
  | t :: l' =>
      k ← kread (fields_of t) ;
      if wakeup_time k <=? time then
        remove QSleeping t ;; wakeup t ;; wake_loop time l' true
      else wake_loop time l' need_schedule
  end.
Definition wake_expired (time : Z) : K queues bool :=
  x ← kget ; wake_loop time (queue x QSleeping) false.

Fixpoint unblock_loop (q : qid) (l : list tid) : K queues unit :=
  match l with
  | [] => mret tt
  | t :: l' => remove q t ;; wakeup t ;; unblock_loop q l'
  end.
Definition wake_all (q : qid) : K queues unit :=
  x ← kget ; unblock_loop q (queue x q).

Definition new_task (t : tid) (k : tcb) : K queues unit := fun x =>
  match tcbs x !! t with
  | Some (mkATask _ (Some _)) => Fault
  | _ => Done (tt, mkQueues (<[t := mkATask k None]> (tcbs x)) (queue x))
  end.
Definition free_task (t : tid) : K queues unit := fun x =>
  match tcbs x !! t with
  | Some (mkATask _ None) => Done (tt, mkQueues (delete t (tcbs x)) (queue x))
  | _ => Fault
  end.

#[global] Instance fifo_queues : TaskQueues queues := {|
  tq_fields := fields_of; tq_modify := modify; tq_enqueue := enqueue; tq_dequeue := dequeue;
  tq_empty := is_empty; tq_wake_expired := wake_expired; tq_wake_all := wake_all;
  tq_new := new_task; tq_free := free_task |}.

End Fifo.

(** ** List segments in the store *)

Module Seg.
Import Ptr.

(** [seg m p l q]: following [next] from [p] visits [l] and then reaches [q]. *)
Fixpoint seg (m : store) (p : option tid) (l : list tid) (q : option tid) : Prop :=
  match l with
  | [] => p = q
  | t :: l' => p = Some t /\ exists k, m !! t = Some k /\ seg m (next k) l' q
  end.

Lemma seg_app m p l1 l2 q : seg m p (l1 ++ l2) q <-> exists r, seg m p l1 r /\ seg m r l2 q.
Proof.
  revert p. induction l1 as [|t l1 IH]; intros p; cbn.
  - split; [eauto|]. by intros (r & -> & H).
  - split.
    + intros (-> & k & Hk & H). apply IH in H as (r & H1 & H2). eauto 10.
    + intros (r & (-> & k & Hk & H1) & H2). split; [done|]. exists k. split; [done|].
      apply IH. eauto.
Qed.

Lemma seg_frame m m' p l q :
  (forall t, t ∈ l -> next <$> m' !! t = next <$> m !! t) -> seg m p l q -> seg m' p l q.
Proof.
  revert p. induction l as [|t l IH]; intros p Hf; cbn; [done|].
  intros (-> & k & Hk & H). split; [done|].
  pose proof (Hf t ltac:(set_solver)) as Ht. rewrite Hk in Ht.
  destruct (m' !! t) as [k'|] eqn:E; [|done]. cbn in Ht. injection Ht as Ht.
  exists k'. split; [done|]. rewrite Ht. apply IH; [|done]. intros u Hu. apply Hf. set_solver.
Qed.

Lemma seg_update_other m p l q t k : t ∉ l -> seg m p l q -> seg (<[t := k]> m) p l q.
Proof.
  intros Ht. apply seg_frame. intros u Hu. rewrite lookup_insert_ne; [done|]. set_solver.
Qed.

Lemma seg_update_same m p l q t k k' : m !! t = Some k -> next k' = next k ->
  seg m p l q -> seg (<[t := k']> m) p l q.
Proof.
  intros Hk Hn. apply seg_frame. intros u Hu. destruct (decide (u = t)) as [->|].
  - rewrite lookup_insert_eq, Hk. cbn. by rewrite Hn.
  - by rewrite lookup_insert_ne.
Qed.

Lemma seg_lookup m p l q t : t ∈ l -> seg m p l q -> exists k, m !! t = Some k.
Proof.
  revert p. induction l as [|u l IH]; intros p; [set_solver|].
  intros Ht (-> & k & Hk & H). apply elem_of_cons in Ht as [->|Ht]; eauto.
Qed.

Lemma seg_head m p l : seg m p l None -> p = List.head l.
Proof. destruct l; cbn; [done|]. by intros (-> & _). Qed.

(** The last node of a segment can be redirected. *)
Lemma seg_redirect m p l z q r : NoDup (l ++ [z]) -> seg m p (l ++ [z]) q ->
  exists k, m !! z = Some k /\ next k = q /\ seg (<[z := set_next r k]> m) p (l ++ [z]) r.
Proof.
  intros Hnd H. apply seg_app in H as (s & H1 & (-> & k & Hk & H2)). cbn in H2. exists k.
  split; [done|]. split; [done|]. apply seg_app. exists (Some z). split.
  - apply seg_update_other; [|done]. apply NoDup_app in Hnd as (_ & Hd & _). intros Hz.
    apply (Hd z Hz). set_solver.
  - cbn. split; [done|]. exists (set_next r k). by rewrite lookup_insert_eq.
Qed.

Lemma last_snoc_inv {A} (l : list A) : l = [] \/ exists l' z, l = l' ++ [z].
Proof. destruct l using rev_ind; eauto. Qed.

End Seg.

(** ** The simulation *)

Module Sim.
Import Ptr Seg.

(** [relw hdr m a]: the list headers [hdr] and the store [m] represent the
    FIFO state [a]. *)
Record relw (hdr : qid -> tasklist) (m : store) (a : Fifo.queues) : Prop := {
  rel_fields : forall t, fields <$> m !! t = Fifo.a_fields <$> Fifo.tcbs a !! t;
  rel_seg : forall q, seg m (head (hdr q)) (Fifo.queue a q) None;
  rel_tail : forall q, tail (hdr q) = last (Fifo.queue a q);
  rel_nodup : forall q, NoDup (Fifo.queue a q);
  rel_in : forall t q, t ∈ Fifo.queue a q <->
                       exists k, Fifo.tcbs a !! t = Some k /\ Fifo.a_in k = Some q;
}.

Definition rel (c : queues) (a : Fifo.queues) : Prop := relw (lists c) (tasks c) a.

Lemma relw_ext hdr hdr' m a : (forall q, hdr q = hdr' q) -> relw hdr m a -> relw hdr' m a.
Proof. intros He [H1 H2 H3 H4 H5]. split; intros; rewrite <- ?He; eauto. Qed.

Lemma rel_lookup hdr m a t k : relw hdr m a -> Fifo.tcbs a !! t = Some k ->
  exists kt, m !! t = Some kt /\ fields kt = Fifo.a_fields k.
Proof.
  intros Hr Hk. pose proof (rel_fields _ _ _ Hr t) as Hf. rewrite Hk in Hf.
  destruct (m !! t) as [kt|]; [|done]. cbn in Hf. injection Hf as Hf. eauto.
Qed.

Lemma rel_disjoint hdr m a t q q' : relw hdr m a ->
  t ∈ Fifo.queue a q -> t ∈ Fifo.queue a q' -> q = q'.
Proof.
  intros Hr Hq Hq'. apply (rel_in _ _ _ Hr) in Hq as (k & Hk & E).
  apply (rel_in _ _ _ Hr) in Hq' as (k' & Hk' & E'). congruence.
Qed.

Lemma rel_not_in hdr m a t k q : relw hdr m a -> Fifo.tcbs a !! t = Some k ->
  Fifo.a_in k <> Some q -> t ∉ Fifo.queue a q.
Proof. intros Hr Hk Hn Hin. apply (rel_in _ _ _ Hr) in Hin as (k' & Hk' & E). congruence. Qed.

Lemma fields_set_next (m : store) t kt n u : m !! t = Some kt ->
  fields <$> <[t := set_next n kt]> m !! u = fields <$> m !! u.
Proof.
  intros Ht. destruct (decide (u = t)) as [->|].
  - by rewrite lookup_insert_eq, Ht.
  - by rewrite lookup_insert_ne.
Qed.

Lemma a_fields_insert (tc : gmap tid Fifo.atask) t k o u : tc !! t = Some k ->
  Fifo.a_fields <$> <[t := Fifo.mkATask (Fifo.a_fields k) o]> tc !! u = Fifo.a_fields <$> tc !! u.
Proof.
  intros Ht. destruct (decide (u = t)) as [->|].
  - by rewrite lookup_insert_eq, Ht.
  - by rewrite lookup_insert_ne.
Qed.

Lemma update_run t f l (m : store) k : m !! t = Some k ->
  update t f (l, m) = Done (tt, (l, <[t := f k]> m)).
Proof. intros H. unfold update. cbn. by rewrite H. Qed.

(** *** Enqueueing *)

Lemma rel_in_insert hdr m a t k q l : relw hdr m a -> Fifo.tcbs a !! t = Some k ->
  Fifo.a_in k = None -> (forall u, u ∈ l <-> u ∈ Fifo.queue a q \/ u = t) ->
  forall u q', u ∈ <[q := l]> (Fifo.queue a) q' <->
    exists k', <[t := Fifo.mkATask (Fifo.a_fields k) (Some q)]> (Fifo.tcbs a) !! u = Some k' /\
               Fifo.a_in k' = Some q'.
Proof.
  intros Hr Hk Hn Hl u q'. destruct (decide (u = t)) as [->|Hu].
  - rewrite lookup_insert_eq. split.
    + intros Hin. eexists. split; [done|]. cbn. destruct (decide (q = q')) as [->|]; [done|].
      rewrite fn_lookup_insert_ne in Hin by done. exfalso.
      apply (rel_not_in _ _ _ _ _ q' Hr Hk) in Hin; congruence.
    + intros (k' & E & E'). injection E as <-. cbn in E'. injection E' as <-.
      rewrite fn_lookup_insert. apply Hl. by right.
  - rewrite lookup_insert_ne by done. rewrite <- (rel_in _ _ _ Hr).
    destruct (decide (q = q')) as [->|].
    + rewrite fn_lookup_insert, Hl. naive_solver.
    + by rewrite fn_lookup_insert_ne.
Qed.

Definition a_enqueue (q : qid) (t : tid) (k : Fifo.atask) (a : Fifo.queues) : Fifo.queues :=
  Fifo.mkQueues (<[t := Fifo.mkATask (Fifo.a_fields k) (Some q)]> (Fifo.tcbs a))
                (<[q := Fifo.queue a q ++ [t]]> (Fifo.queue a)).

Lemma enqueue_core hdr m a q t k : relw hdr m a -> Fifo.tcbs a !! t = Some k ->
  Fifo.a_in k = None ->
  exists l' m', _enqueue_task t (hdr q, m) = Done (tt, (l', m')) /\
    relw (<[q := l']> hdr) m' (a_enqueue q t k a).
Proof.
  intros Hr Hk Hn. destruct (rel_lookup _ _ _ _ _ Hr Hk) as (kt & Ht & Hft).
  assert (Hnot : forall q', t ∉ Fifo.queue a q').
  { intros q'. apply (rel_not_in _ _ _ _ _ _ Hr Hk). by rewrite Hn. }
  pose proof (rel_seg _ _ _ Hr q) as Hseg. pose proof (rel_tail _ _ _ Hr q) as Htl.
  pose proof (rel_nodup _ _ _ Hr q) as Hnd.
  destruct (last_snoc_inv (Fifo.queue a q)) as [E|(l & z & E)]; rewrite E in Hseg, Htl, Hnd.
  - cbn in Hseg, Htl. unfold _enqueue_task, set_head, set_tail. krun. cbn [fst snd].
    rewrite Hseg, Htl. cbn [fst snd]. rewrite (update_run _ _ _ _ _ Ht). cbn.
    eexists _, _. split; [reflexivity|]. unfold a_enqueue. rewrite E. cbn [app].
    split; cbn.
    + intros u. rewrite a_fields_insert by done. rewrite fields_set_next by done.
      apply (rel_fields _ _ _ Hr).
    + intros q'. destruct (decide (q = q')) as [->|Hq].
      * rewrite !fn_lookup_insert. cbn. split; [done|]. eexists. by rewrite lookup_insert_eq.
      * rewrite !fn_lookup_insert_ne by done. apply seg_update_other; [done|]. apply Hr.
    + intros q'. destruct (decide (q = q')) as [->|Hq].
      * by rewrite !fn_lookup_insert.
      * rewrite !fn_lookup_insert_ne by done. apply Hr.
    + intros q'. destruct (decide (q = q')) as [->|Hq].
      * rewrite fn_lookup_insert. apply NoDup_singleton.
      * rewrite fn_lookup_insert_ne by done. apply Hr.
    + apply (rel_in_insert hdr m); try done. intros u. rewrite E. set_solver.
  - destruct (seg_redirect m (head (hdr q)) l z None (Some t) Hnd Hseg) as (kz & Hz & Hnz & Hseg').
    assert (Hzt : z <> t). { intros ->. apply (Hnot q). rewrite E. set_solver. }
    assert (Hhd : exists h, head (hdr q) = Some h).
    { destruct l; cbn in Hseg; destruct Hseg as [-> _]; eauto. }
    destruct Hhd as [h Hhd]. rewrite last_snoc in Htl.
    unfold _enqueue_task, set_head, set_tail. krun. cbn [fst snd].
    rewrite Hhd, Htl. cbn [fst snd]. rewrite (update_run _ _ _ _ _ Hz). cbn [fst snd].
    rewrite (update_run t _ _ _ kt) by by rewrite lookup_insert_ne. cbn.
    eexists _, _. split; [reflexivity|]. unfold a_enqueue.
    assert (Hoth : forall q', q <> q' -> seg (<[t:=set_next None kt]> (<[z:=set_next (Some t) kz]> m))
                     (head (hdr q')) (Fifo.queue a q') None).
    { intros q' Hq. apply seg_update_other; [done|]. apply seg_update_other; [|apply Hr].
      intros Hin. apply Hq. apply (rel_disjoint _ _ _ z q q' Hr); [|done]. rewrite E. set_solver. }
    split; cbn.
    + intros u. rewrite a_fields_insert by done. rewrite fields_set_next by by rewrite lookup_insert_ne.
      rewrite fields_set_next by done. apply (rel_fields _ _ _ Hr).
    + intros q'. destruct (decide (q = q')) as [->|Hq].
      * rewrite !fn_lookup_insert. cbn. apply seg_app. exists (Some t). split.
        -- rewrite E. apply seg_update_other; [rewrite <- E; apply Hnot|exact Hseg'].
        -- cbn. split; [done|]. eexists. by rewrite lookup_insert_eq.
      * rewrite !fn_lookup_insert_ne by done. auto.
    + intros q'. destruct (decide (q = q')) as [->|Hq].
      * rewrite !fn_lookup_insert. by rewrite last_snoc.
      * rewrite !fn_lookup_insert_ne by done. apply Hr.
    + intros q'. destruct (decide (q = q')) as [->|Hq].
      * rewrite fn_lookup_insert. apply NoDup_app. split; [apply Hr|]. split; [|apply NoDup_singleton].
        intros u Hu Hu'. apply list_elem_of_singleton in Hu' as ->. by apply (Hnot q').
      * rewrite fn_lookup_insert_ne by done. apply Hr.
    + apply (rel_in_insert hdr m); try done. intros u. set_solver.
Qed.

(** *** Dequeueing *)

Definition a_take (q : qid) (t : tid) (k : Fifo.atask) (l : list tid) (a : Fifo.queues) : Fifo.queues :=
  Fifo.mkQueues (<[t := Fifo.mkATask (Fifo.a_fields k) None]> (Fifo.tcbs a)) (<[q := l]> (Fifo.queue a)).

Lemma rel_in_take hdr m a t k q l : relw hdr m a -> Fifo.tcbs a !! t = Some k ->
  Fifo.a_in k = Some q -> (forall u, u ∈ l <-> u ∈ Fifo.queue a q /\ u <> t) ->
  forall u q', u ∈ <[q := l]> (Fifo.queue a) q' <->
    exists k', <[t := Fifo.mkATask (Fifo.a_fields k) None]> (Fifo.tcbs a) !! u = Some k' /\
               Fifo.a_in k' = Some q'.
Proof.
  intros Hr Hk Hn Hl u q'. destruct (decide (u = t)) as [->|Hu].
  - rewrite lookup_insert_eq. split; [|intros (k' & [= <-] & [=])].
    intros Hin. exfalso. destruct (decide (q = q')) as [->|].
    + rewrite fn_lookup_insert in Hin. apply Hl in Hin. naive_solver.
    + rewrite fn_lookup_insert_ne in Hin by done.
      apply (rel_in _ _ _ Hr) in Hin as (k' & Hk' & E). congruence.
  - rewrite lookup_insert_ne by done. rewrite <- (rel_in _ _ _ Hr).
    destruct (decide (q = q')) as [->|].
    + rewrite fn_lookup_insert, Hl. naive_solver.
    + by rewrite fn_lookup_insert_ne.
Qed.

(** Taking a task out of its list, given the new header and store. *)
Lemma relw_take hdr m a q t k l l' m' : relw hdr m a -> Fifo.tcbs a !! t = Some k ->
  Fifo.a_in k = Some q -> (forall u, u ∈ l <-> u ∈ Fifo.queue a q /\ u <> t) -> NoDup l ->
  (forall u, fields <$> m' !! u = fields <$> m !! u) ->
  seg m' (head l') l None -> tail l' = last l ->
  (forall u q', u ∈ Fifo.queue a q' -> q <> q' -> m' !! u = m !! u) ->
  relw (<[q := l']> hdr) m' (a_take q t k l a).
Proof.
  intros Hr Hk Hq Hl Hnd Hf Hs Htl Ho. unfold a_take. split; cbn.
  - intros u. rewrite Hf, a_fields_insert by done. apply (rel_fields _ _ _ Hr).
  - intros q'. destruct (decide (q = q')) as [->|Hn].
    + by rewrite !fn_lookup_insert.
    + rewrite !fn_lookup_insert_ne by done. apply (seg_frame m); [|apply Hr].
      intros u Hu. by rewrite (Ho u q' Hu Hn).
  - intros q'. destruct (decide (q = q')) as [->|Hn].
    + by rewrite !fn_lookup_insert.
    + rewrite !fn_lookup_insert_ne by done. apply Hr.
  - intros q'. destruct (decide (q = q')) as [->|Hn].
    + by rewrite !fn_lookup_insert.
    + rewrite !fn_lookup_insert_ne by done. apply Hr.
  - by apply (rel_in_take hdr m).
Qed.

Lemma queue_head_in hdr m a q t l : relw hdr m a -> Fifo.queue a q = t :: l ->
  exists k, Fifo.tcbs a !! t = Some k /\ Fifo.a_in k = Some q /\ t ∉ l /\ NoDup l /\
    forall u, u ∈ l <-> u ∈ Fifo.queue a q /\ u <> t.
Proof.
  intros Hr E. pose proof (rel_nodup _ _ _ Hr q) as Hnd. rewrite E in Hnd.
  apply NoDup_cons in Hnd as [Hni Hnd].
  destruct (proj1 (rel_in _ _ _ Hr t q)) as (k & Hk & Hq); [rewrite E; set_solver|].
  exists k. do 4 (split; [done|]). intros u. rewrite E. set_solver.
Qed.

Lemma dequeue_core hdr m a q : relw hdr m a ->
  match Fifo.queue a q with
  | [] => _dequeue_task (hdr q, m) = Done (None, (hdr q, m))
  | t :: l => exists k l' m', Fifo.tcbs a !! t = Some k /\
      _dequeue_task (hdr q, m) = Done (Some t, (l', m')) /\
      relw (<[q := l']> hdr) m' (a_take q t k l a)
  end.
Proof.
  intros Hr. pose proof (rel_seg _ _ _ Hr q) as Hseg. pose proof (rel_tail _ _ _ Hr q) as Htl.
  destruct (Fifo.queue a q) as [|t l] eqn:E.
  - cbn in Hseg. unfold _dequeue_task. krun. cbn [fst snd]. by rewrite Hseg.
  - destruct (queue_head_in _ _ _ _ _ _ Hr E) as (k & Hk & Hq & Hni & Hnd & Hl).
    cbn in Hseg. destruct Hseg as (Hhd & kt & Ht & Hs). exists k.
    assert (Hm : forall l', update t (set_next None) (l', m) = Done (tt, (l', <[t := set_next None kt]> m)))
      by (intros l'; by apply update_run).
    exists (mkList (next kt) (last l)), (<[t := set_next None kt]> m). split; [done|]. split.
    + unfold _dequeue_task, get_next, set_head, set_tail, load. krun. cbn [fst snd].
      rewrite Hhd. cbn [fst snd]. rewrite Ht. cbn [fst snd head tail]. destruct l as [|u l].
      * cbn in Hs. rewrite Hs. cbn [fst snd]. by rewrite Hm.
      * cbn in Hs. destruct Hs as (-> & _). rewrite Hm. by rewrite Htl.
    + apply (relw_take hdr m); try done.
      * intros u. by apply fields_set_next.
      * cbn. by apply seg_update_other.
      * intros u q' Hu Hn. rewrite lookup_insert_ne; [done|]. intros <-.
        apply Hn. apply (rel_disjoint _ _ _ t _ _ Hr); [|done]. rewrite E. set_solver.
Qed.

(** *** Removal from the middle of a list *)

Lemma filter_split (l1 l2 : list tid) t : NoDup (l1 ++ t :: l2) ->
  filter (.≠ t) (l1 ++ t :: l2) = l1 ++ l2.
Proof.
  intros Hnd. apply NoDup_app in Hnd as (_ & Hd & Hnd2). apply NoDup_cons in Hnd2 as [Hni _].
  rewrite filter_app. rewrite filter_cons_False by naive_solver.
  assert (Hid : forall l : list tid, t ∉ l -> filter (.≠ t) l = l).
  { intros l. induction l as [|u l IH]; intros Hn; [done|].
    rewrite filter_cons_True by set_solver. f_equal. apply IH. set_solver. }
  rewrite !Hid; [done|done|]. intros Hin. apply (Hd t Hin). set_solver.
Qed.

Lemma remove_store hdr m a q t l1 l2 : relw hdr m a -> Fifo.queue a q = l1 ++ t :: l2 ->
  exists l' m', _remove_task t (last l1) (hdr q, m) = Done (tt, (l', m')) /\
    (forall u, fields <$> m' !! u = fields <$> m !! u) /\
    seg m' (head l') (l1 ++ l2) None /\ tail l' = last (l1 ++ l2) /\
    (forall u, u ∉ Fifo.queue a q -> m' !! u = m !! u).
Proof.
  intros Hr E. pose proof (rel_seg _ _ _ Hr q) as Hseg. pose proof (rel_tail _ _ _ Hr q) as Htl.
  pose proof (rel_nodup _ _ _ Hr q) as Hnd. rewrite E in Hseg, Htl, Hnd |- *.
  assert (Ht1 : t ∉ l1) by (intros Hin; apply NoDup_app in Hnd as (_ & Hd & _); apply (Hd t Hin); set_solver).
  assert (Ht2 : t ∉ l2) by (apply NoDup_app in Hnd as (_ & _ & Hd); by apply NoDup_cons in Hd as []).
  assert (Htail : last (l1 ++ t :: l2) = if decide (l2 = []) then Some t else last l2).
  { rewrite last_app_cons. case_decide as Hd; [by subst|by destruct l2]. }
  apply seg_app in Hseg as (r & Hs1 & Hs2). cbn in Hs2. destruct Hs2 as (-> & kt & Ht & Hs2).
  destruct (last_snoc_inv l1) as [->|(l1' & z & ->)].
  - cbn in Hs1, Htl, Htail |- *.
    exists (mkList (next kt) (last l2)), (<[t := set_next None kt]> m).
    split; [|split; [by intros; apply fields_set_next|split; [by apply seg_update_other|split; [done|]]]].
    + unfold _remove_task, get_next, set_head, set_tail, load. krun. cbn [fst snd].
      rewrite Ht. cbn [fst snd head tail]. rewrite bool_decide_true by done. cbn [fst snd head tail].
      rewrite Htl, Htail. case_decide as Hd.
      * subst l2. rewrite bool_decide_true by done. cbn. by rewrite (update_run _ _ _ _ _ Ht).
      * rewrite bool_decide_false by (intros [= Hl]; apply Ht2; by apply last_Some_elem_of).
        cbn. by rewrite (update_run _ _ _ _ _ Ht).
    + intros u Hu. rewrite lookup_insert_ne; [done|]. set_solver.
  - assert (Hnd1 : NoDup (l1' ++ [z])) by by apply NoDup_app in Hnd as (? & _ & _).
    destruct (seg_redirect m _ l1' z _ (next kt) Hnd1 Hs1) as (kz & Hz & Hnz & Hs1').
    assert (Hzt : z <> t) by (intros ->; apply Ht1; set_solver).
    assert (Hz2 : z ∉ l2).
    { intros Hin. apply NoDup_app in Hnd as (_ & Hd & _). apply (Hd z); set_solver. }
    assert (Hhd : head (hdr q) <> Some t).
    { intros Eh. destruct l1' as [|h l1']; cbn in Hs1; destruct Hs1 as (Eh' & _); rewrite Eh in Eh'.
      - by injection Eh' as ->.
      - injection Eh' as ->. apply Ht1. set_solver. }
    rewrite last_snoc.
    exists (mkList (head (hdr q)) (last ((l1' ++ [z]) ++ l2))),
           (<[t := set_next None kt]> (<[z := set_next (next kt) kz]> m)).
    split; [|split; [|split; [|split; [done|]]]].
    + unfold _remove_task, get_next, set_head, set_tail, load. krun. cbn [fst snd].
      rewrite Hz. cbn [fst snd]. rewrite Hnz, bool_decide_false by naive_solver. cbn [fst snd].
      rewrite Ht. cbn [fst snd head tail]. rewrite bool_decide_false by done. cbn [fst snd head tail].
      rewrite Htl, Htail. case_decide as Hd.
      * subst l2. rewrite bool_decide_true by done. cbn [fst snd head tail].
        rewrite (update_run _ _ _ _ _ Hz), (update_run t _ _ _ kt) by by rewrite lookup_insert_ne.
        by rewrite app_nil_r, last_snoc.
      * rewrite bool_decide_false by (intros [= Hl]; apply Ht2; by apply last_Some_elem_of).
        rewrite (update_run _ _ _ _ _ Hz), (update_run t _ _ _ kt) by by rewrite lookup_insert_ne.
        rewrite Htail in Htl. do 3 f_equal. revert Htl.
        destruct (hdr q) as [h tl]. cbn [head tail]. intros ->. f_equal.
        destruct l2 as [|w l2]; [done|]. by rewrite last_app_cons.
    + intros u. rewrite fields_set_next by by rewrite lookup_insert_ne. by apply fields_set_next.
    + apply seg_app. exists (next kt). split.
      * apply seg_update_other; [done|]. exact Hs1'.
      * apply seg_update_other; [done|]. by apply seg_update_other.
    + intros u Hu. rewrite !lookup_insert_ne by set_solver. done.
Qed.

Lemma remove_core hdr m a q t k l1 l2 : relw hdr m a -> Fifo.queue a q = l1 ++ t :: l2 ->
  Fifo.tcbs a !! t = Some k -> Fifo.a_in k = Some q ->
  exists l' m', _remove_task t (last l1) (hdr q, m) = Done (tt, (l', m')) /\
    relw (<[q := l']> hdr) m' (a_take q t k (l1 ++ l2) a).
Proof.
  intros Hr E Hk Hq. destruct (remove_store _ _ _ _ _ _ _ Hr E) as (l' & m' & Hrun & Hf & Hs & Htl & Ho).
  exists l', m'. split; [done|]. pose proof (rel_nodup _ _ _ Hr q) as Hnd. rewrite E in Hnd.
  apply (relw_take hdr m); try done.
  - intros u. rewrite E. apply NoDup_app in Hnd as (_ & Hd & Hnd2). apply NoDup_cons in Hnd2 as [Hni _].
    specialize (Hd u). set_solver.
  - apply NoDup_app in Hnd as (Hn1 & Hd & Hn2). apply NoDup_cons in Hn2 as [_ Hn2].
    apply NoDup_app. split; [done|]. split; [|done]. intros u Hu Hu2. apply (Hd u Hu). set_solver.
  - intros u q' Hu Hn. apply Ho. intros Hin. apply Hn. by apply (rel_disjoint _ _ _ u _ _ Hr).
Qed.

(** *** Updating the fields of a task *)

Definition a_modify (t : tid) (f : tcb -> tcb) (k : Fifo.atask) (a : Fifo.queues) : Fifo.queues :=
  Fifo.mkQueues (<[t := Fifo.mkATask (f (Fifo.a_fields k)) (Fifo.a_in k)]> (Fifo.tcbs a)) (Fifo.queue a).

Lemma modify_core hdr m a t k kt f : relw hdr m a -> Fifo.tcbs a !! t = Some k -> m !! t = Some kt ->
  relw hdr (<[t := set_fields f kt]> m) (a_modify t f k a).
Proof.
  intros Hr Hk Ht. destruct (rel_lookup _ _ _ _ _ Hr Hk) as (kt' & Ht' & Hf). simplify_eq.
  split; cbn.
  - intros u. destruct (decide (u = t)) as [->|].
    + rewrite !lookup_insert_eq. cbn. by rewrite Hf.
    + rewrite !lookup_insert_ne by done. apply (rel_fields _ _ _ Hr).
  - intros q. by apply (seg_update_same _ _ _ _ _ kt); [..|apply Hr].
  - apply Hr.
  - apply Hr.
  - intros u q. rewrite (rel_in _ _ _ Hr). destruct (decide (u = t)) as [->|].
    + rewrite lookup_insert_eq, Hk. split; intros (k' & [= <-] & E); eauto.
    + by rewrite lookup_insert_ne.
Qed.

Lemma rel_ready_none hdr m a l t : relw hdr m a -> Fifo.queue a QReady = l ++ [t] ->
  exists kt, m !! t = Some kt /\ next kt = None.
Proof.
  intros Hr E. pose proof (rel_seg _ _ _ Hr QReady) as Hs. pose proof (rel_nodup _ _ _ Hr QReady) as Hnd.
  rewrite E in Hs, Hnd. destruct (seg_redirect _ _ _ _ _ None Hnd Hs) as (k & Hk & Hn & _). eauto.
Qed.

(** *** Waking one task *)

Lemma fifo_wakeup_inv t a a' : Fifo.wakeup t a = Done (tt, a') ->
  exists k, Fifo.tcbs a !! t = Some k /\ Fifo.a_in k = None /\
    a' = a_enqueue QReady t (Fifo.mkATask (woken (Fifo.a_fields k)) None) (a_modify t woken k a).
Proof.
  unfold Fifo.wakeup, Fifo.modify, Fifo.enqueue. krun. destruct (Fifo.tcbs a !! t) as [[k o]|] eqn:Hk; [|done].
  cbn. rewrite lookup_insert_eq. destruct o; [done|]. intros [= <-].
  eexists. split; [done|]. split; [done|]. reflexivity.
Qed.

Lemma wakeup_core hdr c a a' t : relw hdr (tasks c) a -> hdr QReady = lists c QReady ->
  Fifo.wakeup t a = Done (tt, a') ->
  exists c', (_wakeup t ;; clear_next t) c = Done (tt, c') /\
    (forall q, q <> QReady -> lists c' q = lists c q) /\
    relw (<[QReady := lists c' QReady]> hdr) (tasks c') a'.
Proof.
  intros Hr Hh Hw. apply fifo_wakeup_inv in Hw as (k & Hk & Hn & ->).
  destruct (rel_lookup _ _ _ _ _ Hr Hk) as (kt & Ht & Hf).
  pose proof (modify_core _ _ _ _ _ _ woken Hr Hk Ht) as Hr1.
  destruct (enqueue_core _ _ _ QReady t (Fifo.mkATask (woken (Fifo.a_fields k)) None) Hr1)
    as (l' & m' & Hrun & Hr2); [unfold a_modify; cbn; by rewrite lookup_insert_eq, Hn|done|].
  destruct (rel_ready_none _ _ _ (Fifo.queue a QReady) t Hr2) as (kt' & Ht' & Hnone);
    [unfold a_enqueue; cbn; by rewrite fn_lookup_insert|].
  exists (mkQueues m' (<[QReady := l']> (lists c))). split; [|split].
  - rewrite Hh in Hrun. unfold _wakeup, clear_next, enqueue, on_list, modify. krun. rewrite Ht. cbn [tasks lists].
    rewrite lookup_insert_eq, insert_insert_eq. cbn [tasks lists].
    change (set_fields (set_wakeup_time NEVER) (set_fields (set_state TASK_READY) kt)) with (set_fields woken kt).
    rewrite Hrun. cbn [fst snd tasks lists]. rewrite Ht'. do 3 f_equal.
    apply insert_id. rewrite Ht'. destruct kt'. cbn in *. by subst.
  - intros q Hq. cbn. by rewrite fn_lookup_insert_ne.
  - cbn. rewrite fn_lookup_insert. exact Hr2.
Qed.

Lemma relw_lists hdr c a q l : relw (<[q := l]> hdr) (tasks c) a -> lists c q = l ->
  (forall q', q' <> q -> hdr q' = lists c q') -> rel c a.
Proof.
  intros Hr Hl Ho. unfold rel. eapply relw_ext; [|exact Hr]. intros q'. cbn.
  destruct (decide (q = q')) as [->|]; [by rewrite fn_lookup_insert|].
  rewrite fn_lookup_insert_ne by done. by apply Ho.
Qed.

(** *** The loop of the timer handler *)

Lemma next_of_run hdr c a q kept t rest : relw hdr (tasks c) a -> Fifo.queue a q = kept ++ t :: rest ->
  next_of t c = Done (List.head rest, c) /\
  exists k, Fifo.tcbs a !! t = Some k /\ Fifo.a_in k = Some q /\
            fields_of t c = Done (Fifo.a_fields k) /\ Fifo.fields_of t a = Done (Fifo.a_fields k).
Proof.
  intros Hr E. pose proof (rel_seg _ _ _ Hr q) as Hs. rewrite E in Hs.
  apply seg_app in Hs as (r & _ & (-> & kt & Ht & Hs)). apply seg_head in Hs.
  destruct (proj1 (rel_in _ _ _ Hr t q)) as (k & Hk & Hq); [rewrite E; set_solver|].
  destruct (rel_lookup _ _ _ _ _ Hr Hk) as (kt' & Ht' & Hf). simplify_eq.
  unfold next_of, fields_of, Fifo.fields_of, Fifo.load, load. krun. rewrite Ht, Hk. rewrite Hs, Hf. eauto 10.
Qed.

Lemma wake_loop_sim time rest : forall fuel kept need c a x a',
  (length rest <= fuel)%nat -> rel c a -> Fifo.queue a QSleeping = kept ++ rest ->
  Fifo.wake_loop time rest need a = Done (x, a') ->
  exists c', wake_loop fuel time (last kept) (List.head rest) need c = Done (x, c') /\ rel c' a'.
Proof.
  induction rest as [|t rest IH]; intros fuel kept need c a x a' Hfuel Hr E; cbn [Fifo.wake_loop].
  - intros [= <- <-]. exists c. split; [by destruct fuel|done].
  - cbn in Hfuel. destruct fuel as [|fuel]; [lia|]. cbn [wake_loop List.head].
    destruct (next_of_run _ _ _ _ _ _ _ Hr E) as (Hn & k & Hk & Hq & Hf & Hfa).
    rewrite (run_bind_done _ _ _ _ _ Hn). rewrite !run_bind. unfold kread. rewrite Hf, Hfa.
    destruct (wakeup_time (Fifo.a_fields k) <=? time).
    + rewrite run_bind. unfold Fifo.remove at 1. rewrite Hk, bool_decide_true by done.
      rewrite E, filter_split by (rewrite <- E; apply Hr).
      change (Fifo.mkQueues _ _) with (a_take QSleeping t k (kept ++ rest) a).
      destruct (remove_core _ _ _ _ _ _ _ _ Hr E Hk Hq) as (l' & m' & Hrun & Hr1).
      rewrite run_bind. destruct (Fifo.wakeup t _) as [[[] a2]| | |] eqn:Hw; try done. intros Hloop.
      destruct (wakeup_core _ (mkQueues m' (<[QSleeping := l']> (lists c))) _ _ _ Hr1 eq_refl Hw)
        as (c2 & Hrun2 & Hl2 & Hr2).
      assert (Hr2' : rel c2 a2).
      { apply (relw_lists _ _ _ _ _ Hr2); [done|]. intros q' Hq'. by rewrite Hl2. }
      assert (E2 : Fifo.queue a2 QSleeping = kept ++ rest).
      { apply fifo_wakeup_inv in Hw as (k2 & _ & _ & ->). cbn.
        rewrite fn_lookup_insert_ne by done. by rewrite fn_lookup_insert. }
      destruct (IH fuel kept true c2 a2 x a' ltac:(lia) Hr2' E2 Hloop) as (c' & Hrun' & Hr').
      exists c'. split; [|done]. unfold on_list, kzoom. rewrite run_bind. cbn beta. rewrite Hrun. cbn [fst snd].
      rewrite <- run_bind_assoc in *. revert Hrun2. krun.
      destruct (_wakeup t _) as [[? ?]| | |]; try done. destruct (clear_next t _) as [[? ?]| | |]; try done.
      by intros [= -> ->].
    + intros Hloop. destruct (IH fuel (kept ++ [t]) need c a x a' ltac:(lia) Hr) as (c' & Hrun' & Hr').
      { by rewrite E, <- app_assoc. } { done. }
      exists c'. rewrite last_snoc in Hrun'. done.
Qed.

(** The stored tasks bound the length of every list, so the loops end. *)
Lemma rel_fuel hdr c a q : relw hdr (tasks c) a -> (length (Fifo.queue a q) <= size (tasks c))%nat.
Proof.
  intros Hr. rewrite <- size_dom. rewrite <- (size_list_to_set (C := gset tid)) by apply Hr.
  apply subseteq_size. intros t Ht. apply elem_of_list_to_set in Ht. apply elem_of_dom.
  destruct (seg_lookup _ _ _ _ _ Ht (rel_seg _ _ _ Hr q)) as [k ->]. eauto.
Qed.

Lemma rel_head hdr m a q : relw hdr m a -> head (hdr q) = List.head (Fifo.queue a q).
Proof. intros Hr. apply (seg_head m), Hr. Qed.

(** *** The loop of [tasks_sync_unblock] *)

Definition run_list (l : list tid) : tasklist := mkList (List.head l) (last l).

Lemma pop_core hdr m a q t rest : relw hdr m a -> Fifo.queue a q = t :: rest ->
  exists k, Fifo.tcbs a !! t = Some k /\ Fifo.a_in k = Some q /\
    Fifo.remove q t a = Done (tt, a_take q t k rest a) /\
    relw (<[q := run_list rest]> hdr) m (a_take q t k rest a).
Proof.
  intros Hr E. destruct (queue_head_in _ _ _ _ _ _ Hr E) as (k & Hk & Hq & Hni & Hnd & Hl).
  exists k. do 2 (split; [done|]). split.
  - unfold Fifo.remove. rewrite Hk, bool_decide_true by done. rewrite E.
    assert (Hnd2 : NoDup ([] ++ t :: rest)) by (cbn; rewrite <- E; apply Hr).
    pose proof (filter_split [] rest t Hnd2) as Hf. cbn [app] in Hf. by rewrite Hf.
  - pose proof (rel_seg _ _ _ Hr q) as Hs. rewrite E in Hs. destruct Hs as (_ & kt & Ht & Hs).
    apply (relw_take hdr m); try done. cbn. by rewrite <- (seg_head _ _ _ Hs).
Qed.

Lemma unblock_loop_sim q rest : q <> QReady -> forall fuel hdr c a a',
  (length rest <= fuel)%nat -> relw hdr (tasks c) a -> (forall q', q' <> q -> hdr q' = lists c q') ->
  Fifo.queue a q = rest -> Fifo.unblock_loop q rest a = Done (tt, a') ->
  exists c', unblock_loop fuel (List.head rest) c = Done (tt, c') /\
    relw (<[q := empty_list]> (lists c')) (tasks c') a'.
Proof.
  intros Hq. induction rest as [|t rest IH]; intros fuel hdr c a a' Hfuel Hr Hh E; cbn [Fifo.unblock_loop].
  - intros [= <-]. exists c. split; [by destruct fuel|]. eapply relw_ext; [|exact Hr]. intros q'.
    destruct (decide (q = q')) as [<-|]; [|rewrite fn_lookup_insert_ne by done; by apply Hh].
    rewrite fn_lookup_insert. pose proof (rel_head _ _ _ q Hr) as H1. pose proof (rel_tail _ _ _ Hr q) as H2.
    rewrite E in H1, H2. destruct (hdr q). cbn in *. by subst.
  - cbn in Hfuel. destruct fuel as [|fuel]; [lia|]. cbn [unblock_loop List.head].
    destruct (next_of_run _ _ _ _ [] _ _ Hr E) as (Hn & _).
    destruct (pop_core _ _ _ _ _ _ Hr E) as (k & Hk & Hin & Hrem & Hr1).
    rewrite (run_bind_done _ _ _ _ _ Hn), (run_bind_done _ _ _ _ _ Hrem), run_bind.
    destruct (Fifo.wakeup t _) as [[[] a2]| | |] eqn:Hw; try done. intros Hloop.
    assert (Hh1 : <[q := run_list rest]> hdr QReady = lists c QReady)
      by (rewrite fn_lookup_insert_ne by done; by apply Hh).
    destruct (wakeup_core _ c _ _ _ Hr1 Hh1 Hw) as (c2 & Hrun2 & Hl2 & Hr2).
    assert (E2 : Fifo.queue a2 q = rest).
    { apply fifo_wakeup_inv in Hw as (k2 & _ & _ & ->). cbn.
      rewrite fn_lookup_insert_ne by done. by rewrite fn_lookup_insert. }
    destruct (IH fuel _ c2 a2 a' ltac:(lia) Hr2) as (c' & Hrun' & Hr'); [|done|done|].
    { intros q' Hq'. destruct (decide (QReady = q')) as [<-|]; [by rewrite fn_lookup_insert|].
      rewrite !fn_lookup_insert_ne by done. by rewrite Hl2, Hh. }
    exists c'. split; [|done]. rewrite <- Hrun'. rewrite <- run_bind_assoc.
    rewrite <- (run_bind_done _ (fun _ => unblock_loop fuel (List.head rest)) _ _ _ Hrun2). reflexivity.
Qed.

(** ** Every operation of the implementation simulates its specification *)

(** An operation of the implementation does what the specification's does,
    whenever the latter is defined. *)
Definition simulates {A} (op : K queues A) (spec : K Fifo.queues A) : Prop :=
  forall c a x a', rel c a -> spec a = Done (x, a') -> exists c', op c = Done (x, c') /\ rel c' a'.

Lemma fields_sim t c a k : rel c a -> Fifo.fields_of t a = Done k -> fields_of t c = Done k.
Proof.
  intros Hr. unfold Fifo.fields_of, Fifo.load, fields_of, load. krun.
  destruct (Fifo.tcbs a !! t) as [ka|] eqn:Hk; [|done]. intros [= <-].
  destruct (rel_lookup _ _ _ _ _ Hr Hk) as (kt & -> & <-). done.
Qed.

Lemma modify_sim t f : simulates (modify t f) (Fifo.modify t f).
Proof.
  intros c a x a' Hr. unfold Fifo.modify, modify. destruct (Fifo.tcbs a !! t) as [k|] eqn:Hk; [|done].
  intros [= <- <-]. destruct (rel_lookup _ _ _ _ _ Hr Hk) as (kt & Ht & _). rewrite Ht.
  eexists. split; [done|]. by apply modify_core.
Qed.

Lemma enqueue_sim q t : simulates (enqueue q t) (Fifo.enqueue q t).
Proof.
  intros c a x a' Hr. unfold Fifo.enqueue, enqueue, on_list. krun.
  destruct (Fifo.tcbs a !! t) as [[k [o|]]|] eqn:Hk; [done| |done]. intros [= <- <-].
  destruct (enqueue_core _ _ _ q t _ Hr Hk eq_refl) as (l' & m' & Hrun & Hr'). rewrite Hrun.
  eexists. split; [reflexivity|]. exact Hr'.
Qed.

Lemma dequeue_sim q : simulates (dequeue q) (Fifo.dequeue q).
Proof.
  intros c a x a' Hr. pose proof (dequeue_core _ _ _ q Hr) as Hd.
  unfold Fifo.dequeue, dequeue, on_list. krun. destruct (Fifo.queue a q) as [|t l].
  - intros [= <- <-]. rewrite Hd. eexists. split; [reflexivity|].
    eapply relw_ext; [|exact Hr]. intros q'. cbn. destruct (decide (q = q')) as [->|].
    + by rewrite fn_lookup_insert.
    + by rewrite fn_lookup_insert_ne.
  - destruct Hd as (k & l' & m' & -> & -> & Hr'). intros [= <- <-].
    eexists. split; [reflexivity|]. exact Hr'.
Qed.

Lemma is_empty_sim q c a : rel c a -> is_empty q c = Fifo.is_empty q a.
Proof.
  intros Hr. unfold is_empty, Fifo.is_empty. rewrite (rel_head _ _ _ q Hr).
  apply bool_decide_ext. by destruct (Fifo.queue a q).
Qed.

Lemma wake_expired_sim time : simulates (wake_expired time) (Fifo.wake_expired time).
Proof.
  intros c a x a' Hr. unfold wake_expired, Fifo.wake_expired, kget. rewrite !run_bind.
  intros Hw. rewrite (rel_head _ _ _ _ Hr).
  apply (wake_loop_sim _ _ _ [] _ _ _ _ _ (rel_fuel _ _ _ _ Hr) Hr eq_refl Hw).
Qed.

Lemma wake_all_sim q : q <> QReady -> simulates (wake_all q) (Fifo.wake_all q).
Proof.
  intros Hq c a [] a' Hr. unfold wake_all, Fifo.wake_all, kget. rewrite !run_bind.
  intros Hw. rewrite (rel_head _ _ _ _ Hr).
  destruct (unblock_loop_sim q _ Hq _ _ _ _ _ (rel_fuel _ _ _ q Hr) Hr (fun _ _ => eq_refl) eq_refl Hw)
    as (c' & Hrun & Hr').
  unfold on_list, set_head, set_tail. krun. rewrite Hrun. cbn.
  eexists. split; [reflexivity|]. unfold rel. cbn. rewrite fn_lookup_insert. cbn.
  eapply relw_ext; [|exact Hr']. intros q'. destruct (decide (q = q')) as [->|].
  - by rewrite !fn_lookup_insert.
  - by rewrite !fn_lookup_insert_ne.
Qed.

Lemma rel_unqueued hdr m a t : relw hdr m a -> (forall k, Fifo.tcbs a !! t = Some k -> Fifo.a_in k = None) ->
  forall q, t ∉ Fifo.queue a q.
Proof.
  intros Hr Hn q Hin. apply (rel_in _ _ _ Hr) in Hin as (k & Hk & E). specialize (Hn k Hk). congruence.
Qed.

Lemma new_sim t k : simulates (new_task t k) (Fifo.new_task t k).
Proof.
  intros c a x a' Hr Hspec.
  assert (Hu : forall k', Fifo.tcbs a !! t = Some k' -> Fifo.a_in k' = None).
  { intros k' Hk. unfold Fifo.new_task in Hspec. rewrite Hk in Hspec. by destruct k' as [? []]. }
  pose proof (rel_unqueued _ _ _ _ Hr Hu) as Hnot.
  assert (Hs : x = tt /\ a' = Fifo.mkQueues (<[t := Fifo.mkATask k None]> (Fifo.tcbs a)) (Fifo.queue a)).
  { unfold Fifo.new_task in Hspec. destruct (Fifo.tcbs a !! t) as [[? []]|]; by simplify_eq. }
  destruct Hs as [-> ->]. eexists. split; [reflexivity|]. split; cbn; try apply Hr.
  - intros u. destruct (decide (u = t)) as [->|]; [by rewrite !lookup_insert_eq|].
    rewrite !lookup_insert_ne by done. apply Hr.
  - intros q. apply seg_update_other; [apply Hnot|apply Hr].
  - intros u q. rewrite (rel_in _ _ _ Hr). destruct (decide (u = t)) as [->|].
    + rewrite lookup_insert_eq. split; intros (k' & E & E'); [|by simplify_eq]. specialize (Hu _ E). congruence.
    + by rewrite lookup_insert_ne.
Qed.

Lemma free_sim t : simulates (free_task t) (Fifo.free_task t).
Proof.
  intros c a x a' Hr. unfold Fifo.free_task, free_task.
  destruct (Fifo.tcbs a !! t) as [[k [o|]]|] eqn:Hk; [done| |done]. intros [= <- <-].
  destruct (rel_lookup _ _ _ _ _ Hr Hk) as (kt & -> & _). eexists. split; [done|].
  pose proof (rel_unqueued _ _ _ t Hr) as Hnot. rewrite Hk in Hnot.
  specialize (Hnot ltac:(by intros ? [= <-])). split; cbn; try apply Hr.
  - intros u. destruct (decide (u = t)) as [->|]; [by rewrite !lookup_delete_eq|].
    rewrite !lookup_delete_ne by done. apply Hr.
  - intros q. apply (seg_frame (tasks c)); [|apply Hr]. intros u Hu.
    rewrite lookup_delete_ne; [done|]. intros <-. by apply (Hnot q).
  - intros u q. rewrite (rel_in _ _ _ Hr). destruct (decide (u = t)) as [->|].
    + rewrite lookup_delete_eq, Hk. split; intros (k' & E & E'); by simplify_eq.
    + by rewrite lookup_delete_ne.
Qed.

End Sim.
