(* ===== verification/Tasks.v ===== *)
(** * The scheduler (Kernel/Scheduler/tasks.cpp, tasks.hpp; Arch/i686/timer.cpp)

    Every operation of the scheduler, written once against the interface
    [TaskQueues] of its task lists.  Run over [Ptr.queues] it is the code; run
    over [Fifo.queues] it is its specification (TasksRefinement.v proves that the
    first refines the second).

    Interrupts that arrive while a task runs are calls of [timer_callback]
    between two calls of the interface; the interrupts that end the [hlt] of
    the idle loop come from the list [irqs], and the readings of [__rdtsc] from
    the list [tsc].  A run that exhausts one of the lists is [Stuck].

    After [tasks_switch_to] the processor is in the context of another task:
    one that was suspended in the same place, at the end of [_schedule] under
    the outermost [_release_scheduler_lock], or a new task in [_task_starting].
    Both go on with the same statements, the last ones of
    [_release_scheduler_lock], so that the operations can be read as straight
    line code that changes [current_task]. *)
From S2P Require Import Prelude Words PageTypes TaskLists.
From Stdlib Require Import ZArith Lia Bool.
From stdpp Require Import base strings numbers functions gmap list.
#[local] Open Scope Z_scope.

(** ** State *)

(** The registers and the stack memory [tasks_switch_to] works on.  [mem] maps
    the address of a 32-bit word to its value. *)
Record cpu := mkCpu {
  ebx : Z; esi : Z; edi : Z; ebp : Z; esp : Z; eip : Z; cr3 : Z;
  IF : bool;
  mem : Z -> Z;
}.

Inductive irq := IrqTimer | IrqOther.
(** The functions that are registered with [timer_register_callback]. *)
Inductive callback := CbOnTimer.

Record env := mkEnv {
  current_task : option tid;
  _idle_time : Z;
  _idle_start : Z;
  _last_time : Z;
  _time_slice_remaining : Z;
  _last_timer_time : Z;
  _scheduler_lock : Z;
  _scheduler_postpone_count : Z;
  _scheduler_postponed : bool;
  _instr_per_ns : Z;
  timer_tick : Z;
  _callbacks : list callback;
  cpu_of : cpu;
  tsc : list Z;            (* the coming readings of the time stamp counter *)
  irqs : list irq;         (* the coming interrupts *)
  freed_pages : list Z;    (* the pages passed to Memory::freePage, last first *)
}.

Record sched (X : Type) := mkSched { qs : X; ev : env }.
Arguments mkSched {X} qs ev.
Arguments qs {X} s.
Arguments ev {X} s.

Definition set_current v e := mkEnv v (_idle_time e) (_idle_start e) (_last_time e)
  (_time_slice_remaining e) (_last_timer_time e) (_scheduler_lock e) (_scheduler_postpone_count e)
  (_scheduler_postponed e) (_instr_per_ns e) (timer_tick e) (_callbacks e) (cpu_of e) (tsc e) (irqs e) (freed_pages e).
Definition set_idle_time v e := mkEnv (current_task e) v (_idle_start e) (_last_time e)
  (_time_slice_remaining e) (_last_timer_time e) (_scheduler_lock e) (_scheduler_postpone_count e)
  (_scheduler_postponed e) (_instr_per_ns e) (timer_tick e) (_callbacks e) (cpu_of e) (tsc e) (irqs e) (freed_pages e).
Definition set_idle_start v e := mkEnv (current_task e) (_idle_time e) v (_last_time e)
  (_time_slice_remaining e) (_last_timer_time e) (_scheduler_lock e) (_scheduler_postpone_count e)
  (_scheduler_postponed e) (_instr_per_ns e) (timer_tick e) (_callbacks e) (cpu_of e) (tsc e) (irqs e) (freed_pages e).
Definition set_last_time v e := mkEnv (current_task e) (_idle_time e) (_idle_start e) v
  (_time_slice_remaining e) (_last_timer_time e) (_scheduler_lock e) (_scheduler_postpone_count e)
  (_scheduler_postponed e) (_instr_per_ns e) (timer_tick e) (_callbacks e) (cpu_of e) (tsc e) (irqs e) (freed_pages e).
Definition set_slice v e := mkEnv (current_task e) (_idle_time e) (_idle_start e) (_last_time e)
  v (_last_timer_time e) (_scheduler_lock e) (_scheduler_postpone_count e)
  (_scheduler_postponed e) (_instr_per_ns e) (timer_tick e) (_callbacks e) (cpu_of e) (tsc e) (irqs e) (freed_pages e).
Definition set_last_timer v e := mkEnv (current_task e) (_idle_time e) (_idle_start e) (_last_time e)
  (_time_slice_remaining e) v (_scheduler_lock e) (_scheduler_postpone_count e)
  (_scheduler_postponed e) (_instr_per_ns e) (timer_tick e) (_callbacks e) (cpu_of e) (tsc e) (irqs e) (freed_pages e).
Definition set_lock v e := mkEnv (current_task e) (_idle_time e) (_idle_start e) (_last_time e)
  (_time_slice_remaining e) (_last_timer_time e) v (_scheduler_postpone_count e)
  (_scheduler_postponed e) (_instr_per_ns e) (timer_tick e) (_callbacks e) (cpu_of e) (tsc e) (irqs e) (freed_pages e).
Definition set_postpone v e := mkEnv (current_task e) (_idle_time e) (_idle_start e) (_last_time e)
  (_time_slice_remaining e) (_last_timer_time e) (_scheduler_lock e) v
  (_scheduler_postponed e) (_instr_per_ns e) (timer_tick e) (_callbacks e) (cpu_of e) (tsc e) (irqs e) (freed_pages e).
Definition set_postponed v e := mkEnv (current_task e) (_idle_time e) (_idle_start e) (_last_time e)
  (_time_slice_remaining e) (_last_timer_time e) (_scheduler_lock e) (_scheduler_postpone_count e)
  v (_instr_per_ns e) (timer_tick e) (_callbacks e) (cpu_of e) (tsc e) (irqs e) (freed_pages e).
Definition set_instr v e := mkEnv (current_task e) (_idle_time e) (_idle_start e) (_last_time e)
  (_time_slice_remaining e) (_last_timer_time e) (_scheduler_lock e) (_scheduler_postpone_count e)
  (_scheduler_postponed e) v (timer_tick e) (_callbacks e) (cpu_of e) (tsc e) (irqs e) (freed_pages e).
Definition set_tick v e := mkEnv (current_task e) (_idle_time e) (_idle_start e) (_last_time e)
  (_time_slice_remaining e) (_last_timer_time e) (_scheduler_lock e) (_scheduler_postpone_count e)
  (_scheduler_postponed e) (_instr_per_ns e) v (_callbacks e) (cpu_of e) (tsc e) (irqs e) (freed_pages e).
Definition set_callbacks v e := mkEnv (current_task e) (_idle_time e) (_idle_start e) (_last_time e)
  (_time_slice_remaining e) (_last_timer_time e) (_scheduler_lock e) (_scheduler_postpone_count e)
  (_scheduler_postponed e) (_instr_per_ns e) (timer_tick e) v (cpu_of e) (tsc e) (irqs e) (freed_pages e).
Definition set_cpu v e := mkEnv (current_task e) (_idle_time e) (_idle_start e) (_last_time e)
  (_time_slice_remaining e) (_last_timer_time e) (_scheduler_lock e) (_scheduler_postpone_count e)
  (_scheduler_postponed e) (_instr_per_ns e) (timer_tick e) (_callbacks e) v (tsc e) (irqs e) (freed_pages e).
Definition set_tsc v e := mkEnv (current_task e) (_idle_time e) (_idle_start e) (_last_time e)
  (_time_slice_remaining e) (_last_timer_time e) (_scheduler_lock e) (_scheduler_postpone_count e)
  (_scheduler_postponed e) (_instr_per_ns e) (timer_tick e) (_callbacks e) (cpu_of e) v (irqs e) (freed_pages e).
Definition set_irqs v e := mkEnv (current_task e) (_idle_time e) (_idle_start e) (_last_time e)
  (_time_slice_remaining e) (_last_timer_time e) (_scheduler_lock e) (_scheduler_postpone_count e)
  (_scheduler_postponed e) (_instr_per_ns e) (timer_tick e) (_callbacks e) (cpu_of e) (tsc e) v (freed_pages e).
Definition set_freed v e := mkEnv (current_task e) (_idle_time e) (_idle_start e) (_last_time e)
  (_time_slice_remaining e) (_last_timer_time e) (_scheduler_lock e) (_scheduler_postpone_count e)
  (_scheduler_postponed e) (_instr_per_ns e) (timer_tick e) (_callbacks e) (cpu_of e) (tsc e) (irqs e) v.

(** The processor's registers. *)
Definition set_ebx v c := mkCpu v (esi c) (edi c) (ebp c) (esp c) (eip c) (cr3 c) (IF c) (mem c).
Definition set_esi v c := mkCpu (ebx c) v (edi c) (ebp c) (esp c) (eip c) (cr3 c) (IF c) (mem c).
Definition set_edi v c := mkCpu (ebx c) (esi c) v (ebp c) (esp c) (eip c) (cr3 c) (IF c) (mem c).
Definition set_ebp v c := mkCpu (ebx c) (esi c) (edi c) v (esp c) (eip c) (cr3 c) (IF c) (mem c).
Definition set_esp v c := mkCpu (ebx c) (esi c) (edi c) (ebp c) v (eip c) (cr3 c) (IF c) (mem c).
Definition set_eip v c := mkCpu (ebx c) (esi c) (edi c) (ebp c) (esp c) v (cr3 c) (IF c) (mem c).
Definition set_cr3 v c := mkCpu (ebx c) (esi c) (edi c) (ebp c) (esp c) (eip c) v (IF c) (mem c).
Definition set_IF v c := mkCpu (ebx c) (esi c) (edi c) (ebp c) (esp c) (eip c) (cr3 c) v (mem c).
Definition set_mem v c := mkCpu (ebx c) (esi c) (edi c) (ebp c) (esp c) (eip c) (cr3 c) (IF c) v.

(** A push and a pop of a 32-bit word. *)
Definition push (v : Z) (c : cpu) : cpu :=
  let p := u32 (esp c - 4) in set_mem (<[p := v]> (mem c)) (set_esp p c).
Definition pop (set : Z -> cpu -> cpu) (c : cpu) : cpu :=
  set (mem c (esp c)) (set_esp (u32 (esp c + 4)) c).

Definition TIME_SLICE_SIZE : Z := 1 * 1000 * 1000.
Definition MAX_CALLBACKS : Z := 8.

(** The addresses of the kernel's code the scheduler puts on stacks. *)
Class KernelText := {
  addr_task_starting : Z;
  addr_task_stopping : Z;
  addr_cleaner_task_impl : Z;
  addr_after_switch : Z;     (* the return address of the call of tasks_switch_to *)
  addr_of_task : tid -> Z;
  addr_cleaner_task : tid;   (* &_cleaner_task *)
  addr_first_task : tid;     (* &_first_task *)
  page_dir_phys_addr : Z;    (* what Memory::getPageDirPhysAddr returns *)
}.

Section scheduler.
Context {X : Type} `{TaskQueues X} `{KernelText}.

(** Operations on the parts of the state. *)
Definition onq {A} (m : K X A) : K (sched X) A := kzoom qs (fun x s => mkSched x (ev s)) m.
Definition eget {A} (f : env -> A) : K (sched X) A := kgets (fun s => f (ev s)).
Definition emod (f : env -> env) : K (sched X) unit := kmodify (fun s => mkSched (qs s) (f (ev s))).
Definition cmod (f : cpu -> cpu) : K (sched X) unit := emod (fun e => set_cpu (f (cpu_of e)) e).
Definition qfields (t : tid) : K (sched X) tcb := onq (kread (tq_fields t)).

Definition cli : K (sched X) unit := cmod (set_IF false).
Definition sti : K (sched X) unit := cmod (set_IF true).

(** [current_task->...] with [current_task == NULL] is a null dereference. *)
Definition current : K (sched X) tid :=
  c ← eget current_task ; match c with Some t => mret t | None => kfault end.

(** ** Time *)

Definition __rdtsc : K (sched X) Z :=
  l ← eget tsc ;
  match l with [] => kstuck | r :: l' => emod (set_tsc l') ;; mret (u64 r) end.

Definition _get_cpu_time_ns : K (sched X) Z :=
  r ← __rdtsc ;
  n ← eget _instr_per_ns ;
  if n =? 0 then kfault else mret (r / n).

Definition tasks_update_time : K (sched X) unit :=
  current_time ← _get_cpu_time_ns ;
  last ← eget _last_time ;
  let delta := u64 (current_time - last) in
  c ← eget current_task ;
  (match c with
   | None => emod (fun e => set_idle_time (u64 (_idle_time e + delta)) e)
   | Some t => onq (tq_modify t (fun k => set_time_used (u64 (time_used k + delta)) k))
   end) ;;
  emod (set_last_time current_time).

(** ** The lock *)

Definition _aquire_scheduler_lock : K (sched X) unit :=
  cli ;;
  emod (fun e => set_postpone (u32 (_scheduler_postpone_count e + 1)) e) ;;
  emod (fun e => set_lock (u32 (_scheduler_lock e + 1)) e).

(** The last statements of [_release_scheduler_lock], after the schedule. *)
Definition unlock : K (sched X) unit :=
  emod (fun e => set_lock (u32 (_scheduler_lock e - 1)) e) ;;
  l ← eget _scheduler_lock ;
  kwhen (l =? 0) sti.

(** [_schedule] and the functions it calls through the interrupt handler are
    recursive: [schedule] is the callee. *)
Definition release_with (schedule : K (sched X) unit) : K (sched X) unit :=
  emod (fun e => set_postpone (u32 (_scheduler_postpone_count e - 1)) e) ;;
  n ← eget _scheduler_postpone_count ;
  b ← eget _scheduler_postponed ;
  kwhen ((n =? 0) && b) (emod (set_postponed false) ;; schedule) ;;
  unlock.

Definition _task_starting : K (sched X) unit :=
  emod (fun e => set_lock (u32 (_scheduler_lock e - 1)) e) ;;
  l ← eget _scheduler_lock ;
  kwhen (l =? 0) sti.

(** ** Interrupts *)

Definition on_timer_with (schedule : K (sched X) unit) : K (sched X) unit :=
  _aquire_scheduler_lock ;;
  time ← _get_cpu_time_ns ;
  need_schedule ← onq (tq_wake_expired time) ;
  slice ← eget _time_slice_remaining ;
  last ← eget _last_timer_time ;
  need_schedule ←
    (if slice =? 0 then mret need_schedule
     else
       let time_delta := u64 (time - last) in
       emod (set_last_timer time) ;;
       if time_delta >=? slice then mret true
       else emod (set_slice (u64 (slice - time_delta))) ;; mret need_schedule) ;
  kwhen need_schedule schedule ;;
  release_with schedule.

Definition run_callback (schedule : K (sched X) unit) (cb : callback) : K (sched X) unit :=
  match cb with CbOnTimer => on_timer_with schedule end.
Fixpoint run_callbacks (schedule : K (sched X) unit) (l : list callback) : K (sched X) unit :=
  match l with [] => mret tt | cb :: l' => run_callback schedule cb ;; run_callbacks schedule l' end.

(** The handler of IRQ 0.  The gate clears [IF] and the [iret] restores it. *)
Definition timer_callback_with (schedule : K (sched X) unit) : K (sched X) unit :=
  cli ;;
  emod (fun e => set_tick (u32 (timer_tick e + 1)) e) ;;
  l ← eget _callbacks ;
  run_callbacks schedule l ;;
  sti.

Definition interrupt (schedule : K (sched X) unit) (i : irq) : K (sched X) unit :=
  match i with IrqTimer => timer_callback_with schedule | IrqOther => mret tt end.

(** [hlt] waits for the next interrupt. *)
Definition hlt (schedule : K (sched X) unit) : K (sched X) unit :=
  l ← eget irqs ;
  match l with [] => kstuck | i :: l' => emod (set_irqs l') ;; interrupt schedule i end.

Fixpoint idle_loop (schedule : K (sched X) unit) (n : nat) : K (sched X) tid :=
  match n with
  | O => kstuck
  | S n' =>
      sti ;; hlt schedule ;; cli ;;
      task ← onq (tq_dequeue QReady) ;
      match task with Some t => mret t | None => idle_loop schedule n' end
  end.

(** ** The context switch (Arch/i686/Assembly/tasks.s) *)

Definition tasks_switch_to (task : tid) : K (sched X) unit :=
  e ← eget (fun e => cpu_of e) ;
  cmod (push (ebx e)) ;; cmod (push (esi e)) ;; cmod (push (edi e)) ;; cmod (push (ebp e)) ;;
  previous ← current ;
  sp ← eget (fun e => esp (cpu_of e)) ;
  onq (tq_modify previous (set_stack_top sp)) ;;
  k ← qfields previous ;
  kwhen (bool_decide (state k = TASK_RUNNING))
    (onq (tq_modify previous (set_state TASK_READY)) ;; onq (tq_enqueue QReady previous)) ;;
  emod (set_current (Some task)) ;;
  k ← qfields task ;
  cmod (set_esp (stack_top k)) ;;
  onq (tq_modify task (set_state TASK_RUNNING)) ;;
  k ← qfields task ;
  c ← eget (fun e => cr3 (cpu_of e)) ;
  kwhen (negb (page_dir k =? c)) (cmod (set_cr3 (page_dir k))) ;;
  cmod (pop set_ebp) ;; cmod (pop set_edi) ;; cmod (pop set_esi) ;; cmod (pop set_ebx) ;;
  cmod (pop set_eip).

(** The call: the argument and the return address are on the stack. *)
Definition call_switch_to (task : tid) : K (sched X) unit :=
  cmod (push (addr_of_task task)) ;; cmod (push addr_after_switch) ;; tasks_switch_to task.

(** ** [_schedule] *)

Definition switch (task : tid) : K (sched X) unit :=
  emod (set_slice TIME_SLICE_SIZE) ;;
  t ← _get_cpu_time_ns ;
  emod (set_last_timer t) ;;
  call_switch_to task.

Definition idle (schedule : K (sched X) unit) (borrowed : tid) : K (sched X) tid :=
  emod (set_slice 0) ;;
  tasks_update_time ;;
  emod (set_current None) ;;
  t ← _get_cpu_time_ns ;
  emod (set_idle_start t) ;;
  l ← eget irqs ;
  task ← idle_loop schedule (length l) ;
  tasks_update_time ;;
  emod (set_current (Some borrowed)) ;;
  t ← _get_cpu_time_ns ;
  emod (fun e => set_idle_start (u64 (_idle_start e - t)) e) ;;
  emod (fun e => set_idle_time (u64 (_idle_time e + _idle_start e)) e) ;;
  mret task.

Definition schedule_with (schedule : K (sched X) unit) : K (sched X) unit :=
  n ← eget _scheduler_postpone_count ;
  if negb (n =? 0) then emod (set_postponed true)
  else
    c ← eget current_task ;
    match c with
    | None => mret tt
    | Some cur =>
        task ← onq (tq_dequeue QReady) ;
        match task with
        | None =>
            k ← qfields cur ;
            if bool_decide (state k = TASK_RUNNING) then emod (set_slice TIME_SLICE_SIZE)
            else task ← idle schedule cur ; switch task
        | Some task => tasks_update_time ;; switch task
        end
    end.

(** The depth of the recursion: an interrupt taken in the idle loop finds
    [current_task == NULL] and does not idle again. *)
Fixpoint schedule_n (n : nat) : K (sched X) unit :=
  match n with O => kstuck | S n' => schedule_with (schedule_n n') end.
Definition _schedule : K (sched X) unit := schedule_n 2.

Definition _release_scheduler_lock : K (sched X) unit := release_with _schedule.
Definition _on_timer : K (sched X) unit := on_timer_with _schedule.
Definition timer_callback : K (sched X) unit := timer_callback_with _schedule.

(** ** The interface *)

Definition tasks_schedule : K (sched X) unit :=
  _aquire_scheduler_lock ;; _schedule ;; _release_scheduler_lock.

Definition tasks_get_self_time : K (sched X) Z :=
  tasks_update_time ;; t ← current ; k ← qfields t ; mret (time_used k).

Definition tasks_block_current (reason : task_state) : K (sched X) unit :=
  _aquire_scheduler_lock ;;
  t ← current ; onq (tq_modify t (set_state reason)) ;;
  _schedule ;;
  _release_scheduler_lock.

Definition tasks_unblock (t : tid) : K (sched X) unit :=
  _aquire_scheduler_lock ;;
  onq (tq_modify t (set_state TASK_READY)) ;;
  onq (tq_enqueue QReady t) ;;
  _release_scheduler_lock.

Definition tasks_nano_sleep_until (time : Z) : K (sched X) unit :=
  _aquire_scheduler_lock ;;
  t ← current ;
  onq (tq_modify t (set_state TASK_SLEEPING)) ;;
  onq (tq_modify t (set_wakeup_time time)) ;;
  onq (tq_enqueue QSleeping t) ;;
  _schedule ;;
  _release_scheduler_lock.

Definition tasks_nano_sleep (time : Z) : K (sched X) unit :=
  now ← _get_cpu_time_ns ; tasks_nano_sleep_until (u64 (now + time)).

Definition tasks_exit : K (sched X) unit :=
  _aquire_scheduler_lock ;;
  t ← current ;
  onq (tq_enqueue QStopped t) ;;
  tasks_block_current TASK_STOPPED ;;
  tasks_unblock addr_cleaner_task ;;
  _release_scheduler_lock.

(** Reached only if [tasks_exit] returns to the task that called it. *)
Definition _task_stopping : K (sched X) unit :=
  tasks_exit ;; kpanic "Attempted to schedule a stopped task".

Definition _clean_stopped_task (t : tid) : K (sched X) unit :=
  k ← qfields t ;
  let page := pageAlign (stack_top k) in
  emod (fun e => set_freed (page :: freed_pages e) e) ;;
  kwhen (bool_decide (alloc k = ALLOC_DYNAMIC)) (onq (tq_free t)).

(** [while (tasks_stopped.head != NULL)]; the fuel bounds its length. *)
Fixpoint clean_loop (fuel : nat) : K (sched X) unit :=
  b ← kgets (fun s => tq_empty QStopped (qs s)) ;
  if b : bool then mret tt
  else match fuel with
       | O => kstuck
       | S fuel' =>
           t ← onq (tq_dequeue QStopped) ;
           (match t with Some t => _clean_stopped_task t | None => kfault end) ;;
           clean_loop fuel'
       end.

(** One iteration of the loop of [_cleaner_task_impl]. *)
Definition _cleaner_task_impl (fuel : nat) : K (sched X) unit :=
  _aquire_scheduler_lock ;;
  clean_loop fuel ;;
  tasks_block_current TASK_PAUSED ;;
  _release_scheduler_lock.

Definition tasks_sync_block (ts : positive) : K (sched X) unit :=
  _aquire_scheduler_lock ;;
  t ← current ;
  onq (tq_enqueue (QSync ts) t) ;;
  tasks_block_current TASK_BLOCKED ;;
  _release_scheduler_lock.

Definition tasks_sync_unblock (ts : positive) : K (sched X) unit :=
  _aquire_scheduler_lock ;;
  b ← kgets (fun s => tq_empty (QSync ts) (qs s)) ;
  kwhen (negb b) (onq (tq_wake_all (QSync ts)) ;; _schedule) ;;
  _release_scheduler_lock.

(** ** Task creation *)

(** [_stack_push_word] on the stack pointer of the new task. *)
Definition _stack_push_word (value : Z) (st : Z * (Z -> Z)) : Z * (Z -> Z) :=
  let p := u32 (st.1 - 4) in (p, <[p := value]> (st.2)).

(** The stack of a new task: a null frame, the stopping function, the entry
    point, the starting function, and the four registers of the first switch. *)
Definition initial_stack (stack entry : Z) (m : Z -> Z) : Z * (Z -> Z) :=
  let s := (u32 (stack + ARCH_PAGE_SIZE), m) in
  let s := _stack_push_word 0 s in
  let s := _stack_push_word addr_task_stopping s in
  let s := _stack_push_word entry s in
  let s := _stack_push_word addr_task_starting s in
  let s := _stack_push_word 0 s in
  let s := _stack_push_word 0 s in
  let s := _stack_push_word 0 s in
  _stack_push_word 0 s.

(** [malloc] and [newPage] are what [malloc(sizeof(struct task))] and
    [Memory::newPage(1)] return; [newPage] is 0 for NULL. *)
Definition tasks_new (malloc : option tid) (newPage : Z) (entry : Z) (storage : option tid)
    (st : task_state) (nm : string) : K (sched X) tid :=
  new_task ← (match storage with
              | Some t => mret t
              | None => match malloc with
                        | Some t => mret t
                        | None => kpanic "Unable to allocate memory for new task struct."
                        end
              end) ;
  if newPage =? 0 then kpanic "Unable to allocate memory for new task stack." else
  m ← eget (fun e => mem (cpu_of e)) ;
  let s := initial_stack newPage entry m in
  cmod (set_mem s.2) ;;
  let dir := page_dir_phys_addr in
  (* the wakeup time keeps what the memory holds; no state but TASK_SLEEPING reads it *)
  onq (tq_new new_task (mkTcb s.1 dir st 0 0 nm (if storage then ALLOC_STATIC else ALLOC_DYNAMIC))) ;;
  kwhen (bool_decide (st = TASK_READY)) (onq (tq_enqueue QReady new_task)) ;;
  mret new_task.

Definition timer_register_callback (func : callback) : K (sched X) unit :=
  l ← eget _callbacks ;
  kwhen (Z.of_nat (length l) <? MAX_CALLBACKS - 1) (emod (set_callbacks (l ++ [func]))).

(** Wait for the interrupts up to the tick [until]. *)
Fixpoint wait_tick (until : Z) (n : nat) : K (sched X) unit :=
  tick ← eget timer_tick ;
  if tick =? until then mret tt
  else match n with O => kstuck | S n' => hlt _schedule ;; wait_tick until n' end.

Definition _discover_cpu_speed : K (sched X) unit :=
  curr_tick ← eget timer_tick ;
  start ← __rdtsc ;
  l ← eget irqs ;
  wait_tick (u32 (curr_tick + 1)) (length l) ;;
  stop ← __rdtsc ;
  let curr_rtsc := u64 (stop - start) in
  emod (set_instr (curr_rtsc / 1000000)) ;;
  n ← eget _instr_per_ns ;
  kwhen (n =? 0) (emod (set_instr 1)).

Definition tasks_init (newPage : Z) : K (sched X) unit :=
  _discover_cpu_speed ;;
  onq (tq_new addr_first_task (mkTcb 0 page_dir_phys_addr TASK_RUNNING 0 0 "[main]" ALLOC_STATIC)) ;;
  _ ← tasks_new None newPage addr_cleaner_task_impl (Some addr_cleaner_task) TASK_PAUSED "[cleaner]" ;
  onq (tq_modify addr_cleaner_task (set_state TASK_PAUSED)) ;;
  t ← _get_cpu_time_ns ;
  emod (set_last_time t) ;;
  emod (fun e => set_last_timer (_last_time e) e) ;;
  emod (set_slice TIME_SLICE_SIZE) ;;
  emod (set_current (Some addr_first_task)) ;;
  timer_register_callback CbOnTimer.

(** ** Sequences of calls *)

Inductive call :=
  | CSchedule
  | CSelfTime
  | CBlock (reason : task_state)
  | CUnblock (t : tid)
  | CSleepUntil (time : Z)
  | CSleep (time : Z)
  | CExit
  | CClean (fuel : nat)
  | CSyncBlock (ts : positive)
  | CSyncUnblock (ts : positive)
  | CTimer
  | CNew (malloc : option tid) (newPage entry : Z) (storage : option tid) (st : task_state) (nm : string).

Definition do_call (c : call) : K (sched X) unit :=
  match c with
  | CSchedule => tasks_schedule
  | CSelfTime => _ ← tasks_get_self_time ; mret tt
  | CBlock reason => tasks_block_current reason
  | CUnblock t => tasks_unblock t
  | CSleepUntil time => tasks_nano_sleep_until time
  | CSleep time => tasks_nano_sleep time
  | CExit => tasks_exit
  | CClean fuel => _cleaner_task_impl fuel
  | CSyncBlock ts => tasks_sync_block ts
  | CSyncUnblock ts => tasks_sync_unblock ts
  | CTimer => timer_callback
  | CNew malloc newPage entry storage st nm =>
      _ ← tasks_new malloc newPage entry storage st nm ; mret tt
  end.

(** The task that runs after each call of a sequence. *)
Fixpoint run_calls (l : list call) : K (sched X) (list (option tid)) :=
  match l with
  | [] => mret []
  | c :: l' => do_call c ;; t ← eget current_task ; r ← run_calls l' ; mret (t :: r)
  end.

End scheduler.
