(* ===== verification/TasksRefinement.v ===== *)
(** * The scheduler over intrusive lists refines the scheduler over FIFO queues

    Every function of Tasks.v, run over [Ptr.queues], simulates itself run over
    [Fifo.queues]: the proofs follow the structure of the code and use only the
    simulation of the list operations (TaskLists.v). *)
From S2P Require Import Prelude Words TaskLists Tasks.
From Stdlib Require Import ZArith Lia Bool.
From stdpp Require Import base strings numbers functions gmap list.
#[local] Open Scope Z_scope.

Create HintDb sim.

(** The intrusive lists represent the queues; everything else is equal. *)
Definition rel_sched (c : sched Ptr.queues) (a : sched Fifo.queues) : Prop :=
  Sim.rel (qs c) (qs a) /\ ev c = ev a.

Definition sim {A} (m : K (sched Ptr.queues) A) (m' : K (sched Fifo.queues) A) : Prop :=
  forall c a x a', rel_sched c a -> m' a = Done (x, a') ->
    exists c', m c = Done (x, c') /\ rel_sched c' a'.

Lemma sim_ret {A} (x : A) : sim (mret x) (mret x).
Proof. intros c a y a' Hr [= <- <-]. by exists c. Qed.

Lemma sim_bind {A B} (m : K (sched Ptr.queues) A) m' (f : A -> K (sched Ptr.queues) B) f' :
  sim m m' -> (forall x, sim (f x) (f' x)) -> sim (m ≫= f) (m' ≫= f').
Proof.
  intros Hm Hf c a y a' Hr. rewrite !run_bind. destruct (m' a) as [[x a1]| | |] eqn:E; try done.
  intros E'. destruct (Hm _ _ _ _ Hr E) as (c1 & -> & Hr1). by apply (Hf x _ _ _ _ Hr1).
Qed.

Lemma sim_eget {A} (f : env -> A) : sim (eget f) (eget f).
Proof. intros c a x a' Hr [= <- <-]. exists c. split; [|done]. unfold eget, kgets. by rewrite (proj2 Hr). Qed.
Lemma sim_emod f : sim (emod f) (emod f).
Proof.
  intros c a x a' [Hr He] [= <- <-]. eexists. split; [reflexivity|]. split; cbn; [done|by rewrite He].
Qed.
Lemma sim_fault {A} : sim (A := A) kfault kfault.
Proof. done. Qed.
Lemma sim_stuck {A} : sim (A := A) kstuck kstuck.
Proof. done. Qed.
Lemma sim_panic {A} msg : sim (A := A) (kpanic msg) (kpanic msg).
Proof. done. Qed.

Lemma sim_onq {A} (m : K Ptr.queues A) m' : Sim.simulates m m' -> sim (onq m) (onq m').
Proof.
  intros Hm c a x a' [Hr He]. unfold onq. krun. destruct (m' (qs a)) as [[y q]| | |] eqn:E; try done.
  intros [= <- <-]. destruct (Hm _ _ _ _ Hr E) as (q' & -> & Hr'). eexists. split; [reflexivity|].
  split; cbn; done.
Qed.

Lemma sim_qfields t : sim (qfields t) (qfields t).
Proof.
  apply sim_onq. intros c a k a' Hr. unfold kread. cbn.
  destruct (Fifo.fields_of t a) as [k'| | |] eqn:E; try done. intros [= <- <-].
  rewrite (Sim.fields_sim _ _ _ _ Hr E). by exists c.
Qed.

Lemma sim_empty q : sim (kgets (fun s => tq_empty q (qs s))) (kgets (fun s => tq_empty q (qs s))).
Proof.
  intros c a x a' [Hr He] [= <- <-]. exists c. split; [|done]. unfold kgets. cbn.
  by rewrite (Sim.is_empty_sim _ _ _ Hr).
Qed.

Lemma sim_wake_sync ts : Sim.simulates (tq_wake_all (QSync ts)) (tq_wake_all (QSync ts)).
Proof. by apply Sim.wake_all_sim. Qed.

#[export] Hint Resolve sim_ret sim_eget sim_emod sim_fault sim_stuck sim_panic sim_qfields sim_empty
  sim_wake_sync : sim.
#[export] Hint Resolve Sim.modify_sim Sim.enqueue_sim Sim.dequeue_sim Sim.wake_expired_sim
  Sim.new_sim Sim.free_sim : sim.

(** One statement, or one case distinction, at a time. *)
Ltac sim_step :=
  first
    [ solve [auto with sim]
    | apply sim_bind; [|intros ?]
    | apply sim_onq; solve [auto with sim]
    | match goal with
      | |- sim (kwhen ?b _) _ => destruct b; cbn [kwhen]
      | |- sim (match ?x with _ => _ end) _ => destruct x
      end ].
Ltac sim_steps := repeat sim_step.

Section refinement.
Context `{KernelText}.

Lemma sim_cmod f : sim (cmod f) (cmod f).
Proof. apply sim_emod. Qed.
#[local] Hint Resolve sim_cmod : sim.
Lemma sim_cli : sim cli cli.
Proof. apply sim_cmod. Qed.
Lemma sim_sti : sim sti sti.
Proof. apply sim_cmod. Qed.
#[local] Hint Resolve sim_cli sim_sti : sim.
Lemma sim_current : sim current current.
Proof. unfold current. sim_steps. Qed.
#[local] Hint Resolve sim_current : sim.
Lemma sim_rdtsc : sim __rdtsc __rdtsc.
Proof. unfold __rdtsc. sim_steps. Qed.
#[local] Hint Resolve sim_rdtsc : sim.
Lemma sim_cpu_time : sim _get_cpu_time_ns _get_cpu_time_ns.
Proof. unfold _get_cpu_time_ns. sim_steps. Qed.
#[local] Hint Resolve sim_cpu_time : sim.
Lemma sim_update_time : sim tasks_update_time tasks_update_time.
Proof. unfold tasks_update_time. sim_steps. Qed.
#[local] Hint Resolve sim_update_time : sim.
Lemma sim_aquire : sim _aquire_scheduler_lock _aquire_scheduler_lock.
Proof. unfold _aquire_scheduler_lock. sim_steps. Qed.
Lemma sim_unlock : sim unlock unlock.
Proof. unfold unlock. sim_steps. Qed.
#[local] Hint Resolve sim_aquire sim_unlock : sim.

Lemma sim_release_with f g : sim f g -> sim (release_with f) (release_with g).
Proof. intros Hf. unfold release_with. sim_steps. Qed.
#[local] Hint Resolve sim_release_with : sim.
Lemma sim_on_timer_with f g : sim f g -> sim (on_timer_with f) (on_timer_with g).
Proof. intros Hf. unfold on_timer_with. sim_steps. Qed.
#[local] Hint Resolve sim_on_timer_with : sim.
Lemma sim_callbacks f g l : sim f g -> sim (run_callbacks f l) (run_callbacks g l).
Proof. intros Hf. induction l as [|[] l IH]; cbn [run_callbacks run_callback]; sim_steps. Qed.
#[local] Hint Resolve sim_callbacks : sim.
Lemma sim_timer_callback_with f g : sim f g -> sim (timer_callback_with f) (timer_callback_with g).
Proof. intros Hf. unfold timer_callback_with. sim_steps. Qed.
#[local] Hint Resolve sim_timer_callback_with : sim.
Lemma sim_hlt f g : sim f g -> sim (hlt f) (hlt g).
Proof. intros Hf. unfold hlt, interrupt. sim_steps. Qed.
#[local] Hint Resolve sim_hlt : sim.
Lemma sim_idle_loop f g n : sim f g -> sim (idle_loop f n) (idle_loop g n).
Proof. intros Hf. induction n as [|n IH]; cbn [idle_loop]; sim_steps. Qed.
#[local] Hint Resolve sim_idle_loop : sim.
Lemma sim_switch_to t : sim (tasks_switch_to t) (tasks_switch_to t).
Proof. unfold tasks_switch_to. sim_steps. Qed.
#[local] Hint Resolve sim_switch_to : sim.
Lemma sim_switch t : sim (switch t) (switch t).
Proof. unfold switch, call_switch_to. sim_steps. Qed.
#[local] Hint Resolve sim_switch : sim.
Lemma sim_idle f g t : sim f g -> sim (idle f t) (idle g t).
Proof. intros Hf. unfold idle. sim_steps. Qed.
#[local] Hint Resolve sim_idle : sim.
Lemma sim_schedule_with f g : sim f g -> sim (schedule_with f) (schedule_with g).
Proof. intros Hf. unfold schedule_with. sim_steps. Qed.
Lemma sim_schedule_n n : sim (schedule_n n) (schedule_n n).
Proof. induction n as [|n IH]; cbn [schedule_n]; [sim_steps|by apply sim_schedule_with]. Qed.
Lemma sim_schedule : sim _schedule _schedule.
Proof. apply sim_schedule_n. Qed.
#[local] Hint Resolve sim_schedule : sim.
Lemma sim_release : sim _release_scheduler_lock _release_scheduler_lock.
Proof. unfold _release_scheduler_lock. sim_steps. Qed.
#[local] Hint Resolve sim_release : sim.
Lemma sim_block reason : sim (tasks_block_current reason) (tasks_block_current reason).
Proof. unfold tasks_block_current. sim_steps. Qed.
Lemma sim_unblock t : sim (tasks_unblock t) (tasks_unblock t).
Proof. unfold tasks_unblock. sim_steps. Qed.
Lemma sim_sleep_until w : sim (tasks_nano_sleep_until w) (tasks_nano_sleep_until w).
Proof. unfold tasks_nano_sleep_until. sim_steps. Qed.
Lemma sim_clean t : sim (_clean_stopped_task t) (_clean_stopped_task t).
Proof. unfold _clean_stopped_task. sim_steps. Qed.
#[local] Hint Resolve sim_block sim_unblock sim_sleep_until sim_clean : sim.
Lemma sim_clean_loop n : sim (clean_loop n) (clean_loop n).
Proof. induction n as [|n IH]; cbn [clean_loop]; sim_steps. Qed.
#[local] Hint Resolve sim_clean_loop : sim.
Lemma sim_new malloc p entry storage st nm :
  sim (tasks_new malloc p entry storage st nm) (tasks_new malloc p entry storage st nm).
Proof. unfold tasks_new. sim_steps. Qed.
#[local] Hint Resolve sim_new : sim.

Lemma sim_call c : sim (do_call c) (do_call c).
Proof.
  destruct c; cbn [do_call];
    unfold tasks_schedule, tasks_get_self_time, tasks_nano_sleep, tasks_exit, _cleaner_task_impl,
      tasks_sync_block, tasks_sync_unblock, timer_callback; sim_steps.
Qed.
#[local] Hint Resolve sim_call : sim.

Lemma sim_wait_tick u n : sim (wait_tick u n) (wait_tick u n).
Proof. induction n as [|n IH]; cbn [wait_tick]; sim_steps. Qed.
#[local] Hint Resolve sim_wait_tick : sim.
Lemma sim_init p : sim (tasks_init p) (tasks_init p).
Proof. unfold tasks_init, _discover_cpu_speed, timer_register_callback. sim_steps. Qed.

Lemma sim_calls l : sim (run_calls l) (run_calls l).
Proof. induction l as [|c l IH]; cbn [run_calls]; sim_steps. Qed.
End refinement.
