(* ===== verification/Queueing.v ===== *)
(** * The queues of the scheduler

    The invariant of the FIFO queues (every task in the queue of its state, in
    one place), its preservation by the queue operations, and what waking a set
    of tasks does. *)
From S2P Require Import Prelude TaskLists.
From Stdlib Require Import ZArith Lia Bool.
From stdpp Require Import base strings numbers functions gmap list.
#[local] Open Scope Z_scope.
Import Fifo.

(** ** The invariant of the queues *)

(** Where a task of a given state has to be.  A stopped task that has been
    cleaned up is in no queue. *)
Definition home_of (st : task_state) (i : option qid) : Prop :=
  match st with
  | TASK_RUNNING | TASK_PAUSED => i = None
  | TASK_READY => i = Some QReady
  | TASK_SLEEPING => i = Some QSleeping
  | TASK_BLOCKED => exists ts, i = Some (QSync ts)
  | TASK_STOPPED => i = Some QStopped \/ i = None
  end.
(** The queue a task is in agrees with its state. *)
Definition at_home (k : atask) : Prop := home_of (state (a_fields k)) (a_in k).

(** No task is twice in a queue or in two queues. *)
Record qwf (a : queues) : Prop := {
  qwf_nodup : forall q, NoDup (queue a q);
  qwf_in : forall t q, t ∈ queue a q <-> exists k, tcbs a !! t = Some k /\ a_in k = Some q;
}.

(** Every task but [but] is in the queue of its state, and none but [but] and
    the current one is running. *)
Record ok_but (but cur : option tid) (a : queues) : Prop := {
  ok_qwf : qwf a;
  ok_home : forall t k, tcbs a !! t = Some k -> Some t <> but -> at_home k;
  ok_running : forall t k, tcbs a !! t = Some k -> Some t <> but ->
                 state (a_fields k) = TASK_RUNNING -> cur = Some t;
  ok_current : forall t, cur = Some t -> exists k, tcbs a !! t = Some k;
}.
Definition tasks_ok (cur : option tid) (a : queues) : Prop := ok_but None cur a.

Lemma ok_weaken but cur a : tasks_ok cur a -> ok_but but cur a.
Proof.
  intros [H1 H2 H3 H4]. split; [done| | |done]; intros t k Hk _; [by eapply H2|by eapply H3].
Qed.

Lemma ok_close t k cur a : ok_but (Some t) cur a -> tcbs a !! t = Some k -> at_home k ->
  (state (a_fields k) = TASK_RUNNING -> cur = Some t) -> tasks_ok cur a.
Proof.
  intros [H1 H2 H3 H4] Hk Hh Hr. split; try done; intros u k' Hk' _; destruct (decide (u = t)) as [->|Hu];
    simplify_eq; try done.
  - eapply H2; [done|congruence].
  - intros Hst. eapply H3; [done|congruence|done].
Qed.

(** Another task becomes the current one. *)
Lemma ok_recur but cur cur' a : ok_but but cur a ->
  (forall t k, tcbs a !! t = Some k -> Some t <> but -> state (a_fields k) <> TASK_RUNNING) ->
  (forall t, cur' = Some t -> exists k, tcbs a !! t = Some k) -> ok_but but cur' a.
Proof. intros [H1 H2 H3 H4] Hn Hd. split; try done. intros t k Hk Hb Hs. exfalso. by eapply Hn. Qed.

(** *** The operations *)

Definition put (t : tid) (k : atask) (a : queues) : queues := mkQueues (<[t := k]> (tcbs a)) (queue a).
Definition setq (q : qid) (l : list tid) (a : queues) : queues := mkQueues (tcbs a) (<[q := l]> (queue a)).

Lemma put_lookup t k a u : tcbs (put t k a) !! u = if decide (u = t) then Some k else tcbs a !! u.
Proof. cbn. case_decide; [subst; by rewrite lookup_insert_eq|by rewrite lookup_insert_ne]. Qed.

Lemma put_ok t k k' cur a : ok_but (Some t) cur a -> tcbs a !! t = Some k -> a_in k' = a_in k ->
  ok_but (Some t) cur (put t k' a).
Proof.
  intros [H1 H2 H3 H4] Hk Hin. split.
  - split; [apply H1|]. intros u q. rewrite put_lookup. cbn. rewrite (qwf_in _ H1). case_decide as Hd; [|done].
    subst. rewrite Hk. split; intros (k2 & [= <-] & E); eexists; (split; [done|congruence]).
  - intros u ku. rewrite put_lookup. case_decide as Hd; [by subst|]. apply H2.
  - intros u ku. rewrite put_lookup. case_decide as Hd; [by subst|]. apply H3.
  - intros u Hu. rewrite put_lookup. case_decide; eauto.
Qed.

Lemma modify_run t f a k : tcbs a !! t = Some k ->
  modify t f a = Done (tt, put t (mkATask (f (a_fields k)) (a_in k)) a).
Proof. intros Hk. unfold modify. by rewrite Hk. Qed.

(** A change of fields that are not the state. *)
Lemma put_keep t k f but cur a : ok_but but cur a -> tcbs a !! t = Some k ->
  state (f (a_fields k)) = state (a_fields k) -> ok_but but cur (put t (mkATask (f (a_fields k)) (a_in k)) a).
Proof.
  intros Hok Hk Hs. destruct (decide (but = Some t)) as [->|Hb].
  { by eapply put_ok. }
  destruct Hok as [H1 H2 H3 H4]. split.
  - split; [apply H1|]. intros u q. rewrite put_lookup. cbn. rewrite (qwf_in _ H1). case_decide as Hd; [|done].
    subst. rewrite Hk. split; intros (k2 & [= <-] & E); eexists; (split; [done|cbn in *; congruence]).
  - intros u ku. rewrite put_lookup. case_decide as Hd; [|by apply H2]. subst. intros [= <-] Hu.
    pose proof (H2 _ _ Hk Hu) as Hh. revert Hh. unfold at_home, home_of. cbn. by rewrite Hs.
  - intros u ku. rewrite put_lookup. case_decide as Hd; [|by apply H3]. subst. intros [= <-] Hu.
    cbn. rewrite Hs. by eapply H3.
  - intros u Hu. rewrite put_lookup. case_decide; eauto.
Qed.

Lemma enqueue_run q t k a : tcbs a !! t = Some k -> a_in k = None ->
  enqueue q t a = Done (tt, put t (mkATask (a_fields k) (Some q)) (setq q (queue a q ++ [t]) a)).
Proof. intros Hk Hn. unfold enqueue. rewrite Hk. destruct k as [f o]. cbn in Hn. by subst. Qed.

Lemma not_queued a t k q : qwf a -> tcbs a !! t = Some k -> a_in k <> Some q -> t ∉ queue a q.
Proof. intros H Hk Hn Hin. apply (qwf_in _ H) in Hin as (k' & E & E'). congruence. Qed.

Lemma enqueue_qwf q t k a : qwf a -> tcbs a !! t = Some k -> a_in k = None ->
  qwf (put t (mkATask (a_fields k) (Some q)) (setq q (queue a q ++ [t]) a)).
Proof.
  intros Hw Hk Hn.
  assert (Hni : forall q', t ∉ queue a q') by (intros q'; eapply not_queued; [done..|by rewrite Hn]).
  split.
  - intros q'. cbn. destruct (decide (q = q')) as [->|]; [|rewrite fn_lookup_insert_ne by done; apply Hw].
    rewrite fn_lookup_insert. apply NoDup_app. split; [apply Hw|]. split; [|apply NoDup_singleton].
    intros u Hu Hu'. apply list_elem_of_singleton in Hu' as ->. by apply (Hni q').
  - intros u q'. rewrite put_lookup. cbn. case_decide as Hd; [subst|].
    + split.
      * intros Hin. eexists. split; [done|]. cbn. destruct (decide (q = q')) as [->|]; [done|].
        rewrite fn_lookup_insert_ne in Hin by done. by destruct (Hni q').
      * intros (k' & [= <-] & [= <-]). rewrite fn_lookup_insert. set_solver.
    + rewrite <- (qwf_in _ Hw). destruct (decide (q = q')) as [->|].
      * rewrite fn_lookup_insert. set_solver.
      * by rewrite fn_lookup_insert_ne.
Qed.

(** A change of one task and of the queues, given the invariant of the queues. *)
Lemma ok_frame t k k' but cur a a' : ok_but but cur a -> tcbs a !! t = Some k ->
  tcbs a' = <[t := k']> (tcbs a) -> qwf a' -> ok_but (Some t) cur a -> ok_but (Some t) cur a'.
Proof.
  intros _ Hk E Hw [H1 H2 H3 H4]. split; [done|..].
  - intros u ku. rewrite E. destruct (decide (u = t)) as [->|]; [done|].
    rewrite lookup_insert_ne by done. apply H2.
  - intros u ku. rewrite E. destruct (decide (u = t)) as [->|]; [done|].
    rewrite lookup_insert_ne by done. apply H3.
  - intros u Hu. rewrite E. destruct (decide (u = t)) as [->|]; [rewrite lookup_insert_eq; eauto|].
    rewrite lookup_insert_ne by done. eauto.
Qed.

Lemma enqueue_ok q t k cur a : ok_but (Some t) cur a -> tcbs a !! t = Some k -> a_in k = None ->
  ok_but (Some t) cur (put t (mkATask (a_fields k) (Some q)) (setq q (queue a q ++ [t]) a)).
Proof. intros Hok Hk Hn. eapply ok_frame; try done. apply enqueue_qwf; try done. apply Hok. Qed.

(** Taking a task out of its queue leaves the others where they are. *)
Lemma take_qwf q t k l a : qwf a -> tcbs a !! t = Some k -> a_in k = Some q -> NoDup l ->
  (forall u, u ∈ l <-> u ∈ queue a q /\ u <> t) ->
  qwf (put t (mkATask (a_fields k) None) (setq q l a)).
Proof.
  intros Hw Hk Hq Hnd Hl. split.
  - intros q'. cbn. destruct (decide (q = q')) as [->|].
    + by rewrite fn_lookup_insert.
    + rewrite fn_lookup_insert_ne by done. apply Hw.
  - intros u q'. rewrite put_lookup. cbn. case_decide as Hd; [subst|].
    + split; [|by intros (k' & [= <-] & [=])]. intros Hin. exfalso. destruct (decide (q = q')) as [->|].
      * rewrite fn_lookup_insert in Hin. apply Hl in Hin. naive_solver.
      * rewrite fn_lookup_insert_ne in Hin by done. eapply not_queued; [done|exact Hk| |exact Hin]. congruence.
    + rewrite <- (qwf_in _ Hw). destruct (decide (q = q')) as [->|].
      * rewrite fn_lookup_insert, Hl. naive_solver.
      * by rewrite fn_lookup_insert_ne.
Qed.

Lemma queue_cons a q t l : qwf a -> queue a q = t :: l ->
  exists k, tcbs a !! t = Some k /\ a_in k = Some q /\ t ∉ l /\ NoDup l /\
    (forall u, u ∈ l <-> u ∈ queue a q /\ u <> t).
Proof.
  intros Hw E. pose proof (qwf_nodup _ Hw q) as Hnd. rewrite E in Hnd. apply NoDup_cons in Hnd as [Hni Hnd].
  destruct (proj1 (qwf_in _ Hw t q)) as (k & Hk & Hq); [rewrite E; set_solver|].
  exists k. do 4 (split; [done|]). intros u. rewrite E. set_solver.
Qed.

Lemma dequeue_run q a : qwf a ->
  match queue a q with
  | [] => dequeue q a = Done (None, a)
  | t :: l => exists k, tcbs a !! t = Some k /\ a_in k = Some q /\
      dequeue q a = Done (Some t, put t (mkATask (a_fields k) None) (setq q l a)) /\
      qwf (put t (mkATask (a_fields k) None) (setq q l a))
  end.
Proof.
  intros Hw. unfold dequeue. destruct (queue a q) as [|t l] eqn:E; [done|].
  destruct (queue_cons _ _ _ _ Hw E) as (k & Hk & Hq & Hni & Hnd & Hl). exists k. rewrite Hk.
  do 3 (split; [done|]). by apply take_qwf.
Qed.

(** *** Waking *)

(** [t] moves from [q] to the end of the ready queue. *)
Definition moved (q : qid) (l : list tid) (t : tid) (k : atask) (a : queues) : queues :=
  mkQueues (<[t := mkATask (woken (a_fields k)) (Some QReady)]> (tcbs a))
           (<[QReady := queue a QReady ++ [t]]> (<[q := l]> (queue a))).

Lemma remove_wakeup_run q t k a : q <> QReady -> qwf a -> tcbs a !! t = Some k -> a_in k = Some q ->
  (remove q t ;; wakeup t) a = Done (tt, moved q (filter (.≠ t) (queue a q)) t k a) /\
  qwf (moved q (filter (.≠ t) (queue a q)) t k a).
Proof.
  intros Hqr Hw Hk Hq. set (l := filter (.≠ t) (queue a q)).
  assert (Hw1 : qwf (put t (mkATask (a_fields k) None) (setq q l a))).
  { apply take_qwf; [done..| |].
    - apply NoDup_filter, Hw.
    - intros u. unfold l. rewrite list_elem_of_filter. naive_solver. }
  assert (Hw2 : qwf (put t (mkATask (woken (a_fields k)) None) (setq q l a))).
  { split; [apply Hw1|]. intros u q'. rewrite put_lookup.
    etransitivity; [exact (qwf_in _ Hw1 u q')|]. rewrite put_lookup. case_decide; [|done]. split; intros (? & [= <-] & E); cbn in *; eauto. }
  pose proof (enqueue_qwf QReady t _ _ Hw2 (lookup_insert_eq _ _ _) eq_refl) as Hw3.
  assert (E : moved q l t k a = put t (mkATask (woken (a_fields k)) (Some QReady))
     (setq QReady (queue a QReady ++ [t]) (put t (mkATask (woken (a_fields k)) None) (setq q l a)))).
  { unfold moved, put, setq. cbn. by rewrite insert_insert_eq. }
  split.
  - unfold remove, wakeup, modify, enqueue. krun. rewrite Hk, bool_decide_true by done. cbn.
    rewrite !lookup_insert_eq. cbn. rewrite !insert_insert_eq.
    rewrite lookup_insert_eq, insert_insert_eq, fn_lookup_insert_ne by done. done.
  - rewrite E. cbn in Hw3. by rewrite fn_lookup_insert_ne in Hw3 by done.
Qed.

Lemma moved_ok q l t k cur a : tasks_ok cur a -> tcbs a !! t = Some k -> qwf (moved q l t k a) ->
  tasks_ok cur (moved q l t k a).
Proof.
  intros Hok Hk Hw. apply (ok_close t (mkATask (woken (a_fields k)) (Some QReady))).
  - eapply (ok_frame t k); [exact Hok|exact Hk| |exact Hw|by apply ok_weaken]. done.
  - cbn. by rewrite lookup_insert_eq.
  - done.
  - done.
Qed.

(** The tasks [l] of the queue [q] have moved, in this order, to the end of the
    ready queue; nothing else has changed. *)
Record woke (q : qid) (l : list tid) (a a' : queues) : Prop := {
  woke_tcbs : forall t, tcbs a' !! t =
    (fun k => if decide (t ∈ l) then mkATask (woken (a_fields k)) (Some QReady) else k) <$> tcbs a !! t;
  woke_from : queue a' q = filter (.∉ l) (queue a q);
  woke_ready : queue a' QReady = queue a QReady ++ l;
  woke_other : forall q', q' <> q -> q' <> QReady -> queue a' q' = queue a q';
}.

Lemma filter_all {A} (P : A -> Prop) `{forall x, Decision (P x)} (l : list A) :
  (forall x, x ∈ l -> P x) -> filter P l = l.
Proof.
  induction l as [|x l IH]; intros Hl; [done|]. rewrite filter_cons_True by (apply Hl; set_solver).
  f_equal. apply IH. set_solver.
Qed.

Lemma filter_none {A} (P : A -> Prop) `{forall x, Decision (P x)} (l : list A) :
  (forall x, x ∈ l -> ~ P x) -> filter P l = [].
Proof.
  induction l as [|x l IH]; intros Hl; [done|]. rewrite filter_cons_False by (apply Hl; set_solver).
  apply IH. set_solver.
Qed.

Lemma filter_ext_in {A} (P Q : A -> Prop) `{forall x, Decision (P x), forall x, Decision (Q x)} (l : list A) :
  (forall x, x ∈ l -> P x <-> Q x) -> filter P l = filter Q l.
Proof.
  induction l as [|x l IH]; intros Hl; [done|]. rewrite !filter_cons, IH by set_solver.
  pose proof (Hl x ltac:(set_solver)). repeat case_decide; naive_solver.
Qed.

Lemma woke_nil q a : woke q [] a a.
Proof.
  split; try done.
  - intros t. destruct (tcbs a !! t); [|done]. cbn. by rewrite decide_False by set_solver.
  - symmetry. apply filter_all. set_solver.
  - by rewrite app_nil_r.
Qed.

Lemma woke_cons q t k l a a' : q <> QReady -> t ∉ l -> tcbs a !! t = Some k ->
  woke q l (moved q (filter (.≠ t) (queue a q)) t k a) a' -> woke q (t :: l) a a'.
Proof.
  intros Hq Hni Hk [H1 H2 H3 H4]. split.
  - intros u. rewrite H1. cbn. destruct (decide (u = t)) as [->|Hu].
    + rewrite lookup_insert_eq, Hk. cbn. repeat case_decide; set_solver.
    + rewrite lookup_insert_ne by done. destruct (tcbs a !! u); [|done]. cbn.
      repeat case_decide; set_solver.
  - rewrite H2. cbn. rewrite fn_lookup_insert_ne by done. rewrite fn_lookup_insert.
    rewrite list_filter_filter. apply list_filter_iff. intros u. set_solver.
  - rewrite H3. cbn. rewrite fn_lookup_insert. by rewrite <- app_assoc.
  - intros q' Hq1 Hq2. rewrite H4 by done. cbn. by rewrite !fn_lookup_insert_ne.
Qed.

(** The time of a task has come. *)
Definition expired (a : queues) (time : Z) (t : tid) : Prop :=
  match tcbs a !! t with Some k => wakeup_time (a_fields k) <= time | None => False end.
#[global] Instance expired_dec a time t : Decision (expired a time t).
Proof. unfold expired. destruct (tcbs a !! t); apply _. Defined.

Lemma moved_lookup_ne q l t k a u : u <> t -> tcbs (moved q l t k a) !! u = tcbs a !! u.
Proof. intros Hu. cbn. by rewrite lookup_insert_ne. Qed.

Lemma fields_of_run t a k : tcbs a !! t = Some k -> kread (fields_of t) a = Done (a_fields k, a).
Proof. intros Hk. unfold kread, fields_of, load. rewrite Hk. done. Qed.

Lemma queued_in a q t : qwf a -> t ∈ queue a q -> exists k, tcbs a !! t = Some k /\ a_in k = Some q.
Proof. intros Hw Ht. by apply (qwf_in _ Hw). Qed.

Lemma wake_loop_run time cur l : forall need a, tasks_ok cur a -> NoDup l ->
  (forall t, t ∈ l -> t ∈ queue a QSleeping) ->
  exists a', wake_loop time l need a
      = Done (need || bool_decide (filter (expired a time) l <> []), a') /\
    tasks_ok cur a' /\ woke QSleeping (filter (expired a time) l) a a'.
Proof.
  induction l as [|t l IH]; intros need a Hok Hnd Hin; cbn [wake_loop].
  - exists a. rewrite filter_nil, bool_decide_false, orb_false_r by naive_solver. auto using woke_nil.
  - apply NoDup_cons in Hnd as [Hni Hnd].
    destruct (queued_in a QSleeping t) as (k & Hk & Hq); [apply Hok|apply Hin; set_solver|].
    rewrite (run_bind_done _ _ _ _ _ (fields_of_run _ _ _ Hk)).
    assert (He : expired a time t <-> wakeup_time (a_fields k) <= time) by (unfold expired; by rewrite Hk).
    destruct (Z.leb_spec (wakeup_time (a_fields k)) time) as [Hle|Hgt].
    + rewrite filter_cons_True by (by apply He).
      destruct (remove_wakeup_run QSleeping t k a) as [Hrun Hw]; [done|apply Hok|done..|].
      rewrite <- run_bind_assoc. rewrite (run_bind_done _ _ _ _ _ Hrun).
      set (a1 := moved _ _ t k a) in *.
      assert (Hf : filter (expired a1 time) l = filter (expired a time) l).
      { apply filter_ext_in. intros u Hu. unfold expired, a1.
        rewrite moved_lookup_ne; [done|]. intros ->. done. }
      destruct (IH true a1) as (a' & Hrun' & Hok' & Hwk); [by apply moved_ok|done| |].
      { intros u Hu. unfold a1. cbn. rewrite fn_lookup_insert_ne by done. rewrite fn_lookup_insert.
        apply list_elem_of_filter. split; [by intros ->|]. apply Hin. set_solver. }
      exists a'. rewrite Hf in Hwk, Hrun'. split; [|split; [done|]].
      * rewrite Hrun'. by rewrite (bool_decide_eq_true_2 (t :: _ <> [])), orb_true_r.
      * apply (woke_cons _ _ k); try done. rewrite list_elem_of_filter. naive_solver.
    + rewrite filter_cons_False by (rewrite He; lia). apply IH; try done. intros u Hu. apply Hin. set_solver.
Qed.

Lemma wake_expired_run time cur a : tasks_ok cur a ->
  exists a', wake_expired time a
      = Done (bool_decide (filter (expired a time) (queue a QSleeping) <> []), a') /\
    tasks_ok cur a' /\ woke QSleeping (filter (expired a time) (queue a QSleeping)) a a'.
Proof.
  intros Hok. unfold wake_expired, kget. rewrite run_bind.
  apply (wake_loop_run time cur _ false); [done|apply Hok|done].
Qed.

Lemma unblock_loop_run ts cur l : forall a, tasks_ok cur a -> NoDup l ->
  (forall t, t ∈ l -> t ∈ queue a (QSync ts)) ->
  exists a', unblock_loop (QSync ts) l a = Done (tt, a') /\ tasks_ok cur a' /\ woke (QSync ts) l a a'.
Proof.
  induction l as [|t l IH]; intros a Hok Hnd Hin; cbn [unblock_loop].
  - exists a. auto using woke_nil.
  - apply NoDup_cons in Hnd as [Hni Hnd].
    destruct (queued_in a (QSync ts) t) as (k & Hk & Hq); [apply Hok|apply Hin; set_solver|].
    destruct (remove_wakeup_run (QSync ts) t k a) as [Hrun Hw]; [done|apply Hok|done..|].
    rewrite <- run_bind_assoc. rewrite (run_bind_done _ _ _ _ _ Hrun).
    destruct (IH (moved (QSync ts) (filter (.≠ t) (queue a (QSync ts))) t k a)) as (a' & Hrun' & Hok' & Hwk);
      [by apply moved_ok|done| |].
    { intros u Hu. cbn. rewrite fn_lookup_insert_ne by done. rewrite fn_lookup_insert.
      apply list_elem_of_filter. split; [by intros ->|]. apply Hin. set_solver. }
    exists a'. split; [done|]. split; [done|]. by apply (woke_cons _ _ k).
Qed.

Lemma wake_all_run ts cur a : tasks_ok cur a ->
  exists a', wake_all (QSync ts) a = Done (tt, a') /\ tasks_ok cur a' /\
    woke (QSync ts) (queue a (QSync ts)) a a'.
Proof.
  intros Hok. unfold wake_all, kget. rewrite run_bind. apply (unblock_loop_run ts cur); [done|apply Hok|done].
Qed.
