(* ===== verification/Scheduling.v ===== *)
(** * Correctness of the scheduler, over FIFO queues

    The invariant of the scheduler and its preservation by every call of the
    interface and by the timer interrupt, and what the single operations do to
    the queues. *)
From S2P Require Import Prelude Words TaskLists Tasks Queueing.
From Stdlib Require Import ZArith Lia Bool.
From stdpp Require Import base strings numbers functions gmap list.
#[local] Open Scope Z_scope.
Import Fifo.

(** ** The invariant of the scheduler *)

(** A property of the state (and of the queue) of one task. *)
Definition has (u : tid) (P : task_state -> option qid -> Prop) (a : queues) : Prop :=
  exists k, tcbs a !! u = Some k /\ P (state (a_fields k)) (a_in k).
Definition present (u : tid) : queues -> Prop := has u (fun _ _ => True).
Definition running (u : tid) (a : queues) : Prop :=
  tasks_ok (Some u) a /\ has u (fun st _ => st = TASK_RUNNING) a.
(** [t] has been taken out of the ready queue. *)
Definition taken (t : tid) (cur : option tid) (a : queues) : Prop :=
  ok_but (Some t) cur a /\ has t (fun st i => st = TASK_READY /\ i = None) a.

(** The values of the locks, and the current task. *)
Record at_lock (l p : Z) (b : bool) (cur : option tid) (e : env) : Prop := {
  al_cur : current_task e = cur;
  al_lock : _scheduler_lock e = l;
  al_postpone : _scheduler_postpone_count e = p;
  al_postponed : _scheduler_postponed e = b;
  al_instr : 0 < _instr_per_ns e;
}.
Definition W (R : queues -> Prop) l p b cur (s : sched queues) : Prop :=
  at_lock l p b cur (ev s) /\ R (qs s).

(** The invariant between two calls: the lock is free, interrupts are on, the
    current task is the only one that is running, and every other task is in
    the queue of its state, once. *)
Definition inv (s : sched queues) : Prop :=
  exists cur, W (running cur) 0 0 false (Some cur) s /\ IF (cpu_of (ev s)) = true.

(** *** Properties that survive a change of fields other than the state *)

Definition stable (R : queues -> Prop) : Prop := forall t k f a, R a -> tcbs a !! t = Some k ->
  state (f (a_fields k)) = state (a_fields k) -> R (put t (mkATask (f (a_fields k)) (a_in k)) a).

Lemma stable_ok but cur : stable (ok_but but cur).
Proof. intros t k f a Hok Hk Hs. by apply put_keep. Qed.
Lemma stable_has u P : stable (has u P).
Proof.
  intros t k f a (ku & Hu & HP) Hk Hs. unfold has. rewrite put_lookup. case_decide; [|eauto].
  subst. simplify_eq. eexists. split; [done|]. cbn. by rewrite Hs.
Qed.
Lemma stable_and R1 R2 : stable R1 -> stable R2 -> stable (fun a => R1 a /\ R2 a).
Proof. intros H1 H2 t k f a [? ?] Hk Hs. split; [by apply H1|by apply H2]. Qed.
#[local] Hint Resolve stable_ok stable_has stable_and : stable.
Lemma stable_running u : stable (running u).
Proof. exact (stable_and _ _ (stable_ok _ _) (stable_has _ _)). Qed.
Lemma stable_taken u cur : stable (taken u cur).
Proof. exact (stable_and _ _ (stable_ok _ _) (stable_has _ _)). Qed.
#[local] Hint Resolve stable_running stable_taken : stable.

(** *** Rules *)

Section rules.
Context `{KernelText}.

Lemma W_conseq (R R' : queues -> Prop) l p b cur s : (forall a, R a -> R' a) -> W R l p b cur s -> W R' l p b cur s.
Proof. intros HR [H1 H2]. split; auto. Qed.

(** Statements that touch neither the locks nor the current task. *)
Definition neutral (f : env -> env) : Prop := forall e,
  current_task (f e) = current_task e /\ _scheduler_lock (f e) = _scheduler_lock e /\
  _scheduler_postpone_count (f e) = _scheduler_postpone_count e /\
  _scheduler_postponed (f e) = _scheduler_postponed e /\ _instr_per_ns (f e) = _instr_per_ns e.

Lemma T_env f R l p b cur : neutral f -> triple (W R l p b cur) (emod f) (fun _ => W R l p b cur).
Proof.
  intros Hf. apply triple_modify. intros s [[H1 H2 H3 H4 H5] HR]. split; [|done]. cbn.
  destruct (Hf (ev s)) as (E1 & E2 & E3 & E4 & E5). split; congruence.
Qed.
Lemma T_cpu f R l p b cur : triple (W R l p b cur) (cmod f) (fun _ => W R l p b cur).
Proof. by apply T_env. Qed.

Lemma T_get {A B} (g : env -> A) (f : A -> K (sched queues) B) R l p b cur Q :
  (forall x, triple (fun s => W R l p b cur s /\ g (ev s) = x) (f x) Q) ->
  triple (W R l p b cur) (eget g ≫= f) Q.
Proof. intros Hf. apply triple_gets. exact Hf. Qed.
(** A read whose value does not matter. *)
Lemma T_any {A B} (g : env -> A) (f : A -> K (sched queues) B) R l p b cur Q :
  (forall x, triple (W R l p b cur) (f x) Q) -> triple (W R l p b cur) (eget g ≫= f) Q.
Proof. intros Hf. apply T_get. intros x. eapply triple_conseq; [apply Hf|by intros s []|done]. Qed.

Lemma T_q {A} (m : K queues A) (R : queues -> Prop) (R' : A -> queues -> Prop) l p b cur :
  (forall a, R a -> exists x a', m a = Done (x, a') /\ R' x a') ->
  triple (W R l p b cur) (onq m) (fun x => W (R' x) l p b cur).
Proof.
  intros Hm s [Hl HR]. unfold onq. krun. destruct (Hm _ HR) as (x & a' & -> & HR'). by split.
Qed.

Lemma T_any' {A B} (g : env -> A) (f : A -> K (sched queues) B) P Q :
  (forall x, triple P (f x) Q) -> triple P (eget g ≫= f) Q.
Proof. intros Hf. apply triple_gets. intros x. eapply triple_conseq; [apply Hf|by intros s []|done]. Qed.

Lemma T_fields u P (R : queues -> Prop) l p b cur : (forall a, R a -> has u P a) ->
  triple (W R l p b cur) (qfields u) (fun k => W (fun a => R a /\ (exists ka, tcbs a !! u = Some ka /\ a_fields ka = k)) l p b cur).
Proof.
  intros Hu. apply T_q. intros a HR. destruct (Hu a HR) as (k & Hk & _).
  eexists _, _. split; [by apply fields_of_run|]. eauto.
Qed.

(** A change of fields other than the state. *)
Lemma T_modify_keep u P f R l p b cur : stable R -> (forall a, R a -> has u P a) ->
  (forall k, state (f k) = state k) ->
  triple (W R l p b cur) (onq (tq_modify u f)) (fun _ => W R l p b cur).
Proof.
  intros HR Hu Hf. apply T_q. intros a Ha. destruct (Hu a Ha) as (k & Hk & _).
  eexists _, _. split; [cbn; by apply modify_run|]. by apply HR.
Qed.

(** *** Time *)

Lemma T_rdtsc R l p b cur : triple (W R l p b cur) __rdtsc (fun _ => W R l p b cur).
Proof.
  unfold __rdtsc. apply T_any. intros [|r tl]; [apply triple_stuck|].
  eapply triple_bind; [by apply T_env|]. intros ?. by apply triple_ret.
Qed.

Lemma T_time R l p b cur : triple (W R l p b cur) _get_cpu_time_ns (fun _ => W R l p b cur).
Proof.
  unfold _get_cpu_time_ns. eapply triple_bind; [apply T_rdtsc|]. intros r. apply T_get. intros n.
  destruct (Z.eqb_spec n 0) as [->|Hn].
  - intros s [[[] _] E]. lia.
  - apply triple_ret. by intros s [].
Qed.

Lemma T_update R l p b cur : stable R -> (forall u a, cur = Some u -> R a -> present u a) ->
  triple (W R l p b cur) tasks_update_time (fun _ => W R l p b cur).
Proof.
  intros HR Hc. unfold tasks_update_time. eapply triple_bind; [apply T_time|]. intros now.
  apply T_any. intros last. apply T_get. intros c.
  apply (triple_bind _ (fun _ => W R l p b cur)); [|intros ?; by apply T_env].
  intros s [HW E]. assert (c = cur) as -> by (destruct HW as [[] _]; congruence).
  clear E. revert s HW. destruct cur as [u|].
  - eapply T_modify_keep; [done|by intros a; apply Hc|done].
  - by apply T_env.
Qed.

(** *** The locks *)

Lemma T_acquire R l p b cur : 0 <= l < 8 -> 0 <= p < 8 ->
  triple (W R l p b cur) _aquire_scheduler_lock (fun _ => W R (l + 1) (p + 1) b cur).
Proof.
  intros Hl Hp. unfold _aquire_scheduler_lock. eapply triple_bind; [apply T_cpu|]. intros ?; cbv beta.
  intros s [[H1 H2 H3 H4 H5] HR]. cbn. split; [|done]. split; cbn; try done.
  - rewrite H2. unfold_words. rewrite Z.mod_small; lia.
  - rewrite H3. unfold_words. rewrite Z.mod_small; lia.
Qed.

Lemma T_unlock R l p b cur : 0 < l < 8 ->
  triple (W R l p b cur) unlock
    (fun _ s => W R (l - 1) p b cur s /\ (l = 1 -> IF (cpu_of (ev s)) = true)).
Proof.
  intros Hl s [[H1 H2 H3 H4 H5] HR]. unfold unlock, eget, emod. krun. cbn.
  assert (E : u32 (_scheduler_lock (ev s) - 1) = l - 1).
  { rewrite H2. unfold_words. rewrite Z.mod_small; lia. }
  rewrite E. destruct (Z.eqb_spec (l - 1) 0); cbn; (split; [by split|]); [done|lia].
Qed.

Lemma T_set_postpone R l p b cur : 0 < p < 8 ->
  triple (W R l p b cur) (emod (fun e => set_postpone (u32 (_scheduler_postpone_count e - 1)) e))
    (fun _ => W R l (p - 1) b cur).
Proof.
  intros Hp s [[H1 H2 H3 H4 H5] HR]. split; [|done]. split; cbn; try done.
  rewrite H3. unfold_words. rewrite Z.mod_small; lia.
Qed.
Lemma T_set_postponed v R l p b cur :
  triple (W R l p b cur) (emod (set_postponed v)) (fun _ => W R l p v cur).
Proof. intros s [[H1 H2 H3 H4 H5] HR]. by repeat split. Qed.
Lemma T_set_current cur' R l p b cur :
  triple (W R l p b cur) (emod (set_current cur')) (fun _ => W R l p b cur').
Proof. intros s [[H1 H2 H3 H4 H5] HR]. by repeat split. Qed.

Lemma T_release_nested sch R l p b cur : 1 < l < 8 -> 1 < p < 8 ->
  triple (W R l p b cur) (release_with sch) (fun _ => W R (l - 1) (p - 1) b cur).
Proof.
  intros Hl Hp. unfold release_with. eapply triple_bind; [apply T_set_postpone; lia|]. intros ?; cbv beta.
  apply T_get. intros n. apply T_any'. intros b'.
  intros s [HW <-]. assert (E : _scheduler_postpone_count (ev s) =? 0 = false).
  { destruct HW as [[_ _ -> _ _] _]. apply Z.eqb_neq. lia. }
  rewrite E. cbn [andb kwhen]. rewrite (run_bind_done _ _ _ _ _ (run_ret tt s)).
  pose proof (T_unlock R l (p - 1) b cur ltac:(lia) s HW) as Hu.
  destruct (unlock s) as [[? s']| | |]; tauto.
Qed.

Lemma T_release_outer sch (mid : sched queues -> Prop) Q R l b cur :
  (b = true -> triple (W R l 0 false cur) sch (fun _ => mid)) ->
  (b = false -> forall s, W R l 0 false cur s -> mid s) ->
  triple mid unlock Q ->
  triple (W R l 1 b cur) (release_with sch) Q.
Proof.
  intros Ht Hf Hu. unfold release_with. eapply triple_bind; [apply T_set_postpone; lia|]. intros ?; cbv beta.
  change (1 - 1) with 0. apply T_get. intros n. apply triple_gets. intros b'.
  intros s [[HW <-] <-]. assert (E : _scheduler_postpone_count (ev s) = 0) by apply HW.
  assert (E' : _scheduler_postponed (ev s) = b) by apply HW. rewrite E, E'. cbn [Z.eqb andb].
  revert s HW E E'. intros s HW _ _. revert s HW.
  eapply triple_bind; [|intros ?; exact Hu]. apply triple_when; [|intros ->; by apply Hf].
  intros ->. eapply triple_bind; [apply T_set_postponed|]. intros ?. by apply Ht.
Qed.

(** *** [_schedule] when it does not switch *)

Lemma T_postponed n R l p b cur : p <> 0 ->
  triple (W R l p b cur) (schedule_n n) (fun _ => W R l p true cur).
Proof.
  intros Hp. destruct n as [|n]; [apply triple_stuck|]. cbn [schedule_n]. unfold schedule_with.
  apply T_get. intros m s [HW <-]. assert (E : _scheduler_postpone_count (ev s) =? 0 = false).
  { destruct HW as [[_ _ -> _ _] _]. by apply Z.eqb_neq. }
  rewrite E. cbn [negb]. by apply (T_set_postponed true R l p b cur).
Qed.

Lemma T_idling n R l b : triple (W R l 0 b None) (schedule_n n) (fun _ => W R l 0 b None).
Proof.
  destruct n as [|n]; [apply triple_stuck|]. cbn [schedule_n]. unfold schedule_with.
  apply T_get. intros m s [HW <-]. assert (E : _scheduler_postpone_count (ev s) = 0) by apply HW.
  rewrite E. cbn [negb Z.eqb]. revert s HW E. intros s HW _. revert s HW.
  apply T_get. intros c s [HW <-]. assert (E : current_task (ev s) = None) by apply HW.
  rewrite E. exact HW.
Qed.

(** *** The timer *)

(** [R] survives the waking of the sleeping tasks. *)
Definition wakes (R : queues -> Prop) : Prop := forall time a, R a ->
  exists x a', wake_expired time a = Done (x, a') /\ R a'.

Lemma T_on_timer n R l cur Q : 0 <= l < 7 -> wakes R ->
  (forall b, triple (W R (l + 1) 1 b cur) (release_with (schedule_n n)) Q) ->
  triple (W R l 0 false cur) (on_timer_with (schedule_n n)) Q.
Proof.
  intros Hl HR Hrel. unfold on_timer_with.
  eapply triple_bind; [apply T_acquire; lia|]. intros ?; cbv beta.
  eapply triple_bind; [apply T_time|]. intros time; cbv beta.
  eapply triple_bind; [apply (T_q _ R (fun _ => R)); apply HR|]. intros need; cbv beta.
  apply T_any. intros slice. apply T_any. intros last.
  apply (triple_bind _ (fun _ => W R (l + 1) 1 false cur)).
  { destruct (slice =? 0); [by apply triple_ret|].
    eapply triple_bind; [by apply T_env|]. intros ?; cbv beta.
    destruct (u64 (time - last) >=? slice); [by apply triple_ret|].
    eapply triple_bind; [by apply T_env|]. intros ?. by apply triple_ret. }
  intros need'. destruct need'; cbn [kwhen].
  - eapply triple_bind; [apply T_postponed; lia|]. intros ?. apply Hrel.
  - eapply triple_bind; [by apply (triple_ret _ (fun _ => W R (l + 1) 1 false cur))|]. intros ?. apply Hrel.
Qed.

(** *** The idle loop *)

Lemma woke_has u P q l a a' : woke q l a a' -> (forall st i, P st i -> P TASK_READY (Some QReady)) ->
  has u P a -> has u P a'.
Proof.
  intros Hw HP (k & Hk & Hp). unfold has. rewrite (woke_tcbs _ _ _ _ Hw), Hk. cbn.
  eexists. split; [done|]. case_decide; [cbn; by eapply HP|done].
Qed.

Definition idling (u : tid) (a : queues) : Prop := tasks_ok None a /\ present u a.

Lemma wakes_idling u : wakes (idling u).
Proof.
  intros time a [Hok Hp]. destruct (wake_expired_run time _ _ Hok) as (a' & Hrun & Hok' & Hw).
  eexists _, _. split; [done|]. split; [done|]. by eapply woke_has.
Qed.

Lemma wakes_running u : wakes (running u).
Proof.
  intros time a [Hok (k & Hk & Hs)]. destruct (wake_expired_run time _ _ Hok) as (a' & Hrun & Hok' & Hw).
  eexists _, _. split; [done|]. split; [done|]. exists k. split; [|done].
  rewrite (woke_tcbs _ _ _ _ Hw), Hk. cbn. rewrite decide_False; [done|].
  rewrite list_elem_of_filter. intros [_ Hin]. revert Hin. apply (not_queued _ _ k); [apply Hok|done|].
  pose proof (ok_home _ _ _ Hok u k Hk ltac:(done)) as Hh. unfold at_home, home_of in Hh. rewrite Hs in Hh. congruence.
Qed.

Lemma T_timer_in_idle n R : wakes R ->
  triple (W R 1 0 false None) (on_timer_with (schedule_n n)) (fun _ => W R 1 0 false None).
Proof.
  intros HR. apply T_on_timer; [lia|done|]. intros b. change (1 + 1) with 2.
  apply (T_release_outer _ (W R 2 0 false None)).
  - intros _. apply T_idling.
  - done.
  - eapply triple_conseq; [apply (T_unlock R 2 0 false None); lia|done|]. by intros ? ? [].
Qed.

Lemma T_interrupt n R i : wakes R ->
  triple (W R 1 0 false None) (interrupt (schedule_n n) i) (fun _ => W R 1 0 false None).
Proof.
  intros HR. destruct i; [|by apply triple_ret]. cbn [interrupt]. unfold timer_callback_with.
  eapply triple_bind; [apply T_cpu|]. intros ?; cbv beta.
  eapply triple_bind; [by apply T_env|]. intros ?; cbv beta. apply T_any. intros l.
  eapply triple_bind; [|intros ?; apply (T_cpu _ R)].
  induction l as [|[] l IH]; cbn [run_callbacks run_callback]; [by apply triple_ret|].
  eapply triple_bind; [by apply T_timer_in_idle|]. intros ?. exact IH.
Qed.

Lemma dequeue_ready u cur a : tasks_ok cur a -> present u a -> exists x a',
  dequeue QReady a = Done (x, a') /\
  match x with
  | None => a' = a /\ queue a QReady = []
  | Some t => taken t cur a' /\ present u a'
  end.
Proof.
  intros Hok (ku & Hu & _). pose proof (dequeue_run QReady a (ok_qwf _ _ _ Hok)) as Hd.
  destruct (queue a QReady) as [|t l]; [by exists None, a|].
  destruct Hd as (k & Hk & Hq & Hrun & Hw). eexists _, _. split; [exact Hrun|]. split; [split|].
  - eapply ok_frame; [exact Hok|exact Hk|reflexivity|exact Hw|by apply ok_weaken].
  - eexists. rewrite put_lookup, decide_True by done. split; [done|]. cbn. split; [|done].
    pose proof (ok_home _ _ _ Hok t k Hk ltac:(done)) as Hh. unfold at_home, home_of in Hh. rewrite Hq in Hh.
    destruct (state (a_fields k)); naive_solver.
  - unfold present, has. rewrite put_lookup. case_decide; eauto.
Qed.

Lemma T_idle_loop k u n :
  triple (W (idling u) 1 0 false None) (idle_loop (schedule_n k) n)
    (fun t => W (fun a => taken t None a /\ present u a) 1 0 false None).
Proof.
  induction n as [|n IH]; cbn [idle_loop]; [apply triple_stuck|].
  eapply triple_bind; [apply T_cpu|]. intros ?; cbv beta.
  eapply triple_bind.
  { unfold hlt. apply T_any. intros [|i l]; [apply triple_stuck|].
    eapply triple_bind; [by apply T_env|]. intros ?. apply T_interrupt, wakes_idling. }
  intros ?; cbv beta. eapply triple_bind; [apply T_cpu|]. intros ?; cbv beta.
  eapply triple_bind.
  { apply (T_q _ _ (fun x a => match x with Some t => taken t None a /\ present u a | None => idling u a end)).
    intros a [Hok Hp]. destruct (dequeue_ready _ _ _ Hok Hp) as (y & a' & Hrun & Hx).
    exists y, a'. split; [done|]. destruct y; [done|]. by destruct Hx as [-> _]. }
  intros [t|]; cbv beta iota; [by apply triple_ret|exact IH].
Qed.

(** *** The context switch *)

Lemma taken_present t c a : taken t (Some c) a -> present c a.
Proof. intros [Hok _]. destruct (ok_current _ _ _ Hok c eq_refl) as (k & Hk). by exists k. Qed.

Lemma taken_recur t c k a : taken t (Some c) a -> tcbs a !! c = Some k ->
  state (a_fields k) <> TASK_RUNNING -> taken t None a.
Proof.
  intros [Hok Ht] Hk Hs. split; [|done]. eapply ok_recur; [exact Hok| |done].
  intros u ku Hu Hne Hr. pose proof (ok_running _ _ _ Hok _ _ Hu Hne Hr). congruence.
Qed.

(** The running task goes to the end of the ready queue. *)
Lemma taken_requeue t c k a : taken t (Some c) a -> tcbs a !! c = Some k ->
  state (a_fields k) = TASK_RUNNING ->
  exists a', (modify c (set_state TASK_READY) ;; enqueue QReady c) a = Done (tt, a') /\ taken t None a'.
Proof.
  intros [Hok (kt & Ht & Hst & Hti)] Hk Hs.
  assert (Hct : c <> t) by congruence.
  pose proof (ok_home _ _ _ Hok c k Hk ltac:(congruence)) as Hh. unfold at_home, home_of in Hh. rewrite Hs in Hh.
  set (k' := mkATask (set_state TASK_READY (a_fields k)) None).
  assert (Hw : qwf (put c k' a)).
  { split; [apply Hok|]. intros u q. rewrite put_lookup. etransitivity; [apply (qwf_in _ (ok_qwf _ _ _ Hok))|].
    case_decide; [|done]. subst u. rewrite Hk. split; intros (? & [= <-] & E); cbn in *; congruence. }
  pose proof (enqueue_qwf QReady c k' _ Hw (lookup_insert_eq _ _ _) eq_refl) as Hw2.
  eexists. split.
  - rewrite (run_bind_done _ _ _ _ _ (modify_run _ _ _ _ Hk)). rewrite Hh.
    apply enqueue_run; [apply lookup_insert_eq|done].
  - assert (Hl : forall u, tcbs (put c (mkATask (a_fields k') (Some QReady))
        (setq QReady (queue (put c k' a) QReady ++ [c]) (put c k' a))) !! u =
        if decide (u = c) then Some (mkATask (a_fields k') (Some QReady)) else tcbs a !! u).
    { intros u. rewrite put_lookup. case_decide; [done|]. cbn. by rewrite lookup_insert_ne. }
    split; [|exists kt; rewrite Hl, decide_False by done; done].
    split; [exact Hw2|..]; intros u; [intros ku|intros ku|done]; rewrite Hl; case_decide as Hd.
    + by intros [= <-].
    + by apply Hok.
    + by intros [= <-].
    + intros Hu Hne Hr. pose proof (ok_running _ _ _ Hok _ _ Hu Hne Hr). congruence.
Qed.

Lemma taken_start t k a : taken t None a -> tcbs a !! t = Some k ->
  running t (put t (mkATask (set_state TASK_RUNNING (a_fields k)) (a_in k)) a).
Proof.
  intros [Hok (kt & Ht & Hs & Hi)] Hk. simplify_eq.
  assert (Hn : tasks_ok (Some t) (put t (mkATask (set_state TASK_RUNNING (a_fields kt)) (a_in kt)) a)).
  { eapply (ok_close t); [|apply lookup_insert_eq|by cbn|done]. eapply put_ok; [|exact Ht|done].
    eapply ok_recur; [exact Hok| |intros ? [= <-]; eauto].
    intros u ku Hu Hne Hr. by pose proof (ok_running _ _ _ Hok _ _ Hu Hne Hr). }
  split; [done|]. eexists. split; [apply lookup_insert_eq|done].
Qed.

(** [current] returns the current task. *)
Lemma T_current {B} R l p b c (f : tid -> K (sched queues) B) Q :
  triple (W R l p b (Some c)) (f c) Q -> triple (W R l p b (Some c)) (current ≫= f) Q.
Proof.
  intros Hf s HW. assert (E : current_task (ev s) = Some c) by apply HW.
  assert (Hc : current s = Done (c, s)) by (unfold current, eget; krun; by rewrite E).
  rewrite (run_bind_done _ _ _ _ _ Hc). by apply Hf.
Qed.

(** Two operations on the queues, seen as one. *)
Lemma T_q2 {A B} (m : K queues A) (m' : K queues B) (R : queues -> Prop) (R' : B -> queues -> Prop) l p b cur :
  (forall a, R a -> exists x a', (m ;; m') a = Done (x, a') /\ R' x a') ->
  triple (W R l p b cur) (onq m ;; onq m') (fun x => W (R' x) l p b cur).
Proof.
  intros Hm s [Hl HR]. destruct (Hm _ HR) as (x & a' & Hrun & HR'). revert Hrun.
  unfold onq. krun. destruct (m (qs s)) as [[y a1]| | |]; try done. cbn.
  destruct (m' a1) as [[z a2]| | |]; try done. intros [= -> ->]. by split.
Qed.

Lemma taken_has t cur a : taken t cur a -> has t (fun st i => st = TASK_READY /\ i = None) a.
Proof. by intros []. Qed.
Lemma running_has t a : running t a -> has t (fun st _ => st = TASK_RUNNING) a.
Proof. by intros []. Qed.

Lemma T_switch_to t c l p b :
  triple (W (taken t (Some c)) l p b (Some c)) (tasks_switch_to t) (fun _ => W (running t) l p b (Some t)).
Proof.
  unfold tasks_switch_to. apply T_any. intros e.
  do 4 (eapply triple_bind; [apply T_cpu|]; intros ?; cbv beta).
  apply T_current. apply T_any. intros sp.
  eapply triple_bind.
  { apply (T_modify_keep c (fun _ _ => True)); [auto with stable|apply taken_present|done]. }
  intros ?; cbv beta.
  eapply triple_bind; [apply (T_fields c (fun _ _ => True)), taken_present|]. intros k; cbv beta.
  apply (triple_bind _ (fun _ => W (taken t None) l p b (Some c))).
  { apply triple_when; intros Hb.
    - apply bool_decide_eq_true in Hb. apply T_q2. intros a (Ht & ka & Hk & <-).
      destruct (taken_requeue _ _ _ _ Ht Hk Hb) as (a' & Hrun & Ht'). by exists tt, a'.
    - apply bool_decide_eq_false in Hb. intros s. apply W_conseq. intros a (Ht & ka & Hk & <-).
      by eapply taken_recur. }
  intros ?. eapply triple_bind; [apply T_set_current|]. intros ?; cbv beta.
  eapply triple_bind; [apply (T_q _ _ (fun _ => taken t None))|].
  { intros a Ht. destruct (taken_has _ _ _ Ht) as (kt & Hk & _). eexists _, _.
    split; [by apply fields_of_run|done]. }
  intros kt; cbv beta. eapply triple_bind; [apply T_cpu|]. intros ?; cbv beta.
  eapply triple_bind; [apply (T_q _ _ (fun _ => running t))|].
  { intros a Ht. destruct (taken_has _ _ _ Ht) as (k' & Hk & _). eexists _, _.
    split; [by apply modify_run|]. by apply taken_start. }
  intros ?; cbv beta. eapply triple_bind; [apply (T_q _ _ (fun _ => running t))|].
  { intros a Ht. destruct (running_has _ _ Ht) as (k' & Hk & _). eexists _, _.
    split; [by apply fields_of_run|done]. }
  intros kt'; cbv beta. apply T_any. intros cr.
  apply (triple_bind _ (fun _ => W (running t) l p b (Some t))).
  { apply triple_when; [intros _; apply T_cpu|done]. }
  intros ?. do 4 (eapply triple_bind; [apply T_cpu|]; intros ?; cbv beta). apply T_cpu.
Qed.

Lemma T_switch t c l p b :
  triple (W (taken t (Some c)) l p b (Some c)) (switch t) (fun _ => W (running t) l p b (Some t)).
Proof.
  unfold switch, call_switch_to. eapply triple_bind; [by apply T_env|]. intros ?; cbv beta.
  eapply triple_bind; [apply T_time|]. intros ?; cbv beta.
  eapply triple_bind; [by apply T_env|]. intros ?; cbv beta.
  do 2 (eapply triple_bind; [apply T_cpu|]; intros ?; cbv beta). apply T_switch_to.
Qed.

(** *** [_schedule] *)

Lemma T_idle n c :
  triple (W (fun a => tasks_ok (Some c) a /\ has c (fun st _ => st <> TASK_RUNNING) a) 1 0 false (Some c))
    (idle (schedule_n n) c) (fun t => W (taken t (Some c)) 1 0 false (Some c)).
Proof.
  unfold idle. eapply triple_bind; [by apply T_env|]. intros ?; cbv beta.
  eapply triple_bind.
  { apply T_update; [exact (stable_and _ _ (stable_ok _ _) (stable_has _ _))|]. intros u a [= <-]; cbv beta. intros [_ (k & Hk & _)]. by exists k. }
  intros ?; cbv beta. eapply triple_bind; [apply T_set_current|]. intros ?; cbv beta.
  eapply (triple_conseq _ (W (idling c) 1 0 false None)); [|intros s; apply W_conseq|intros t s Hs; exact Hs].
  2:{ intros a [Hok (k & Hk & Hs)]. split; [|by exists k]. eapply ok_recur; [exact Hok| |done].
      intros u ku Hu _ Hr. pose proof (ok_running _ _ _ Hok _ _ Hu ltac:(done) Hr). congruence. }
  eapply triple_bind; [apply T_time|]. intros ?; cbv beta.
  eapply triple_bind; [by apply T_env|]. intros ?; cbv beta. apply T_any. intros l.
  eapply triple_bind; [apply T_idle_loop|]. intros t; cbv beta.
  eapply triple_bind; [apply T_update; [exact (stable_and _ _ (stable_taken _ _) (stable_has _ _))|done]|].
  intros ?; cbv beta. eapply triple_bind; [apply T_set_current|]. intros ?; cbv beta.
  eapply triple_bind; [apply T_time|]. intros ?; cbv beta.
  do 2 (eapply triple_bind; [by apply T_env|]; intros ?; cbv beta).
  apply triple_ret. intros s. apply W_conseq. intros a [[Hok Ht] (k & Hk & _)]. split; [|done].
  eapply ok_recur; [exact Hok| |intros ? [= <-]; eauto].
  intros u ku Hu Hne Hr. by pose proof (ok_running _ _ _ Hok _ _ Hu Hne Hr).
Qed.

Definition runs (s : sched queues) : Prop := exists c, W (running c) 1 0 false (Some c) s.

Lemma T_schedule n c :
  triple (W (tasks_ok (Some c)) 1 0 false (Some c)) (schedule_n n) (fun _ => runs).
Proof.
  destruct n as [|n]; [apply triple_stuck|]. cbn [schedule_n]. unfold schedule_with.
  apply T_get. intros m s [HW <-]. assert (E : _scheduler_postpone_count (ev s) = 0) by apply HW.
  rewrite E. cbn [negb Z.eqb]. revert s HW E. intros s HW _. revert s HW.
  apply T_get. intros cc s [HW <-]. assert (E : current_task (ev s) = Some c) by apply HW.
  rewrite E. revert s HW E. intros s HW _. revert s HW.
  assert (Hsw : forall t, triple (W (taken t (Some c)) 1 0 false (Some c)) (switch t) (fun _ => runs)).
  { intros t. eapply triple_conseq; [apply T_switch|done|]. intros ? s Hs. by exists t. }
  eapply triple_bind; [apply (T_q _ _ (fun x a => match x with
     Some t => taken t (Some c) a | None => tasks_ok (Some c) a end))|].
  { intros a Hok. assert (Hc : present c a) by (destruct (ok_current _ _ _ Hok c eq_refl) as (k & Hk); by exists k).
    destruct (dequeue_ready _ _ _ Hok Hc) as (x & a' & Hrun & Hx). exists x, a'. split; [done|].
    destruct x; [by destruct Hx|]. by destruct Hx as [-> _]. }
  intros [t|]; cbv beta iota.
  - eapply triple_bind; [|intros ?; apply Hsw]. apply T_update; [auto with stable|].
    intros u a [= <-]. apply taken_present.
  - eapply triple_bind; [apply (T_fields c (fun _ _ => True))|].
    { intros a Hok. destruct (ok_current _ _ _ Hok c eq_refl) as (k & Hk). by exists k. }
    intros k; cbv beta. case_bool_decide as Hk.
    + eapply triple_conseq; [by apply (T_env _ (running c))|intros s; apply W_conseq|intros ? s Hs; by exists c].
      intros a [Hok (ka & Ha & <-)]. split; [done|]. by exists ka.
    + eapply triple_bind; [|intros t; apply Hsw].
      eapply triple_conseq; [apply T_idle|intros s; apply W_conseq|intros t s Hs; exact Hs].
      intros a [Hok (ka & Ha & <-)]. split; [done|]. by exists ka.
Qed.

(** *** The outermost release *)

Definition inv0 (s : sched queues) : Prop := exists c, W (running c) 0 0 false (Some c) s.

Lemma T_runs_unlock : triple runs unlock (fun _ => inv).
Proof.
  intros s (c & HW). pose proof (T_unlock (running c) 1 0 false (Some c) ltac:(lia) s HW) as Hu.
  destruct (unlock s) as [[? s']| | |]; try done. destruct Hu as [Hu Hi]. exists c. auto.
Qed.

Lemma T_release_true c : triple (W (tasks_ok (Some c)) 1 1 true (Some c)) _release_scheduler_lock (fun _ => inv).
Proof.
  unfold _release_scheduler_lock. apply (T_release_outer _ runs); [|done|apply T_runs_unlock].
  intros _. apply T_schedule.
Qed.

Lemma T_release_any b c : triple (W (running c) 1 1 b (Some c)) _release_scheduler_lock (fun _ => inv).
Proof.
  destruct b.
  - eapply triple_conseq; [apply T_release_true|intros s; apply W_conseq; by intros a []|done].
  - unfold _release_scheduler_lock. apply (T_release_outer _ runs); [done| |apply T_runs_unlock].
    intros _ s HW. by exists c.
Qed.

Lemma triple_inv0 {A} (m : K (sched queues) A) Q :
  (forall c, triple (W (running c) 0 0 false (Some c)) m Q) -> triple inv0 m Q.
Proof. intros Hm s (c & HW). by apply (Hm c). Qed.

(** *** The functions of the interface *)

(** [c] is about to leave the processor with the state [reason]: it already is
    where a task of that state has to be. *)
Definition leaving (c : tid) (reason : task_state) (a : queues) : Prop :=
  ok_but (Some c) (Some c) a /\ has c (fun _ i => home_of reason i) a.

(** A property that does not depend on [c]. *)
Definition apart (c : tid) (F : queues -> Prop) : Prop := forall k a, F a -> F (put c k a).

Lemma apart_has c u P : u <> c -> apart c (has u P).
Proof. intros Hu k a (ku & Hk & HP). exists ku. by rewrite put_lookup, decide_False. Qed.

Lemma T_set_state c reason F l p b : reason <> TASK_RUNNING -> apart c F ->
  triple (W (fun a => leaving c reason a /\ F a) l p b (Some c)) (onq (tq_modify c (set_state reason)))
    (fun _ => W (fun a => tasks_ok (Some c) a /\ F a) l p b (Some c)).
Proof.
  intros Hr HF. apply T_q. intros a [[Hok (k & Hk & Hh)] Hf]. eexists _, _.
  split; [by apply modify_run|]. split; [|by apply HF].
  eapply (ok_close c); [by eapply put_ok|apply lookup_insert_eq|done|done].
Qed.

Lemma T_block_outer c reason : reason <> TASK_RUNNING ->
  triple (W (leaving c reason) 0 0 false (Some c)) (tasks_block_current reason) (fun _ => inv).
Proof.
  intros Hr. unfold tasks_block_current. eapply triple_bind; [apply T_acquire; lia|]. intros ?; cbv beta.
  apply T_current. eapply triple_bind.
  { eapply triple_conseq; [by apply (T_set_state c reason (fun _ => True) 1 1 false)|intros s; apply W_conseq; auto|].
    intros x0 s Hs. exact Hs. }
  intros ?; cbv beta. eapply triple_bind; [by apply T_postponed|]. intros ?; cbv beta.
  eapply triple_conseq; [apply (T_release_true c)|intros s; apply W_conseq; by intros a []|done].
Qed.

Lemma T_block_nested c reason F b : reason <> TASK_RUNNING -> apart c F ->
  triple (W (fun a => leaving c reason a /\ F a) 1 1 b (Some c)) (tasks_block_current reason)
    (fun _ => W (fun a => tasks_ok (Some c) a /\ F a) 1 1 true (Some c)).
Proof.
  intros Hr HF. unfold tasks_block_current. eapply triple_bind; [apply T_acquire; lia|]. intros ?; cbv beta.
  apply T_current. eapply triple_bind; [by apply T_set_state|]. intros ?; cbv beta.
  eapply triple_bind; [by apply T_postponed|]. intros ?; cbv beta. by apply (T_release_nested _ _ 2 2).
Qed.

Definition paused (t : tid) : queues -> Prop := has t (fun st i => st = TASK_PAUSED /\ i = None).

(** A paused task goes to the end of the ready queue. *)
Lemma unpause t cur a : tasks_ok cur a -> paused t a ->
  exists a', (modify t (set_state TASK_READY) ;; enqueue QReady t) a = Done (tt, a') /\
    tasks_ok cur a' /\ (forall u P, u <> t -> has u P a -> has u P a').
Proof.
  intros Hok (k & Hk & Hs & Hi). pose proof (ok_weaken (Some t) _ _ Hok) as Hb.
  pose proof (put_ok t k (mkATask (set_state TASK_READY (a_fields k)) (a_in k)) cur a Hb Hk eq_refl) as Hp.
  pose proof (enqueue_ok QReady t _ cur _ Hp (lookup_insert_eq _ _ _) Hi) as He.
  eexists. split; [|split].
  - rewrite (run_bind_done _ _ _ _ _ (modify_run _ _ _ _ Hk)).
    apply enqueue_run; [apply lookup_insert_eq|done].
  - by eapply (ok_close t); [exact He|apply lookup_insert_eq|..].
  - intros u P Hu (ku & Hku & HP). exists ku. cbn. by rewrite !lookup_insert_ne.
Qed.

(** Two operations on the queues at the head of a block. *)
Lemma T_q2k {A B C} (m : K queues A) (m' : K queues B) (f : B -> K (sched queues) C)
    (R : queues -> Prop) (R' : B -> queues -> Prop) l p b cur Q :
  (forall a, R a -> exists x a', (m ;; m') a = Done (x, a') /\ R' x a') ->
  (forall x, triple (W (R' x) l p b cur) (f x) Q) ->
  triple (W R l p b cur) (onq m ;; (onq m' ≫= f)) Q.
Proof.
  intros Hm Hf s HW. rewrite <- run_bind_assoc.
  revert s HW. eapply triple_bind; [by apply T_q2|exact Hf].
Qed.

Lemma T_unblock_nested t c b :
  triple (W (fun a => tasks_ok (Some c) a /\ paused t a) 1 1 b (Some c)) (tasks_unblock t)
    (fun _ => W (tasks_ok (Some c)) 1 1 b (Some c)).
Proof.
  unfold tasks_unblock. eapply triple_bind; [apply T_acquire; lia|]. intros ?; cbv beta.
  eapply T_q2k with (R' := fun _ => tasks_ok (Some c)).
  { intros a [Hok Hp]. destruct (unpause t _ a Hok Hp) as (a' & Hrun & Hok' & _). eauto. }
  intros ?; cbv beta. by apply (T_release_nested _ _ 2 2).
Qed.

Lemma T_unblock t c :
  triple (W (fun a => running c a /\ paused t a) 0 0 false (Some c)) (tasks_unblock t) (fun _ => inv).
Proof.
  unfold tasks_unblock. eapply triple_bind; [apply T_acquire; lia|]. intros ?; cbv beta.
  eapply T_q2k with (R' := fun _ => running c); [|intros ?; apply T_release_any].
  intros a [[Hok Hc] Hp]. destruct (unpause t _ a Hok Hp) as (a' & Hrun & Hok' & Ho).
  eexists _, _. split; [exact Hrun|]. split; [done|]. apply Ho; [|done].
  intros ->. destruct Hc as (k & Hk & Hs), Hp as (k' & Hk' & Hs' & _). congruence.
Qed.

Lemma T_schedule_call c : triple (W (running c) 0 0 false (Some c)) tasks_schedule (fun _ => inv).
Proof.
  unfold tasks_schedule. eapply triple_bind; [apply T_acquire; lia|]. intros ?; cbv beta.
  eapply triple_bind; [by apply T_postponed|]. intros ?. apply T_release_any.
Qed.

Lemma running_unqueued c a : running c a -> exists k, tcbs a !! c = Some k /\ a_in k = None /\
  state (a_fields k) = TASK_RUNNING.
Proof.
  intros [Hok (k & Hk & Hs)]. exists k. split; [done|]. split; [|done].
  pose proof (ok_home _ _ _ Hok c k Hk ltac:(done)) as Hh. unfold at_home, home_of in Hh. by rewrite Hs in Hh.
Qed.

(** The running task enters a queue. *)
Lemma enqueue_running q c reason a : running c a -> home_of reason (Some q) ->
  exists a', enqueue q c a = Done (tt, a') /\ leaving c reason a' /\
    (forall u P, u <> c -> has u P a -> has u P a').
Proof.
  intros Hr Hh. destruct (running_unqueued _ _ Hr) as (k & Hk & Hi & Hs). destruct Hr as [Hok _].
  eexists. split; [by apply enqueue_run|]. split; [split|].
  - apply enqueue_ok; [by apply ok_weaken|done|done].
  - eexists. split; [apply lookup_insert_eq|done].
  - intros u P Hu (ku & Hku & HP). exists ku. cbn. by rewrite lookup_insert_ne.
Qed.

Lemma T_sync_block ts c : triple (W (running c) 0 0 false (Some c)) (tasks_sync_block ts) (fun _ => inv).
Proof.
  unfold tasks_sync_block. eapply triple_bind; [apply T_acquire; lia|]. intros ?; cbv beta.
  apply T_current. eapply triple_bind.
  { apply (T_q _ _ (fun _ a => leaving c TASK_BLOCKED a /\ True)). intros a Hr.
    destruct (enqueue_running (QSync ts) c TASK_BLOCKED a Hr) as (a' & Hrun & Hl & _); [by exists ts|]. eauto 10. }
  intros ?; cbv beta. eapply triple_bind; [by apply (T_block_nested c TASK_BLOCKED (fun _ => True))|].
  intros ?; cbv beta.
  eapply triple_conseq; [apply T_release_true|intros s; apply W_conseq; by intros a []|done].
Qed.

Lemma T_exit c :
  triple (W (fun a => running c a /\ paused addr_cleaner_task a) 0 0 false (Some c)) tasks_exit (fun _ => inv).
Proof.
  unfold tasks_exit. eapply triple_bind; [apply T_acquire; lia|]. intros ?; cbv beta. apply T_current.
  destruct (decide (addr_cleaner_task = c)) as [Hc|Hc].
  { intros s [_ [Hr Hp]]. exfalso. subst c. destruct (running_unqueued _ _ Hr) as (k & Hk & _ & Hs).
    destruct Hp as (k' & Hk' & Hs' & _). congruence. }
  eapply triple_bind.
  { apply (T_q _ _ (fun _ a => leaving c TASK_STOPPED a /\ paused addr_cleaner_task a)). intros a [Hr Hp].
    destruct (enqueue_running QStopped c TASK_STOPPED a Hr) as (a' & Hrun & Hl & Ho); [by left|].
    eexists _, _. split; [exact Hrun|]. split; [done|]. by apply Ho. }
  intros ?; cbv beta. eapply triple_bind; [by apply T_block_nested, apart_has|]. intros ?; cbv beta.
  eapply triple_bind; [apply T_unblock_nested|]. intros ?. apply T_release_true.
Qed.

Lemma T_sleep_until w c : triple (W (running c) 0 0 false (Some c)) (tasks_nano_sleep_until w) (fun _ => inv).
Proof.
  unfold tasks_nano_sleep_until. eapply triple_bind; [apply T_acquire; lia|]. intros ?; cbv beta.
  apply T_current.
  set (S := fun a => ok_but (Some c) (Some c) a /\ has c (fun st i => st = TASK_SLEEPING /\ i = None) a).
  eapply triple_bind.
  { apply (T_q _ _ (fun _ => S)). intros a Hr. destruct (running_unqueued _ _ Hr) as (k & Hk & Hi & Hs).
    eexists _, _. split; [by apply modify_run|]. split.
    - eapply put_ok; [apply ok_weaken, Hr|done|done].
    - eexists. split; [apply lookup_insert_eq|done]. }
  intros ?; cbv beta. eapply triple_bind.
  { apply (T_modify_keep c (fun st i => st = TASK_SLEEPING /\ i = None)); [|by intros a []|done].
    exact (stable_and _ _ (stable_ok _ _) (stable_has _ _)). }
  intros ?; cbv beta. eapply triple_bind.
  { apply (T_q _ _ (fun _ => tasks_ok (Some c))). intros a [Hok (k & Hk & Hs & Hi)]. eexists _, _.
    split; [by apply enqueue_run|]. eapply (ok_close c); [by apply enqueue_ok|apply lookup_insert_eq|..].
    - unfold at_home. cbn. by rewrite Hs.
    - cbn. congruence. }
  intros ?; cbv beta. eapply triple_bind; [by apply T_postponed|]. intros ?. apply T_release_true.
Qed.

Lemma T_sleep w c : triple (W (running c) 0 0 false (Some c)) (tasks_nano_sleep w) (fun _ => inv).
Proof. unfold tasks_nano_sleep. eapply triple_bind; [apply T_time|]. intros t. apply T_sleep_until. Qed.

Lemma T_sync_unblock ts c :
  triple (W (running c) 0 0 false (Some c)) (tasks_sync_unblock ts) (fun _ => inv).
Proof.
  unfold tasks_sync_unblock. eapply triple_bind; [apply T_acquire; lia|]. intros ?; cbv beta.
  apply triple_gets. intros e. destruct e; cbn [negb kwhen].
  - eapply triple_bind; [by apply (triple_ret _ (fun _ => W (running c) 1 1 false (Some c))); intros s []|].
    intros ?. apply T_release_any.
  - eapply (triple_conseq _ (W (running c) 1 1 false (Some c))); [|by intros s []|intros ? s Hs; exact Hs].
    apply (triple_bind _ (fun _ => W (running c) 1 1 true (Some c))); [|intros ?; apply T_release_any].
    eapply triple_bind; [apply (T_q _ _ (fun _ => running c))|intros ?; by apply T_postponed].
    intros a Hr. destruct (running_unqueued _ _ Hr) as (k & Hk & Hi & Hs). destruct Hr as [Hok Hc].
    destruct (wake_all_run ts _ _ Hok) as (a' & Hrun & Hok' & Hw). eexists _, _. split; [done|].
    split; [done|]. exists k. split; [|done]. rewrite (woke_tcbs _ _ _ _ Hw), Hk. cbn.
    rewrite decide_False; [done|]. apply (not_queued _ _ k); [apply Hok|done|congruence].
Qed.

(** *** The cleaner *)

Definition stopped_out (t : tid) : queues -> Prop := has t (fun st i => st = TASK_STOPPED /\ i = None).

Lemma dequeue_stopped c a : running c a -> queue a QStopped <> [] ->
  exists t a', dequeue QStopped a = Done (Some t, a') /\ running c a' /\ stopped_out t a'.
Proof.
  intros Hr Hq. pose proof (dequeue_run QStopped a (ok_qwf _ _ _ (proj1 Hr))) as Hd.
  destruct (running_unqueued _ _ Hr) as (kc & Hc & Hci & Hcs). destruct Hr as [Hok _].
  destruct (queue a QStopped) as [|t l]; [done|]. destruct Hd as (k & Hk & Hi & Hrun & Hw).
  assert (Hs : state (a_fields k) = TASK_STOPPED).
  { pose proof (ok_home _ _ _ Hok t k Hk ltac:(done)) as Hh. unfold at_home, home_of in Hh. rewrite Hi in Hh.
    destruct (state (a_fields k)); naive_solver. }
  eexists _, _. split; [exact Hrun|]. split; [split|].
  - eapply (ok_close t); [|apply lookup_insert_eq|..].
    + eapply ok_frame; [exact Hok|exact Hk|reflexivity|exact Hw|by apply ok_weaken].
    + unfold at_home. cbn. rewrite Hs. by right.
    + cbn. congruence.
  - exists kc. split; [|done]. cbn. by rewrite lookup_insert_ne by congruence.
  - eexists. split; [apply lookup_insert_eq|done].
Qed.

Lemma free_run t c a : running c a -> stopped_out t a ->
  exists a', free_task t a = Done (tt, a') /\ running c a'.
Proof.
  intros [Hok (kc & Hc & Hcs)] (k & Hk & Hs & Hi). unfold free_task. rewrite Hk. destruct k as [f i]. cbn in Hi, Hs.
  subst i. eexists. split; [done|].
  assert (Htc : t <> c) by (intros ->; simplify_eq; cbn in *; congruence). destruct Hok as [[H1a H1b] H2 H3 H4].
  assert (Hl : forall u, delete t (tcbs a) !! u = if decide (u = t) then None else tcbs a !! u).
  { intros u. case_decide; [subst; apply lookup_delete_eq|by apply lookup_delete_ne]. }
  split; [split; [split; [done|]|..]|]; cbn.
  - intros u q. cbn. rewrite Hl, H1b. case_decide as Hd; [|done]. subst. rewrite Hk.
    split; [by intros (? & [= <-] & [=])|by intros (? & [=] & _)].
  - intros u ku. rewrite Hl. case_decide; [done|apply H2].
  - intros u ku. rewrite Hl. case_decide; [done|apply H3].
  - intros u [= <-]. rewrite Hl, decide_False by done. eauto.
  - exists kc. cbn. by rewrite Hl, decide_False.
Qed.

Lemma T_clean_task t c l p b :
  triple (W (fun a => running c a /\ stopped_out t a) l p b (Some c)) (_clean_stopped_task t)
    (fun _ => W (running c) l p b (Some c)).
Proof.
  unfold _clean_stopped_task. eapply triple_bind.
  { apply (T_q _ _ (fun _ a => running c a /\ stopped_out t a)). intros a Ha.
    destruct (proj2 Ha) as (k & Hk & _). eexists _, _. split; [by apply fields_of_run|done]. }
  intros k; cbv beta. eapply triple_bind; [by apply T_env|]. intros ?; cbv beta.
  apply triple_when; intros _.
  - apply T_q. intros a [Hr Hs]. destruct (free_run _ _ _ Hr Hs) as (a' & Hrun & Hr'). by exists tt, a'.
  - intros s. apply W_conseq. by intros a [].
Qed.

Lemma T_clean_loop c l p b n :
  triple (W (running c) l p b (Some c)) (clean_loop n) (fun _ => W (running c) l p b (Some c)).
Proof.
  induction n as [|n IH]; cbn [clean_loop]; apply triple_gets; intros e.
  - destruct e; [apply triple_ret; by intros s []|apply triple_stuck].
  - destruct e; [apply triple_ret; by intros s []|].
    eapply (triple_conseq _ (W (fun a => running c a /\ queue a QStopped <> []) l p b (Some c)));
      [|intros s [[Hl HR] E]; split; [done|split; [done|]]|intros ? s Hs; exact Hs].
    2:{ cbn in E. unfold is_empty in E. by apply bool_decide_eq_false in E. }
    eapply triple_bind.
    { apply (T_q _ _ (fun x a => exists t, x = Some t /\ running c a /\ stopped_out t a)).
      intros a [Hr Hq]. destruct (dequeue_stopped _ _ Hr Hq) as (t & a' & Hrun & Hx). eauto 10. }
    intros x; cbv beta. eapply triple_bind; [|intros ?; exact IH]. destruct x as [t|].
    + eapply triple_conseq; [apply T_clean_task|intros s; apply W_conseq|intros ? s Hs; exact Hs].
      by intros a (t' & [= <-] & Ha).
    + by intros s [_ (t & [=] & _)].
Qed.

Lemma T_clean c n : triple (W (running c) 0 0 false (Some c)) (_cleaner_task_impl n) (fun _ => inv).
Proof.
  unfold _cleaner_task_impl. eapply triple_bind; [apply T_acquire; lia|]. intros ?; cbv beta.
  eapply triple_bind; [apply T_clean_loop|]. intros ?; cbv beta. eapply triple_bind.
  { eapply triple_conseq; [by apply (T_block_nested c TASK_PAUSED (fun _ => True) false)|intros s; apply W_conseq|].
    - intros a Hr. destruct (running_unqueued _ _ Hr) as (k & Hk & Hi & _). destruct Hr as [Hok _].
      split; [|done]. split; [by apply ok_weaken|by exists k].
    - intros y s Hs. exact Hs. }
  intros ?; cbv beta.
  eapply triple_conseq; [apply T_release_true|intros s; apply W_conseq; by intros a []|done].
Qed.

(** *** New tasks *)

(** [t] is the address of a task structure that is not in use. *)
Definition unused (cur : option tid) (t : tid) (a : queues) : Prop :=
  cur <> Some t /\ forall k, tcbs a !! t = Some k -> a_in k = None.

Lemma new_run cur t k a : tasks_ok cur a -> unused cur t a ->
  new_task t k a = Done (tt, put t (mkATask k None) a) /\ ok_but (Some t) cur (put t (mkATask k None) a) /\
  (forall u P, u <> t -> has u P a -> has u P (put t (mkATask k None) a)).
Proof.
  intros Hok [Hc Hu]. split.
  { unfold new_task. destruct (tcbs a !! t) as [[f [q|]]|] eqn:E; try done. by specialize (Hu _ eq_refl). }
  destruct Hok as [[H1a H1b] H2 H3 H4]. split; [split; [split; [done|]|..]|].
  - intros u q. rewrite put_lookup. cbn. rewrite H1b. case_decide as Hd; [|done]. subst.
    split; [|by intros (? & [= <-] & [=])]. intros (k' & Hk & E). specialize (Hu _ Hk). congruence.
  - intros u ku. rewrite put_lookup. case_decide; [by subst|intros Hk _; by apply (H2 u)].
  - intros u ku. rewrite put_lookup. case_decide; [by subst|intros Hk _; by apply (H3 u)].
  - intros u Hcu. rewrite put_lookup. case_decide; eauto.
  - intros u P Hut (ku & Hk & HP). exists ku. by rewrite put_lookup, decide_False.
Qed.

Lemma T_new t malloc newPage entry storage st nm cur lcur F l p b :
  newPage <> 0 -> (storage = Some t \/ storage = None /\ malloc = Some t) ->
  st = TASK_READY \/ st = TASK_PAUSED ->
  (forall a a', (forall u P, u <> t -> has u P a -> has u P a') -> F a -> F a') ->
  triple (W (fun a => tasks_ok cur a /\ unused cur t a /\ F a) l p b lcur)
    (tasks_new malloc newPage entry storage st nm)
    (fun _ => W (fun a => tasks_ok cur a /\ F a /\ has t (fun st' i => st' = st /\ home_of st i) a) l p b lcur).
Proof.
  intros Hpage Hst Hs HF. unfold tasks_new.
  assert (E : (match storage with
      | Some t0 => mret t0
      | None => match malloc with
                | Some t0 => mret t0
                | None => kpanic "Unable to allocate memory for new task struct."
                end
      end : K (sched queues) tid) = mret t) by (by destruct Hst as [->|[-> ->]]).
  rewrite E. apply triple_ret_bind. destruct (Z.eqb_spec newPage 0); [done|].
  apply T_any. intros m. cbv zeta.
  eapply triple_bind; [apply T_cpu|]. intros ?; cbv beta. eapply triple_bind.
  { apply (T_q _ _ (fun _ a => ok_but (Some t) cur a /\ F a /\
      exists k, tcbs a !! t = Some k /\ state (a_fields k) = st /\ a_in k = None)).
    intros a (Hok & Hu & Hf). pose proof (fun k => new_run cur t k a Hok Hu) as Hn. eexists _, _.
    split; [apply Hn|]. split; [apply Hn|]. split; [eapply HF; [|exact Hf]; apply Hn|].
    eexists. split; [apply lookup_insert_eq|done]. }
  intros ?; cbv beta. eapply triple_bind; [|intros ?; apply triple_ret; intros s Hs'; exact Hs'].
  apply triple_when; intros Hb; [apply bool_decide_eq_true in Hb; subst st|].
  - apply T_q. intros a (Hok & Hf & k & Hk & Hs' & Hi). eexists _, _. split; [by apply enqueue_run|].
    split; [|split].
    + eapply (ok_close t); [by apply enqueue_ok|apply lookup_insert_eq|..].
      * unfold at_home. cbn. by rewrite Hs'.
      * cbn. congruence.
    + eapply HF; [|exact Hf]. intros u P Hu (ku & Hku & HP). exists ku. cbn. by rewrite lookup_insert_ne.
    + eexists. split; [apply lookup_insert_eq|]. cbn. auto.
  - destruct Hs as [-> | ->]; [done|]. intros s. apply W_conseq. intros a (Hok & Hf & k & Hk & Hs' & Hi).
    split; [|split; [done|]].
    + eapply (ok_close t); [done|done|..]; unfold at_home; rewrite Hs'; done.
    + exists k. cbn. auto.
Qed.

(** *** The timer interrupt, between two calls *)

Lemma T_on_timer_call : triple inv0 _on_timer (fun _ => inv).
Proof.
  apply triple_inv0. intros c. unfold _on_timer. apply T_on_timer; [lia|apply wakes_running|].
  intros b. apply T_release_any.
Qed.

Lemma inv_inv0 s : inv s -> inv0 s.
Proof. intros (c & HW & _). by exists c. Qed.

Lemma T_inv0_cpu f : triple inv0 (cmod f) (fun _ => inv0).
Proof.
  apply triple_inv0. intros c. eapply triple_conseq; [apply T_cpu|intros s Hs; exact Hs|]. intros ? s Hs.
  by exists c.
Qed.

Lemma T_timer_call : triple inv0 timer_callback (fun _ => inv).
Proof.
  unfold timer_callback, timer_callback_with. eapply triple_bind; [apply T_inv0_cpu|]. intros ?; cbv beta.
  apply (triple_bind _ (fun _ => inv0)).
  { apply triple_inv0. intros c. eapply triple_conseq; [by apply T_env|intros s Hs; exact Hs|].
    intros ? s Hs. by exists c. }
  intros ?. apply T_any'. intros l. apply (triple_bind _ (fun _ => inv0)).
  - induction l as [|[] l IH]; cbn [run_callbacks run_callback]; [by apply triple_ret|].
    apply (triple_bind _ (fun _ => inv0)); [|intros ?; exact IH].
    eapply triple_conseq; [apply T_on_timer_call|done|]. intros ? s. apply inv_inv0.
  - intros ?. intros s (c & HW). cbn. exists c. split; [|done]. destruct HW as [[H1 H2 H3 H4 H5] HR].
    split; [by split|done].
Qed.

(** ** Every call preserves the invariant *)

(** What a caller has to respect: a task only blocks itself as paused (the
    other states are for the functions that also queue it), only a paused task
    is unblocked, a task exits when the cleaner is paused, and a new task gets
    a stack and an unused task structure. *)
Definition allowed (c : call) (s : sched queues) : Prop :=
  match c with
  | CBlock reason => reason = TASK_PAUSED
  | CUnblock t => paused t (qs s)
  | CExit => paused addr_cleaner_task (qs s)
  | CNew malloc newPage entry storage st nm =>
      newPage <> 0 /\ (st = TASK_READY \/ st = TASK_PAUSED) /\
      exists t, (storage = Some t \/ storage = None /\ malloc = Some t) /\
                unused (current_task (ev s)) t (qs s)
  | _ => True
  end.

Lemma triple_allowed {A} (m : K (sched queues) A) (P : sched queues -> Prop) (P' : tid -> queues -> Prop) Q :
  (forall s c, P s -> current_task (ev s) = Some c -> P' c (qs s)) ->
  (forall c, triple (W (fun a => running c a /\ P' c a) 0 0 false (Some c)) m Q) ->
  triple (fun s => inv s /\ P s) m Q.
Proof.
  intros HP Hm s [(c & [Hl HR] & _) Hs]. apply (Hm c). split; [done|]. split; [done|].
  apply HP; [done|apply Hl].
Qed.

(** *** Functions that leave the interrupt flag alone *)

Definition keeps {A} (m : K (sched queues) A) : Prop := forall s x s',
  m s = Done (x, s') -> IF (cpu_of (ev s')) = IF (cpu_of (ev s)).

Lemma keeps_ret {A} (x : A) : keeps (mret x).
Proof. by intros s y s' [= _ <-]. Qed.
Lemma keeps_bind {A B} (m : K (sched queues) A) (f : A -> K (sched queues) B) :
  keeps m -> (forall x, keeps (f x)) -> keeps (m ≫= f).
Proof.
  intros Hm Hf s y s'. rewrite run_bind. destruct (m s) as [[x s1]| | |] eqn:E; try done.
  intros E'. rewrite (Hf _ _ _ _ E'). by eapply Hm.
Qed.
Lemma keeps_eget {A} (f : env -> A) : keeps (eget f).
Proof. by intros s y s' [= _ <-]. Qed.
Lemma keeps_emod f : (forall e, IF (cpu_of (f e)) = IF (cpu_of e)) -> keeps (emod f).
Proof. intros Hf s y s' [= _ <-]. apply Hf. Qed.
Lemma keeps_onq {A} (m : K queues A) : keeps (onq m).
Proof. intros s y s'. unfold onq. krun. destruct (m (qs s)) as [[]| | |]; try done. by intros [= _ <-]. Qed.
Lemma keeps_fail {A} : keeps (A := A) kfault /\ keeps (A := A) kstuck /\ forall msg, keeps (A := A) (kpanic msg).
Proof. done. Qed.

Ltac keeps_steps := repeat first
  [ apply keeps_ret | apply keeps_eget | apply keeps_onq | apply keeps_fail
  | (apply keeps_emod; intros ?; reflexivity)
  | (apply keeps_bind; [|intros ?])
  | match goal with
    | |- keeps (match ?x with _ => _ end) => destruct x
    | |- keeps (kwhen ?b _) => destruct b; cbn [kwhen]
    end ].

Lemma keeps_self_time : keeps tasks_get_self_time.
Proof. unfold tasks_get_self_time, tasks_update_time, _get_cpu_time_ns, __rdtsc, current. keeps_steps. Qed.
Lemma keeps_new malloc newPage entry storage st nm : keeps (tasks_new malloc newPage entry storage st nm).
Proof. unfold tasks_new, cmod. keeps_steps. Qed.

(** [m] keeps the locks, the current task and the interrupt flag. *)
Lemma T_keeps {A} (m : K (sched queues) A) (P : sched queues -> Prop) (P' : tid -> queues -> Prop) : keeps m ->
  (forall s c, P s -> current_task (ev s) = Some c -> P' c (qs s)) ->
  (forall c, triple (W (fun a => running c a /\ P' c a) 0 0 false (Some c)) m
                    (fun _ => W (running c) 0 0 false (Some c))) ->
  triple (fun s => inv s /\ P s) (x ← m ; mret tt) (fun _ => inv).
Proof.
  intros Hk HP Hm s [(c & [Hl HR] & Hi) Hs]. rewrite run_bind. pose proof (Hm c s) as Ht. unfold keeps in Hk.
  destruct (m s) as [[x s']| | |] eqn:E; try done.
  - exists c. split; [|by rewrite (Hk _ _ _ E)]. apply Ht. split; [done|]. split; [done|].
    apply HP; [done|apply Hl].
  - apply Ht. split; [done|]. split; [done|]. apply HP; [done|apply Hl].
  - apply Ht. split; [done|]. split; [done|]. apply HP; [done|apply Hl].
Qed.

Lemma T_self_time c P : triple (W (fun a => running c a /\ P) 0 0 false (Some c)) tasks_get_self_time
  (fun _ => W (running c) 0 0 false (Some c)).
Proof.
  unfold tasks_get_self_time. eapply (triple_conseq _ (W (running c) 0 0 false (Some c)));
    [|intros s; apply W_conseq; by intros a []|intros ? s Hs; exact Hs].
  eapply triple_bind; [apply T_update; [auto with stable|]|].
  { intros u a [= <-] [_ (k & Hk & _)]. by exists k. }
  intros ?; cbv beta. apply T_current.
  eapply triple_bind; [eapply T_fields, running_has|]. intros k; cbv beta. apply triple_ret.
  intros s. apply W_conseq. by intros a [].
Qed.

Lemma T_block_paused c : triple (W (running c) 0 0 false (Some c)) (tasks_block_current TASK_PAUSED) (fun _ => inv).
Proof.
  eapply triple_conseq; [by apply (T_block_outer c)|intros s; apply W_conseq|intros ? s Hs; exact Hs].
  intros a Hr. destruct (running_unqueued _ _ Hr) as (k & Hk & Hi & _). destruct Hr as [Hok _].
  split; [by apply ok_weaken|by exists k].
Qed.

Lemma T_new_call malloc newPage entry storage st nm c :
  triple (W (fun a => running c a /\ (newPage <> 0 /\ (st = TASK_READY \/ st = TASK_PAUSED) /\
      exists t, (storage = Some t \/ storage = None /\ malloc = Some t) /\ unused (Some c) t a)) 0 0 false (Some c))
    (tasks_new malloc newPage entry storage st nm) (fun _ => W (running c) 0 0 false (Some c)).
Proof.
  intros s [Hl ([Hok Hc] & Hpage & Hst & t & Ht & Hu)]. pose proof (proj1 Hu) as Htc.
  pose proof (T_new t malloc newPage entry storage st nm (Some c) (Some c) (has c (fun st _ => st = TASK_RUNNING))
    0 0 false Hpage Ht Hst) as Hn.
  specialize (Hn ltac:(intros a a' Ho; apply Ho; congruence)). specialize (Hn s (conj Hl (conj Hok (conj Hu Hc)))).
  destruct (tasks_new _ _ _ _ _ _ s) as [[r s']| | |]; try done. destruct Hn as [Hl' (Hok' & Hc' & _)].
  by split.
Qed.

Lemma T_call c : triple (fun s => inv s /\ allowed c s) (do_call c) (fun _ => inv).
Proof.
  assert (Hany : forall (m : K (sched queues) unit),
    (forall c, triple (W (running c) 0 0 false (Some c)) m (fun _ => inv)) ->
    forall P, triple (fun s => inv s /\ P s) m (fun _ => inv)).
  { intros m Hm P s [(c' & HW & _) _]. by apply (Hm c'). }
  destruct c; cbn [do_call allowed].
  - apply Hany, T_schedule_call.
  - apply (T_keeps _ _ (fun _ _ => True)); [apply keeps_self_time|done|]. intros c. apply T_self_time.
  - intros s [Hi ->]. destruct Hi as (c & HW & _). by apply (T_block_paused c).
  - apply (triple_allowed _ _ (fun _ => paused t)); [done|]. apply T_unblock.
  - apply Hany. intros c. apply T_sleep_until.
  - apply Hany. intros c. apply T_sleep.
  - apply (triple_allowed _ _ (fun _ => paused addr_cleaner_task)); [done|]. apply T_exit.
  - apply Hany. intros c. apply T_clean.
  - apply Hany. intros c. apply T_sync_block.
  - apply Hany. intros c. apply T_sync_unblock.
  - intros s [Hi _]. by apply T_timer_call, inv_inv0.
  - eapply T_keeps; [apply keeps_new| |apply T_new_call].
    intros s c Hp E. cbn in Hp. rewrite E in Hp. exact Hp.
Qed.

(** ** Start-up *)

Definition no_tasks : queues := mkQueues ∅ (fun _ => []).

(** The state in which [kernel_main] calls [tasks_init]. *)
Record blank (s : sched queues) : Prop := {
  bl_qs : qs s = no_tasks;
  bl_cur : current_task (ev s) = None;
  bl_lock : _scheduler_lock (ev s) = 0;
  bl_postpone : _scheduler_postpone_count (ev s) = 0;
  bl_postponed : _scheduler_postponed (ev s) = false;
  bl_callbacks : _callbacks (ev s) = [];
  bl_IF : IF (cpu_of (ev s)) = true;
}.

Lemma T_blank f : (forall e, current_task (f e) = current_task e /\ _scheduler_lock (f e) = _scheduler_lock e /\
    _scheduler_postpone_count (f e) = _scheduler_postpone_count e /\
    _scheduler_postponed (f e) = _scheduler_postponed e /\ _callbacks (f e) = _callbacks e /\
    IF (cpu_of (f e)) = IF (cpu_of e)) ->
  triple blank (emod f) (fun _ => blank).
Proof.
  intros Hf s [H1 H2 H3 H4 H5 H6 H7]. destruct (Hf (ev s)) as (E1 & E2 & E3 & E4 & E5 & E6).
  split; cbn; congruence.
Qed.

Lemma T_blank_hlt n : triple blank (hlt (schedule_n n)) (fun _ => blank).
Proof.
  unfold hlt. apply T_any'. intros [|i l]; [apply triple_stuck|].
  eapply triple_bind; [by apply T_blank|]. intros ?; cbv beta. destruct i; [|by apply triple_ret].
  intros s [H1 H2 H3 H4 H5 H6 H7]. unfold interrupt, timer_callback_with, cli, sti, cmod, emod, eget. krun. cbn.
  rewrite H6. cbn. by split.
Qed.

Lemma T_wait_tick u n : triple blank (wait_tick u n) (fun _ => blank).
Proof.
  induction n as [|n IH]; cbn [wait_tick]; apply T_any'; intros t; destruct (t =? u);
    try (by apply triple_ret); [apply triple_stuck|].
  eapply triple_bind; [apply T_blank_hlt|]. intros ?. exact IH.
Qed.

Lemma T_blank_rdtsc : triple blank __rdtsc (fun _ => blank).
Proof.
  unfold __rdtsc. apply T_any'. intros [|r l]; [apply triple_stuck|].
  eapply triple_bind; [by apply T_blank|]. intros ?. by apply triple_ret.
Qed.

Lemma T_cpu_speed : triple blank _discover_cpu_speed (fun _ s => blank s /\ 0 < _instr_per_ns (ev s)).
Proof.
  unfold _discover_cpu_speed. apply T_any'. intros t0.
  eapply triple_bind; [apply T_blank_rdtsc|]. intros r1; cbv beta. apply T_any'. intros l.
  eapply triple_bind; [apply T_wait_tick|]. intros ?; cbv beta.
  eapply triple_bind; [apply T_blank_rdtsc|]. intros r2; cbv beta.
  set (v := u64 (r2 - r1) / 1000000).
  assert (0 <= v). { apply Z.div_pos; [|lia]. unfold_words. apply Z.mod_pos_bound. lia. }
  intros s [H1 H2 H3 H4 H5 H6 H7]. unfold emod, eget. krun. cbn.
  destruct (Z.eqb_spec v 0); cbn; (split; [by split|lia]).
Qed.

(** The task of [kernel_main] alone. *)
Lemma first_task_ok t k : state k = TASK_RUNNING ->
  running t (mkQueues {[t := mkATask k None]} (fun _ => [])).
Proof.
  intros Hs. assert (Hl : forall u ku, ({[t := mkATask k None]} : gmap tid atask) !! u = Some ku ->
    u = t /\ ku = mkATask k None) by (by intros u ku Hu; apply lookup_singleton_Some in Hu as [<- <-]).
  split; [split; [split|..]|]; cbn.
  - intros q. apply NoDup_nil_2.
  - intros u q. split; [set_solver|]. intros (ku & Hu & E). apply Hl in Hu as [_ ->]. done.
  - intros u ku Hu _. apply Hl in Hu as [_ ->]. unfold at_home. cbn. by rewrite Hs.
  - intros u ku Hu _ _. by apply Hl in Hu as [-> _].
  - intros u [= <-]. rewrite lookup_singleton_eq. eauto.
  - exists (mkATask k None). split; [apply lookup_singleton_eq|done].
Qed.

Definition first_tcb : tcb := mkTcb 0 page_dir_phys_addr TASK_RUNNING 0 0 "[main]" ALLOC_STATIC.

(** [tasks_init] after the processor's speed is known. *)
Definition init_rest (newPage : Z) : K (sched queues) unit :=
  onq (tq_new addr_first_task first_tcb) ;;
  _ ← tasks_new None newPage addr_cleaner_task_impl (Some addr_cleaner_task) TASK_PAUSED "[cleaner]" ;
  onq (tq_modify addr_cleaner_task (set_state TASK_PAUSED)) ;;
  t ← _get_cpu_time_ns ;
  emod (set_last_time t) ;;
  emod (fun e => set_last_timer (_last_time e) e) ;;
  emod (set_slice TIME_SLICE_SIZE) ;;
  emod (set_current (Some addr_first_task)) ;;
  timer_register_callback CbOnTimer.

Definition booted (a : queues) : Prop := running addr_first_task a /\ paused addr_cleaner_task a.

Lemma T_init_rest newPage : newPage <> 0 -> addr_first_task <> addr_cleaner_task ->
  triple (fun s => blank s /\ 0 < _instr_per_ns (ev s)) (init_rest newPage)
    (fun _ => W booted 0 0 false (Some addr_first_task)).
Proof.
  intros Hp Hne. unfold init_rest.
  set (a1 := mkQueues {[addr_first_task := mkATask first_tcb None]} (fun _ => [])).
  apply (triple_bind _ (fun _ => W (fun a => a = a1) 0 0 false None)).
  { intros s [[H1 H2 H3 H4 H5 H6 H7] Hi]. unfold onq. krun. rewrite H1. cbn. split; [by split|done]. }
  intros ?. assert (Hr : running addr_first_task a1) by by apply first_task_ok.
  eapply triple_bind.
  { eapply triple_conseq; [apply (T_new addr_cleaner_task None newPage _ _ TASK_PAUSED _ (Some addr_first_task)
      None (has addr_first_task (fun st _ => st = TASK_RUNNING)) 0 0 false Hp (or_introl eq_refl) (or_intror eq_refl))| | ].
    - intros b b' Ho. by apply Ho.
    - intros s. apply W_conseq. intros a ->. split; [apply Hr|]. split; [|apply Hr]. split; [congruence|].
      intros k Hk. cbn in Hk. by apply lookup_singleton_Some in Hk as [? <-].
    - intros r s Hs. exact Hs. }
  intros ?; cbv beta.
  apply (triple_bind _ (fun _ => W booted 0 0 false None)).
  { apply T_q. intros a (Hok & Hf & (k & Hk & Hst & Hi)). cbn in Hi. eexists _, _.
    split; [by apply modify_run|]. split; [split|].
    - apply put_keep; [done..|]. cbn. by rewrite Hst.
    - apply (stable_has _ _ addr_cleaner_task k (set_state TASK_PAUSED)); [done..|]. cbn. by rewrite Hst.
    - eexists. split; [apply lookup_insert_eq|]. cbn. done. }
  intros ?. eapply triple_bind; [apply T_time|]. intros t; cbv beta.
  do 3 (eapply triple_bind; [by apply T_env|]; intros ?; cbv beta).
  eapply triple_bind; [apply T_set_current|]. intros ?; cbv beta.
  unfold timer_register_callback. apply T_any. intros l. apply triple_when; [|done].
  intros _. by apply T_env.
Qed.

Lemma T_init newPage : newPage <> 0 -> addr_first_task <> addr_cleaner_task ->
  triple blank (tasks_init newPage) (fun _ s => inv s /\ paused addr_cleaner_task (qs s)).
Proof.
  intros Hp Hne. change (tasks_init newPage) with (_discover_cpu_speed ;; init_rest newPage).
  eapply triple_bind; [apply T_cpu_speed|]. intros ?; cbv beta.
  assert (Hk : keeps (init_rest newPage)).
  { unfold init_rest. apply keeps_bind; [apply keeps_onq|intros ?].
    apply keeps_bind; [apply keeps_new|intros ?]. unfold _get_cpu_time_ns, __rdtsc, timer_register_callback.
    keeps_steps. }
  intros s Hs. pose proof (T_init_rest newPage Hp Hne s Hs) as Ht.
  destruct (init_rest newPage s) as [[[] s']| | |] eqn:E; try done. destruct Ht as [Hl [Hr Hpz]].
  split; [|done]. exists addr_first_task. split; [by split|]. rewrite (Hk _ _ _ E). apply Hs.
Qed.
End rules.

(** ** The states of a running system *)

Inductive reachable `{KernelText} : sched queues -> Prop :=
  | reach_init s0 newPage s : blank s0 -> newPage <> 0 -> addr_first_task <> addr_cleaner_task ->
      tasks_init newPage s0 = Done (tt, s) -> reachable s
  | reach_call s c s' : reachable s -> allowed c s -> do_call c s = Done (tt, s') -> reachable s'.

Lemma reachable_inv `{KernelText} s : reachable s -> inv s.
Proof.
  induction 1 as [s0 p s Hb Hp Hne Hrun|s c s' Hr IH Ha Hrun].
  - pose proof (T_init p Hp Hne s0 Hb) as Ht. rewrite Hrun in Ht. apply Ht.
  - pose proof (T_call c s (conj IH Ha)) as Ht. by rewrite Hrun in Ht.
Qed.
