(* ===== verification/Switching.v ===== *)
(** * What the scheduler does, call by call

    The functional behaviour of the calls that do not idle: they return, and
    the queues, the current task, the processor and the accounting afterwards
    are as described. *)
From S2P Require Import Prelude Words PageTypes TaskLists Tasks Queueing Scheduling.
From Stdlib Require Import ZArith Lia Bool.
From stdpp Require Import base strings numbers functions gmap list.
#[local] Open Scope Z_scope.
Import Fifo.

Section runs.
Context `{KernelText}.

(** The registers [tasks_switch_to] saves, and those it restores from a stack. *)
Definition saved (c : cpu) : cpu := push (ebp c) (push (edi c) (push (esi c) (push (ebx c) c))).
Definition restored (top dir : Z) (c : cpu) : cpu :=
  let c := set_esp top c in
  let c := if dir =? cr3 c then c else set_cr3 dir c in
  pop set_eip (pop set_ebx (pop set_esi (pop set_edi (pop set_ebp c)))).

(** The queues after a switch from [c], which was running, to [t]. *)
Definition switched (c t : tid) (kc kt : atask) (sp : Z) (a : queues) : queues :=
  mkQueues (<[t := mkATask (set_state TASK_RUNNING (a_fields kt)) (a_in kt)]>
             (<[c := mkATask (set_state TASK_READY (set_stack_top sp (a_fields kc))) (Some QReady)]> (tcbs a)))
           (<[QReady := queue a QReady ++ [c]]> (queue a)).

Lemma switch_to_run c t kc kt s : current_task (ev s) = Some c -> t <> c ->
  tcbs (qs s) !! c = Some kc -> state (a_fields kc) = TASK_RUNNING -> a_in kc = None ->
  tcbs (qs s) !! t = Some kt ->
  tasks_switch_to t s = Done (tt,
    let p := saved (cpu_of (ev s)) in
    mkSched (switched c t kc kt (esp p) (qs s))
            (set_cpu (restored (stack_top (a_fields kt)) (page_dir (a_fields kt)) p) (set_current (Some t) (ev s)))).
Proof.
  intros Hc Htc Hkc Hs Hi Hkt. destruct kc as [fc ic]. cbn in Hs, Hi. subst ic.
  unfold tasks_switch_to, current, qfields, onq, cmod, emod, eget. krun. cbn. rewrite Hc. cbn.
  unfold modify, fields_of, enqueue, load. krun. rewrite Hkc. cbn. rewrite lookup_insert_eq. cbn.
  rewrite Hs. rewrite bool_decide_true by done. cbn.
  repeat (first [rewrite lookup_insert_eq | rewrite (lookup_insert_ne _ c t) by done | rewrite Hkt]; cbn).
  unfold restored. cbn. change (cr3 (saved (cpu_of (ev s)))) with (cr3 (cpu_of (ev s))).
  destruct (page_dir (a_fields kt) =? cr3 (cpu_of (ev s))); cbn; unfold switched; cbn;
    rewrite !insert_insert_eq; reflexivity.
Qed.

Lemma eget_bind {A B} (f : env -> A) (k : A -> K (sched queues) B) s :
  (eget f ≫= k) s = k (f (ev s)) s.
Proof. reflexivity. Qed.
Lemma emod_bind {A} f (k : unit -> K (sched queues) A) s :
  (emod f ≫= k) s = k tt (mkSched (qs s) (f (ev s))).
Proof. reflexivity. Qed.

(** *** Time *)

Lemma cpu_time_run r l (s : sched queues) : tsc (ev s) = r :: l -> 0 < _instr_per_ns (ev s) ->
  _get_cpu_time_ns s = Done (u64 r / _instr_per_ns (ev s), mkSched (qs s) (set_tsc l (ev s))).
Proof.
  intros Ht Hi. unfold _get_cpu_time_ns, __rdtsc, eget, emod. krun. cbn. rewrite Ht. cbn.
  destruct (Z.eqb_spec (_instr_per_ns (ev s)) 0); [lia|done].
Qed.

(** Time accounting: the time since [_last_time] is added to the current task. *)
Definition charged (now : Z) (e : env) (k : tcb) : tcb :=
  set_time_used (u64 (time_used k + u64 (now - _last_time e))) k.

Lemma update_time_run c k r l (s : sched queues) : tsc (ev s) = r :: l -> 0 < _instr_per_ns (ev s) ->
  current_task (ev s) = Some c -> tcbs (qs s) !! c = Some k ->
  let now := u64 r / _instr_per_ns (ev s) in
  tasks_update_time s = Done (tt,
    mkSched (put c (mkATask (charged now (ev s) (a_fields k)) (a_in k)) (qs s))
            (set_last_time now (set_tsc l (ev s)))).
Proof.
  intros Ht Hi Hc Hk now. unfold tasks_update_time.
  rewrite (run_bind_done _ _ _ _ _ (cpu_time_run _ _ _ Ht Hi)).
  unfold eget, emod, onq. krun. cbn. rewrite Hc. unfold modify. cbn. rewrite Hk. done.
Qed.

(** *** [_schedule] *)

Lemma switch_run c t kc kt r tl s : current_task (ev s) = Some c -> t <> c ->
  tcbs (qs s) !! c = Some kc -> state (a_fields kc) = TASK_RUNNING -> a_in kc = None ->
  tcbs (qs s) !! t = Some kt -> tsc (ev s) = r :: tl -> 0 < _instr_per_ns (ev s) ->
  switch t s = Done (tt,
    let p := saved (push addr_after_switch (push (addr_of_task t) (cpu_of (ev s)))) in
    mkSched (switched c t kc kt (esp p) (qs s))
            (set_cpu (restored (stack_top (a_fields kt)) (page_dir (a_fields kt)) p)
              (set_current (Some t) (set_last_timer (u64 r / _instr_per_ns (ev s))
                (set_tsc tl (set_slice TIME_SLICE_SIZE (ev s))))))).
Proof.
  intros Hc Htc Hkc Hs Hi Hkt Ht Hn. unfold switch.
  rewrite emod_bind. rewrite (run_bind_done _ _ _ _ _ (cpu_time_run r tl (mkSched (qs s) (set_slice TIME_SLICE_SIZE (ev s))) Ht Hn)), emod_bind.
  unfold call_switch_to, cmod. rewrite !emod_bind.
  rewrite (switch_to_run c t kc kt); done.
Qed.

(** The state after [_schedule] has switched from [c], which goes on to be
    ready, to the first task of the ready queue. *)
Record rotated (c t : tid) (l : list tid) (tl : list Z) (s s' : sched queues) : Prop := {
  rot_current : current_task (ev s') = Some t;
  rot_ready : queue (qs s') QReady = l ++ [c];
  rot_other : forall q, q <> QReady -> queue (qs s') q = queue (qs s) q;
  rot_tasks : forall u, u <> c -> u <> t -> tcbs (qs s') !! u = tcbs (qs s) !! u;
  rot_new : (fun k => state (a_fields k)) <$> tcbs (qs s') !! t = Some TASK_RUNNING;
  rot_old : (fun k => (state (a_fields k), a_in k)) <$> tcbs (qs s') !! c = Some (TASK_READY, Some QReady);
  rot_slice : _time_slice_remaining (ev s') = TIME_SLICE_SIZE;
  rot_locks : _scheduler_lock (ev s') = _scheduler_lock (ev s) /\
              _scheduler_postpone_count (ev s') = _scheduler_postpone_count (ev s) /\
              _scheduler_postponed (ev s') = _scheduler_postponed (ev s);
  rot_charged : time_used <$> (a_fields <$> tcbs (qs s') !! c) =
     (fun k => time_used (charged (_last_time (ev s')) (ev s) (a_fields k))) <$> tcbs (qs s) !! c;
  rot_tsc : tsc (ev s') = tl;
  rot_callbacks : _callbacks (ev s') = _callbacks (ev s);
}.

Lemma schedule_rotates c t l r1 r2 tl n s : W (running c) 1 0 false (Some c) s ->
  queue (qs s) QReady = t :: l -> tsc (ev s) = r1 :: r2 :: tl ->
  exists s', schedule_n (S n) s = Done (tt, s') /\ rotated c t l tl s s'.
Proof.
  intros [[Hc Hlk Hpp Hpd Hi] Hr] Hq Ht.
  destruct (running_unqueued _ _ Hr) as (kc & Hkc & Hki & Hks).
  destruct Hr as [Hok _].
  pose proof (dequeue_run QReady (qs s) (ok_qwf _ _ _ Hok)) as Hd. rewrite Hq in Hd.
  destruct Hd as (kt & Hkt & Hti & Hd & _).
  assert (Htc : t <> c) by congruence.
  set (s1 := mkSched (put t (mkATask (a_fields kt) None) (setq QReady l (qs s))) (ev s)).
  assert (Hkc1 : tcbs (qs s1) !! c = Some kc) by (cbn; by rewrite lookup_insert_ne).
  assert (E : schedule_n (S n) s = (tasks_update_time ;; switch t) s1).
  { cbn [schedule_n]. unfold schedule_with, eget, onq. krun. cbn. rewrite Hpp. cbn. rewrite Hc. cbn.
    rewrite Hd. reflexivity. }
  rewrite E, (run_bind_done _ _ _ _ _ (update_time_run c kc r1 (r2 :: tl) s1 Ht Hi Hc Hkc1)).
  rewrite (switch_run c t (mkATask (charged (u64 r1 / _instr_per_ns (ev s1)) (ev s1) (a_fields kc)) (a_in kc))
             (mkATask (a_fields kt) None) r2 tl);
    [|done|done|cbn; by rewrite lookup_insert_eq|done|done
     |cbn; by rewrite lookup_insert_ne, lookup_insert_eq by done|done|done].
  eexists. split; [reflexivity|]. split; cbn; try done.
  - intros q Hqr. by rewrite !fn_lookup_insert_ne by done.
  - intros u Hu1 Hu2. by rewrite !lookup_insert_ne by done.
  - by rewrite lookup_insert_eq.
  - by rewrite lookup_insert_ne, lookup_insert_eq by done.
  - by rewrite lookup_insert_ne, lookup_insert_eq, Hkc by done.
Qed.

(** Nothing is ready: the task goes on with a new time slice. *)
Lemma schedule_goes_on c n s : W (running c) 1 0 false (Some c) s -> queue (qs s) QReady = [] ->
  schedule_n (S n) s = Done (tt, mkSched (qs s) (set_slice TIME_SLICE_SIZE (ev s))).
Proof.
  intros [[Hc Hlk Hpp Hpd Hi] [Hok (k & Hk & Hs)]] Hq.
  pose proof (dequeue_run QReady (qs s) (ok_qwf _ _ _ Hok)) as Hd. rewrite Hq in Hd.
  cbn [schedule_n]. unfold schedule_with, eget, qfields, onq, emod. krun. cbn. rewrite Hpp. cbn. rewrite Hc. cbn. rewrite Hd. cbn.
  unfold fields_of, load. krun. rewrite Hk. cbn. by rewrite Hs, bool_decide_true by done.
Qed.

(** *** Locks *)

(** At most [n] readings of the time stamp counter were used; the callbacks are
    as before. *)
Definition spent (n : nat) (e e' : env) : Prop :=
  _callbacks e' = _callbacks e /\ (length (tsc e) <= length (tsc e') + n)%nat.

(** Both locks are free and interrupts are on. *)
Definition unlocked (e : env) : Prop :=
  _scheduler_lock e = 0 /\ _scheduler_postpone_count e = 0 /\ _scheduler_postponed e = false /\
  IF (cpu_of e) = true.

Lemma acquire_run R l p b cur s : W R l p b cur s -> 0 <= l < 8 -> 0 <= p < 8 ->
  exists e, _aquire_scheduler_lock s = Done (tt, mkSched (qs s) e) /\
    at_lock (l + 1) (p + 1) b cur e /\ tsc e = tsc (ev s) /\
    _time_slice_remaining e = _time_slice_remaining (ev s) /\ _last_timer_time e = _last_timer_time (ev s) /\
    _last_time e = _last_time (ev s) /\ _instr_per_ns e = _instr_per_ns (ev s) /\ _callbacks e = _callbacks (ev s).
Proof.
  intros HW Hl Hp. pose proof (T_acquire R l p b cur Hl Hp s HW) as Ha. revert Ha.
  unfold _aquire_scheduler_lock, cli, cmod, emod. krun. cbn. intros [Ha _]. cbn in Ha.
  eexists. split; [reflexivity|]. split; [exact Ha|]. done.
Qed.

Lemma postponed_run n s : _scheduler_postpone_count (ev s) <> 0 ->
  schedule_n (S n) s = Done (tt, mkSched (qs s) (set_postponed true (ev s))).
Proof.
  intros Hp. cbn [schedule_n]. unfold schedule_with, eget. krun. cbn.
  destruct (Z.eqb_spec (_scheduler_postpone_count (ev s)) 0); done.
Qed.

Lemma unlock_run (s : sched queues) : _scheduler_lock (ev s) = 1 ->
  unlock s = Done (tt, mkSched (qs s) (set_cpu (set_IF true (cpu_of (ev s))) (set_lock 0 (ev s)))).
Proof. intros Hl. unfold unlock, eget, sti, cmod, emod. krun. cbn. by rewrite Hl. Qed.

Lemma release_run (b : bool) s : _scheduler_postpone_count (ev s) = 1 -> _scheduler_postponed (ev s) = b ->
  _release_scheduler_lock s =
    ((if b then _schedule else mret tt) ;; unlock)
      (mkSched (qs s) ((if b then set_postponed false else id) (set_postpone 0 (ev s)))).
Proof.
  intros Hp Hb. unfold _release_scheduler_lock, release_with. rewrite emod_bind.
  unfold eget, emod. krun. cbn. rewrite Hp, Hb. by destruct b.
Qed.

(** *** What the outermost release does *)

Lemma release_rotates c t l r1 r2 tl s : W (running c) 1 1 true (Some c) s ->
  queue (qs s) QReady = t :: l -> tsc (ev s) = r1 :: r2 :: tl ->
  exists s', _release_scheduler_lock s = Done (tt, s') /\ unlocked (ev s') /\
    exists s'', rotated c t l tl (mkSched (qs s) (set_postponed false (set_postpone 0 (ev s)))) s'' /\
      qs s' = qs s'' /\ current_task (ev s') = Some t /\ _time_slice_remaining (ev s') = TIME_SLICE_SIZE /\
      _last_time (ev s') = _last_time (ev s'') /\ spent 2 (ev s) (ev s').
Proof.
  intros [[Hc Hlk Hpp Hpd Hi] Hr] Hq Ht. rewrite (release_run true) by done.
  set (s1 := mkSched (qs s) (set_postponed false (set_postpone 0 (ev s)))).
  destruct (schedule_rotates c t l r1 r2 tl 1 s1) as (s2 & Hrun & Hrot); [by split|done|done|].
  pose proof Hrot as [R1 R2 R3 R4 R5 R6 R7 (R8 & R9 & R10) R11 R12 R13].
  rewrite (run_bind_done _ _ _ _ _ Hrun). eexists. split; [apply unlock_run; by rewrite R8|].
  split; [by repeat split|]. exists s2. do 5 (split; [done|]). split; cbn; [exact R13|]. rewrite R12, Ht. cbn. lia.
Qed.

Lemma release_goes_on c s : W (running c) 1 1 true (Some c) s -> queue (qs s) QReady = [] ->
  exists s', _release_scheduler_lock s = Done (tt, s') /\ unlocked (ev s') /\
    qs s' = qs s /\ current_task (ev s') = Some c /\ _time_slice_remaining (ev s') = TIME_SLICE_SIZE /\ spent 2 (ev s) (ev s').
Proof.
  intros [[Hc Hlk Hpp Hpd Hi] Hr] Hq. rewrite (release_run true) by done.
  set (s1 := mkSched (qs s) (set_postponed false (set_postpone 0 (ev s)))).
  assert (Hrun : _schedule s1 = Done (tt, mkSched (qs s1) (set_slice TIME_SLICE_SIZE (ev s1)))).
  { apply (schedule_goes_on c); [by split|done]. }
  rewrite (run_bind_done _ _ _ _ _ Hrun). eexists. split; [by apply unlock_run|]. repeat split; try done. cbn. lia.
Qed.

Lemma release_unlocks c s : W (running c) 1 1 false (Some c) s ->
  exists s', _release_scheduler_lock s = Done (tt, s') /\ unlocked (ev s') /\
    qs s' = qs s /\ current_task (ev s') = Some c /\
    _time_slice_remaining (ev s') = _time_slice_remaining (ev s) /\ spent 2 (ev s) (ev s').
Proof.
  intros [[Hc Hlk Hpp Hpd Hi] Hr]. rewrite (release_run false) by done. cbn [id].
  rewrite (run_bind_done _ _ _ _ _ (run_ret tt _)). eexists. split; [by apply unlock_run|].
  repeat split; try done. cbn. lia.
Qed.

(** What becomes of the processor when the lock is released with a schedule
    pending: the first ready task takes over, or [c] goes on. *)
Definition outcome_of (c : tid) (ready : list tid) (s' : sched queues) : Prop :=
  match ready with
  | [] => current_task (ev s') = Some c /\ queue (qs s') QReady = []
  | t :: l => current_task (ev s') = Some t /\ queue (qs s') QReady = l ++ [c]
  end.

Lemma release_pending c r1 r2 tl s : W (running c) 1 1 true (Some c) s -> tsc (ev s) = r1 :: r2 :: tl ->
  exists s', _release_scheduler_lock s = Done (tt, s') /\ unlocked (ev s') /\
    outcome_of c (queue (qs s) QReady) s' /\ _time_slice_remaining (ev s') = TIME_SLICE_SIZE /\
    (forall q, q <> QReady -> queue (qs s') q = queue (qs s) q) /\ spent 2 (ev s) (ev s').
Proof.
  intros HW Ht. destruct (queue (qs s) QReady) as [|t l] eqn:Hq.
  - destruct (release_goes_on c s HW Hq) as (s' & Hrun & Hu & Hqs & Hc & Hsl & Hsp). exists s'.
    do 2 (split; [done|]). split; [by unfold outcome_of; rewrite Hqs|]. split; [done|]. split; [by rewrite Hqs|done].
  - destruct (release_rotates c t l r1 r2 tl s HW Hq Ht) as (s' & Hrun & Hu & s'' & Hrot & Hqs & Hc & Hsl & _ & Hsp).
    exists s'. do 2 (split; [done|]). destruct Hrot. cbn in *.
    split; [unfold outcome_of; by rewrite Hqs|]. split; [done|]. split; [|done]. intros q Hqr. rewrite Hqs. by apply rot_other0.
Qed.

Lemma schedule_call_run c r1 r2 tl s : inv s -> current_task (ev s) = Some c -> tsc (ev s) = r1 :: r2 :: tl ->
  exists s', tasks_schedule s = Done (tt, s') /\ unlocked (ev s') /\
    outcome_of c (queue (qs s) QReady) s' /\ _time_slice_remaining (ev s') = TIME_SLICE_SIZE /\
    (forall q, q <> QReady -> queue (qs s') q = queue (qs s) q) /\ spent 2 (ev s) (ev s').
Proof.
  intros (c' & HW & _) Hc Ht. assert (c' = c) as -> by (destruct HW as [[] _]; congruence).
  destruct (acquire_run _ _ _ _ _ _ HW) as (e & Ha & Hl & Htsc & _ & _ & _ & _ & Hcb); [lia..|].
  unfold tasks_schedule. rewrite (run_bind_done _ _ _ _ _ Ha).
  assert (Hp : _scheduler_postpone_count e <> 0) by by destruct Hl as [_ _ -> _ _].
  rewrite (run_bind_done _ _ _ _ _ (postponed_run 1 (mkSched (qs s) e) Hp)).
  destruct (release_pending c r1 r2 tl (mkSched (qs s) (set_postponed true e))) as (s' & Hrun & Hu & Hout & Hsl & Ho & [Hs1 Hs2]).
  { split; [|apply HW]. destruct Hl. by split. }
  { cbn. by rewrite Htsc. }
  exists s'. do 5 (split; [done|]). split; cbn in *; congruence.
Qed.

(** *** The timer *)

Definition time_of (r : Z) (e : env) : Z := u64 r / _instr_per_ns e.
(** The time slice is over at [time]. *)
Definition slice_over (time : Z) (e : env) : bool :=
  negb (_time_slice_remaining e =? 0) && (u64 (time - _last_timer_time e) >=? _time_slice_remaining e).
(** The sleeping tasks to be woken. *)
Definition due (time : Z) (a : queues) : list tid := filter (expired a time) (queue a QSleeping).

(** [_on_timer] up to the release of the lock. *)
Lemma on_timer_front c r tl s (rel : K (sched queues) unit) : W (running c) 0 0 false (Some c) s ->
  tsc (ev s) = r :: tl ->
  let time := time_of r (ev s) in
  let need := negb (bool_decide (due time (qs s) = [])) || slice_over time (ev s) in
  exists s1, W (running c) 1 1 need (Some c) s1 /\ (tsc (ev s1) = tl /\ _callbacks (ev s1) = _callbacks (ev s)) /\
    woke QSleeping (due time (qs s)) (qs s) (qs s1) /\
    (need = false -> _time_slice_remaining (ev s1) =
       if _time_slice_remaining (ev s) =? 0 then 0
       else u64 (_time_slice_remaining (ev s) - u64 (time - _last_timer_time (ev s)))) /\
    on_timer_with _schedule s = release_with _schedule s1.
Proof.
  intros HW Ht time need. destruct (acquire_run _ _ _ _ _ _ HW) as (e & Ha & Hl & Htsc & Hsl & Hlt & _ & Hin & Hcb); [lia..|].
  destruct HW as [Hl0 Hr]. unfold on_timer_with. rewrite (run_bind_done _ _ _ _ _ Ha).
  assert (Ht' : tsc e = r :: tl) by congruence. assert (Hi : 0 < _instr_per_ns e) by apply Hl.
  rewrite (run_bind_done _ _ _ _ _ (cpu_time_run r tl (mkSched (qs s) e) Ht' Hi)). cbn [ev qs].
  rewrite Hin. fold (time_of r (ev s)). fold time.
  destruct (wakes_running c time (qs s) Hr) as (x & a' & Hwake & Hr').
  destruct (wake_expired_run time _ _ (proj1 Hr)) as (a2 & Hwake2 & _ & Hwoke).
  rewrite Hwake in Hwake2. injection Hwake2 as -> <-.
  assert (Hq : onq (tq_wake_expired time) (mkSched (qs s) (set_tsc tl e))
    = Done (bool_decide (due time (qs s) <> []), mkSched a' (set_tsc tl e))).
  { unfold onq. krun. cbn. by rewrite Hwake. }
  rewrite (run_bind_done _ _ _ _ _ Hq), !eget_bind. cbn [ev qs].
  change (_time_slice_remaining (set_tsc tl e)) with (_time_slice_remaining e).
  change (_last_timer_time (set_tsc tl e)) with (_last_timer_time e). rewrite Hsl, Hlt.
  (* the state before the decision, and the last steps *)
  assert (Hend : forall b e', at_lock 1 1 false (Some c) e' -> tsc e' = tl /\ _callbacks e' = _callbacks (ev s) -> b = need ->
    (need = false -> _time_slice_remaining e' = (if _time_slice_remaining (ev s) =? 0 then 0
       else u64 (_time_slice_remaining (ev s) - u64 (time - _last_timer_time (ev s))))) ->
    exists s1, W (running c) 1 1 need (Some c) s1 /\ (tsc (ev s1) = tl /\ _callbacks (ev s1) = _callbacks (ev s)) /\
      woke QSleeping (due time (qs s)) (qs s) (qs s1) /\
      (need = false -> _time_slice_remaining (ev s1) = (if _time_slice_remaining (ev s) =? 0 then 0
         else u64 (_time_slice_remaining (ev s) - u64 (time - _last_timer_time (ev s))))) /\
      (kwhen b _schedule ;; release_with _schedule) (mkSched a' e') = release_with _schedule s1).
  { intros b e' Hl' Htl -> Hrem. destruct need; cbn [kwhen].
    - exists (mkSched a' (set_postponed true e')). destruct Hl'. do 4 (split; [done|]).
      rewrite (run_bind_done _ _ _ _ _ (postponed_run 1 (mkSched a' e') ltac:(cbn; congruence))). done.
    - exists (mkSched a' e'). by split. }
  assert (Hneed : need = bool_decide (due time (qs s) <> []) || slice_over time (ev s)).
  { unfold need. by rewrite bool_decide_not. }
  unfold slice_over in Hneed.
  destruct (Z.eqb_spec (_time_slice_remaining (ev s)) 0) as [E0|E0].
  - rewrite orb_false_r in Hneed. rewrite (run_bind_done _ _ _ _ _ (run_ret _ _)).
    apply Hend; [by destruct Hl; split|done|done|]. intros _. cbn. congruence.
  - rewrite run_bind, emod_bind. cbn [ev qs negb andb] in *.
    destruct (u64 (time - _last_timer_time (ev s)) >=? _time_slice_remaining (ev s)).
    + rewrite orb_true_r in Hneed. rewrite run_ret.
      apply Hend; [by destruct Hl; split|done|done|]. by rewrite Hneed.
    + rewrite orb_false_r in Hneed. rewrite emod_bind, run_ret.
      apply Hend; [by destruct Hl; split|done|done|]. done.
Qed.

(** The interrupt handler runs with interrupts off. *)
Lemma timer_run c s : W (running c) 0 0 false (Some c) s -> _callbacks (ev s) = [CbOnTimer] ->
  let e := set_tick (u32 (timer_tick (ev s) + 1)) (set_cpu (set_IF false (cpu_of (ev s))) (ev s)) in
  timer_callback s = (on_timer_with _schedule ;; sti) (mkSched (qs s) e) /\
  W (running c) 0 0 false (Some c) (mkSched (qs s) e).
Proof.
  intros [[Hc Hlk Hpp Hpd Hi] Hr] Hcb e. split; [|split; [by split|done]].
  unfold timer_callback, timer_callback_with. unfold cli at 1. unfold cmod at 1.
  rewrite !emod_bind, eget_bind. cbn [ev qs].
  change (timer_tick (set_cpu _ _)) with (timer_tick (ev s)). fold e.
  assert (Hcb' : _callbacks e = [CbOnTimer]) by exact Hcb. rewrite Hcb'. cbn [run_callbacks run_callback].
  rewrite run_bind_assoc. reflexivity.
Qed.

Lemma timer_outcome c r r1 r2 tl s : inv s -> current_task (ev s) = Some c -> _callbacks (ev s) = [CbOnTimer] ->
  tsc (ev s) = r :: r1 :: r2 :: tl ->
  let time := time_of r (ev s) in
  exists s', timer_callback s = Done (tt, s') /\ unlocked (ev s') /\ spent 3 (ev s) (ev s') /\
    queue (qs s') QSleeping = filter (.∉ due time (qs s)) (queue (qs s) QSleeping) /\
    (forall ts, queue (qs s') (QSync ts) = queue (qs s) (QSync ts)) /\
    if negb (bool_decide (due time (qs s) = [])) || slice_over time (ev s)
    then outcome_of c (queue (qs s) QReady ++ due time (qs s)) s' /\
         _time_slice_remaining (ev s') = TIME_SLICE_SIZE
    else current_task (ev s') = Some c /\ queue (qs s') QReady = queue (qs s) QReady.
Proof.
  intros (c' & HW & _) Hc Hcb Ht time. assert (c' = c) as -> by (destruct HW as [[] _]; congruence).
  destruct (timer_run c s HW Hcb) as [E HW1]. rewrite E. clear E.
  set (s1 := mkSched (qs s) _) in *.
  destruct (on_timer_front c r (r1 :: r2 :: tl) s1 _release_scheduler_lock HW1 Ht)
    as (s2 & HW2 & [Ht2 Hcb2] & Hwk & Hsl & E).
  change (time_of r (ev s1)) with time in *. change (slice_over time (ev s1)) with (slice_over time (ev s)) in *.
  change (qs s1) with (qs s) in *.
  assert (Hsti : forall s3, release_with _schedule s2 = Done (tt, s3) ->
    (on_timer_with _schedule ;; sti) s1
      = Done (tt, mkSched (qs s3) (set_cpu (set_IF true (cpu_of (ev s3))) (ev s3)))).
  { intros s3 Hs3. rewrite run_bind, E, Hs3. reflexivity. }
  assert (Hu : forall e, unlocked e -> unlocked (set_cpu (set_IF true (cpu_of e)) e)) by (by intros e (? & ? & ? & ?)).
  assert (Hsp : forall e, spent 2 (ev s2) e -> spent 3 (ev s) (set_cpu (set_IF true (cpu_of e)) e)).
  { intros e [H1 H2]. rewrite Ht2 in H2. rewrite Hcb2 in H1. split; [exact H1|]. rewrite Ht. cbn in *. lia. }
  destruct (negb _ || slice_over time (ev s)) eqn:En.
  - destruct (release_pending c r1 r2 tl s2 HW2 Ht2) as (s3 & Hrun & Hun & Hout & Hslice & Ho & Hs3).
    eexists. split; [by apply Hsti|]. split; [by apply Hu|]. split; [by apply Hsp|]. cbn. rewrite !Ho by done.
    rewrite (woke_from _ _ _ _ Hwk). split; [done|]. split.
    { intros ts. rewrite Ho by done. by apply (woke_other _ _ _ _ Hwk). }
    split; [|done]. rewrite (woke_ready _ _ _ _ Hwk) in Hout. exact Hout.
  - destruct (release_unlocks c s2 HW2) as (s3 & Hrun & Hun & Hqs & Hcur & Hslice & Hs3).
    eexists. split; [by apply Hsti|]. split; [by apply Hu|]. split; [by apply Hsp|]. cbn. rewrite !Hqs.
    rewrite (woke_from _ _ _ _ Hwk). split; [done|]. split.
    { intros ts. by apply (woke_other _ _ _ _ Hwk). }
    split; [done|]. rewrite (woke_ready _ _ _ _ Hwk). apply orb_false_iff in En as [En _].
    apply negb_false_iff, bool_decide_eq_true in En. by rewrite En, app_nil_r.
Qed.

Lemma sync_unblock_outcome c ts r1 r2 tl s : inv s -> current_task (ev s) = Some c ->
  tsc (ev s) = r1 :: r2 :: tl ->
  exists s', tasks_sync_unblock ts s = Done (tt, s') /\ unlocked (ev s') /\
    queue (qs s') (QSync ts) = [] /\
    (forall q, q <> QReady -> q <> QSync ts -> queue (qs s') q = queue (qs s) q) /\
    match queue (qs s) (QSync ts) with
    | [] => current_task (ev s') = Some c /\ queue (qs s') QReady = queue (qs s) QReady
    | waiting => outcome_of c (queue (qs s) QReady ++ waiting) s'
    end.
Proof.
  intros (c' & HW & _) Hc Ht. assert (c' = c) as -> by (destruct HW as [[] _]; congruence).
  destruct (acquire_run _ _ _ _ _ _ HW) as (e & Ha & Hl & Htsc & _); [lia..|]. cbn [Z.add] in Hl.
  unfold tasks_sync_unblock. rewrite (run_bind_done _ _ _ _ _ Ha). unfold kgets. rewrite run_bind. cbn [qs tq_empty fifo_queues].
  unfold is_empty. destruct HW as [_ Hr]. destruct (queue (qs s) (QSync ts)) as [|t w] eqn:Hq.
  - rewrite bool_decide_true by done. cbn [negb kwhen]. rewrite (run_bind_done _ _ _ _ _ (run_ret tt _)).
    destruct (release_unlocks c (mkSched (qs s) e)) as (s' & Hrun & Hu & Hqs & Hcur & _ & _); [by split|].
    exists s'. rewrite Hqs. eauto 10.
  - rewrite bool_decide_false by done. cbn [negb kwhen].
    destruct (wake_all_run ts _ _ (proj1 Hr)) as (a' & Hwk & Hok' & Hw). rewrite Hq in Hw.
    assert (Hwq : onq (tq_wake_all (QSync ts)) (mkSched (qs s) e) = Done (tt, mkSched a' e)).
    { unfold onq. krun. cbn. by rewrite Hwk. }
    rewrite run_bind_assoc, (run_bind_done _ _ _ _ _ Hwq).
    rewrite (run_bind_done _ _ _ _ _ (postponed_run 1 (mkSched a' e) ltac:(cbn; by destruct Hl as [_ _ -> _ _]))).
    assert (Hr' : running c a').
    { split; [done|]. destruct (running_unqueued _ _ Hr) as (k & Hk & Hi & Hs). exists k. split; [|done].
      rewrite (woke_tcbs _ _ _ _ Hw), Hk. cbn. rewrite decide_False; [done|]. rewrite <- Hq.
      apply (not_queued _ _ k); [apply Hr|done|congruence]. }
    destruct (release_pending c r1 r2 tl (mkSched a' (set_postponed true e))) as (s' & Hrun & Hu & Hout & _ & Ho & _).
    { split; [|done]. destruct Hl. by split. }
    { cbn. congruence. }
    exists s'. split; [done|]. split; [done|]. cbn [qs] in *. rewrite Ho by done.
    rewrite (woke_from _ _ _ _ Hw), Hq, filter_none by set_solver. split; [done|]. split.
    + intros q Hq1 Hq2. rewrite Ho by done. by apply (woke_other _ _ _ _ Hw).
    + by rewrite (woke_ready _ _ _ _ Hw) in Hout.
Qed.

(** *** The processor across a context switch *)

Lemma switch_to_inv c t kt s s' : current_task (ev s) = Some c -> t <> c -> tcbs (qs s) !! t = Some kt ->
  tasks_switch_to t s = Done (tt, s') ->
  cpu_of (ev s') = restored (stack_top (a_fields kt)) (page_dir (a_fields kt)) (saved (cpu_of (ev s))) /\
  exists kc, tcbs (qs s') !! c = Some kc /\ stack_top (a_fields kc) = esp (saved (cpu_of (ev s))).
Proof.
  intros Hc Htc Hkt.
  unfold tasks_switch_to, current, qfields, onq, cmod, emod, eget. krun. cbn. rewrite Hc. cbn.
  unfold modify, fields_of, enqueue, load. krun. destruct (tcbs (qs s) !! c) as [[fc ic]|] eqn:Hkc; [|done].
  cbn. rewrite lookup_insert_eq. cbn. destruct (bool_decide (state fc = TASK_RUNNING)); cbn.
  - rewrite lookup_insert_eq. cbn. rewrite lookup_insert_eq. cbn. destruct ic; [done|]. cbn.
    rewrite !(lookup_insert_ne _ c t) by done. rewrite Hkt. cbn.
    rewrite !(lookup_insert_ne _ c t) by done. rewrite Hkt. cbn. rewrite lookup_insert_eq. cbn.
    change (cr3 (saved (cpu_of (ev s)))) with (cr3 (cpu_of (ev s))).
    unfold restored. cbn. change (cr3 (saved (cpu_of (ev s)))) with (cr3 (cpu_of (ev s))).
    destruct (page_dir (a_fields kt) =? cr3 (cpu_of (ev s))); cbn; intros [= <-]; cbn; (split; [done|]);
      rewrite lookup_insert_ne, lookup_insert_eq by done; eauto.
  - rewrite !(lookup_insert_ne _ c t) by done. rewrite Hkt. cbn.
    rewrite !(lookup_insert_ne _ c t) by done. rewrite Hkt. cbn. rewrite lookup_insert_eq. cbn.
    unfold restored. cbn. change (cr3 (saved (cpu_of (ev s)))) with (cr3 (cpu_of (ev s))).
    destruct (page_dir (a_fields kt) =? cr3 (cpu_of (ev s))); cbn; intros [= <-]; cbn; (split; [done|]);
      rewrite lookup_insert_ne, lookup_insert_eq by done; eauto.
Qed.

(** The four words below the stack pointer hold the saved registers. *)
Lemma saved_words c : 16 <= esp c < 2 ^ 32 ->
  esp (saved c) = esp c - 16 /\
  mem (saved c) (esp c - 16) = ebp c /\ mem (saved c) (esp c - 12) = edi c /\
  mem (saved c) (esp c - 8) = esi c /\ mem (saved c) (esp c - 4) = ebx c /\
  (forall a, ~ (esp c - 16 <= a < esp c) -> mem (saved c) a = mem c a).
Proof.
  intros Hs. unfold saved, push. cbn.
  assert (Hu : forall a, 0 <= a < 2 ^ 32 -> u32 a = a) by (intros a Ha; unfold_words; by apply Z.mod_small).
  rewrite (Hu (esp c - 4)), (Hu (esp c - 4 - 4)), (Hu (esp c - 4 - 4 - 4)), (Hu (esp c - 4 - 4 - 4 - 4)) by lia.
  replace (esp c - 4 - 4 - 4 - 4) with (esp c - 16) by lia.
  replace (esp c - 4 - 4 - 4) with (esp c - 12) by lia. replace (esp c - 4 - 4) with (esp c - 8) by lia.
  split; [done|]. rewrite fn_lookup_insert. split; [done|].
  rewrite fn_lookup_insert_ne, fn_lookup_insert by lia. split; [done|].
  rewrite !fn_lookup_insert_ne, fn_lookup_insert by lia. split; [done|].
  rewrite !fn_lookup_insert_ne, fn_lookup_insert by lia. split; [done|].
  intros a Ha. by rewrite !fn_lookup_insert_ne by lia.
Qed.

Lemma restored_regs top dir c : 0 <= top -> top + 20 < 2 ^ 32 ->
  let c' := restored top dir c in
  ebp c' = mem c top /\ edi c' = mem c (top + 4) /\ esi c' = mem c (top + 8) /\ ebx c' = mem c (top + 12) /\
  eip c' = mem c (top + 16) /\ esp c' = top + 20 /\ cr3 c' = dir /\ mem c' = mem c.
Proof.
  intros H0 H1. unfold restored.
  assert (Hu : forall a, 0 <= a < 2 ^ 32 -> u32 a = a) by (intros a Ha; unfold_words; by apply Z.mod_small).
  assert (E : forall cc : cpu, esp cc = top -> mem cc = mem c -> cr3 cc = dir ->
    let c' := pop set_eip (pop set_ebx (pop set_esi (pop set_edi (pop set_ebp cc)))) in
    ebp c' = mem c top /\ edi c' = mem c (top + 4) /\ esi c' = mem c (top + 8) /\ ebx c' = mem c (top + 12) /\
    eip c' = mem c (top + 16) /\ esp c' = top + 20 /\ cr3 c' = dir /\ mem c' = mem c).
  { intros cc E1 E2 E3. unfold pop. cbn. rewrite E1, E2, E3.
    rewrite (Hu (top + 4)), (Hu (top + 4 + 4)), (Hu (top + 4 + 4 + 4)), (Hu (top + 4 + 4 + 4 + 4)),
      (Hu (top + 4 + 4 + 4 + 4 + 4)) by lia.
    replace (top + 4 + 4 + 4 + 4 + 4) with (top + 20) by lia. replace (top + 4 + 4 + 4 + 4) with (top + 16) by lia.
    replace (top + 4 + 4 + 4) with (top + 12) by lia. by replace (top + 4 + 4) with (top + 8) by lia. }
  cbv zeta. cbn [cr3 set_esp]. destruct (Z.eqb_spec dir (cr3 c)) as [->|Hd]; by apply E.
Qed.

(** The stack [tasks_new] builds. *)
Lemma new_stack page entry (m : Z -> Z) : 0 < page -> page + ARCH_PAGE_SIZE < 2 ^ 32 ->
  let s := initial_stack page entry m in
  s.1 = page + ARCH_PAGE_SIZE - 32 /\
  s.2 (s.1 + 16) = addr_task_starting /\ s.2 (s.1 + 20) = entry /\ s.2 (s.1 + 24) = addr_task_stopping /\
  s.2 (s.1 + 28) = 0 /\ (forall a, ~ (page <= a < page + ARCH_PAGE_SIZE) -> s.2 a = m a).
Proof.
  intros Hp Hm. unfold initial_stack, _stack_push_word, ARCH_PAGE_SIZE in *. cbn.
  assert (Hu : forall a, 0 <= a < 2 ^ 32 -> u32 a = a) by (intros a Ha; unfold_words; by apply Z.mod_small).
  rewrite (Hu (page + 4096)), (Hu (page + 4096 - 4)), (Hu (page + 4096 - 4 - 4)), (Hu (page + 4096 - 4 - 4 - 4)),
    (Hu (page + 4096 - 4 - 4 - 4 - 4)), (Hu (page + 4096 - 4 - 4 - 4 - 4 - 4)), (Hu (page + 4096 - 4 - 4 - 4 - 4 - 4 - 4)),
    (Hu (page + 4096 - 4 - 4 - 4 - 4 - 4 - 4 - 4)), (Hu (page + 4096 - 4 - 4 - 4 - 4 - 4 - 4 - 4 - 4)) by lia.
  split; [lia|].
  assert (Hsame : forall (v : Z) f a b, a = b -> <[a := v]> (f : Z -> Z) b = v)
    by (intros v f a b ->; apply fn_lookup_insert).
  split; [|split; [|split; [|split]]];
    try (repeat (rewrite fn_lookup_insert_ne by lia); apply Hsame; lia).
  intros a Ha. by repeat (rewrite fn_lookup_insert_ne by lia).
Qed.

Lemma tasks_new_inv malloc page entry storage st nm t s s1 :
  tasks_new malloc page entry storage st nm s = Done (t, s1) ->
  (stack_top <$> (a_fields <$> tcbs (qs s1) !! t)) = Some (initial_stack page entry (mem (cpu_of (ev s)))).1 /\
  mem (cpu_of (ev s1)) = (initial_stack page entry (mem (cpu_of (ev s)))).2.
Proof.
  assert (Hgen : forall u a (stk : Z * (Z -> Z)), (if page =? 0 then kpanic "Unable to allocate memory for new task stack." else
     m ← eget (fun e => mem (cpu_of e)) ;
     cmod (set_mem (initial_stack page entry m).2) ;;
     onq (tq_new u (mkTcb (initial_stack page entry m).1 page_dir_phys_addr st 0 0 nm a)) ;;
     kwhen (bool_decide (st = TASK_READY)) (onq (tq_enqueue QReady u)) ;; mret u) s = Done (t, s1) ->
    stk = initial_stack page entry (mem (cpu_of (ev s))) ->
    (stack_top <$> (a_fields <$> tcbs (qs s1) !! t)) = Some stk.1 /\ mem (cpu_of (ev s1)) = stk.2).
  { intros u a stk Hrun Hstk. destruct (page =? 0); [done|]. rewrite eget_bind, <- Hstk in Hrun. clear Hstk.
    revert Hrun. unfold cmod, emod, onq. krun. cbn.
    destruct (new_task u _ (qs s)) as [[[] a1]| | |] eqn:En; try done.
    assert (E1 : tcbs a1 !! u = Some (mkATask (mkTcb stk.1 page_dir_phys_addr st 0 0 nm a) None)).
    { revert En. unfold new_task. destruct (tcbs (qs s) !! u) as [[? []]|]; try done; intros [= <-];
        cbn; by rewrite lookup_insert_eq. }
    destruct (bool_decide (st = TASK_READY)); cbn.
    - unfold enqueue. rewrite E1. cbn. intros [= <- <-]. cbn. by rewrite lookup_insert_eq.
    - intros [= <- <-]. cbn. by rewrite E1. }
  unfold tasks_new. destruct storage as [u|].
  - intros Hrun. by apply (Hgen u ALLOC_STATIC).
  - destruct malloc as [u|]; [|done]. intros Hrun. by apply (Hgen u ALLOC_DYNAMIC).
Qed.

(** *** A task that leaves the processor without being ready *)

Lemma switch_to_leaves c t kc kt s : current_task (ev s) = Some c -> t <> c ->
  tcbs (qs s) !! c = Some kc -> state (a_fields kc) <> TASK_RUNNING -> tcbs (qs s) !! t = Some kt ->
  tasks_switch_to t s = Done (tt,
    let p := saved (cpu_of (ev s)) in
    mkSched (mkQueues (<[t := mkATask (set_state TASK_RUNNING (a_fields kt)) (a_in kt)]>
               (<[c := mkATask (set_stack_top (esp p) (a_fields kc)) (a_in kc)]> (tcbs (qs s)))) (queue (qs s)))
            (set_cpu (restored (stack_top (a_fields kt)) (page_dir (a_fields kt)) p) (set_current (Some t) (ev s)))).
Proof.
  intros Hc Htc Hkc Hs Hkt. destruct kc as [fc ic]. cbn in Hs.
  unfold tasks_switch_to, current, qfields, onq, cmod, emod, eget. krun. cbn. rewrite Hc. cbn.
  unfold modify, fields_of, load. krun. rewrite Hkc. cbn. rewrite lookup_insert_eq. cbn.
  rewrite bool_decide_false by done. cbn.
  repeat (first [rewrite lookup_insert_eq | rewrite (lookup_insert_ne _ c t) by done | rewrite Hkt]; cbn).
  unfold restored. cbn. change (cr3 (saved (cpu_of (ev s)))) with (cr3 (cpu_of (ev s))).
  destruct (page_dir (a_fields kt) =? cr3 (cpu_of (ev s))); cbn; rewrite ?insert_insert_eq; reflexivity.
Qed.

(** [t] has taken over from [c], which waits in no queue. *)
Record left_to (c t : tid) (l : list tid) (tl : list Z) (s s' : sched queues) : Prop := {
  left_current : current_task (ev s') = Some t;
  left_ready : queue (qs s') QReady = l;
  left_other : forall q, q <> QReady -> queue (qs s') q = queue (qs s) q;
  left_old : (fun k => (state (a_fields k), a_in k)) <$> tcbs (qs s') !! c = Some (TASK_PAUSED, None);
  left_tasks : forall u, u <> c -> u <> t -> tcbs (qs s') !! u = tcbs (qs s) !! u;
  left_stack : (fun k => stack_top (a_fields k)) <$> tcbs (qs s') !! t = (fun k => stack_top (a_fields k)) <$> tcbs (qs s) !! t;
  left_tsc : tsc (ev s') = tl;
  left_callbacks : _callbacks (ev s') = _callbacks (ev s);
}.

Lemma block_run c t l r1 r2 tl s : inv s -> current_task (ev s) = Some c -> queue (qs s) QReady = t :: l ->
  tsc (ev s) = r1 :: r2 :: tl -> exists s', tasks_block_current TASK_PAUSED s = Done (tt, s') /\ left_to c t l tl s s'.
Proof.
  intros (c' & HW & _) Hc Hq Ht. assert (c' = c) as -> by (destruct HW as [[] _]; congruence).
  destruct (acquire_run _ _ _ _ _ _ HW) as (e & Ha & [A1 A2 A3 A4 A5] & Htsc & _ & _ & _ & _ & Hcb); [lia..|].
  destruct HW as [_ Hr]. destruct (running_unqueued _ _ Hr) as (kc & Hkc & Hki & Hks). destruct Hr as [Hok _].
  pose proof (dequeue_run QReady (qs s) (ok_qwf _ _ _ Hok)) as Hd. rewrite Hq in Hd.
  destruct Hd as (kt & Hkt & Hti & _ & _). assert (Htc : t <> c) by congruence.
  unfold tasks_block_current. rewrite (run_bind_done _ _ _ _ _ Ha).
  set (q1 := mkQueues (<[c := mkATask (set_state TASK_PAUSED (a_fields kc)) (a_in kc)]> (tcbs (qs s))) (queue (qs s))).
  assert (E1 : (t ← current ; onq (tq_modify t (set_state TASK_PAUSED))) (mkSched (qs s) e) = Done (tt, mkSched q1 e)).
  { unfold current, eget, onq. krun. cbn. rewrite A1. cbn. unfold modify. by rewrite Hkc. }
  rewrite <- run_bind_assoc, (run_bind_done _ _ _ _ _ E1).
  rewrite (run_bind_done _ _ _ _ _ (postponed_run 1 (mkSched q1 e) ltac:(cbn; by rewrite A3))), (release_run true) by done.
  set (e1 := set_postponed false _). set (q2 := put t (mkATask (a_fields kt) None) (setq QReady l q1)).
  assert (Hkt1 : tcbs q1 !! t = Some kt) by (cbn; by rewrite lookup_insert_ne).
  assert (Ed : dequeue QReady q1 = Done (Some t, q2)).
  { unfold dequeue. cbn [queue q1]. rewrite Hq. fold q1. rewrite Hkt1. by destruct kt as [? [[]|]]. }
  assert (Hkc2 : tcbs q2 !! c = Some (mkATask (set_state TASK_PAUSED (a_fields kc)) (a_in kc))).
  { cbn. by rewrite lookup_insert_ne, lookup_insert_eq by done. }
  assert (E2 : _schedule (mkSched q1 e1) = (tasks_update_time ;; switch t) (mkSched q2 e1)).
  { unfold _schedule. cbn [schedule_n]. unfold schedule_with, eget, onq. krun. cbn. rewrite A1. cbn.
    by rewrite Ed. }
  assert (E3 : exists s3, _schedule (mkSched q1 e1) = Done (tt, s3) /\ _scheduler_lock (ev s3) = 1 /\ left_to c t l tl s s3).
  { rewrite E2, (run_bind_done _ _ _ _ _ (update_time_run c _ r1 (r2 :: tl) (mkSched q2 e1) ltac:(cbn; congruence) A5 A1 Hkc2)).
    set (k1 := mkATask (charged _ _ _) _). unfold switch. rewrite emod_bind.
    match goal with |- context [(_get_cpu_time_ns ≫= _) ?x] => rewrite (run_bind_done _ _ _ _ _ (cpu_time_run r2 tl x eq_refl A5)) end.
    rewrite emod_bind. unfold call_switch_to, cmod. rewrite !emod_bind.
    rewrite (switch_to_leaves c t k1 (mkATask (a_fields kt) None));
      [|done|done|cbn; by rewrite lookup_insert_eq|done|cbn; by rewrite lookup_insert_ne, lookup_insert_eq by done].
    eexists. split; [reflexivity|]. split; [exact A2|]. split; cbn; try done.
    - intros q Hqr. by rewrite fn_lookup_insert_ne.
    - by rewrite lookup_insert_ne, lookup_insert_eq, Hki by done.
    - intros u H1 H2. by rewrite !lookup_insert_ne by done.
    - by rewrite lookup_insert_eq, Hkt. }
  destruct E3 as (s3 & E3 & Hlk & [L1 L2 L3 L4 L5 L6 L7 L8]). rewrite (run_bind_done _ _ _ _ _ E3).
  eexists. split; [by apply unlock_run|]. by split.
Qed.
End runs.
