(* ===== verification/SchedulerTheorems.v ===== *)
(** * The scheduler's theorems

    The properties of the scheduler, stated over the definitions of Tasks.v, and
    for each of them a concrete system in which it is at work. *)
From S2P Require Import Prelude Words PageTypes TaskLists Tasks TasksRefinement Queueing Scheduling Switching.
From Stdlib Require Import ZArith Lia Bool.
From stdpp Require Import base strings numbers functions gmap list.
#[local] Open Scope Z_scope.

(** ** A concrete kernel *)

#[local] Instance demo_text : KernelText := {|
  addr_task_starting := 0x100100; addr_task_stopping := 0x100200; addr_cleaner_task_impl := 0x100300;
  addr_after_switch := 0x100400; addr_of_task := fun t => 0x200000 + 64 * Z.pos t;
  addr_cleaner_task := 1%positive; addr_first_task := 2%positive; page_dir_phys_addr := 0x3000 |}.

Definition demo_cpu : cpu := mkCpu 11 12 13 14 0x90000 0 0x3000 true (fun _ => 0).
Definition demo_env : env :=
  mkEnv None 0 0 0 0 0 0 0 false 0 0 [] demo_cpu
    ((fun i => 2000000 * Z.of_nat i) <$> seq 0 40)
    [IrqOther; IrqTimer; IrqTimer; IrqTimer] [].
Definition demo_blank : sched Fifo.queues := mkSched no_tasks demo_env.
Definition state_after {A X} (d : sched X) (m : K (sched X) A) : sched X :=
  match m d with Done (_, s) => s | _ => d end.
Definition demo0 : sched Fifo.queues := state_after demo_blank (tasks_init 0x400000).

Definition new3 : call := CNew None 0x500000 0x100500 (Some 3%positive) TASK_READY "three".
Definition new4 : call := CNew (Some 4%positive) 0x600000 0x100600 None TASK_READY "four".
Definition demo1 : sched Fifo.queues := state_after demo0 (do_call new3).
Definition demo2 : sched Fifo.queues := state_after demo1 (do_call new4).

Definition is_done {A} (o : outcome A) : bool := match o with Done _ => true | _ => false end.
Lemma state_after_run {X} (d : sched X) (m : K (sched X) unit) :
  is_done (m d) = true -> m d = Done (tt, state_after d m).
Proof. unfold state_after. by destruct (m d) as [[[] s]| | |]. Qed.

Definition result_of {A X} (o : outcome (A * X)) : option A :=
  match o with Done (r, _) => Some r | _ => None end.
Lemma result_of_run {A X} (o : outcome (A * X)) r : result_of o = Some r -> exists x, o = Done (r, x).
Proof. destruct o as [[r' x]| | |]; intros [= ->]. by exists x. Qed.

Lemma demo_blank_ok : blank demo_blank.
Proof. by split. Qed.
Lemma demo0_run : is_done (tasks_init 0x400000 demo_blank) = true.
Proof. vm_compute. reflexivity. Qed.
Lemma demo0_reachable : reachable demo0.
Proof.
  unfold demo0. eapply (reach_init demo_blank 0x400000); [apply demo_blank_ok|discriminate|discriminate|].
  apply state_after_run, demo0_run.
Qed.
Lemma demo_step s c : reachable s -> allowed c s -> is_done (do_call c s) = true ->
  reachable (state_after s (do_call c)).
Proof. intros Hr Ha Hd. eapply reach_call; [exact Hr|exact Ha|]. by apply state_after_run. Qed.

Lemma demo1_reachable : reachable demo1.
Proof.
  apply demo_step; [apply demo0_reachable| |vm_compute; reflexivity].
  split; [discriminate|]. split; [by left|]. exists 3%positive. split; [by left|].
  split; [discriminate|]. intros k Hk. vm_compute in Hk. discriminate.
Qed.
Lemma demo2_reachable : reachable demo2.
Proof.
  apply demo_step; [apply demo1_reachable| |vm_compute; reflexivity].
  split; [discriminate|]. split; [by left|]. exists 4%positive. split; [by right|].
  split; [discriminate|]. intros k Hk. vm_compute in Hk. discriminate.
Qed.

(** Decide the condition of a conditional conclusion by computing it. *)
Ltac demo_branch := match goal with |- (if ?b then _ else _) -> _ =>
  assert (b = true) as -> by (vm_compute; reflexivity) end.

(** ** Theorems *)



(** The pointer structures that represent the system before [tasks_init]. *)
Definition demo_ptr : sched Ptr.queues := mkSched (Ptr.mkQueues ∅ (fun _ => empty_list)) demo_env.

Lemma demo_ptr_rel : rel_sched demo_ptr demo_blank.
Proof.
  split; [|done]. split; cbn; try done.
  - intros q. apply NoDup_nil_2.
  - intros t q. split; [set_solver|]. by intros (k & [=] & _).
Qed.

(** C2. The code, on linked lists threaded through the task structures, refines
    the scheduler on FIFO queues: whatever sequence of calls the queues allow,
    the code makes the same task switches and ends with lists that represent
    the queues. *)
Theorem scheduler_refines_queues `{KernelText} l c a r a' : rel_sched c a ->
  run_calls l a = Done (r, a') -> exists c', run_calls l c = Done (r, c') /\ rel_sched c' a'.
Proof. intros Hr Hrun. by apply (sim_calls l c a r a' Hr). Qed.

Lemma demo_ptr0_run : exists d, tasks_init 0x400000 demo_ptr = Done (tt, d) /\ rel_sched d demo0.
Proof.
  pose proof (state_after_run demo_blank (tasks_init 0x400000) demo0_run) as Hrun.
  exact (sim_init _ _ _ _ _ demo_ptr_rel Hrun).
Qed.

Definition demo_calls : list call :=
  [new3; new4; CSchedule; CSyncBlock 1; CSleepUntil 6000000; CSyncUnblock 1; CTimer; CExit].

Lemma scheduler_refines_queues_witness :
  exists d c' a', tasks_init 0x400000 demo_ptr = Done (tt, d) /\
    run_calls demo_calls d = Done (Some <$> [2; 2; 3; 4; 2; 3; 2; 4]%positive, c') /\ rel_sched c' a'.
Proof.
  destruct demo_ptr0_run as (d & Hd & Hrel).
  destruct (result_of_run (run_calls demo_calls demo0) (Some <$> [2; 2; 3; 4; 2; 3; 2; 4]%positive))
    as (a' & Ha); [vm_compute; reflexivity|].
  destruct (scheduler_refines_queues _ _ _ _ _ Hrel Ha) as (c' & Hrun & Hrel').
  exists d, c', a'. split; [exact Hd|]. split; [exact Hrun|exact Hrel'].
Defined.

(** C3. [tasks_schedule] is round robin: it returns, the first ready task has
    become the current one with a full time slice, the caller is the last of the
    ready queue, the other queues are as before, and the locks are free. *)
Theorem tasks_schedule_round_robin `{KernelText} s c t l r1 r2 tl : reachable s ->
  current_task (ev s) = Some c -> Fifo.queue (qs s) QReady = t :: l -> tsc (ev s) = r1 :: r2 :: tl ->
  exists s', tasks_schedule s = Done (tt, s') /\
    current_task (ev s') = Some t /\ Fifo.queue (qs s') QReady = l ++ [c] /\
    (forall q, q <> QReady -> Fifo.queue (qs s') q = Fifo.queue (qs s) q) /\
    _time_slice_remaining (ev s') = TIME_SLICE_SIZE /\ unlocked (ev s') /\ inv s'.
Proof.
  intros Hr Hc Hq Ht. pose proof (reachable_inv _ Hr) as Hi.
  destruct (schedule_call_run c r1 r2 tl s Hi Hc Ht) as (s' & Hrun & Hu & Hout & Hsl & Ho & _).
  rewrite Hq in Hout. destruct Hout as [Hcur Hrdy]. exists s'. do 6 (split; [done|]).
  pose proof (T_call CSchedule s (conj Hi I)) as Hinv. cbn [do_call] in Hinv. by rewrite Hrun in Hinv.
Qed.

Lemma tasks_schedule_round_robin_witness : exists s', tasks_schedule demo2 = Done (tt, s') /\
  current_task (ev s') = Some 3%positive /\ Fifo.queue (qs s') QReady = [4; 2]%positive.
Proof.
  destruct (tasks_schedule_round_robin demo2 2%positive 3%positive [4%positive]
    6000000 8000000 ((fun i => 2000000 * Z.of_nat i) <$> seq 5 35) demo2_reachable)
    as (s' & Hrun & Hcur & Hq & _); [vm_compute; reflexivity..|].
  exists s'. split; [exact Hrun|]. split; [exact Hcur|exact Hq].
Defined.

(** C4. The timer interrupt wakes exactly the sleeping tasks whose time has
    come, in the order in which they went to sleep, and leaves the others
    asleep in their order.  If it woke one, or if the time slice is over, the
    first ready task takes over from the current one; otherwise the current one
    goes on. *)
Theorem timer_interrupt_correct `{KernelText} s c r r1 r2 tl : reachable s ->
  current_task (ev s) = Some c -> _callbacks (ev s) = [CbOnTimer] -> tsc (ev s) = r :: r1 :: r2 :: tl ->
  let time := u64 r / _instr_per_ns (ev s) in
  let woken_up := filter (expired (qs s) time) (Fifo.queue (qs s) QSleeping) in
  exists s', timer_callback s = Done (tt, s') /\ unlocked (ev s') /\ inv s' /\
    Fifo.queue (qs s') QSleeping = filter (.∉ woken_up) (Fifo.queue (qs s) QSleeping) /\
    (forall ts, Fifo.queue (qs s') (QSync ts) = Fifo.queue (qs s) (QSync ts)) /\
    if negb (bool_decide (woken_up = [])) || slice_over time (ev s)
    then outcome_of c (Fifo.queue (qs s) QReady ++ woken_up) s' /\
         _time_slice_remaining (ev s') = TIME_SLICE_SIZE
    else current_task (ev s') = Some c /\ Fifo.queue (qs s') QReady = Fifo.queue (qs s) QReady.
Proof.
  intros Hr Hc Hcb Ht time woken_up. pose proof (reachable_inv _ Hr) as Hi.
  destruct (timer_outcome c r r1 r2 tl s Hi Hc Hcb Ht) as (s' & Hrun & Hu & _ & Hsleep & Hsync & Hout).
  exists s'. do 2 (split; [done|]). split; [|by split].
  pose proof (T_call CTimer s (conj Hi I)) as Hinv. cbn [do_call] in Hinv. by rewrite Hrun in Hinv.
Qed.

Definition demo3 : sched Fifo.queues := state_after demo2 (do_call (CSleepUntil 22)).
Lemma demo3_reachable : reachable demo3.
Proof. apply demo_step; [apply demo2_reachable|exact I|vm_compute; reflexivity]. Qed.

Lemma timer_interrupt_correct_witness : exists s', timer_callback demo3 = Done (tt, s') /\
  Fifo.queue (qs s') QSleeping = [] /\ current_task (ev s') = Some 4%positive /\
  Fifo.queue (qs s') QReady = [2; 3]%positive.
Proof.
  destruct (timer_interrupt_correct demo3 3%positive 10000000 12000000 14000000
    ((fun i => 2000000 * Z.of_nat i) <$> seq 8 32) demo3_reachable)
    as (s' & Hrun & _ & _ & Hs & _ & Hout); [vm_compute; reflexivity..|].
  exists s'. split; [exact Hrun|]. split; [rewrite Hs; vm_compute; reflexivity|].
  revert Hout. demo_branch. match goal with |- outcome_of _ ?l _ /\ _ -> _ =>
    assert (l = [4; 2]%positive) as -> by (vm_compute; reflexivity) end. intros [[H1 H2] _]. split; [exact H1|exact H2].
Defined.

(** C5. [tasks_sync_unblock] wakes every task that waits on the primitive, in
    the order in which they began to wait, and nobody else; it then gives the
    processor to the first ready task.  With nobody waiting it does nothing. *)
Theorem tasks_sync_unblock_wakes_all `{KernelText} s c ts r1 r2 tl : reachable s ->
  current_task (ev s) = Some c -> tsc (ev s) = r1 :: r2 :: tl ->
  exists s', tasks_sync_unblock ts s = Done (tt, s') /\ unlocked (ev s') /\ inv s' /\
    Fifo.queue (qs s') (QSync ts) = [] /\
    (forall q, q <> QReady -> q <> QSync ts -> Fifo.queue (qs s') q = Fifo.queue (qs s) q) /\
    match Fifo.queue (qs s) (QSync ts) with
    | [] => current_task (ev s') = Some c /\ Fifo.queue (qs s') QReady = Fifo.queue (qs s) QReady
    | waiting => outcome_of c (Fifo.queue (qs s) QReady ++ waiting) s'
    end.
Proof.
  intros Hr Hc Ht. pose proof (reachable_inv _ Hr) as Hi.
  destruct (sync_unblock_outcome c ts r1 r2 tl s Hi Hc Ht) as (s' & Hrun & Hu & Hw & Ho & Hout).
  exists s'. do 2 (split; [done|]). split; [|done].
  pose proof (T_call (CSyncUnblock ts) s (conj Hi I)) as Hinv. cbn [do_call] in Hinv. by rewrite Hrun in Hinv.
Qed.

Definition demo4 : sched Fifo.queues := state_after demo2 (do_call (CSyncBlock 7)).
Lemma demo4_reachable : reachable demo4.
Proof. apply demo_step; [apply demo2_reachable|exact I|vm_compute; reflexivity]. Qed.

Lemma tasks_sync_unblock_wakes_all_witness : exists s', tasks_sync_unblock 7 demo4 = Done (tt, s') /\
  Fifo.queue (qs s') (QSync 7) = [] /\ current_task (ev s') = Some 4%positive /\
  Fifo.queue (qs s') QReady = [2; 3]%positive.
Proof.
  destruct (tasks_sync_unblock_wakes_all demo4 3%positive 7%positive 10000000 12000000
    ((fun i => 2000000 * Z.of_nat i) <$> seq 7 33) demo4_reachable)
    as (s' & Hrun & _ & _ & Hw & _ & Hout); [vm_compute; reflexivity..|].
  exists s'. split; [exact Hrun|]. split; [exact Hw|].
  assert (Hq : Fifo.queue (qs demo4) (QSync 7) = [2%positive]) by (vm_compute; reflexivity).
  assert (Hrdy : Fifo.queue (qs demo4) QReady = [4%positive]) by (vm_compute; reflexivity).
  rewrite Hq, Hrdy in Hout. exact Hout.
Defined.

(** C6. A context switch is transparent to the task that is suspended: when the
    processor is switched back to it, and nobody wrote to its stack meanwhile,
    its registers are as they were, its stack pointer is back above the return
    address, and execution goes on there. *)
Theorem context_switch_roundtrip `{KernelText} c t u kt kc s s1 s2 s3 :
  current_task (ev s) = Some c -> t <> c -> Fifo.tcbs (qs s) !! t = Some kt ->
  let sp := esp (cpu_of (ev s)) in
  16 <= sp -> sp + 4 < 2 ^ 32 ->
  tasks_switch_to t s = Done (tt, s1) ->
  (* later, some task [u] is switched away from, in favour of [c] *)
  current_task (ev s2) = Some u -> c <> u -> Fifo.tcbs (qs s2) !! c = Some kc ->
  (stack_top <$> (Fifo.a_fields <$> Fifo.tcbs (qs s1) !! c)) = Some (stack_top (Fifo.a_fields kc)) ->
  let sp2 := esp (cpu_of (ev s2)) in
  16 <= sp2 < 2 ^ 32 -> (sp2 <= sp - 16 \/ sp + 4 <= sp2 - 16) ->
  (forall a, sp - 16 <= a < sp + 4 -> mem (cpu_of (ev s2)) a = mem (saved (cpu_of (ev s))) a) ->
  tasks_switch_to c s2 = Done (tt, s3) ->
  ebx (cpu_of (ev s3)) = ebx (cpu_of (ev s)) /\ esi (cpu_of (ev s3)) = esi (cpu_of (ev s)) /\
  edi (cpu_of (ev s3)) = edi (cpu_of (ev s)) /\ ebp (cpu_of (ev s3)) = ebp (cpu_of (ev s)) /\
  esp (cpu_of (ev s3)) = sp + 4 /\ eip (cpu_of (ev s3)) = mem (cpu_of (ev s)) sp.
Proof.
  intros Hc Htc Hkt sp Hsp Hsp' Hrun Hu Hcu Hkc Htop sp2 Hsp2 Hdis Hmem Hrun2.
  destruct (switch_to_inv c t kt s s1 Hc Htc Hkt Hrun) as (_ & k1 & Hk1 & Hst1).
  rewrite Hk1 in Htop. cbn in Htop. injection Htop as Htop. rewrite Hst1 in Htop.
  destruct (switch_to_inv u c kc s2 s3 Hu Hcu Hkc Hrun2) as (-> & _). rewrite <- Htop.
  destruct (saved_words (cpu_of (ev s))) as (E0 & E1 & E2 & E3 & E4 & E5); [fold sp; lia|].
  destruct (saved_words (cpu_of (ev s2))) as (_ & _ & _ & _ & _ & F5); [fold sp2; lia|].
  fold sp in E0, E1, E2, E3, E4, E5. fold sp2 in F5.
  destruct (restored_regs (esp (saved (cpu_of (ev s)))) (page_dir (Fifo.a_fields kc)) (saved (cpu_of (ev s2))))
    as (G1 & G2 & G3 & G4 & G5 & G6 & _); [lia..|].
  rewrite G1, G2, G3, G4, G5, G6. rewrite E0.
  rewrite !F5 by lia. rewrite !Hmem by lia.
  replace (sp - 16 + 12) with (sp - 4) by lia. replace (sp - 16 + 8) with (sp - 8) by lia.
  replace (sp - 16 + 4) with (sp - 12) by lia. replace (sp - 16 + 16) with sp by lia.
  rewrite E1, E2, E3, E4, E5 by lia. do 4 (split; [done|]). split; [lia|done].
Qed.

(** The state in which [_schedule] has taken the next task out of the queue. *)
Definition popped (s : sched Fifo.queues) : sched Fifo.queues := state_after s (onq (tq_dequeue QReady)).
Definition demo5 : sched Fifo.queues := popped demo2.
Definition demo6 : sched Fifo.queues := state_after demo5 (tasks_switch_to 3).
(** The other task has run, with other values in the registers. *)
Definition with_ebx (v : Z) (s : sched Fifo.queues) : sched Fifo.queues :=
  mkSched (qs s) (set_cpu (set_ebx v (cpu_of (ev s))) (ev s)).
Definition demo7 : sched Fifo.queues := with_ebx 99 (popped (popped demo6)).

Lemma restored_mem top dir c : mem (restored top dir c) = mem c.
Proof. unfold restored. by destruct (dir =? _). Qed.

Lemma popped_ev s : ev (popped s) = ev s.
Proof. unfold popped, state_after, onq. krun. by destruct (tq_dequeue QReady (qs s)) as [[]| | |]. Qed.

Lemma demo6_run : tasks_switch_to 3 demo5 = Done (tt, demo6).
Proof.
  assert (Hd : is_done (tasks_switch_to 3 demo5) = true) by (vm_compute; reflexivity).
  exact (state_after_run demo5 (tasks_switch_to 3) Hd).
Qed.

(** The stack of the suspended task is as its own switch left it. *)
Lemma demo7_mem : mem (cpu_of (ev demo7)) = mem (saved (cpu_of (ev demo5))).
Proof.
  assert (E : forall v s, mem (cpu_of (ev (with_ebx v s))) = mem (cpu_of (ev s))) by done.
  unfold demo7. rewrite E, !popped_ev.
  destruct (Fifo.tcbs (qs demo5) !! 3%positive) as [kt|] eqn:Hkt; [|vm_compute in Hkt; discriminate].
  assert (Hc : current_task (ev demo5) = Some 2%positive) by (vm_compute; reflexivity).
  destruct (switch_to_inv 2%positive 3%positive kt demo5 demo6 Hc ltac:(discriminate) Hkt demo6_run) as [Hcpu _].
  rewrite Hcpu. apply restored_mem.
Qed.

Lemma context_switch_roundtrip_witness : exists s3, tasks_switch_to 2 demo7 = Done (tt, s3) /\
  ebx (cpu_of (ev demo7)) = 99 /\ ebx (cpu_of (ev s3)) = 11 /\ esp (cpu_of (ev s3)) = 0x90004.
Proof.
  assert (Hd : is_done (tasks_switch_to 2 demo7) = true) by (vm_compute; reflexivity).
  pose proof (state_after_run demo7 (tasks_switch_to 2) Hd) as Hrun.
  destruct (Fifo.tcbs (qs demo5) !! 3%positive) as [kt|] eqn:Hkt; [|vm_compute in Hkt; discriminate].
  destruct (Fifo.tcbs (qs demo7) !! 2%positive) as [kc|] eqn:Hkc; [|vm_compute in Hkc; discriminate].
  assert (Hst : (stack_top <$> (Fifo.a_fields <$> Fifo.tcbs (qs demo6) !! 2%positive)) =
                (stack_top <$> (Fifo.a_fields <$> Fifo.tcbs (qs demo7) !! 2%positive))) by (vm_compute; reflexivity).
  rewrite Hkc in Hst.
  destruct (context_switch_roundtrip 2%positive 3%positive 3%positive kt kc demo5 demo6 demo7
    (state_after demo7 (tasks_switch_to 2))) as (Hebx & _ & _ & _ & Hesp & _).
  - vm_compute. reflexivity.
  - discriminate.
  - exact Hkt.
  - vm_compute. discriminate.
  - vm_compute. reflexivity.
  - exact demo6_run.
  - vm_compute. reflexivity.
  - discriminate.
  - exact Hkc.
  - exact Hst.
  - split; vm_compute; [discriminate|reflexivity].
  - right. vm_compute. discriminate.
  - intros a _. exact (f_equal (fun m => m a) demo7_mem).
  - exact Hrun.
  - eexists. split; [exact Hrun|]. split; [vm_compute; reflexivity|].
    split; [rewrite Hebx; vm_compute; reflexivity|rewrite Hesp; vm_compute; reflexivity].
Defined.

(** C7. A task that [tasks_new] created starts, when it is switched to for the
    first time, in [_task_starting], which returns to its entry point, which
    returns to [_task_stopping]; the saved registers are null. *)
Theorem new_task_starts `{KernelText} malloc page entry storage st nm s t s1 u kt s2 s3 :
  0 < page -> page + ARCH_PAGE_SIZE + 16 < 2 ^ 32 ->
  tasks_new malloc page entry storage st nm s = Done (t, s1) ->
  current_task (ev s2) = Some u -> t <> u -> Fifo.tcbs (qs s2) !! t = Some kt ->
  (stack_top <$> (Fifo.a_fields <$> Fifo.tcbs (qs s1) !! t)) = Some (stack_top (Fifo.a_fields kt)) ->
  (* nobody wrote to the new stack, and the one in use is elsewhere *)
  (forall a, page <= a < page + ARCH_PAGE_SIZE -> mem (cpu_of (ev s2)) a = mem (cpu_of (ev s1)) a) ->
  16 <= esp (cpu_of (ev s2)) < 2 ^ 32 ->
  (esp (cpu_of (ev s2)) <= page \/ page + ARCH_PAGE_SIZE <= esp (cpu_of (ev s2)) - 16) ->
  tasks_switch_to t s2 = Done (tt, s3) ->
  let c := cpu_of (ev s3) in
  eip c = addr_task_starting /\ mem c (esp c) = entry /\ mem c (esp c + 4) = addr_task_stopping /\
  mem c (esp c + 8) = 0 /\ esp c + 12 = page + ARCH_PAGE_SIZE.
Proof.
  intros Hp Hp2 Hnew Hu Htu Hkt Htop Hmem Hsp Hdis Hrun c.
  destruct (tasks_new_inv _ _ _ _ _ _ _ _ _ Hnew) as [Htop1 Hmem1].
  destruct (new_stack page entry (mem (cpu_of (ev s))) Hp) as (E0 & E1 & E2 & E3 & E4 & _); [lia|].
  revert Htop1 Hmem1 E0 E1 E2 E3 E4. generalize (initial_stack page entry (mem (cpu_of (ev s)))).
  intros stk Htop1 Hmem1 E0 E1 E2 E3 E4. rewrite Htop1 in Htop. injection Htop as Htop.
  destruct (switch_to_inv u t kt s2 s3 Hu Htu Hkt Hrun) as (Hc & _). unfold c. rewrite Hc, <- Htop.
  destruct (saved_words (cpu_of (ev s2))) as (_ & _ & _ & _ & _ & F); [lia|].
  unfold ARCH_PAGE_SIZE in *.
  destruct (restored_regs stk.1 (page_dir (Fifo.a_fields kt)) (saved (cpu_of (ev s2))))
    as (_ & _ & _ & _ & G5 & G6 & _ & G8); [lia..|].
  assert (Hw : forall a, page <= a < page + 4096 -> mem (saved (cpu_of (ev s2))) a = stk.2 a).
  { intros a Ha. rewrite F by lia. rewrite Hmem by lia. by rewrite Hmem1. }
  rewrite G5, G6, G8. rewrite !Hw by lia.
  replace (stk.1 + 20 + 4) with (stk.1 + 24) by lia. replace (stk.1 + 20 + 8) with (stk.1 + 28) by lia.
  do 4 (split; [done|]). lia.
Qed.

Definition demo8 : sched Fifo.queues := popped demo1.
Lemma new_task_starts_witness : exists s3, tasks_switch_to 3 demo8 = Done (tt, s3) /\
  eip (cpu_of (ev s3)) = 0x100100 /\ mem (cpu_of (ev s3)) (esp (cpu_of (ev s3))) = 0x100500.
Proof.
  assert (Hd : is_done (tasks_switch_to 3 demo8) = true) by (vm_compute; reflexivity).
  pose proof (state_after_run demo8 (tasks_switch_to 3) Hd) as Hrun.
  assert (Hn : result_of (tasks_new None 0x500000 0x100500 (Some 3%positive) TASK_READY "three" demo0) = Some 3%positive)
    by (vm_compute; reflexivity).
  apply result_of_run in Hn as (d & Hn).
  assert (Hd1 : demo1 = d).
  { unfold demo1, state_after, new3. cbn [do_call]. rewrite (run_bind_done _ _ _ _ _ Hn). reflexivity. }
  destruct (Fifo.tcbs (qs demo8) !! 3%positive) as [kt|] eqn:Hkt; [|vm_compute in Hkt; discriminate].
  assert (Hst : (stack_top <$> (Fifo.a_fields <$> Fifo.tcbs (qs demo1) !! 3%positive)) =
                (stack_top <$> (Fifo.a_fields <$> Fifo.tcbs (qs demo8) !! 3%positive))) by (vm_compute; reflexivity).
  rewrite Hkt, Hd1 in Hst.
  destruct (new_task_starts None 0x500000 0x100500 (Some 3%positive) TASK_READY "three" demo0 3%positive d
    2%positive kt demo8 (state_after demo8 (tasks_switch_to 3))) as (He & Hm & _).
  - reflexivity.
  - reflexivity.
  - exact Hn.
  - vm_compute. reflexivity.
  - discriminate.
  - exact Hkt.
  - exact Hst.
  - intros a _. unfold demo8. by rewrite popped_ev, Hd1.
  - split; vm_compute; [discriminate|reflexivity].
  - left. vm_compute. discriminate.
  - exact Hrun.
  - eexists. split; [exact Hrun|]. split; [exact He|exact Hm].
Defined.

(** *** Fairness *)

(** A turn: the running task calls [tasks_schedule], or the timer interrupts. *)
Definition turn (c : call) : Prop := c = CSchedule \/ c = CTimer.
Definition yields (c : call) : nat := match c with CSchedule => 1 | _ => 0 end.
(** How often the processor changes hands. *)
Fixpoint switches (c : option tid) (r : list (option tid)) : nat :=
  match r with [] => 0 | c' :: r' => (if bool_decide (c = c') then 0 else 1) + switches c' r' end%nat.

Lemma current_not_ready s c : inv s -> current_task (ev s) = Some c -> c ∉ Fifo.queue (qs s) QReady.
Proof.
  intros (c' & [[Hc' _ _ _ _] Hr] & _) Hc. assert (c' = c) as -> by congruence.
  destruct (running_unqueued _ _ Hr) as (k & Hk & Hi & _). apply (not_queued _ _ k); [apply Hr|done|congruence].
Qed.

(** One turn: nothing changes hands, or the first ready task takes over and the
    others move up. *)
Lemma turn_run `{KernelText} x s c : turn x -> inv s -> current_task (ev s) = Some c -> _callbacks (ev s) = [CbOnTimer] ->
  (3 <= length (tsc (ev s)))%nat -> exists s', do_call x s = Done (tt, s') /\ inv s' /\ spent 3 (ev s) (ev s') /\
    ((yields x = 0%nat /\ current_task (ev s') = Some c /\ Fifo.queue (qs s') QReady = Fifo.queue (qs s) QReady) \/
     exists woken, outcome_of c (Fifo.queue (qs s) QReady ++ woken) s').
Proof.
  intros Hx Hi Hc Hcb Hl. destruct (tsc (ev s)) as [|r [|r1 [|r2 tl]]] eqn:Ht; cbn in Hl; try lia.
  assert (Hinv : forall s', do_call x s = Done (tt, s') -> inv s').
  { intros s' E. assert (Ha : allowed x s) by (by destruct Hx as [-> | ->]).
    pose proof (T_call x s (conj Hi Ha)) as HT. by rewrite E in HT. }
  destruct Hx as [-> | ->]; cbn [do_call] in *.
  - destruct (schedule_call_run c r r1 (r2 :: tl) s Hi Hc Ht) as (s' & E & _ & Hout & _ & _ & [Hs1 Hs2]).
    exists s'. split; [done|]. split; [by apply Hinv|]. split; [split; [done|lia]|]. right. exists []. by rewrite app_nil_r.
  - destruct (timer_outcome c r r1 r2 tl s Hi Hc Hcb Ht) as (s' & E & _ & Hsp & _ & _ & Hout).
    exists s'. split; [done|]. split; [by apply Hinv|]. split; [done|]. cbv zeta in Hout.
    destruct (negb _ || slice_over _ _); [right; destruct Hout as [Hout _]; by eexists|left; by destruct Hout].
Qed.

Lemma turns_run `{KernelText} l : forall s c, Forall turn l -> inv s -> current_task (ev s) = Some c ->
  _callbacks (ev s) = [CbOnTimer] -> Fifo.queue (qs s) QReady <> [] -> (3 * length l <= length (tsc (ev s)))%nat ->
  exists r s', run_calls l s = Done (r, s') /\ (sum_list_with yields l <= switches (Some c) r)%nat /\
    forall k t, Fifo.queue (qs s) QReady !! k = Some t -> (k < switches (Some c) r)%nat -> Some t ∈ r.
Proof.
  induction l as [|x l IH]; intros s c Hl Hi Hc Hcb Hne Ht.
  { exists [], s. split; [done|]. split; [done|]. intros k t _ Hk. cbn in Hk. lia. }
  apply Forall_cons in Hl as [Hx Hl]. cbn [length] in Ht.
  destruct (turn_run x s c Hx Hi Hc Hcb ltac:(lia)) as (s1 & E1 & Hi1 & [Hcb1 Ht1] & Hcase).
  destruct (Fifo.queue (qs s) QReady) as [|t0 l0] eqn:Hq; [done|].
  pose proof (current_not_ready _ _ Hi Hc) as Hnr. rewrite Hq in Hnr. apply not_elem_of_cons in Hnr as [Hct _].
  assert (Hrun : forall r s2, run_calls l s1 = Done (r, s2) -> run_calls (x :: l) s = Done (current_task (ev s1) :: r, s2)).
  { intros r s2 E2. cbn [run_calls]. rewrite (run_bind_done _ _ _ _ _ E1), eget_bind. by rewrite (run_bind_done _ _ _ _ _ E2). }
  destruct Hcase as [(Hy & Hc1 & Hq1)|(woken & Hc1 & Hq1)].
  - destruct (IH s1 c Hl Hi1 Hc1 ltac:(congruence) ltac:(congruence) ltac:(lia)) as (r & s2 & E2 & Hsw & Hpos).
    exists (Some c :: r), s2. rewrite <- Hc1 at 1. split; [by apply Hrun|]. cbn [sum_list_with switches].
    rewrite bool_decide_true, Hy by done. split; [lia|]. intros k t Hk Hlt. apply list_elem_of_further.
    apply (Hpos k); [by rewrite Hq1|lia].
  - destruct (IH s1 t0 Hl Hi1 Hc1 ltac:(congruence)) as (r & s2 & E2 & Hsw & Hpos); [rewrite Hq1; by destruct (l0 ++ woken)|lia|].
    exists (Some t0 :: r), s2. rewrite <- Hc1 at 1. split; [by apply Hrun|]. cbn [sum_list_with switches].
    rewrite bool_decide_false by congruence. split; [destruct x; cbn [yields]; lia|]. intros [|k] t Hk Hlt.
    + injection Hk as ->. by left.
    + apply list_elem_of_further. apply (Hpos k); [|lia]. rewrite Hq1. cbn in Hk. apply lookup_app_l_Some, lookup_app_l_Some, Hk.
Qed.

(** C32. Nobody starves: a task that waits at place [k] of the ready queue has
    the processor once it has changed hands [k + 1] times, however the running
    tasks' calls of [tasks_schedule] and the timer interrupts follow each other.
    It changes hands at every call of [tasks_schedule] (and, by C4, when a time
    slice ends), so that [k + 1] of these calls are enough.  None of them fails
    or waits. *)
Theorem ready_task_gets_its_turn `{KernelText} l s c t k : reachable s -> current_task (ev s) = Some c ->
  _callbacks (ev s) = [CbOnTimer] -> Fifo.queue (qs s) QReady !! k = Some t ->
  Forall turn l -> (3 * length l <= length (tsc (ev s)))%nat ->
  exists r s', run_calls l s = Done (r, s') /\
    (sum_list_with yields l <= switches (Some c) r)%nat /\
    ((k < switches (Some c) r)%nat -> Some t ∈ r).
Proof.
  intros Hr Hc Hcb Hk Hl Ht.
  destruct (turns_run l s c Hl (reachable_inv _ Hr) Hc Hcb) as (r & s' & E & Hsw & Hpos); [by intros E; rewrite E in Hk|done|].
  exists r, s'. split; [done|]. split; [done|]. by apply Hpos.
Qed.

Lemma ready_task_gets_its_turn_witness : exists r s', run_calls [CTimer; CSchedule; CTimer; CSchedule] demo2 = Done (r, s') /\
  Some 4%positive ∈ r.
Proof.
  destruct (ready_task_gets_its_turn [CTimer; CSchedule; CTimer; CSchedule] demo2 2%positive 4%positive 1 demo2_reachable)
    as (r & s' & E & Hsw & Hin).
  - vm_compute. reflexivity.
  - vm_compute. reflexivity.
  - vm_compute. reflexivity.
  - repeat apply Forall_cons_2; try apply Forall_nil_2; unfold turn; tauto.
  - assert (Hle : (12 <=? length (tsc (ev demo2)))%nat = true) by (vm_compute; reflexivity). apply Nat.leb_le in Hle. exact Hle.
  - exists r, s'. split; [exact E|]. apply Hin. cbn in Hsw. lia.
Defined.

(** *** A task that exits before the cleaner ran

    [tasks_exit] unblocks the cleaner whether or not it is paused.  The second
    exit enqueues it while it is in the ready queue: the tasks behind it are cut
    off. *)

Fixpoint walk (fuel : nat) (m : Ptr.store) (p : option tid) : list tid :=
  match fuel, p with
  | S n, Some t => t :: match m !! t with Some k => walk n m (TaskLists.next k) | None => [] end
  | _, _ => []
  end.
Definition ready_list (s : sched Ptr.queues) : list tid :=
  walk 20 (Ptr.tasks (qs s)) (TaskLists.head (Ptr.lists (qs s) QReady)).

Definition new5 : call := CNew (Some 5%positive) 0x700000 0x100700 None TASK_READY "five".
Definition exits : sched Ptr.queues :=
  state_after demo_ptr (tasks_init 0x400000 ;;
    run_calls [new3; new4; new5; CSchedule; CExit; CSchedule; CExit]).

(** Task 4 is ready, is not running, and is in no list any more. *)
Theorem second_exit_loses_a_ready_task :
  ((state ∘ fields) <$> Ptr.tasks (qs exits) !! 4%positive, current_task (ev exits), ready_list exits)
    = (Some TASK_READY, Some 2%positive, [1%positive]).
Proof. vm_compute. reflexivity. Qed.
