(* ===== verification/Locking.v ===== *)
(** * Mutexes, semaphores and static guards (Kernel/Locking, Support/cxa_guard.cpp)

    The functions of a mutex and of a semaphore, cut into the steps at which
    other tasks can run in between: the atomic built-ins, and the calls of the
    scheduler, which are atomic because they run with interrupts off.  A state
    holds the object and, for every task, where it is in the function it calls.
    The theorems are about all interleavings. *)
From S2P Require Import Prelude Words TaskLists.
From Stdlib Require Import ZArith Lia Bool.
From stdpp Require Import base strings numbers functions gmap list.
#[local] Open Scope Z_scope.

(** [struct task_sync]. *)
Record task_sync := mkSync { possessor : option tid; dbg_name : option string; waiting : list tid }.
Definition tasks_sync_init (ts : task_sync) : task_sync := mkSync None None [].
Definition set_waiting (l : list tid) (ts : task_sync) : task_sync := mkSync (possessor ts) (dbg_name ts) l.

(** ** Mutex *)
Module Mutex.

(** Where a task is: outside, before the test-and-set of [lock], after it
    failed, on the waiting list, inside the critical section, and in [unlock]
    after the flag was cleared. *)
Inductive pc := Outside | Acquire | Failed | Waiting | Inside | Cleared.
#[global] Instance pc_eq_dec : EqDecision pc.
Proof. solve_decision. Defined.

Record state := mkState { m_isLocked : bool; m_taskSync : task_sync; at_pc : tid -> pc }.

(** The constructor, given the memory the object is built in. *)
Definition Mutex (nm : option string) (mem : task_sync) : bool * task_sync :=
  let ts := mkSync (possessor mem) nm (waiting mem) in (false, tasks_sync_init ts).

Definition init (nm : option string) : state :=
  let '(b, ts) := Mutex nm (mkSync None None []) in mkState b ts (fun _ => Outside).

Definition goto (t : tid) (p : pc) (s : state) : state :=
  mkState (m_isLocked s) (m_taskSync s) (<[t := p]> (at_pc s)).

(** All tasks of a list are made ready: they go on in the loop of [lock]. *)
Fixpoint wake (l : list tid) (f : tid -> pc) : tid -> pc :=
  match l with [] => f | t :: l' => wake l' (<[t := Acquire]> f) end.

(** The steps of [lock]. *)
Definition lock (t : tid) (s : state) : option state :=
  match at_pc s t with
  | Outside => Some (goto t Acquire s)
  | Acquire =>
      if m_isLocked s then Some (goto t Failed s)
      else Some (goto t Inside (mkState true (m_taskSync s) (at_pc s)))
  | Failed =>
      let ts := m_taskSync s in
      Some (goto t Waiting (mkState (m_isLocked s) (set_waiting (waiting ts ++ [t]) ts) (at_pc s)))
  | _ => None
  end.

Definition tryLock (t : tid) (s : state) : option (bool * state) :=
  match at_pc s t with
  | Outside =>
      if m_isLocked s then Some (false, s)
      else Some (true, goto t Inside (mkState true (m_taskSync s) (at_pc s)))
  | _ => None
  end.

(** The steps of [unlock], which the task inside calls. *)
Definition unlock (t : tid) (s : state) : option state :=
  match at_pc s t with
  | Inside => Some (goto t Cleared (mkState false (m_taskSync s) (at_pc s)))
  | Cleared =>
      let ts := m_taskSync s in
      Some (mkState (m_isLocked s) (set_waiting [] ts) (<[t := Outside]> (wake (waiting ts) (at_pc s))))
  | _ => None
  end.

Inductive op := Lock | TryLock | Unlock.
Definition step (t : tid) (o : op) (s : state) : option state :=
  match o with
  | Lock => lock t s
  | TryLock => snd <$> tryLock t s
  | Unlock => unlock t s
  end.

Fixpoint run (l : list (tid * op)) (s : state) : option state :=
  match l with [] => Some s | (t, o) :: l' => s' ← step t o s ; run l' s' end.

Inductive reachable (nm : option string) : state -> Prop :=
  | reach_init : reachable nm (init nm)
  | reach_step s t o s' : reachable nm s -> step t o s = Some s' -> reachable nm s'.

(** The invariant: the flag is set exactly while a task is inside, one task at
    most is inside, and the waiting list holds the tasks that wait, once. *)
Record inv (s : state) : Prop := {
  inv_locked : m_isLocked s = true <-> exists t, at_pc s t = Inside;
  inv_one : forall t u, at_pc s t = Inside -> at_pc s u = Inside -> t = u;
  inv_waiting : forall t, t ∈ waiting (m_taskSync s) <-> at_pc s t = Waiting;
  inv_nodup : NoDup (waiting (m_taskSync s));
}.

Lemma goto_eq t p s : at_pc (goto t p s) t = p.
Proof. apply fn_lookup_insert. Qed.
Lemma goto_ne t u p s : t <> u -> at_pc (goto t p s) u = at_pc s u.
Proof. apply fn_lookup_insert_ne. Qed.

Lemma wake_spec l f t : wake l f t = if decide (t ∈ l) then Acquire else f t.
Proof.
  revert f. induction l as [|u l IH]; intros f; cbn [wake].
  - by rewrite decide_False by set_solver.
  - rewrite IH. destruct (decide (u = t)) as [->|Hu].
    + rewrite fn_lookup_insert. rewrite (decide_True (P := t ∈ t :: l)) by set_solver. by case_decide.
    + rewrite fn_lookup_insert_ne by done. repeat case_decide; set_solver.
Qed.

(** A move of [t] between places that are neither inside nor waiting. *)
Lemma inv_goto t p s : inv s -> at_pc s t <> Inside -> at_pc s t <> Waiting -> p <> Inside -> p <> Waiting ->
  inv (goto t p s).
Proof.
  intros [H1 H2 H3 H4] Hn1 Hn2 Hp1 Hp2.
  assert (Hin : forall q u, q = Inside \/ q = Waiting -> at_pc (goto t p s) u = q <-> at_pc s u = q).
  { intros q u Hq. destruct (decide (t = u)) as [->|]; [|by rewrite goto_ne].
    rewrite goto_eq. destruct Hq as [-> | ->]; split; congruence. }
  split; cbn [m_isLocked m_taskSync goto].
  - rewrite H1. split; intros (u & Hu); exists u; apply (Hin Inside); auto.
  - intros u v Hu Hv. apply H2; apply (Hin Inside); auto.
  - intros u. rewrite H3. symmetry. apply (Hin Waiting). auto.
  - done.
Qed.

Lemma inv_enter t s : inv s -> m_isLocked s = false -> at_pc s t <> Waiting ->
  inv (goto t Inside (mkState true (m_taskSync s) (at_pc s))).
Proof.
  intros [H1 H2 H3 H4] Hl Hw.
  assert (Hno : forall u, at_pc s u <> Inside).
  { intros u Hu. assert (m_isLocked s = true) by (apply H1; eauto). congruence. }
  assert (Hin : forall u, at_pc (goto t Inside (mkState true (m_taskSync s) (at_pc s))) u = Inside -> u = t).
  { intros u. destruct (decide (t = u)) as [->|]; [done|]. rewrite goto_ne by done. intros Hu.
    by apply Hno in Hu. }
  split; cbn [m_isLocked m_taskSync goto].
  - split; [|done]. intros _. exists t. apply goto_eq.
  - intros u v Hu%Hin Hv%Hin. congruence.
  - intros u. rewrite H3. destruct (decide (t = u)) as [->|]; [|by rewrite goto_ne].
    rewrite goto_eq. split; congruence.
  - done.
Qed.

Lemma inv_step t o s s' : inv s -> step t o s = Some s' -> inv s'.
Proof.
  intros Hi. destruct o; cbn [step].
  - unfold lock. destruct (at_pc s t) eqn:Ht; try done.
    + intros [= <-]. apply inv_goto; congruence.
    + destruct (m_isLocked s) eqn:Hl; intros [= <-]; [apply inv_goto; congruence|].
      apply inv_enter; congruence.
    + intros [= <-]. destruct Hi as [H1 H2 H3 H4].
      assert (Hni : t ∉ waiting (m_taskSync s)) by (rewrite H3; congruence).
      set (s1 := mkState _ _ (at_pc s)).
      assert (Hin : forall u, at_pc (goto t Waiting s1) u = Inside <-> at_pc s u = Inside).
      { intros u. destruct (decide (t = u)) as [<-|]; [rewrite goto_eq; split; congruence|].
        by rewrite goto_ne. }
      split; cbn [m_isLocked m_taskSync goto set_waiting waiting s1].
      * rewrite H1. by split; intros (u & Hu); exists u; apply Hin.
      * intros u v Hu%Hin Hv%Hin. by apply H2.
      * intros u. destruct (decide (t = u)) as [<-|]; [rewrite goto_eq; set_solver|].
        rewrite goto_ne by done. cbn. rewrite <- H3. set_solver.
      * apply NoDup_app. split; [done|]. split; [set_solver|apply NoDup_singleton].
  - unfold tryLock. destruct (at_pc s t) eqn:Ht; try done.
    destruct (m_isLocked s) eqn:Hl; cbn; intros [= <-]; [done|]. apply inv_enter; congruence.
  - unfold unlock. destruct (at_pc s t) eqn:Ht; try done.
    + intros [= <-]. destruct Hi as [H1 H2 H3 H4].
      assert (Hno : forall u, at_pc (goto t Cleared (mkState false (m_taskSync s) (at_pc s))) u <> Inside).
      { intros u. destruct (decide (t = u)) as [->|Hne]; [by rewrite goto_eq|].
        rewrite goto_ne by done. cbn. intros Hu. by apply Hne, H2. }
      split; cbn [m_isLocked m_taskSync goto].
      * split; [done|]. intros (u & Hu). by apply Hno in Hu.
      * intros u v Hu. by apply Hno in Hu.
      * intros u. destruct (decide (t = u)) as [->|]; [|by rewrite goto_ne].
        rewrite goto_eq, H3. split; congruence.
      * done.
    + intros [= <-]. destruct Hi as [H1 H2 H3 H4].
      assert (Hin : forall u, <[t := Outside]> (wake (waiting (m_taskSync s)) (at_pc s)) u = Inside <-> at_pc s u = Inside).
      { intros u. destruct (decide (t = u)) as [->|]; [rewrite fn_lookup_insert; split; congruence|].
        rewrite fn_lookup_insert_ne, wake_spec by done. case_decide as Hd; [|done].
        apply H3 in Hd. split; congruence. }
      split; cbn [m_isLocked m_taskSync set_waiting waiting at_pc].
      * rewrite H1. by split; intros (u & Hu); exists u; apply Hin.
      * intros u v Hu%Hin Hv%Hin. by apply H2.
      * intros u. split; [set_solver|]. destruct (decide (t = u)) as [->|]; [by rewrite fn_lookup_insert|].
        rewrite fn_lookup_insert_ne, wake_spec by done. case_decide as Hd; [done|]. rewrite H3 in Hd. done.
      * apply NoDup_nil_2.
Qed.

Lemma inv_init nm : inv (init nm).
Proof.
  split; cbn; [split; [done|by intros (t & Ht)]|done| |apply NoDup_nil_2].
  intros t. split; [set_solver|done].
Qed.

Lemma lock_reachable_inv nm s : reachable nm s -> inv s.
Proof. induction 1; [apply inv_init|by eapply inv_step]. Qed.

Lemma run_reachable nm l s s' : reachable nm s -> run l s = Some s' -> reachable nm s'.
Proof.
  revert s. induction l as [|[t o] l IH]; intros s Hr; cbn [run]; [by intros [= <-]|].
  destruct (step t o s) as [s1|] eqn:E; [|done]. cbn. apply IH. by eapply reach_step.
Qed.

(** C8. Mutual exclusion, under any interleaving of [lock], [tryLock] and
    [unlock]: at most one task is inside, the flag is set exactly while one is,
    and the waiting list is duplicate-free and holds the waiting tasks. *)
Theorem mutual_exclusion nm l s : run l (init nm) = Some s ->
  (forall t u, at_pc s t = Inside -> at_pc s u = Inside -> t = u) /\
  (m_isLocked s = true <-> exists t, at_pc s t = Inside) /\
  NoDup (waiting (m_taskSync s)) /\
  (forall t, t ∈ waiting (m_taskSync s) <-> at_pc s t = Waiting).
Proof.
  intros Hrun. destruct (lock_reachable_inv nm s) as [H1 H2 H3 H4]; [|done].
  by apply (run_reachable _ l (init nm)); [constructor|].
Qed.

Definition contention : list (tid * op) :=
  [(1, Lock); (2, Lock); (1, Lock); (2, Lock); (2, Lock)]%positive.
Lemma mutual_exclusion_witness : exists s, run contention (init (Some "m"%string)) = Some s /\
  m_isLocked s = true /\ (2 ∈ waiting (m_taskSync s))%positive /\ (exists t, at_pc s t = Inside).
Proof.
  destruct (run contention (init (Some "m"%string))) as [s|] eqn:E; [|vm_compute in E; discriminate].
  destruct (mutual_exclusion _ _ _ E) as (_ & Hl & _ & Hw).
  assert (Hlock : m_isLocked <$> run contention (init (Some "m"%string)) = Some true) by (vm_compute; reflexivity).
  assert (Hpc : (fun s => at_pc s 2%positive) <$> run contention (init (Some "m"%string)) = Some Waiting)
    by (vm_compute; reflexivity).
  rewrite E in Hlock, Hpc. injection Hlock as Hlock. injection Hpc as Hpc.
  exists s. split; [done|]. split; [done|]. split; [by apply Hw|by apply Hl].
Defined.

(** The second step of [unlock] makes every waiting task try again. *)
Lemma unlock_wakes s t : inv s -> at_pc s t = Cleared ->
  exists s', unlock t s = Some s' /\ waiting (m_taskSync s') = [] /\
    forall u, at_pc s u = Waiting -> at_pc s' u = Acquire.
Proof.
  intros Hi Ht. unfold unlock. rewrite Ht. eexists. split; [reflexivity|]. split; [done|].
  intros u Hu. cbn. rewrite fn_lookup_insert_ne by congruence. rewrite wake_spec, decide_True; [done|].
  by apply (inv_waiting _ Hi).
Qed.

(** A wake-up can be lost: a task that finds the mutex taken, and is interrupted
    before it calls [tasks_sync_block], waits for ever if the owner unlocks in
    between: the mutex is free, nobody is inside, and nobody will wake it. *)
Definition lost : list (tid * op) :=
  [(1, Lock); (1, Lock); (2, Lock); (2, Lock); (1, Unlock); (1, Unlock); (2, Lock)]%positive.
Theorem wakeup_can_be_lost : exists s, run lost (init None) = Some s /\
  m_isLocked s = false /\ at_pc s 2%positive = Waiting /\ forall t, t <> 2%positive -> at_pc s t = Outside.
Proof.
  eexists. split; [reflexivity|]. split; [done|]. split; [done|]. intros t Ht. cbn.
  rewrite fn_lookup_insert_ne by done. destruct (decide (t = 1%positive)) as [->|Ht1]; [done|].
  repeat rewrite fn_lookup_insert_ne by done. done.
Qed.

(** The name a mutex is given is lost: [tasks_sync_init] comes after it. *)
Lemma constructor_forgets_name nm mem : dbg_name (Mutex nm mem).2 = None.
Proof. done. Qed.

End Mutex.

(** ** Semaphore *)
Module Semaphore.

(** Where a task is.  In [Waits], [Tries] and [Times] it holds the counter value
    [curVal] it has read last, at the head of the loop of [wait], [tryWait] and
    [timeWait]. *)
Inductive pc :=
  | Outside
  | Waits (curVal : Z) | Failed | Blocked | Reload
  | Tries (curVal : Z)
  | Times (curVal : Z)
  | Posted.

(** [acquired] and [posted] count the successful waits and the posts; the code
    does not have them. *)
Record state := mkState {
  m_isShared : bool;
  m_count : Z;
  m_taskSync : task_sync;
  at_pc : tid -> pc;
  acquired : Z;
  posted : Z;
}.

Definition Semaphore (val : Z) (share : bool) (nm : option string) (mem : task_sync) : state :=
  let ts := mkSync (possessor mem) nm (waiting mem) in
  mkState share (u32 val) (tasks_sync_init ts) (fun _ => Outside) 0 0.
Definition init (val : Z) : state := Semaphore val false None (mkSync None None []).

Definition count (s : state) : Z := m_count s.
Definition goto (t : tid) (p : pc) (s : state) : state :=
  mkState (m_isShared s) (m_count s) (m_taskSync s) (<[t := p]> (at_pc s)) (acquired s) (posted s).
Definition set_count (c : Z) (s : state) : state :=
  mkState (m_isShared s) c (m_taskSync s) (at_pc s) (acquired s) (posted s).
Definition set_list (l : list tid) (s : state) : state :=
  mkState (m_isShared s) (m_count s) (set_waiting l (m_taskSync s)) (at_pc s) (acquired s) (posted s).
Definition acquire (s : state) : state :=
  mkState (m_isShared s) (m_count s) (m_taskSync s) (at_pc s) (acquired s + 1) (posted s).
Definition set_posted (s : state) : state :=
  mkState (m_isShared s) (m_count s) (m_taskSync s) (at_pc s) (acquired s) (posted s + 1).

(** [__atomic_compare_exchange_n(&m_count, &curVal, curVal - 1, ...)]: on
    failure [curVal] becomes the value found. *)
Definition COMPARE_EXCHANGE (curVal : Z) (s : state) : bool * Z * state :=
  if m_count s =? curVal then (true, curVal, set_count (u32 (curVal - 1)) s)
  else (false, m_count s, s).

(** The end of a loop [do ... while (!COMPARE_EXCHANGE(curVal))]. *)
Definition exchange (t : tid) (again : Z -> pc) (curVal : Z) (s : state) : state :=
  let '(ok, cur', s') := COMPARE_EXCHANGE curVal s in
  if ok then goto t Outside (acquire s') else goto t (again cur') s'.

Definition wait (t : tid) (s : state) : option state :=
  match at_pc s t with
  | Outside => Some (goto t (Waits (count s)) s)
  | Waits curVal => if curVal =? 0 then Some (goto t Failed s) else Some (exchange t Waits curVal s)
  | Failed => Some (goto t Blocked (set_list (waiting (m_taskSync s) ++ [t]) s))
  | Reload => Some (goto t (Waits (count s)) s)
  | _ => None
  end.

(** [None] in the first component: the call has not returned yet. *)
Definition tryWait (t : tid) (s : state) : option (option bool * state) :=
  match at_pc s t with
  | Outside => Some (None, goto t (Tries (count s)) s)
  | Tries curVal =>
      if curVal =? 0 then Some (Some false, goto t Outside s)
      else Some (if m_count s =? curVal then Some true else None, exchange t Tries curVal s)
  | _ => None
  end.

Definition timeWait (t : tid) (s : state) : option state :=
  match at_pc s t with
  | Outside => Some (goto t (Times (count s)) s)
  | Times curVal =>
      if curVal =? 0 then Some (goto t (Times (count s)) s) else Some (exchange t Times curVal s)
  | _ => None
  end.

Fixpoint wake (l : list tid) (f : tid -> pc) : tid -> pc :=
  match l with [] => f | t :: l' => wake l' (<[t := Reload]> f) end.

Definition post (t : tid) (s : state) : option state :=
  match at_pc s t with
  | Outside => Some (goto t Posted (set_posted (set_count (u32 (m_count s + 1)) s)))
  | Posted =>
      let w := waiting (m_taskSync s) in
      let s := set_list [] s in
      Some (goto t Outside (mkState (m_isShared s) (m_count s) (m_taskSync s) (wake w (at_pc s)) (acquired s) (posted s)))
  | _ => None
  end.

Inductive op := Wait | TryWait | TimeWait | Post.
Definition step (t : tid) (o : op) (s : state) : option state :=
  match o with
  | Wait => wait t s
  | TryWait => snd <$> tryWait t s
  | TimeWait => timeWait t s
  | Post => post t s
  end.
Fixpoint run (l : list (tid * op)) (s : state) : option state :=
  match l with [] => Some s | (t, o) :: l' => s' ← step t o s ; run l' s' end.

(** The counter says how often the semaphore can still be acquired. *)
Definition counted (val : Z) (s : state) : Prop :=
  0 <= posted s /\ 0 <= acquired s /\ (val + posted s < 2 ^ 32 -> m_count s = val + posted s - acquired s /\ 0 <= m_count s).

Lemma exchange_counted val t again cur s : cur <> 0 -> counted val s -> counted val (exchange t again cur s).
Proof.
  intros Hc (Hp & Ha & Hs). unfold exchange, COMPARE_EXCHANGE.
  destruct (Z.eqb_spec (m_count s) cur) as [E|E]; [|done]. split; [done|]. cbn. split; [lia|]. intros Hb.
  destruct (Hs Hb) as [H1 H2]. assert (u32 (cur - 1) = cur - 1) as -> by (unfold_words; apply Z.mod_small; cbn in *; lia).
  cbn in *. lia.
Qed.

Lemma step_counted val t o s s' : 0 <= val -> counted val s -> step t o s = Some s' -> counted val s'.
Proof.
  intros Hv Hs. destruct o; cbn [step].
  - unfold wait. destruct (at_pc s t); try done; try (by intros [= <-]).
    destruct (Z.eqb_spec curVal 0); intros [= <-]; [done|by apply exchange_counted].
  - unfold tryWait. destruct (at_pc s t); try done; cbn; try (by intros [= <-]).
    destruct (Z.eqb_spec curVal 0); cbn; intros [= <-]; [done|by apply exchange_counted].
  - unfold timeWait. destruct (at_pc s t); try done; try (by intros [= <-]).
    destruct (Z.eqb_spec curVal 0); intros [= <-]; [done|by apply exchange_counted].
  - unfold post. destruct (at_pc s t); try done; intros [= <-]; [|done].
    destruct Hs as (Hp & Ha & Hs). unfold counted. cbn. do 2 (split; [lia|]). intros Hb.
    destruct Hs as [H1 H2]; [lia|].
    assert (u32 (m_count s + 1) = m_count s + 1) as -> by (unfold_words; apply Z.mod_small; cbn in *; lia). lia.
Qed.

Lemma run_counted val l s s' : 0 <= val -> counted val s -> run l s = Some s' -> counted val s'.
Proof.
  intros Hv. revert s. induction l as [|[t o] l IH]; intros s Hs; cbn [run]; [by intros [= <-]|].
  destruct (step t o s) as [s1|] eqn:E; [|done]. cbn. apply IH. by eapply step_counted.
Qed.

(** C9. Under any interleaving of [wait], [tryWait], [timeWait] and [post], the
    semaphore has been acquired at most as often as its initial value and the
    posts allow, and its counter is what is left, as long as the counter does
    not overflow. *)
Theorem semaphore_never_oversold val l s : 0 <= val -> val + posted s < 2 ^ 32 ->
  run l (init val) = Some s ->
  m_count s = val + posted s - acquired s /\ acquired s <= val + posted s.
Proof.
  intros Hv Hb Hrun. assert (H0 : counted val (init val)).
  { split; [done|]. split; [done|]. cbn. intros Hlt. unfold_words. rewrite Z.mod_small; lia. }
  destruct (run_counted val l _ _ Hv H0 Hrun) as (_ & _ & Hs). specialize (Hs Hb). lia.
Qed.

(** Two tasks race for the only unit; the loser waits and is woken by a post. *)
Definition race : list (tid * op) := (fun '(t, o) => (Pos.of_nat t, o)) <$>
  [(1, Wait); (2, Wait); (2, Wait); (1, Wait); (1, Wait); (1, Wait); (2, Post); (2, Post); (1, Wait); (1, Wait)]%nat.
Lemma semaphore_never_oversold_witness : exists s, run race (init 1) = Some s /\
  posted s = 1 /\ m_count s = 1 + 1 - acquired s /\ acquired s = 2.
Proof.
  destruct (run race (init 1)) as [s|] eqn:E; [|vm_compute in E; discriminate].
  assert (Hp : posted <$> run race (init 1) = Some 1) by (vm_compute; reflexivity).
  assert (Ha : acquired <$> run race (init 1) = Some 2) by (vm_compute; reflexivity).
  rewrite E in Hp, Ha. injection Hp as Hp. injection Ha as Ha. exists s. split; [done|]. split; [done|].
  destruct (semaphore_never_oversold 1 race s) as [H1 H2]; [lia|rewrite Hp; lia|exact E|].
  rewrite Hp in H1. split; [exact H1|exact Ha].
Defined.

End Semaphore.

(** ** Guards of function-local statics *)
Module CxaGuard.

Record cxaguard := mkGuard { initialized : Z; inuse : Z; guard : Z }.
(** The guard and whether the mutex [cxaGuard] is locked. *)
Record state := mkState { g : cxaguard; locked : bool }.

Definition modify_g (f : cxaguard -> cxaguard) : K state unit := kmodify (fun s => mkState (f (g s)) (locked s)).
(** A task that finds the mutex locked waits: it does not return. *)
Definition lock : K state unit := fun s =>
  if locked s then Stuck else Done (tt, mkState (g s) true).
Definition unlock : K state unit := kmodify (fun s => mkState (g s) false).

Definition cxaGuardSetInitializeHasRun : K state unit := modify_g (fun g => mkGuard 1 (inuse g) (guard g)).
Definition cxaGuardHasInitializerRun : K state bool := kgets (fun s => negb (initialized (g s) =? 0)).
Definition cxaGuardSetInUse : K state unit := modify_g (fun g => mkGuard (initialized g) 1 (guard g)).
Definition cxaGuardSetNotInUse : K state unit := modify_g (fun g => mkGuard (initialized g) 0 (guard g)).
Definition cxaGuardIsInUse : K state bool := kgets (fun s => negb (inuse (g s) =? 0)).

Definition __cxa_guard_acquire : K state Z :=
  b ← cxaGuardHasInitializerRun ;
  if b : bool then mret 0
  else
    lock ;;
    b ← cxaGuardHasInitializerRun ;
    if b : bool then unlock ;; mret 0
    else
      u ← cxaGuardIsInUse ;
      if u : bool then kpanic "[__cxa_guard_acquire] __guard in bad state"
      else cxaGuardSetInUse ;; mret 1.

Definition __cxa_guard_release : K state unit := cxaGuardSetInitializeHasRun ;; unlock.
Definition __cxa_guard_abort : K state unit := unlock ;; cxaGuardSetNotInUse.

(** What the compiler emits around an initialiser; [ok] says whether this run of
    it ends normally.  The result says whether it was run to its end. *)
Definition initialise (ok : bool) : K state bool :=
  r ← __cxa_guard_acquire ;
  if r =? 0 then mret false
  else if ok then __cxa_guard_release ;; mret true else __cxa_guard_abort ;; mret false.
Fixpoint attempts (l : list bool) : K state (list bool) :=
  match l with [] => mret [] | ok :: l' => b ← initialise ok ; r ← attempts l' ; mret (b :: r) end.

Lemma attempts_done u gd l : attempts l (mkState (mkGuard 1 u gd) false)
  = Done (replicate (length l) false, mkState (mkGuard 1 u gd) false).
Proof.
  induction l as [|ok l IH]; [done|]. cbn [attempts length replicate].
  assert (E : initialise ok (mkState (mkGuard 1 u gd) false) = Done (false, mkState (mkGuard 1 u gd) false)) by done.
  by rewrite (run_bind_done _ _ _ _ _ E), (run_bind_done _ _ _ _ _ IH).
Qed.

(** The first attempt whose initialiser ends normally, and no other. *)
Fixpoint first_only (l : list bool) : list bool :=
  match l with [] => [] | true :: l' => true :: replicate (length l') false | false :: l' => false :: first_only l' end.


End CxaGuard.
