(* ===== verification/Physical.v ===== *)
(** * Physical memory (Memory/MemorySection.hpp, MemoryMap.hpp, Physical.hpp)

    The sections of the boot loader's memory map, and the manager of page
    frames over a bitmap in which a set bit is a used frame.  The manager is
    written against the [Bitmap] interface. *)
From S2P Require Import Prelude Words Bitmaps PageTypes.
From Stdlib Require Import ZArith Lia Bool.
From stdpp Require Import base strings numbers list.
#[local] Open Scope Z_scope.

(** ** Sections *)

Inductive Type_ := Available | Reserved | ACPI | NVS | Bad | Bootloader | Kernel | Unknown.
#[export] Instance Type_eq_dec : EqDecision Type_.
Proof. solve_decision. Defined.

Record Section_ := mkSection { m_base : Z; m_size : Z; m_type : Type_ }.
Definition Section_default : Section_ := mkSection 0 0 Unknown.
Definition Section_untyped (base size : Z) : Section_ := mkSection base size Unknown.

Definition base (s : Section_) : Z := m_base s.
Definition size (s : Section_) : Z := m_size s.
Definition end_ (s : Section_) : Z := u32 (m_base s + m_size s).
Definition initialized (s : Section_) : bool := negb (m_base s =? 0) && negb (size s =? 0).
Definition pages (s : Section_) : Z := size s / ARCH_PAGE_SIZE.
Definition type (s : Section_) : Type_ := m_type s.
Definition typeString (s : Section_) : string :=
  match type s with
  | Available => "Available" | Reserved => "Reserved" | ACPI => "ACPI" | NVS => "NVS" | Bad => "Bad"
  | Bootloader => "Bootloader" | Kernel => "Kernel" | Unknown => "Unknown"
  end.
Definition setType (t : Type_) (s : Section_) : Section_ := mkSection (m_base s) (m_size s) t.
Definition empty (s : Section_) : bool := size s =? 0.
Definition contains (s : Section_) (addr : Z) : bool := (end_ s >=? addr) && (addr <=? base s).

(** ** The memory map *)

Definition m_max_sections : Z := 32.
Record MemoryMap := mkMap { m_sections : list Section_ }.
Definition MemoryMap_default : MemoryMap := mkMap (replicate 32 Section_default).
Definition MapCount (m : MemoryMap) : Z := m_max_sections.
(** [Get] and [operator[]]; an index past the array is undefined. *)
Definition Get (m : MemoryMap) (idx : Z) : outcome Section_ :=
  if idx <? 0 then Fault else
  match m_sections m !! Z.to_nat idx with Some s => Done s | None => Fault end.
(** Assignment through the reference that [Get] or [operator[]] returns. *)
Definition Put (idx : Z) (s : Section_) : K MemoryMap unit := fun m =>
  if idx <? 0 then Fault else
  match m_sections m !! Z.to_nat idx with
  | Some _ => Done (tt, mkMap (<[Z.to_nat idx := s]> (m_sections m)))
  | None => Fault
  end.

(** ** The manager of page frames *)
Module Manager.

Definition npos : Z := SIZE_MAX.

Section manager.
Context {B : Type} `{Bitmap B}.

Definition setFree (addr : Z) : K B unit := bm_Clear (ADDRESS_TO_PAGE_IDX addr).
Definition setUsed (addr : Z) : K B unit := bm_Set (ADDRESS_TO_PAGE_IDX addr).

Definition setFree_section (sect : Section_) : K B unit :=
  kfor (Z.to_nat (pages sect)) 0 1 (fun i => setFree (u32 (base sect + u32 (i * ARCH_PAGE_SIZE)))).
(** The frame index it passes is taken for an address. *)
Definition setUsed_section (sect : Section_) : K B unit :=
  kfor (Z.to_nat (pages sect)) 0 1 (fun i => setUsed (u32 (ADDRESS_TO_PAGE_IDX (base sect) + i))).

Definition isFree (b : B) (addr : Z) : outcome bool :=
  t ← bm_Test b (ADDRESS_TO_PAGE_IDX addr) ; Done (negb t).
(** The negation binds tighter than the addition of the offset. *)
Definition isFree_section (b : B) (sect : Section_) : outcome bool :=
  r ← search (Z.to_nat (pages sect)) 0 (fun i =>
        f ← isFree b (base sect) ;
        Done (if u32 (Z.b2z (negb f) + u32 (i * ARCH_PAGE_SIZE)) =? 0 then None else Some false)) ;
  Done (match r with Some v => v | None => true end).

Definition findNextFreePhysicalAddress (b : B) : outcome Z := bm_FindFirstBit b false.

Definition getPage : K B Z :=
  pAddr ← kread findNextFreePhysicalAddress ;
  if pAddr =? npos then kpanic "Out of memory!" else
  setUsed (PAGE_IDX_TO_ADDRESS pAddr) ;;
  mret (PAGE_IDX_TO_ADDRESS pAddr).

Definition freePage (physAddr : Z) : K B unit := setFree physAddr.

(** [initialize], without its counters of megabytes for the log. *)
Definition initialize (map : MemoryMap) : K B unit :=
  kfor (Z.to_nat (MapCount map)) 0 1 (fun i =>
    section ← kread (fun _ => Get map i) ;
    kwhen (initialized section && bool_decide (type section = Available)) (setFree_section section)).

(** *** Specifications *)

(** The manager works on all frames of the address space. *)
Hypothesis Hsize : bm_size = MEM_BITMAP_SIZE.

(** Frame [i] is free. *)
Definition free (b : B) (i : Z) : Prop := bm_bit b i = false.

Lemma frame_of_address addr : in_u32 addr -> 0 <= ADDRESS_TO_PAGE_IDX addr < bm_size.
Proof.
  intros Ha. rewrite Hsize. unfold ADDRESS_TO_PAGE_IDX, ARCH_PAGE_SIZE, in_u32 in *.
  change MEM_BITMAP_SIZE with 1048576. split; [apply Z.div_pos; lia|]. apply Z.div_lt_upper_bound; lia.
Qed.

Lemma address_of_frame i : 0 <= i < bm_size -> PAGE_IDX_TO_ADDRESS i = i * 4096 /\
  in_u32 (i * 4096) /\ ADDRESS_TO_PAGE_IDX (PAGE_IDX_TO_ADDRESS i) = i.
Proof.
  intros Hi. rewrite Hsize in Hi. change MEM_BITMAP_SIZE with 1048576 in Hi.
  assert (E : PAGE_IDX_TO_ADDRESS i = i * 4096).
  { unfold PAGE_IDX_TO_ADDRESS, ARCH_PAGE_SIZE. apply u32_small. unfold in_u32. lia. }
  split; [done|]. split; [unfold in_u32; lia|]. rewrite E. unfold ADDRESS_TO_PAGE_IDX, ARCH_PAGE_SIZE.
  by rewrite Z.div_mul.
Qed.

Lemma getPage_spec b : bm_ok b ->
  (exists i b', 0 <= i < bm_size /\ getPage b = Done (PAGE_IDX_TO_ADDRESS i, b') /\ bm_ok b' /\
     free b i /\ (forall j, 0 <= j < i -> ~ free b j) /\
     forall j, 0 <= j < bm_size -> free b' j <-> free b j /\ j <> i) \/
  ((forall j, 0 <= j < bm_size -> ~ free b j) /\ getPage b = Panic "Out of memory!").
Proof.
  intros Hb. pose proof bm_size_range as Hr. unfold getPage.
  destruct (bm_FindFirstBit_spec b false Hb) as (r & E & Hres).
  rewrite (run_bind_done _ _ b r b) by (unfold kread, findNextFreePhysicalAddress; by rewrite E).
  destruct Hres as [(Hri & Hbit & Hmin)|(-> & Hall)].
  - left. exists r. destruct (address_of_frame r Hri) as (Ea & Hau & Eb).
    destruct (bm_Set_spec b r Hb Hri) as (b' & Es & Hb' & Hbits). exists b'. split; [done|].
    destruct (Z.eqb_spec r npos) as [->|]; [unfold npos, SIZE_MAX in Hri; rewrite Hsize in Hri;
      change MEM_BITMAP_SIZE with 1048576 in Hri; lia|].
    split; [|split; [done|split; [done|split]]].
    + unfold setUsed. rewrite Eb. rewrite (run_bind_done _ _ _ _ _ Es). done.
    + intros j Hj. unfold free. rewrite Hmin by done. done.
    + intros j Hj. unfold free. rewrite Hbits by done. destruct (Z.eqb_spec j r); cbn; naive_solver.
  - right. split; [|done]. intros j Hj. unfold free. by rewrite Hall.
Qed.

Lemma freePage_spec b addr : bm_ok b -> in_u32 addr ->
  exists b', freePage addr b = Done (tt, b') /\ bm_ok b' /\
    forall j, 0 <= j < bm_size -> free b' j <-> free b j \/ j = ADDRESS_TO_PAGE_IDX addr.
Proof.
  intros Hb Ha. destruct (bm_Clear_spec b _ Hb (frame_of_address addr Ha)) as (b' & E & Hb' & Hbits).
  exists b'. split; [done|]. split; [done|]. intros j Hj. unfold free. rewrite Hbits by done.
  destruct (Z.eqb_spec j (ADDRESS_TO_PAGE_IDX addr)); cbn; naive_solver.
Qed.

(** The frames of a section. *)
Definition frames (s : Section_) (i : Z) : Prop :=
  base s / ARCH_PAGE_SIZE <= i < base s / ARCH_PAGE_SIZE + pages s.
(** A section within the address space. *)
Definition section_ok (s : Section_) : Prop := in_u32 (base s) /\ in_u32 (size s) /\ base s + size s <= 2 ^ 32.

Lemma setFree_section_spec b s : bm_ok b -> section_ok s ->
  exists b', setFree_section s b = Done (tt, b') /\ bm_ok b' /\
    forall j, 0 <= j < bm_size -> free b' j <-> free b j \/ frames s j.
Proof.
  intros Hb (H1 & H2 & H3). unfold setFree_section.
  assert (Hp : 0 <= pages s) by (apply Z.div_pos; [apply H2|done]).
  set (I := fun k b' => bm_ok b' /\ forall j, 0 <= j < bm_size ->
    free b' j <-> free b j \/ base s / 4096 <= j < base s / 4096 + k).
  destruct (kfor_inv I (Z.to_nat (pages s)) 0 1
    (fun i => setFree (u32 (base s + u32 (i * ARCH_PAGE_SIZE)))) b) as (b' & E & Hb' & Hf).
  - split; [done|]. intros j Hj. split; [by left|]. intros [?|?]; [done|lia].
  - intros k b' Hk [Hb' Hf]. rewrite Z2Nat.id in Hk by done.
    assert (Hks : (k + 1) * 4096 <= size s).
    { unfold pages, ARCH_PAGE_SIZE in Hk. pose proof (Z.div_mod (size s) 4096). pose proof (Z.mod_pos_bound (size s) 4096). lia. }
    unfold in_u32 in *. replace (0 + k * 1) with k by lia. unfold ARCH_PAGE_SIZE.
    rewrite (u32_small (k * 4096)) by (unfold in_u32; lia). rewrite u32_small by (unfold in_u32; lia).
    assert (Hidx : ADDRESS_TO_PAGE_IDX (base s + k * 4096) = base s / 4096 + k).
    { unfold ADDRESS_TO_PAGE_IDX, ARCH_PAGE_SIZE. by rewrite Z.div_add by lia. }
    destruct (bm_Clear_spec b' (base s / 4096 + k) Hb') as (b'' & E & Hb'' & Hbits).
    { rewrite <- Hidx. apply frame_of_address. unfold in_u32. lia. }
    exists b''. split; [unfold setFree; by rewrite Hidx|]. split; [done|]. intros j Hj.
    replace (0 + (k + 1) * 1) with (k + 1) by lia. unfold free. rewrite Hbits by done.
    specialize (Hf j Hj). replace (0 + k * 1) with k in Hf by lia. unfold free in Hf.
    destruct (Z.eqb_spec j (base s / 4096 + k)) as [->|]; cbn [negb andb].
    + split; [right; lia|done].
    + rewrite Hf. split; (intros [?|?]; [by left|right; lia]).
  - exists b'. split; [done|]. split; [done|]. intros j Hj. rewrite Hf by done.
    rewrite Z2Nat.id by done. unfold frames, ARCH_PAGE_SIZE. by replace (0 + pages s * 1) with (pages s) by lia.
Qed.

(** The frames the boot loader says are available. *)
Definition usable (map : MemoryMap) (n : Z) (i : Z) : Prop :=
  exists k s, 0 <= k < n /\ m_sections map !! Z.to_nat k = Some s /\ initialized s = true /\
    type s = Available /\ frames s i.

Lemma initialize_spec b map : bm_ok b -> length (m_sections map) = 32%nat ->
  (forall s, s ∈ m_sections map -> section_ok s) ->
  exists b', initialize map b = Done (tt, b') /\ bm_ok b' /\
    forall j, 0 <= j < bm_size -> free b' j <-> free b j \/ usable map 32 j.
Proof.
  intros Hb Hlen Hok. unfold initialize.
  set (I := fun n b' => bm_ok b' /\ forall j, 0 <= j < bm_size -> free b' j <-> free b j \/ usable map n j).
  destruct (kfor_inv I (Z.to_nat (MapCount map)) 0 1 (fun i =>
    section ← kread (fun _ => Get map i) ;
    kwhen (initialized section && bool_decide (type section = Available)) (setFree_section section)) b)
    as (b' & E & Hb' & Hf).
  - split; [done|]. intros j Hj. split; [by left|]. intros [?|(k & s & Hk & _)]; [done|lia].
  - intros k b' Hk [Hb' Hf]. change (Z.of_nat (Z.to_nat (MapCount map))) with 32 in Hk.
    replace (0 + k * 1) with k in * by lia. replace (0 + (k + 1) * 1) with (k + 1) by lia.
    destruct (lookup_lt_is_Some_2 (m_sections map) (Z.to_nat k)) as [s Hs]; [rewrite Hlen; lia|].
    assert (Hget : kread (fun _ : B => Get map k) b' = Done (s, b')).
    { unfold kread, Get. destruct (Z.ltb_spec k 0); [lia|]. by rewrite Hs. }
    rewrite (run_bind_done _ _ _ _ _ Hget).
    assert (Hadd : forall j, usable map (k + 1) j <->
      usable map k j \/ (initialized s = true /\ type s = Available /\ frames s j)).
    { intros j. split.
      - intros (k' & s' & Hk' & Hs' & Hi & Ht & Hfr). destruct (decide (k' = k)) as [->|].
        + right. by simplify_eq.
        + left. exists k', s'. split; [lia|done].
      - intros [(k' & s' & Hk' & ?)|?]; [exists k', s'|exists k, s]; (split; [lia|done]). }
    destruct (initialized s && bool_decide (type s = Available)) eqn:Hc; cbn [kwhen].
    + apply andb_true_iff in Hc as [Hi Ht%bool_decide_eq_true].
      destruct (setFree_section_spec b' s Hb') as (b'' & E & Hb'' & Hfr).
      { apply Hok. by eapply list_elem_of_lookup_2. }
      exists b''. split; [done|]. split; [done|]. intros j Hj. rewrite Hfr, Hf, Hadd by done. tauto.
    + exists b'. split; [done|]. split; [done|]. intros j Hj. rewrite Hf, Hadd by done.
      apply andb_false_iff in Hc. rewrite bool_decide_eq_false in Hc. intuition congruence.
  - exists b'. split; [done|]. split; [done|]. exact Hf.
Qed.

Lemma usable_all map j : length (m_sections map) = 32%nat ->
  usable map 32 j <-> exists s, s ∈ m_sections map /\ initialized s = true /\ type s = Available /\ frames s j.
Proof.
  intros Hlen. split.
  - intros (k & s & Hk & Hs & ?). exists s. split; [|done]. by eapply list_elem_of_lookup_2.
  - intros (s & Hs & ?). apply list_elem_of_lookup in Hs as [k Hk]. exists (Z.of_nat k), s.
    rewrite Nat2Z.id. split; [|done]. apply lookup_lt_Some in Hk. lia.
Qed.

(** [setUsed] of a section divides the base by the page size twice: of a
    section at 1 MiB it marks frame 0, and leaves the section's own frame free. *)
Lemma setUsed_section_wrong_frame b : bm_ok b -> free b 256 ->
  exists b', setUsed_section (mkSection 0x100000 0x1000 Reserved) b = Done (tt, b') /\
    ~ free b' 0 /\ free b' 256.
Proof.
  intros Hb Hf. assert (Hr : bm_size = 1048576) by (by rewrite Hsize).
  destruct (bm_Set_spec b 0 Hb) as (b' & E & _ & Hbits); [lia|]. exists b'. split; [|split].
  - unfold setUsed_section. change (Z.to_nat (pages _)) with 1%nat. cbn [kfor].
    change (setUsed _) with (bm_Set 0 : K B unit). by rewrite (run_bind_done _ _ _ _ _ E).
  - unfold free. rewrite Hbits by lia. done.
  - unfold free. by rewrite Hbits by lia.
Qed.

End manager.

(** [initialize] frees exactly the frames of the initialised sections that
    the boot loader calls available; every other frame stays reserved. *)
Theorem initialize_frees_available {B} `{Bitmap B} (b : B) (map : MemoryMap) :
  bm_size = MEM_BITMAP_SIZE -> bm_ok b -> (forall j, 0 <= j < bm_size -> ~ free b j) ->
  length (m_sections map) = 32%nat -> (forall s, s ∈ m_sections map -> section_ok s) ->
  exists b', initialize map b = Done (tt, b') /\ bm_ok b' /\
    forall j, 0 <= j < bm_size ->
      free b' j <-> exists s, s ∈ m_sections map /\ initialized s = true /\ type s = Available /\ frames s j.
Proof.
  intros Hsz Hb Hall Hlen Hok. destruct (initialize_spec Hsz b map Hb Hlen Hok) as (b' & E & Hb' & Hf).
  exists b'. do 2 (split; [done|]). intros j Hj. rewrite Hf, usable_all by done.
  specialize (Hall j Hj). tauto.
Qed.

(** [getPage] hands out the lowest free frame, as an address, and marks
    that frame and no other; it panics exactly if no frame is free.  A frame
    given back by [freePage] is free again, and nothing else changes. *)
Theorem getPage_lowest_free {B} `{Bitmap B} (b : B) : bm_size = MEM_BITMAP_SIZE -> bm_ok b ->
  ((forall j, 0 <= j < bm_size -> ~ free b j) /\ getPage b = Panic "Out of memory!") \/
  exists i b', 0 <= i < bm_size /\ getPage b = Done (PAGE_IDX_TO_ADDRESS i, b') /\ bm_ok b' /\
    free b i /\ (forall j, 0 <= j < i -> ~ free b j) /\
    (forall j, 0 <= j < bm_size -> free b' j <-> free b j /\ j <> i) /\
    exists b'', freePage (PAGE_IDX_TO_ADDRESS i) b' = Done (tt, b'') /\
      forall j, 0 <= j < bm_size -> free b'' j <-> free b j.
Proof.
  intros Hsz Hb. destruct (getPage_spec Hsz b Hb) as [(i & b' & Hi & E & Hb' & Hfi & Hmin & Hf)|[]]; [right|by left].
  exists i, b'. do 6 (split; [done|]). destruct (address_of_frame Hsz i Hi) as (Ea & Hau & Eb).
  destruct (freePage_spec Hsz b' (PAGE_IDX_TO_ADDRESS i) Hb') as (b'' & E' & _ & Hf'); [by rewrite Ea|].
  exists b''. split; [done|]. intros j Hj. rewrite Hf', Hf, Eb by done.
  destruct (decide (j = i)) as [->|]; tauto.
Qed.

(** The object the kernel has: all frames reserved. *)
Lemma frames_range : 32 <= MEM_BITMAP_SIZE < 2 ^ 32.
Proof. by split. Qed.
#[export] Instance frame_bitmap : Bitmap (Bitset.Bitset MEM_BITMAP_SIZE) := bitset_bitmap MEM_BITMAP_SIZE frames_range.
Definition Manager : Bitset.Bitset MEM_BITMAP_SIZE := Bitset.Bitset_init true 0.

Lemma frame_size : bm_size = MEM_BITMAP_SIZE.
Proof. exact (eq_refl MEM_BITMAP_SIZE). Qed.
Lemma Manager_ok : bm_ok Manager.
Proof. apply Bitset.wf_init; [exact frames_range|reflexivity|by split]. Qed.
Lemma Manager_reserved j : 0 <= j < MEM_BITMAP_SIZE -> ~ free Manager j.
Proof.
  intros Hj. unfold free, bm_bit, frame_bitmap, bitset_bitmap, Manager.
  rewrite Bitset.bit_init by done. done.
Qed.

Definition demo_sections : MemoryMap := mkMap
  ([mkSection 0x100000 0x300000 Available; mkSection 0xF0000000 0x1000 Reserved] ++ replicate 30 Section_default).
Lemma demo_sections_ok s : s ∈ m_sections demo_sections -> section_ok s.
Proof.
  intros Hs. unfold demo_sections, m_sections in Hs. cbn [app] in Hs. rewrite !elem_of_cons, elem_of_replicate in Hs.
  destruct Hs as [-> | [-> | [-> _]]]; unfold section_ok, in_u32; cbn; lia.
Qed.

Lemma initialize_frees_available_witness : exists b', initialize demo_sections Manager = Done (tt, b') /\
  free b' 256 /\ ~ free b' 255.
Proof.
  destruct (initialize_frees_available Manager demo_sections frame_size Manager_ok Manager_reserved eq_refl
    demo_sections_ok) as (b' & E & _ & Hf).
  exists b'. split; [exact E|]. assert (Hsz : bm_size = 1048576) by (rewrite frame_size; reflexivity). split.
  - apply Hf; [lia|]. exists (mkSection 0x100000 0x300000 Available). split; [by left|].
    split; [reflexivity|]. split; [reflexivity|]. unfold frames. cbn. split; vm_compute; done.
  - rewrite Hf by lia. intros (s & Hs & Hi & Ht & Hfr). unfold demo_sections, m_sections in Hs. cbn [app] in Hs.
    rewrite !elem_of_cons, elem_of_replicate in Hs.
    destruct Hs as [-> | [-> | [-> _]]]; [unfold frames, pages in Hfr; change (base _ / ARCH_PAGE_SIZE) with 256 in Hfr; lia|discriminate Ht|discriminate Hi].
Defined.

Lemma getPage_lowest_free_witness : exists b0 b', freePage 0x5000 Manager = Done (tt, b0) /\
  getPage b0 = Done (0x5000, b') /\ ~ free b' 5.
Proof.
  assert (Hsz : bm_size = 1048576) by (rewrite frame_size; reflexivity).
  destruct (freePage_spec frame_size Manager 0x5000 Manager_ok) as (b0 & E0 & Hb0 & Hf0); [unfold in_u32; lia|].
  assert (H5 : free b0 5) by (apply Hf0; [lia|by right]).
  assert (Honly : forall j, 0 <= j < bm_size -> free b0 j -> j = 5).
  { intros j Hj Hf. apply Hf0 in Hf as [Hf|Hf]; [|exact Hf|done]. exfalso. revert Hf. apply Manager_reserved.
    by rewrite <- frame_size. }
  destruct (getPage_lowest_free b0 frame_size Hb0) as [[Hnone _]|(i & b' & Hi & E & _ & Hfi & _ & Hf & _)].
  - exfalso. apply (Hnone 5); [lia|done].
  - assert (i = 5) as -> by (by apply Honly). exists b0, b'. split; [exact E0|]. split; [exact E|].
    rewrite Hf by lia. by intros [_ ?].
Defined.
End Manager.
