(* ===== verification/Paging.v ===== *)
(** * Kernel paging (Memory/paging.cpp, and the heap's hooks of Memory/heap.cpp)

    The kernel's page tables, the bitmap of virtual pages and the physical
    manager, and the functions that map, allocate and free kernel pages.  The
    two bitmaps are used through the [Bitmap] interface. *)
From S2P Require Import Prelude Words Bitmaps PageTypes Physical.
From Stdlib Require Import ZArith Lia Bool.
From stdpp Require Import base strings numbers functions list.
#[local] Open Scope Z_scope.

(** The addresses the linker gives to the kernel image. *)
Class KernelImage := {
  KERNEL_BASE : Z; KERNEL_START : Z; KERNEL_END : Z; KERNEL_SIZE : Z;
  EARLY_MEM_START : Z; EARLY_KERNEL_START : Z;
  addr_pageDirectory : Z;   (* &pageDirectory *)
  addr_pageTables : Z;      (* pageTables *)
}.

Section paging.
Context {B : Type} {HB : Bitmap B} {HK : KernelImage}.

(** [entries] is [pageTables], by the index of the virtual page: entry [j] of
    table [i] is [entries (1024 * i + j)]. *)
Record paging := mkPaging {
  pagingLock : bool;
  virtualMemoryBitset : B;
  physical : B;
  pageDirectory : Z -> DirectoryEntry;
  entries : Z -> TableEntry;
  cr3 : Z;
  cr0 : Z;
  invalidated : list Z;   (* the addresses passed to invlpg, last first *)
}.

Definition set_lock v p := mkPaging v (virtualMemoryBitset p) (physical p) (pageDirectory p) (entries p) (cr3 p) (cr0 p) (invalidated p).
Definition set_virtual v p := mkPaging (pagingLock p) v (physical p) (pageDirectory p) (entries p) (cr3 p) (cr0 p) (invalidated p).
Definition set_physical v p := mkPaging (pagingLock p) (virtualMemoryBitset p) v (pageDirectory p) (entries p) (cr3 p) (cr0 p) (invalidated p).
Definition set_directory i v p := mkPaging (pagingLock p) (virtualMemoryBitset p) (physical p) (<[i := v]> (pageDirectory p)) (entries p) (cr3 p) (cr0 p) (invalidated p).
Definition set_entry i v p := mkPaging (pagingLock p) (virtualMemoryBitset p) (physical p) (pageDirectory p) (<[i := v]> (entries p)) (cr3 p) (cr0 p) (invalidated p).

Definition set_cr0 v p := mkPaging (pagingLock p) (virtualMemoryBitset p) (physical p) (pageDirectory p) (entries p) (cr3 p) v (invalidated p).

Definition onvirt {A} (m : K B A) : K paging A := kzoom virtualMemoryBitset set_virtual m.
Definition onphys {A} (m : K B A) : K paging A := kzoom physical set_physical m.
(** [KADDR_TO_PHYS]. *)
Definition KADDR_TO_PHYS (addr : Z) : Z := u32 (addr - KERNEL_BASE).

(** [RAIIMutex lock(pagingLock)]: a caller that finds it taken waits. *)
Definition lock : K paging unit := fun p => if pagingLock p then Stuck else Done (tt, set_lock true p).
Definition unlock : K paging unit := kmodify (set_lock false).

Definition mapKernelPageTable (idx table : Z) : K paging unit :=
  kmodify (set_directory idx (mkDirectoryEntry 1 1 0 0 0 0 0 0 0
    (Z.shiftr (KADDR_TO_PHYS table) ARCH_PAGE_TABLE_ENTRY_SHIFT mod 2 ^ 20))).

(** The address of [pageTables[i]]. *)
Definition table_address (i : Z) : Z := u32 (addr_pageTables + i * 4096).

Definition initDirectory : K paging unit :=
  kfor (Z.to_nat (ARCH_PAGE_DIR_ENTRIES - 1)) 0 1 (fun i =>
    mapKernelPageTable i (table_address i) ;;
    kfor (Z.to_nat ARCH_PAGE_TABLE_ENTRIES) 0 1 (fun j =>
      kmodify (set_entry (i * ARCH_PAGE_TABLE_ENTRIES + j) zero_entry))).

Definition mapKernelPage (vaddr paddr : Z) : K paging unit :=
  let pde := dirIndex (virtualAddress vaddr) in
  let pte := tableIndex (virtualAddress vaddr) in
  let idx := pde * ARCH_PAGE_TABLE_ENTRIES + pte in
  if negb (offset (virtualAddress vaddr) =? 0)
  then kpanic "Attempted to map a non-page-aligned virtual address."
  else
    entry ← kgets (fun p => entries p idx) ;
    if negb (present entry =? 0) then
      if pageAddr entry =? p_pageAddr (page paddr) then mret tt
      else kpanic "Attempted to map already mapped page."
    else
      kmodify (set_entry idx (mkTableEntry 1 1 0 0 0 0 0 0 0 0 (p_pageAddr (page paddr)))) ;;
      onphys (Manager.setUsed paddr) ;;
      onvirt (bm_Set (p_pageAddr (page vaddr))).

(** [for (a = base; a < end; a += ARCH_PAGE_SIZE)]; the fuel is the number of
    rounds. *)
Fixpoint range_loop (fuel : nat) (a stop : Z) (body : Z -> K paging unit) : K paging unit :=
  if a <? stop then
    match fuel with
    | O => kstuck
    | S fuel' => body a ;; range_loop fuel' (address_add a ARCH_PAGE_SIZE) stop body
    end
  else mret tt.
Definition range_fuel (sect : Section_) : nat := Z.to_nat (B_TO_PAGES (Physical.size sect)).

Definition mapKernelRangeVirtual (sect : Section_) : K paging unit :=
  range_loop (range_fuel sect) (base sect) (end_ sect) (fun a => mapKernelPage a a).
Definition mapKernelRangePhysical (sect : Section_) : K paging unit :=
  range_loop (range_fuel sect) (base sect) (end_ sect) (fun a => mapKernelPage a (KADDR_TO_PHYS a)).

Definition mapEarlyMem : K paging unit :=
  mapKernelRangeVirtual (Section_untyped EARLY_MEM_START (u32 (EARLY_KERNEL_START - EARLY_MEM_START))).
Definition mapKernel : K paging unit :=
  mapKernelRangePhysical (Section_untyped (pageAlign KERNEL_START) (pageAlignUp KERNEL_SIZE)).

Definition setPageDirectory (a : Z) : K paging unit := kmodify (fun p =>
  mkPaging (pagingLock p) (virtualMemoryBitset p) (physical p) (pageDirectory p) (entries p) a (cr0 p) (invalidated p)).
Definition readCR0 : K paging Registers.CR0 := kgets (fun p => Registers.word_CR0 (cr0 p)).
Definition writeCR0 (x : Registers.CR0) : K paging unit := kmodify (set_cr0 (Registers.CR0_word x)).
Definition pagingEnable : K paging unit :=
  cr0 ← readCR0 ; writeCR0 (Registers.set_pagingEnable 1 cr0).
Definition pagingDisable : K paging unit :=
  cr0 ← readCR0 ; writeCR0 (Registers.set_pagingEnable 0 cr0).
Definition pageInvalidate (virtAddr : Z) : K paging unit := kmodify (fun p =>
  mkPaging (pagingLock p) (virtualMemoryBitset p) (physical p) (pageDirectory p) (entries p) (cr3 p) (cr0 p) (virtAddr :: invalidated p)).

Definition init : K paging unit :=
  initDirectory ;;
  mapEarlyMem ;;
  mapKernel ;;
  setPageDirectory (pageAlign (KADDR_TO_PHYS addr_pageDirectory)) ;;
  pagingEnable.

Definition findNextFreeVirtualAddress (seq : Z) : K paging Z :=
  onvirt (kread (fun b => bm_FindFirstRange b seq false)).

(** The loop of [newPage]; [false] is its early [return NULL]. *)
Fixpoint map_frames (n : nat) (i : Z) : K paging bool :=
  match n with
  | O => mret true
  | S n' =>
      phys_page_idx ← onphys (kread Manager.findNextFreePhysicalAddress) ;
      if phys_page_idx =? Manager.npos then mret false
      else
        mapKernelPage (u32 (i * ARCH_PAGE_SIZE)) (u32 (phys_page_idx * ARCH_PAGE_SIZE)) ;;
        map_frames n' (i + 1)
  end.

(** 0 is NULL. *)
Definition newPage (size : Z) : K paging Z :=
  lock ;;
  let page_count := PAGE_COUNT size in
  free_idx ← findNextFreeVirtualAddress page_count ;
  if free_idx =? SIZE_MAX then unlock ;; mret 0
  else
    ok ← map_frames (Z.to_nat page_count) free_idx ;
    unlock ;;
    mret (if ok : bool then u32 (free_idx * ARCH_PAGE_SIZE) else 0).

Definition newPageMustSucceed (size : Z) : K paging Z :=
  addr ← newPage size ;
  if addr =? 0 then kpanic "Failed to get new page!" else mret addr.

Definition freePage (pg size : Z) : K paging unit :=
  lock ;;
  let page_count := PAGE_COUNT size in
  let first := tableIndex (virtualAddress pg) in
  kfor (Z.to_nat page_count) first 1 (fun i =>
    onvirt (bm_Clear i) ;;
    (if i / ARCH_PAGE_TABLE_ENTRIES <? ARCH_PAGE_DIR_ENTRIES then mret tt else kfault) ;;
    pte ← kgets (fun p => entries p i) ;
    onphys (Manager.setFree (pageAddr pte)) ;;
    kmodify (set_entry i zero_entry) ;;
    pageInvalidate pg) ;;
  unlock.

Definition isPresent (addr : Z) : K paging bool :=
  onvirt (kread (fun b => bm_Test b (Z.shiftr addr ARCH_PAGE_TABLE_ENTRY_SHIFT))).
Definition getPageDirPhysAddr : Z := KADDR_TO_PHYS addr_pageDirectory.

(** The hooks of the allocator in Memory/heap.cpp; an [unsigned int] wraps. *)
Definition liballoc_alloc (count : Z) : K paging Z := newPageMustSucceed (u32 (count * ARCH_PAGE_SIZE - 1)).
Definition liballoc_free (pg count : Z) : K paging Z :=
  freePage pg (u32 (count * ARCH_PAGE_SIZE - 1)) ;; mret 0.

(** Paging is on if bit 31 is set. *)
Definition paging_on (p : paging) : bool := Z.testbit (cr0 p) 31.

(** The two switches change this bit and no other. *)
Lemma pagingEnable_run p : pagingEnable p = Done (tt, set_cr0 (cr0 p mod 2 ^ 31 + 2 ^ 31) p).
Proof. unfold pagingEnable, readCR0, writeCR0, kgets, kmodify. krun. by rewrite Registers.set_pagingEnable_word. Qed.
Lemma pagingDisable_run p : pagingDisable p = Done (tt, set_cr0 (cr0 p mod 2 ^ 31) p).
Proof. unfold pagingDisable, readCR0, writeCR0, kgets, kmodify. krun. rewrite Registers.set_pagingEnable_word. by rewrite Z.add_0_r. Qed.
Lemma paging_switched p x : paging_on (set_cr0 (x mod 2 ^ 31 + 2 ^ 31) p) = true /\ paging_on (set_cr0 (x mod 2 ^ 31) p) = false.
Proof.
  unfold paging_on. cbn [cr0 set_cr0]. pose proof (Z.mod_pos_bound x (2 ^ 31) ltac:(lia)) as Hm.
  rewrite !Z.testbit_odd, !Z.shiftr_div_pow2 by lia. rewrite <- (Z.mul_1_l (2 ^ 31)) at 2.
  rewrite Z.div_add, Z.div_small by lia. done.
Qed.

(** ** The invariant *)

Definition vpage (i : Z) : Prop := 0 <= i < MEM_BITMAP_SIZE.
Definition mapped (p : paging) (i : Z) : Prop := present (entries p i) <> 0.
Definition frame (p : paging) (i : Z) : Z := pageAddr (entries p i).

(** The bitmaps agree with the page tables. *)
Record inv (p : paging) : Prop := {
  inv_virtual_ok : bm_ok (virtualMemoryBitset p);
  inv_physical_ok : bm_ok (physical p);
  inv_bit : forall i, vpage i -> bm_bit (virtualMemoryBitset p) i = true <-> mapped p i;
  inv_frame : forall i, vpage i -> mapped p i -> 0 <= frame p i < MEM_BITMAP_SIZE;
  inv_used : forall i, vpage i -> mapped p i -> bm_bit (physical p) (frame p i) = true;
}.

Hypothesis Hsize : bm_size = MEM_BITMAP_SIZE.

Lemma size_eq : MEM_BITMAP_SIZE = 1048576.
Proof. done. Qed.
Lemma bm_size_eq : bm_size = 1048576.
Proof. by rewrite Hsize. Qed.

Lemma page_index vaddr : in_u32 vaddr ->
  dirIndex (virtualAddress vaddr) * ARCH_PAGE_TABLE_ENTRIES + tableIndex (virtualAddress vaddr) = vaddr / 4096 /\
  p_pageAddr (page vaddr) = vaddr / 4096 /\ offset (virtualAddress vaddr) = vaddr mod 4096 /\ vpage (vaddr / 4096).
Proof.
  intros Hv. rewrite virtualAddress_eq, page_eq by done. cbn. unfold ARCH_PAGE_TABLE_ENTRIES.
  split; [|split; [done|split; [done|]]].
  - replace 4194304 with (4096 * 1024) by lia. rewrite <- Z.div_div by lia.
    pose proof (Z.div_mod (vaddr / 4096) 1024). lia.
  - unfold vpage. rewrite size_eq. unfold in_u32 in Hv. split; [apply Z.div_pos; lia|].
    apply Z.div_lt_upper_bound; lia.
Qed.

Lemma onvirt_run {A} (m : K B A) p x b : m (virtualMemoryBitset p) = Done (x, b) ->
  onvirt m p = Done (x, set_virtual b p).
Proof. intros E. unfold onvirt, kzoom. by rewrite E. Qed.
Lemma onphys_run {A} (m : K B A) p x b : m (physical p) = Done (x, b) ->
  onphys m p = Done (x, set_physical b p).
Proof. intros E. unfold onphys, kzoom. by rewrite E. Qed.

(** The state after page [i] has been mapped to frame [f]. *)
Definition same_but (i : Z) (p p' : paging) : Prop :=
  pagingLock p' = pagingLock p /\ cr3 p' = cr3 p /\ cr0 p' = cr0 p /\
  pageDirectory p' = pageDirectory p /\
  (forall j, j <> i -> entries p' j = entries p j).

Lemma map_new p i f : inv p -> vpage i -> vpage f -> ~ mapped p i ->
  exists p', mapKernelPage (i * 4096) (f * 4096) p = Done (tt, p') /\ inv p' /\ same_but i p p' /\
    entries p' i = mkTableEntry 1 1 0 0 0 0 0 0 0 0 f /\
    (forall j, 0 <= j < bm_size -> bm_bit (physical p') j = (j =? f) || bm_bit (physical p) j) /\
    (forall j, 0 <= j < bm_size -> bm_bit (virtualMemoryBitset p') j = (j =? i) || bm_bit (virtualMemoryBitset p) j).
Proof.
  intros Hp Hi Hf Hn. unfold vpage in Hi, Hf. rewrite size_eq in Hi, Hf.
  assert (Hiu : in_u32 (i * 4096)) by (unfold in_u32; lia). assert (Hfu : in_u32 (f * 4096)) by (unfold in_u32; lia).
  destruct (page_index _ Hiu) as (E1 & E2 & E3 & _). destruct (page_index _ Hfu) as (_ & E4 & _ & _).
  rewrite Z.div_mul in E1, E2, E4 by lia. rewrite Z.mod_mul in E3 by lia.
  unfold mapKernelPage. rewrite E1, E2, E3, E4. cbn [Z.eqb negb].
  unfold kgets at 1. rewrite run_bind. unfold mapped in Hn.
  destruct (Z.eqb_spec (present (entries p i)) 0) as [Hz|]; [|by destruct Hn]. cbn [negb].
  set (p1 := set_entry i (mkTableEntry 1 1 0 0 0 0 0 0 0 0 f) p).
  rewrite run_bind. cbn [kmodify]. fold p1.
  assert (Hsz : bm_size = 1048576) by apply bm_size_eq.
  destruct (bm_Set_spec (physical p) f (inv_physical_ok _ Hp)) as (b1 & Eb1 & Hb1 & Hbits1); [lia|].
  assert (Eph : onphys (Manager.setUsed (f * 4096)) p1 = Done (tt, set_physical b1 p1)).
  { apply onphys_run. unfold Manager.setUsed, ADDRESS_TO_PAGE_IDX, ARCH_PAGE_SIZE. rewrite Z.div_mul by lia. exact Eb1. }
  rewrite (run_bind_done _ _ _ _ _ Eph).
  destruct (bm_Set_spec (virtualMemoryBitset p) i (inv_virtual_ok _ Hp)) as (b2 & Eb2 & Hb2 & Hbits2); [lia|].
  rewrite (onvirt_run _ _ tt b2) by exact Eb2.
  eexists. split; [reflexivity|].
  assert (Hent : forall j, <[i := mkTableEntry 1 1 0 0 0 0 0 0 0 0 f]> (entries p) j =
      if decide (j = i) then mkTableEntry 1 1 0 0 0 0 0 0 0 0 f else entries p j).
  { intros j. case_decide; [subst; by rewrite fn_lookup_insert|by rewrite fn_lookup_insert_ne]. }
  split; [split; cbn|split; [|split; [|split]]]; try done.
  - intros j Hj. unfold vpage in Hj. rewrite size_eq in Hj. unfold mapped. cbn. rewrite Hbits2, Hent by lia.
    destruct (Z.eqb_spec j i); case_decide; try done. cbn. by apply (inv_bit _ Hp).
  - intros j Hj. unfold mapped, frame. cbn. rewrite Hent. rewrite size_eq. case_decide; [done|].
    intros Hm. rewrite <- size_eq. by apply (inv_frame _ Hp).
  - intros j Hj. unfold mapped, frame. cbn. rewrite Hent. case_decide as Hd.
    + intros _. cbn. rewrite Hbits1 by lia. by rewrite Z.eqb_refl.
    + intros Hm. pose proof (inv_frame _ Hp j Hj Hm) as Hfr. rewrite size_eq in Hfr. unfold frame in Hfr.
      rewrite Hbits1 by lia. pose proof (inv_used _ Hp j Hj Hm) as Hu. unfold frame in Hu. rewrite Hu. apply orb_true_r.
  - repeat split; try done. intros j Hj. cbn. by rewrite Hent, decide_False.
  - cbn. by rewrite Hent, decide_True.
Qed.

(** *** Allocation *)

(** The other parts of the state, and the mappings outside [i, i + n). *)
Definition same_outside (i n : Z) (p p' : paging) : Prop :=
  pagingLock p' = pagingLock p /\ cr3 p' = cr3 p /\ cr0 p' = cr0 p /\
  pageDirectory p' = pageDirectory p /\
  forall j, ~ (i <= j < i + n) -> entries p' j = entries p j.
Definition frame_free (p : paging) (f : Z) : Prop := bm_bit (physical p) f = false.
(** A kernel page: present, writable, and not accessible to users. *)
Definition kernel_entry (e : TableEntry) : Prop := e = mkTableEntry 1 1 0 0 0 0 0 0 0 0 (pageAddr e).

(** The pages [i, i + n) have been mapped to distinct frames that were free. *)
Record fresh_run (i n : Z) (p p' : paging) : Prop := {
  fr_entry : forall k, i <= k < i + n -> kernel_entry (entries p' k);
  fr_free : forall k, i <= k < i + n -> frame_free p (frame p' k);
  fr_distinct : forall k k', i <= k < i + n -> i <= k' < i + n -> frame p' k = frame p' k' -> k = k';
}.

Lemma map_frames_spec n : forall i p, inv p -> 0 <= i -> i + Z.of_nat n <= MEM_BITMAP_SIZE ->
  (forall k, i <= k < i + Z.of_nat n -> ~ mapped p k) ->
  exists ok p', map_frames n i p = Done (ok, p') /\ inv p' /\ same_outside i (Z.of_nat n) p p' /\
    (forall j, 0 <= j < bm_size -> bm_bit (physical p) j = true -> bm_bit (physical p') j = true) /\
    if ok : bool then fresh_run i (Z.of_nat n) p p'
    else forall f, 0 <= f < bm_size -> bm_bit (physical p') f = true.
Proof.
  pose proof bm_size_eq as Hsz.
  induction n as [|n IH]; intros i p Hp H0 Hend Hfree.
  - exists true, p. split; [done|]. split; [done|]. split; [by repeat split|]. split; [done|].
    split; intros k; intros; lia.
  - cbn [map_frames].
    destruct (bm_FindFirstBit_spec (physical p) false (inv_physical_ok _ Hp)) as (r & Er & Hr).
    assert (E : onphys (kread Manager.findNextFreePhysicalAddress) p = Done (r, set_physical (physical p) p)).
    { apply onphys_run. unfold kread, Manager.findNextFreePhysicalAddress. by rewrite Er. }
    assert (Eid : set_physical (physical p) p = p) by by destruct p. rewrite Eid in E.
    rewrite (run_bind_done _ _ _ _ _ E). unfold Manager.npos.
    destruct Hr as [(Hri & Hbit & _)|(-> & Hall)].
    2:{ rewrite Z.eqb_refl. exists false, p. split; [done|]. split; [done|]. split; [by repeat split|].
        split; [done|]. intros f Hf. by rewrite Hall. }
    destruct (Z.eqb_spec r SIZE_MAX) as [->|_]; [rewrite Hsz in Hri; unfold SIZE_MAX in Hri; lia|].
    rewrite size_eq in Hend. rewrite Hsz in Hri. unfold ARCH_PAGE_SIZE.
    rewrite (u32_small (i * 4096)), (u32_small (r * 4096)) by (unfold in_u32; lia).
    destruct (map_new p i r Hp) as (p1 & E1 & Hp1 & (S1 & S2 & S3 & S4 & S5) & Hent & Hph & _);
      [unfold vpage; rewrite size_eq; lia..|apply Hfree; lia|].
    rewrite (run_bind_done _ _ _ _ _ E1).
    destruct (IH (i + 1) p1 Hp1) as (ok & p2 & E2 & Hp2 & (T1 & T2 & T3 & T4 & T5) & Hmono & Hok);
      [lia|rewrite size_eq; lia| |].
    { intros k Hk. unfold mapped. rewrite S5 by lia. apply Hfree. lia. }
    exists ok, p2. split; [done|]. split; [done|]. split; [|split].
    + do 4 (split; [congruence|]). intros j Hj. rewrite T5, S5 by lia. done.
    + intros j Hj Hb. apply Hmono; [done|]. rewrite Hph, Hb by done. apply orb_true_r.
    + destruct ok; [|done]. destruct Hok as [F1 F2 F3].
      assert (Hi2 : entries p2 i = mkTableEntry 1 1 0 0 0 0 0 0 0 0 r) by (rewrite T5 by lia; done).
      assert (Hrest : forall k, i + 1 <= k < i + 1 + Z.of_nat n -> frame_free p (frame p2 k) /\ frame p2 k <> r).
      { intros k Hk. specialize (F2 k Hk). unfold frame_free in *.
        assert (Hm : mapped p2 k) by (unfold mapped; rewrite (F1 k Hk); done).
        pose proof (inv_frame _ Hp2 k ltac:(unfold vpage; rewrite size_eq; lia) Hm) as Hfr. rewrite size_eq in Hfr.
        rewrite Hph in F2 by lia. apply orb_false_iff in F2 as [F2 F2']. by apply Z.eqb_neq in F2. }
      split.
      * intros k Hk. destruct (decide (k = i)) as [->|]; [by rewrite Hi2|apply F1; lia].
      * intros k Hk. destruct (decide (k = i)) as [->|]; [unfold frame; by rewrite Hi2|apply Hrest; lia].
      * intros k k' Hk Hk' Heq. destruct (decide (k = i)) as [->|], (decide (k' = i)) as [->|]; [done| | |].
        -- destruct (Hrest k') as [_ Hn]; [lia|]. unfold frame in Heq at 1. rewrite Hi2 in Heq. cbn in Heq. congruence.
        -- destruct (Hrest k) as [_ Hn]; [lia|]. unfold frame in Heq at 2. rewrite Hi2 in Heq. cbn in Heq. congruence.
        -- apply F3; lia || done.
Qed.

Lemma inv_set_lock v p : inv p -> inv (set_lock v p).
Proof. intros [H1 H2 H3 H4 H5]. by split. Qed.

(** The outcome of an allocation of [n] pages. *)
Inductive allocated (n : Z) (p : paging) : Z -> paging -> Prop :=
  | alloc_ok i p' : 0 <= i -> i + n < MEM_BITMAP_SIZE -> same_outside i n p p' -> fresh_run i n p p' ->
      (forall k, i <= k < i + n -> ~ mapped p k) ->
      (forall j, 0 <= j < i -> exists k, j <= k < j + n /\ mapped p k) ->
      allocated n p (i * 4096) p'
  | alloc_no_pages p' : same_outside 0 0 p p' ->
      (forall j, 0 <= j < MEM_BITMAP_SIZE - n -> exists k, j <= k < j + n /\ mapped p k) ->
      allocated n p 0 p'
  | alloc_no_frames p' : (forall f, 0 <= f < MEM_BITMAP_SIZE -> ~ frame_free p' f) -> allocated n p 0 p'.

Lemma newPage_spec sz p : inv p -> pagingLock p = false -> 0 <= sz -> PAGE_COUNT sz < 32 ->
  exists r p', newPage sz p = Done (r, p') /\ inv p' /\ pagingLock p' = false /\ allocated (PAGE_COUNT sz) p r p'.
Proof.
  intros Hp Hl Hs Hc. pose proof bm_size_eq as Hsz.
  assert (Hc0 : 0 < PAGE_COUNT sz) by (unfold PAGE_COUNT, ARCH_PAGE_SIZE; pose proof (Z.div_pos sz 4096); lia).
  set (n := PAGE_COUNT sz) in *. unfold newPage. fold n.
  set (p0 := set_lock true p). assert (Hp0 : inv p0) by by apply inv_set_lock.
  assert (El : lock p = Done (tt, p0)) by (unfold lock; by rewrite Hl).
  rewrite (run_bind_done _ _ _ _ _ El). cbv zeta.
  destruct (bm_FindFirstRange_clear_spec (virtualMemoryBitset p0) n (inv_virtual_ok _ Hp0)) as (r & Er & Hr); [lia|].
  assert (Ef : findNextFreeVirtualAddress n p0 = Done (r, p0)).
  { unfold findNextFreeVirtualAddress, onvirt, kzoom, kread. by rewrite Er. }
  rewrite (run_bind_done _ _ _ _ _ Ef).
  assert (Hbit : forall k, 0 <= k < 1048576 -> bm_bit (virtualMemoryBitset p0) k = true <-> mapped p k).
  { intros k Hk. apply (inv_bit _ Hp0). unfold vpage. by rewrite size_eq. }
  destruct Hr as [(Hri & Hfree & Hfirst)|(-> & Hnone)].
  2:{ rewrite Z.eqb_refl. eexists 0, (set_lock false p0). split; [done|]. split; [by apply inv_set_lock|].
      split; [done|]. apply alloc_no_pages; [by repeat split|]. intros j Hj. rewrite size_eq in Hj.
      destruct (Hnone j) as (k & Hk & Hb); [lia|]. exists k. split; [done|]. apply Hbit; [lia|done]. }
  destruct (Z.eqb_spec r SIZE_MAX) as [->|_]; [unfold SIZE_MAX in Hri; lia|].
  destruct (map_frames_spec (Z.to_nat n) r p0 Hp0) as (ok & p1 & E1 & Hp1 & (S1 & S2 & S3 & S4 & S5) & _ & Hok);
    [lia|rewrite size_eq; lia| |].
  { intros k Hk Hm. rewrite Z2Nat.id in Hk by lia. apply Hbit in Hm; [|lia]. by rewrite Hfree in Hm by lia. }
  rewrite (run_bind_done _ _ _ _ _ E1). rewrite Z2Nat.id in * by lia.
  exists (if ok then u32 (r * 4096) else 0), (set_lock false p1). split; [done|].
  split; [by apply inv_set_lock|]. split; [done|]. destruct ok.
  - rewrite u32_small by (unfold in_u32; lia). apply alloc_ok; [lia|rewrite size_eq; lia| | | |].
    + split; [by rewrite Hl|]. by repeat split.
    + destruct Hok as [F1 F2 F3]. by split.
    + intros k Hk Hm. apply Hbit in Hm; [|lia]. by rewrite Hfree in Hm by lia.
    + intros j Hj. destruct (Hfirst j Hj) as (k & Hk & Hb). exists k. split; [done|]. apply Hbit; [lia|done].
  - apply alloc_no_frames. intros f Hf. unfold frame_free. rewrite <- Hsize in Hf. cbn. by rewrite Hok.
Qed.

(** *** Mapping ranges *)

Lemma range_loop_end fuel a stop body p : stop <= a -> range_loop fuel a stop body p = Done (tt, p).
Proof. intros Hle. destruct fuel; cbn [range_loop]; destruct (Z.ltb_spec a stop); (lia || done). Qed.

(** The frames that become used when the pages [i, i + n) are mapped, page [k]
    to frame [g k]. *)
Definition frames_taken (g : Z -> Z) (i n : Z) (p p' : paging) : Prop :=
  forall f, 0 <= f < bm_size ->
    bm_bit (physical p') f = true <-> bm_bit (physical p) f = true \/ exists k, i <= k < i + n /\ f = g k.

(** Mapping the pages [i, i + n), page [k] to frame [g k]. *)
Lemma range_spec (g : Z -> Z) (phys : Z -> Z) n : forall i p, inv p -> 0 <= i -> i + Z.of_nat n < MEM_BITMAP_SIZE ->
  (forall k, i <= k < i + Z.of_nat n -> vpage (g k) /\ phys (k * 4096) = g k * 4096) ->
  (forall k, i <= k < i + Z.of_nat n -> ~ mapped p k) ->
  exists p', range_loop n (i * 4096) ((i + Z.of_nat n) * 4096) (fun a => mapKernelPage a (phys a)) p = Done (tt, p') /\
    inv p' /\ same_outside i (Z.of_nat n) p p' /\ frames_taken g i (Z.of_nat n) p p' /\
    (forall k, i <= k < i + Z.of_nat n -> entries p' k = mkTableEntry 1 1 0 0 0 0 0 0 0 0 (g k)).
Proof.
  induction n as [|n IH]; intros i p Hp Hi Hend Hg Hfree.
  - exists p. split; [by apply range_loop_end; lia|]. split; [done|]. split; [by repeat split|]. split; [|intros; lia].
    intros f Hf. split; [by left|]. intros [?|(k & ? & _)]; [done|lia].
  - cbn [range_loop]. destruct (Z.ltb_spec (i * 4096) ((i + Z.of_nat (S n)) * 4096)); [|lia].
    destruct (Hg i) as [Hv Hph]; [lia|]. rewrite Hph.
    destruct (map_new p i (g i) Hp) as (p1 & E1 & Hp1 & (S1 & S2 & S3 & S4 & S5) & Hent & Hf1 & _);
      [unfold vpage; lia|done|apply Hfree; lia|].
    rewrite (run_bind_done _ _ _ _ _ E1). rewrite size_eq in Hend.
    assert (Ea : address_add (i * 4096) ARCH_PAGE_SIZE = (i + 1) * 4096).
    { unfold address_add, ARCH_PAGE_SIZE. rewrite u32_small; [lia|unfold in_u32; lia]. }
    rewrite Ea. replace (i + Z.of_nat (S n)) with (i + 1 + Z.of_nat n) in * by lia.
    destruct (IH (i + 1) p1 Hp1) as (p2 & E2 & Hp2 & (T1 & T2 & T3 & T4 & T5) & Hf2 & Hall);
      [lia|rewrite size_eq; lia|intros; apply Hg; lia| |].
    { intros k Hk. unfold mapped. rewrite S5 by lia. apply Hfree. lia. }
    exists p2. split; [done|]. split; [done|]. split; [|split].
    + do 4 (split; [congruence|]). intros j Hj. rewrite T5, S5 by lia. done.
    + intros f Hf. rewrite (Hf2 f Hf), (Hf1 f Hf), orb_true_iff, Z.eqb_eq. split.
      * intros [[->|?]|(k & Hk & ->)]; [right; exists i; split; [lia|done]|by left|right; exists k; split; [lia|done]].
      * intros [?|(k & Hk & ->)]; [left; by right|]. destruct (decide (k = i)) as [->|]; [left; by left|].
        right. exists k. split; [lia|done].
    + intros k Hk. destruct (decide (k = i)) as [->|]; [rewrite T5 by lia; done|apply Hall; lia].
Qed.

(** A section of whole pages below the last one. *)
Definition whole_pages (sect : Section_) (i n : Z) : Prop :=
  base sect = i * 4096 /\ Physical.size sect = n * 4096 /\ 0 <= i /\ 0 < n /\ i + n < MEM_BITMAP_SIZE.

Lemma whole_pages_loop sect i n : whole_pages sect i n ->
  range_fuel sect = Z.to_nat n /\ end_ sect = (i + n) * 4096.
Proof.
  intros (Hb & Hs & H0 & H1 & H2). rewrite size_eq in H2. unfold range_fuel, B_TO_PAGES, end_, base in *.
  unfold Physical.size in *. rewrite Hb, Hs. unfold ARCH_PAGE_SIZE. split.
  - rewrite u32_small by (unfold in_u32; lia). replace (n * 4096 + 4096 - 1) with (n * 4096 + 4095) by lia.
    rewrite Z.div_add_l by lia. rewrite (Z.div_small 4095) by lia. f_equal. lia.
  - rewrite u32_small by (unfold in_u32; lia). lia.
Qed.

(** Mapping a section of whole pages that is not mapped yet terminates and
    maps every page of it to the frame of the same number
    ([mapKernelRangeVirtual]) or to the frame [KERNEL_BASE] lower
    ([mapKernelRangePhysical]); other mappings stay. *)
Lemma mapKernelRange_spec p sect i n : inv p -> whole_pages sect i n -> (forall k, i <= k < i + n -> ~ mapped p k) ->
  (exists p', mapKernelRangeVirtual sect p = Done (tt, p') /\ inv p' /\ same_outside i n p p' /\
     frames_taken (fun k => k) i n p p' /\
     forall k, i <= k < i + n -> entries p' k = mkTableEntry 1 1 0 0 0 0 0 0 0 0 k) /\
  (forall b, KERNEL_BASE = b * 4096 -> 0 <= b <= i ->
     exists p', mapKernelRangePhysical sect p = Done (tt, p') /\ inv p' /\ same_outside i n p p' /\
       frames_taken (fun k => k - b) i n p p' /\
       forall k, i <= k < i + n -> entries p' k = mkTableEntry 1 1 0 0 0 0 0 0 0 0 (k - b)).
Proof.
  intros Hp Hw Hfree. destruct (whole_pages_loop sect i n Hw) as [Ef Ee].
  destruct Hw as (Hb & Hs & H0 & H1 & H2). unfold mapKernelRangeVirtual, mapKernelRangePhysical. rewrite Ef, Ee, Hb.
  replace ((i + n) * 4096) with ((i + Z.of_nat (Z.to_nat n)) * 4096) by lia.
  assert (Hn : Z.of_nat (Z.to_nat n) = n) by lia. split.
  - destruct (range_spec (fun k => k) (fun a => a) (Z.to_nat n) i p Hp H0) as (p' & Q); rewrite ?Hn; try done.
    + intros k Hk. split; [unfold vpage; lia|done].
    + exists p'. by rewrite Hn in Q.
  - intros b HKB Hbi.
    destruct (range_spec (fun k => k - b) KADDR_TO_PHYS (Z.to_nat n) i p Hp H0) as (p' & Q); rewrite ?Hn; try done.
    + intros k Hk. rewrite size_eq in H2. split; [unfold vpage; rewrite size_eq; lia|].
      unfold KADDR_TO_PHYS. rewrite HKB, u32_small; [lia|unfold in_u32; lia].
    + exists p'. by rewrite Hn in Q.
Qed.

(** What the MMU makes of an address, from the page tables. *)
Definition translate (p : paging) (a : Z) : option Z :=
  let e := entries p (a / 4096) in
  if present e =? 0 then None else Some (getPhysicalAddress e + a mod 4096).

Lemma mapKernelPage_aligned v pa : in_u32 v -> in_u32 pa -> v mod 4096 = 0 ->
  forall p, mapKernelPage v pa p = mapKernelPage (v / 4096 * 4096) (pa / 4096 * 4096) p.
Proof.
  intros Hv Hpa Hal p. assert (Hva : v / 4096 * 4096 = v) by (pose proof (Z.div_mod v 4096); lia). rewrite Hva.
  assert (Hpu : in_u32 (pa / 4096 * 4096)).
  { unfold in_u32 in *. pose proof (Z.div_mod pa 4096). pose proof (Z.mod_pos_bound pa 4096). 
    pose proof (Z.div_pos pa 4096). lia. }
  destruct (page_index pa Hpa) as (_ & E1 & _ & _). destruct (page_index _ Hpu) as (_ & E2 & _ & _).
  rewrite Z.div_mul in E2 by lia.
  assert (E3 : Manager.setUsed pa = Manager.setUsed (pa / 4096 * 4096)).
  { unfold Manager.setUsed, ADDRESS_TO_PAGE_IDX, ARCH_PAGE_SIZE. by rewrite Z.div_mul. }
  unfold mapKernelPage. by rewrite E1, E2, E3.
Qed.

(** *** What [freePage] frees *)

(** The page that [newPage] handed out is not the one [freePage] frees, unless
    it is in the first table; and of the entry it does clear, it frees frame
    [pageAddr / 4096] instead of frame [pageAddr]. *)
Lemma freePage_frees_another_page p i : inv p -> pagingLock p = false -> vpage i -> mapped p i ->
  1024 <= i -> in_u32 (pageAddr (entries p (i mod 1024))) ->
  exists p', freePage (i * 4096) 0 p = Done (tt, p') /\ entries p' i = entries p i /\
    entries p' (i mod 1024) = zero_entry /\
    bm_bit (physical p') (pageAddr (entries p (i mod 1024)) / 4096) = false.
Proof.
  intros Hp Hl Hi Hm Hge Hpa. unfold vpage in Hi. rewrite size_eq in Hi. pose proof bm_size_eq as Hsz.
  assert (Hiu : in_u32 (i * 4096)) by (unfold in_u32; lia).
  unfold freePage. assert (El : lock p = Done (tt, set_lock true p)) by (unfold lock; by rewrite Hl).
  rewrite (run_bind_done _ _ _ _ _ El). cbv zeta. change (Z.to_nat (PAGE_COUNT 0)) with 1%nat.
  rewrite virtualAddress_eq by done. cbn [tableIndex kfor]. rewrite Z.div_mul by lia.
  set (j := i mod 1024) in *. assert (Hj : 0 <= j < 1024) by (apply Z.mod_pos_bound; lia).
  set (p0 := set_lock true p).
  destruct (bm_Clear_spec (virtualMemoryBitset p0) j (inv_virtual_ok _ Hp)) as (b1 & E1 & _); [lia|].
  assert (Hf : 0 <= pageAddr (entries p j) / 4096 < bm_size).
  { rewrite Hsz. unfold in_u32 in Hpa. split; [apply Z.div_pos; lia|]. apply Z.div_lt_upper_bound; lia. }
  destruct (bm_Clear_spec (physical p) _ (inv_physical_ok _ Hp) Hf) as (b2 & E2 & _ & Hbits).
  rewrite !run_bind_assoc. rewrite run_bind. rewrite (onvirt_run _ p0 tt b1) by exact E1.
  unfold ARCH_PAGE_TABLE_ENTRIES, ARCH_PAGE_DIR_ENTRIES. rewrite (Z.div_small j) by lia. change (0 <? 1024) with true.
  set (p1 := set_virtual b1 p0). 
  assert (Eph : onphys (Manager.setFree (pageAddr (entries p1 j))) p1 = Done (tt, set_physical b2 p1)).
  { apply onphys_run. exact E2. }
  unfold kgets. krun. rewrite Eph. eexists. split; [reflexivity|]. cbn.
  rewrite fn_lookup_insert, fn_lookup_insert_ne by lia. do 2 (split; [done|]).
  rewrite Hbits by done. by rewrite Z.eqb_refl.
Qed.
End paging.

(** ** Theorems *)

(** C15. [mapKernelPage], on every branch.  An unaligned address and a page that
    is mapped to another frame are panics; a page that already is mapped to the
    frame is left alone; otherwise the MMU now translates the page to the frame,
    all other translations are as before, and the bitmaps agree with the page
    tables again. *)
Theorem mapKernelPage_correct {B} {HB : Bitmap B} (p : paging (B := B)) v pa : bm_size = MEM_BITMAP_SIZE ->
  inv p -> in_u32 v -> in_u32 pa ->
  (v mod ARCH_PAGE_SIZE <> 0 /\ exists msg, mapKernelPage v pa p = Panic msg) \/
  v mod ARCH_PAGE_SIZE = 0 /\
  ((exists a, translate p v = Some a /\ (a / ARCH_PAGE_SIZE = pa / ARCH_PAGE_SIZE /\ mapKernelPage v pa p = Done (tt, p) \/
      a / ARCH_PAGE_SIZE <> pa / ARCH_PAGE_SIZE /\ exists msg, mapKernelPage v pa p = Panic msg)) \/
   (translate p v = None /\ exists p', mapKernelPage v pa p = Done (tt, p') /\ inv p' /\
      (forall o, 0 <= o < ARCH_PAGE_SIZE -> translate p' (v + o) = Some (pageAlign pa + o)) /\
      (forall a, in_u32 a -> a / ARCH_PAGE_SIZE <> v / ARCH_PAGE_SIZE -> translate p' a = translate p a))).
Proof.
  intros Hsz Hp Hv Hpa. unfold ARCH_PAGE_SIZE in *.
  destruct (page_index v Hv) as (E1 & E2 & E3 & Hi). destruct (page_index pa Hpa) as (_ & E4 & _ & Hf).
  destruct (decide (v mod 4096 = 0)) as [Hal|Hal]; [right|left].
  2:{ split; [done|]. unfold mapKernelPage. rewrite E3. destruct (Z.eqb_spec (v mod 4096) 0); [done|]. by eexists. }
  split; [done|]. unfold translate.
  destruct (Z.eqb_spec (present (entries p (v / 4096))) 0) as [Hn|Hm]; [right|left].
  - split; [done|]. rewrite (mapKernelPage_aligned v pa) by done.
    destruct (map_new Hsz p (v / 4096) (pa / 4096) Hp Hi Hf) as (p' & E & Hp' & (_ & _ & _ & _ & S) & Hent & _);
      [unfold mapped; lia|].
    exists p'. split; [done|]. split; [done|].
    assert (Hva : v / 4096 * 4096 = v) by (pose proof (Z.div_mod v 4096); lia). split.
    + intros o Ho. assert (Hd : (v + o) / 4096 = v / 4096).
      { rewrite <- Hva at 1. rewrite Z.div_add_l by lia. rewrite (Z.div_small o) by lia. lia. }
      rewrite Hd, Hent. cbn [present Z.eqb]. rewrite pageAlign_eq by done. do 2 f_equal.
      * unfold getPhysicalAddress, ARCH_PAGE_SIZE. cbn [pageAddr]. apply u32_small.
        unfold in_u32 in *. pose proof (Z.div_mod pa 4096). pose proof (Z.mod_pos_bound pa 4096).
        pose proof (Z.div_pos pa 4096). lia.
      * rewrite <- Hva. rewrite Z.add_comm, Z.mod_add by lia. by apply Z.mod_small.
    + intros a Ha Hne. by rewrite S.
  - eexists. split; [reflexivity|].
    pose proof (inv_frame _ Hp _ Hi Hm) as Hfr. rewrite size_eq in Hfr. unfold frame in Hfr.
    unfold getPhysicalAddress, ARCH_PAGE_SIZE. rewrite u32_small by (unfold in_u32; lia). rewrite Hal, Z.add_0_r, Z.div_mul by lia.
    unfold mapKernelPage. rewrite E3, Hal, E1, E4. cbn [Z.eqb negb]. unfold kgets. rewrite run_bind.
    destruct (Z.eqb_spec (present (entries p (v / 4096))) 0); [done|]. cbn [negb].
    destruct (Z.eqb_spec (pageAddr (entries p (v / 4096))) (pa / 4096)) as [He|He]; [left|right]; [done|].
    split; [done|]. by eexists.
Qed.


Lemma isPresent_correct {B} {HB : Bitmap B} (p : paging (B := B)) a : bm_size = MEM_BITMAP_SIZE -> inv p -> in_u32 a ->
  isPresent a p = Done (bool_decide (translate p a <> None), p).
Proof.
  intros Hsz Hp Ha. destruct (page_index a Ha) as (_ & _ & _ & Hi).
  unfold isPresent, ARCH_PAGE_TABLE_ENTRY_SHIFT. rewrite Z.shiftr_div_pow2 by lia. change (2 ^ 12) with 4096.
  pose proof (inv_bit _ Hp _ Hi) as Hbit.
  assert (Hi' : 0 <= a / 4096 < bm_size) by by rewrite Hsz.
  rewrite (onvirt_run _ p (bm_bit (virtualMemoryBitset p) (a / 4096)) (virtualMemoryBitset p)).
  - f_equal. f_equal; [|by destruct p]. unfold translate, mapped in *.
    destruct (Z.eqb_spec (present (entries p (a / 4096))) 0) as [E|E].
    + rewrite bool_decide_false by naive_solver. destruct (bm_bit _ _); [|done]. by destruct (proj1 Hbit eq_refl).
    + rewrite bool_decide_true by done. by apply Hbit.
  - unfold kread. by rewrite (bm_Test_spec _ _ (inv_virtual_ok _ Hp) Hi').
Qed.

(** ** A concrete machine: nothing is mapped, all frames are free *)

#[local] Existing Instance Manager.frame_bitmap.
#[local] Instance demo_image : KernelImage := {|
  KERNEL_BASE := 0xC0000000; KERNEL_START := 0xC0100000; KERNEL_END := 0xC0200000; KERNEL_SIZE := 0x100000;
  EARLY_MEM_START := 0; EARLY_KERNEL_START := 0x100000;
  addr_pageDirectory := 0xC0180000; addr_pageTables := 0xC0181000 |}.

Definition empty_bitmap : Bitset.Bitset MEM_BITMAP_SIZE := Bitset.Bitset_default 0.
Definition demo_paging : paging (B := Bitset.Bitset MEM_BITMAP_SIZE) :=
  mkPaging false empty_bitmap empty_bitmap (fun _ => word_directory_entry 0) (fun _ => zero_entry) 0 1 [].

Lemma demo_paging_inv : inv demo_paging.
Proof.
  assert (Hwf : bm_ok empty_bitmap) by (apply Bitset.wf_default; [exact Manager.frames_range|reflexivity|by split]).
  split; [exact Hwf|exact Hwf|..]; unfold mapped; cbn.
  - intros i Hi. unfold empty_bitmap. rewrite Bitset.bit_default by done. done.
  - done.
  - done.
Qed.

Lemma demo_map0 : exists p, mapKernelPage 0 0 demo_paging = Done (tt, p) /\ inv p /\
  (forall i, vpage i -> mapped p i <-> i = 0) /\ pagingLock p = false.
Proof.
  destruct (map_new Manager.frame_size demo_paging 0 0 demo_paging_inv) as (p & E & Hp & (S1 & _ & _ & _ & S) & Hent & _);
    [by split|by split|by intros []|].
  exists p. split; [exact E|]. split; [done|]. split; [|done]. intros i Hi. unfold mapped.
  destruct (decide (i = 0)) as [->|Hne]; [rewrite Hent; by split|]. rewrite S by done. by split.
Qed.

Lemma mapKernelPage_correct_witness : exists p', mapKernelPage 0xC0123000 0x456000 demo_paging = Done (tt, p') /\
  translate p' 0xC0123ABC = Some 0x456ABC.
Proof.
  assert (Hv : in_u32 0xC0123000) by (unfold in_u32; lia). assert (Hpa : in_u32 0x456000) by (unfold in_u32; lia).
  destruct (mapKernelPage_correct demo_paging 0xC0123000 0x456000 Manager.frame_size demo_paging_inv Hv Hpa)
    as [[Hal _]|(_ & [(a & Ha & _)|(_ & p' & E & _ & Ht & _)])].
  - exfalso. apply Hal. reflexivity.
  - exfalso. vm_compute in Ha. discriminate.
  - exists p'. split; [exact E|]. specialize (Ht 0xABC). change (0xC0123000 + 0xABC) with 0xC0123ABC in Ht.
    rewrite Ht by (unfold ARCH_PAGE_SIZE; lia). reflexivity.
Defined.

