(* ===== verification/VirtualMem.v ===== *)
(** * The virtual memory manager (Memory/Virtual.cpp, Virtual.hpp)

    A page directory whose tables are reached through the recursive mapping,
    the search for free address ranges, and the mapping of ranges. *)
From S2P Require Import Prelude Words Bitmaps PageTypes Physical.
From Stdlib Require Import ZArith Lia Bool.
From stdpp Require Import base strings numbers functions list.
#[local] Open Scope Z_scope.

Definition NONE : Z := 0.
Definition READ_ONLY : Z := 1.
Definition USERMODE : Z := 2.
Definition WRITE_THROUGH : Z := 4.
Definition CACHE_DISABLE : Z := 8.
Definition npos : Z := SIZE_MAX.

Section virtual.
Context {B : Type} {HB : Bitmap B}.

(** The manager, the memory its directory and tables are in, and the physical
    manager.  [tables i j] is entry [j] of the table [getTable i]. *)
Record Manager := mkManager {
  m_directory : Z -> DirectoryEntry;
  tables : Z -> Z -> TableEntry;
  physical : B;
  m_rangeStart : Z;
  m_rangeSize : Z;
  m_rangeEnd : Z;
  m_searchStart : Z;
}.

(** The two constructors.  The one with a name for the lock leaves [m_rangeEnd]
    as it finds it: [garbage]. *)
Definition Manager_init (dir : Z -> DirectoryEntry) tbl phys (rangeStart rangeSize : Z) : Manager :=
  mkManager dir tbl phys rangeStart rangeSize (u32 (rangeStart + rangeSize)) rangeStart.
Definition Manager_named (garbage : Z) (dir : Z -> DirectoryEntry) tbl phys (rangeStart rangeSize : Z) : Manager :=
  mkManager dir tbl phys rangeStart rangeSize garbage rangeStart.

Definition set_dir i e m := mkManager (<[i := e]> (m_directory m)) (tables m) (physical m) (m_rangeStart m) (m_rangeSize m) (m_rangeEnd m) (m_searchStart m).
Definition set_table i t m := mkManager (m_directory m) (<[i := t]> (tables m)) (physical m) (m_rangeStart m) (m_rangeSize m) (m_rangeEnd m) (m_searchStart m).
Definition set_phys b m := mkManager (m_directory m) (tables m) b (m_rangeStart m) (m_rangeSize m) (m_rangeEnd m) (m_searchStart m).
Definition onphys {A} (k : K B A) : K Manager A := kzoom physical set_phys k.

(** The address through which table [directoryIndex] is reached. *)
Definition getTable (directoryIndex : Z) : Z := u32 (0xFFC00000 + directoryIndex * ARCH_PAGE_SIZE).

(** *** Mapping one page *)

(** The entry for a frame with the given flags. *)
Definition flagged_entry (frame flags : Z) : TableEntry :=
  mkTableEntry 1
    (if Z.land flags READ_ONLY =? 0 then 1 else 0)
    (if Z.land flags USERMODE =? 0 then 0 else 1)
    (if Z.land flags WRITE_THROUGH =? 0 then 0 else 1)
    (if Z.land flags CACHE_DISABLE =? 0 then 0 else 1)
    0 0 0 0 0 frame.

Definition mapPhysicalToVirtual (paddr vaddr flags : Z) : K Manager unit :=
  let d := dirIndex (virtualAddress vaddr) in
  let t := tableIndex (virtualAddress vaddr) in
  dirEntry ← kgets (fun m => m_directory m d) ;
  (if d_present dirEntry =? 0 then
     f ← onphys Manager.getPage ;
     kmodify (set_dir d (mkDirectoryEntry 1 1 0 0 0 0 0 0 0 (p_pageAddr (page f)))) ;;
     kmodify (set_table d (fun _ => zero_entry))
   else mret tt) ;;
  tableEntry ← kgets (fun m => tables m d t) ;
  if negb (present tableEntry =? 0) then kpanic "Attempted to map address that is already in use!"
  else kmodify (fun m => set_table d (<[t := flagged_entry (p_pageAddr (page paddr)) flags]> (tables m d)) m).

(** *** The search for a free range *)

(** Leaving a loop with an address, or going on with the length and the address
    of the run of free pages that ends here. *)
Inductive scan := Found (a : Z) | Scanning (freeRange freeRangeAddress : Z).

(** The loop over one table. *)
Fixpoint scan_table (m : Manager) (range dirIdx : Z) (n : nat) (tableIdx : Z) (freeRange addr : Z) : scan :=
  match n with
  | O => Scanning freeRange addr
  | S n' =>
      if present (tables m dirIdx tableIdx) =? 0 then
        let addr := if freeRange =? 0 then address_of_vaddr (mkVirtualAddress 0 tableIdx dirIdx) else addr in
        let freeRange := u32 (freeRange + 1) in
        if freeRange >=? range then Found addr
        else scan_table m range dirIdx n' (tableIdx + 1) freeRange addr
      else scan_table m range dirIdx n' (tableIdx + 1) 0 addr
  end.

(** The loop over the directory. *)
Fixpoint scan_directory (m : Manager) (range : Z) (n : nat) (dirIdx : Z) (freeRange addr : Z) : scan :=
  match n with
  | O => Scanning freeRange addr
  | S n' =>
      if d_present (m_directory m dirIdx) =? 0 then
        let addr := if freeRange =? 0 then address_of_vaddr (mkVirtualAddress 0 0 dirIdx) else addr in
        let freeRange := u32 (freeRange + ARCH_PAGE_TABLE_ENTRIES) in
        if freeRange >=? range then Found addr
        else scan_directory m range n' (dirIdx + 1) freeRange addr
      else
        let start := virtualAddress (m_searchStart m) in
        let tableIdxStart := if dirIdx =? dirIndex start then tableIndex start else 0 in
        match scan_table m range dirIdx (Z.to_nat (ARCH_PAGE_TABLE_ENTRIES - tableIdxStart)) tableIdxStart freeRange addr with
        | Found a => Found a
        | Scanning freeRange addr => scan_directory m range n' (dirIdx + 1) freeRange addr
        end
  end.

Definition findFirstFreePageRange (m : Manager) (range : Z) : Z :=
  let first := dirIndex (virtualAddress (m_searchStart m)) in
  let last := dirIndex (virtualAddress (m_rangeEnd m)) in
  match scan_directory m range (Z.to_nat (last - first)) first 0 npos with
  | Found a => a
  | Scanning _ _ => npos
  end.

(** *** Checks *)

Definition isPageFree (m : Manager) (vaddr : Z) : bool :=
  let v := virtualAddress (pageAlign vaddr) in
  if d_present (m_directory m (dirIndex v)) =? 0 then false
  else if present (tables m (dirIndex v) (tableIndex v)) =? 0 then false
  else true.

(** [for (page = vaddr; page < vaddr + size; page += ARCH_PAGE_SIZE)]. *)
Fixpoint range_free_loop (m : Manager) (fuel : nat) (pg stop : Z) : outcome bool :=
  if pg <? stop then
    match fuel with
    | O => Stuck
    | S fuel' => if isPageFree m pg then range_free_loop m fuel' (u32 (pg + ARCH_PAGE_SIZE)) stop else Done false
    end
  else Done true.
Definition isPageRangeFree (m : Manager) (vaddr size : Z) : outcome bool :=
  let size := pageAlignUp size in
  let vaddr := pageAlign vaddr in
  range_free_loop m (Z.to_nat (ADDRESS_SPACE_SIZE / ARCH_PAGE_SIZE)) vaddr (u32 (vaddr + size)).

Definition virtualToPhysical (m : Manager) (vaddr : Z) : option Z :=
  let v := virtualAddress vaddr in
  let dirEntry := m_directory m (dirIndex v) in
  let tableEntry := tables m (dirIndex v) (tableIndex v) in
  if (d_present dirEntry =? 0) || (present tableEntry =? 0) then None
  else Some (u32 (Z.shiftl (pageAddr tableEntry) ARCH_PAGE_TABLE_ENTRY_SHIFT)).

(** [initDirectory], for a directory at the virtual address [addr_directory]. *)
Definition initDirectory (addr_directory : Z) : K Manager unit :=
  paddrDir ← kgets (fun m => virtualToPhysical m addr_directory) ;
  match paddrDir with
  | None => kpanic "Failed to get directory physical address!"
  | Some paddrDir =>
      kmodify (set_dir (ARCH_PAGE_TABLE_ENTRIES - 1)
        (mkDirectoryEntry 0 0 0 0 0 0 0 0 0 (p_pageAddr (page paddrDir))))
  end.

(** *** Mapping a range *)

Fixpoint map_loop (n : nat) (vaddr flags : Z) : K Manager Z :=
  match n with
  | O => mret vaddr
  | S n' =>
      paddr ← onphys Manager.getPage ;
      mapPhysicalToVirtual paddr vaddr flags ;;
      map_loop n' (u32 (vaddr + ARCH_PAGE_SIZE)) flags
  end.

(** 0 is [nullptr]. *)
Definition map (vaddr size flags : Z) : K Manager Z :=
  let size := B_TO_PAGES size in
  if vaddr =? npos then
    m ← kget ;
    map_loop (Z.to_nat size) (findFirstFreePageRange m size) flags
  else
    m ← kget ;
    if (vaddr <? m_rangeStart m) || (u32 (vaddr + size) >? m_rangeEnd m) then mret 0
    else
      free ← kread (fun m => isPageRangeFree m vaddr size) ;
      if negb free then mret 0 else map_loop (Z.to_nat size) vaddr flags.

Definition unmap (addr size : Z) : K Manager unit := mret tt.

(** ** The search, page by page *)

(** Page [i] of the address space is mapped. *)
Definition used (m : Manager) (i : Z) : bool :=
  negb (d_present (m_directory m (i / 1024)) =? 0) && negb (present (tables m (i / 1024) (i mod 1024)) =? 0).

(** The run of [f] free pages before [pos] began after a used page or at
    [start], and no earlier page begins a free range. *)
Record scanned (m : Manager) (start range pos f addr : Z) : Prop := {
  sc_range : 0 <= f < range;
  sc_pos : start <= pos - f;
  sc_addr : f <> 0 -> addr = (pos - f) * 4096;
  sc_free : forall k, pos - f <= k < pos -> used m k = false;
  sc_none : forall j, start <= j < pos - f -> exists k, j <= k < j + range /\ used m k = true;
}.
(** The first free range of that length at or after [start]. *)
Definition first_range (m : Manager) (start range a : Z) : Prop :=
  exists r, a = r * 4096 /\ start <= r /\ (forall k, r <= k < r + range -> used m k = false) /\
    forall j, start <= j < r -> exists k, j <= k < j + range /\ used m k = true.

Lemma scanned_free m start range pos f addr : scanned m start range pos f addr -> used m pos = false ->
  let addr' := if f =? 0 then pos * 4096 else addr in
  if f + 1 >=? range then first_range m start range addr'
  else scanned m start range (pos + 1) (f + 1) addr'.
Proof.
  intros [H1 H2 H3 H4 H5] Hu addr'.
  assert (Ha : addr' = (pos - f) * 4096).
  { unfold addr'. destruct (Z.eqb_spec f 0) as [->|]; [lia|auto]. }
  assert (Hf : forall k, pos - f <= k < pos + 1 -> used m k = false).
  { intros k Hk. destruct (decide (k = pos)) as [->|]; [done|apply H4; lia]. }
  destruct (Z.geb_spec (f + 1) range).
  - exists (pos - f). split; [done|]. split; [done|]. split; [|done]. intros k Hk. apply Hf. lia.
  - split; [lia|lia| | |].
    + intros _. rewrite Ha. lia.
    + intros k Hk. apply Hf. lia.
    + intros j Hj. apply H5. lia.
Qed.

Lemma scanned_used m start range pos f addr : scanned m start range pos f addr -> used m pos = true ->
  scanned m start range (pos + 1) 0 addr.
Proof.
  intros [H1 H2 H3 H4 H5] Hu. split; [lia|lia|done| |].
  - intros k Hk. lia.
  - intros j Hj. destruct (decide (j < pos - f)) as [Hlt|Hge]; [apply H5; lia|].
    exists pos. split; [lia|done].
Qed.

(** A whole directory entry of free pages. *)
Lemma scanned_directory m start range pos f addr : scanned m start range pos f addr ->
  (forall k, pos <= k < pos + 1024 -> used m k = false) ->
  let addr' := if f =? 0 then pos * 4096 else addr in
  if f + 1024 >=? range then first_range m start range addr'
  else scanned m start range (pos + 1024) (f + 1024) addr'.
Proof.
  intros [H1 H2 H3 H4 H5] Hu addr'.
  assert (Ha : addr' = (pos - f) * 4096).
  { unfold addr'. destruct (Z.eqb_spec f 0) as [->|]; [lia|auto]. }
  assert (Hf : forall k, pos - f <= k < pos + 1024 -> used m k = false).
  { intros k Hk. destruct (decide (k < pos)); [apply H4; lia|apply Hu; lia]. }
  destruct (Z.geb_spec (f + 1024) range).
  - exists (pos - f). split; [done|]. split; [done|]. split; [|done]. intros k Hk. apply Hf. lia.
  - split; [lia|lia| | |].
    + intros _. rewrite Ha. lia.
    + intros k Hk. apply Hf. lia.
    + intros j Hj. apply H5. lia.
Qed.

Lemma vaddr_of_page t d : 0 <= t < 1024 -> 0 <= d < 1024 ->
  address_of_vaddr (mkVirtualAddress 0 t d) = (d * 1024 + t) * 4096.
Proof.
  intros Ht Hd. unfold address_of_vaddr, vaddr_widths. cbn [pack offset tableIndex dirIndex].
  rewrite !Z.mod_small; [lia|by change (2 ^ 10) with 1024..|done].
Qed.

Lemma used_split m d t : 0 <= t < 1024 ->
  used m (d * 1024 + t) = negb (d_present (m_directory m d) =? 0) && negb (present (tables m d t) =? 0).
Proof.
  intros Ht. unfold used. rewrite Z.div_add_l, (Z.div_small t), Z.add_0_r by lia.
  by rewrite Z.add_comm, Z.mod_add, Z.mod_small by lia.
Qed.

Lemma scan_table_spec m start range d n : forall t f addr,
  0 <= d < 1024 -> 0 <= t -> t + Z.of_nat n = 1024 -> range < 2 ^ 32 -> d_present (m_directory m d) <> 0 ->
  scanned m start range (d * 1024 + t) f addr ->
  match scan_table m range d n t f addr with
  | Found a => first_range m start range a
  | Scanning f' addr' => scanned m start range ((d + 1) * 1024) f' addr'
  end.
Proof.
  induction n as [|n IH]; intros t f addr Hd Ht Hn Hr Hp Hs; cbn [scan_table].
  - replace ((d + 1) * 1024) with (d * 1024 + t) by lia. done.
  - pose proof (used_split m d t ltac:(lia)) as Hus.
    destruct (Z.eqb_spec (d_present (m_directory m d)) 0); [done|]. cbn [negb andb] in Hus.
    destruct (Z.eqb_spec (present (tables m d t)) 0) as [Hf|Hf]; cbn [negb] in Hus.
    + rewrite vaddr_of_page by lia. pose proof (scanned_free _ _ _ _ _ _ Hs Hus) as Hnext. cbv zeta in Hnext.
      assert (Eu : u32 (f + 1) = f + 1) by (destruct Hs; apply u32_small; unfold in_u32; lia). rewrite Eu.
      destruct (f + 1 >=? range); [done|].
      apply IH; [lia..|]. by replace (d * 1024 + (t + 1)) with (d * 1024 + t + 1) by lia.
    + pose proof (scanned_used _ _ _ _ _ _ Hs Hus) as Hnext.
      apply IH; [lia..|]. by replace (d * 1024 + (t + 1)) with (d * 1024 + t + 1) by lia.
Qed.

Lemma scan_directory_spec m start range n : forall d f addr,
  tableIndex (virtualAddress (m_searchStart m)) = 0 ->
  0 <= d -> d + Z.of_nat n <= 1024 -> range < 2 ^ 31 ->
  scanned m start range (d * 1024) f addr ->
  match scan_directory m range n d f addr with
  | Found a => first_range m start range a
  | Scanning f' addr' => scanned m start range ((d + Z.of_nat n) * 1024) f' addr'
  end.
Proof.
  induction n as [|n IH]; intros d f addr Hal Hd Hn Hr Hs; cbn [scan_directory].
  - by rewrite Z.add_0_r.
  - replace (d + Z.of_nat (S n)) with (d + 1 + Z.of_nat n) by lia.
    destruct (Z.eqb_spec (d_present (m_directory m d)) 0) as [Hp|Hp].
    + rewrite vaddr_of_page by lia. rewrite Z.add_0_r. unfold ARCH_PAGE_TABLE_ENTRIES.
      assert (Eu : u32 (f + 1024) = f + 1024) by (destruct Hs; apply u32_small; unfold in_u32; lia). rewrite Eu.
      assert (Hus : forall k, d * 1024 <= k < d * 1024 + 1024 -> used m k = false).
      { intros k Hk. replace k with (d * 1024 + (k - d * 1024)) by lia. rewrite used_split by lia. by rewrite Hp. }
      pose proof (scanned_directory _ _ _ _ _ _ Hs Hus) as Hnext. cbv zeta in Hnext.
      destruct (f + 1024 >=? range); [done|].
      apply IH; [done|lia..|]. by replace ((d + 1) * 1024) with (d * 1024 + 1024) by lia.
    + rewrite Hal. assert (E : (if d =? dirIndex (virtualAddress (m_searchStart m)) then 0 else 0) = 0) by by destruct (_ =? _).
      rewrite E. pose proof (scan_table_spec m start range d (Z.to_nat (ARCH_PAGE_TABLE_ENTRIES - 0)) 0 f addr) as Ht.
      rewrite Z.add_0_r in Ht. unfold ARCH_PAGE_TABLE_ENTRIES in *.
      specialize (Ht ltac:(lia) ltac:(lia) ltac:(lia) ltac:(lia) Hp Hs).
      destruct (scan_table _ _ _ _ _ _ _) as [a|f' addr']; [done|]. apply IH; [done|lia..|done].
Qed.

Lemma findFirstFreePageRange_spec m range d0 d1 :
  m_searchStart m = d0 * 4194304 -> 0 <= d0 < 1024 -> d1 = dirIndex (virtualAddress (m_rangeEnd m)) ->
  d0 <= d1 < 1024 -> 0 < range < 2 ^ 31 ->
  let a := findFirstFreePageRange m range in
  first_range m (d0 * 1024) range a \/
  (a = npos /\ forall j, d0 * 1024 <= j -> j + range <= d1 * 1024 -> exists k, j <= k < j + range /\ used m k = true).
Proof.
  intros Hs Hd0 Hd1 Hle Hr a. unfold a, findFirstFreePageRange. rewrite <- Hd1.
  assert (Hsu : in_u32 (m_searchStart m)) by (unfold in_u32; lia).
  assert (Ed : dirIndex (virtualAddress (m_searchStart m)) = d0).
  { rewrite virtualAddress_eq by done. cbn. by rewrite Hs, Z.div_mul. }
  assert (Et : tableIndex (virtualAddress (m_searchStart m)) = 0).
  { rewrite virtualAddress_eq by done. cbn. rewrite Hs. replace (d0 * 4194304) with (d0 * 1024 * 4096) by lia.
    rewrite Z.div_mul by lia. apply Z.mod_mul. lia. }
  rewrite Ed. pose proof (scan_directory_spec m (d0 * 1024) range (Z.to_nat (d1 - d0)) d0 0 npos Et) as Hscan.
  assert (H0 : scanned m (d0 * 1024) range (d0 * 1024) 0 npos).
  { split; [lia|lia|done|intros; lia|intros; lia]. }
  specialize (Hscan ltac:(lia) ltac:(lia) ltac:(lia) H0).
  destruct (scan_directory _ _ _ _ _ _) as [a'|f addr]; [by left|right]. split; [done|].
  intros j Hj Hend. destruct Hscan as [H1 H2 H3 H4 H5]. replace (d0 + Z.of_nat (Z.to_nat (d1 - d0))) with d1 in * by lia.
  apply H5. lia.
Qed.
End virtual.


(** ** Theorems *)

(** The search returns the start of the first run of [range] unmapped pages
    at or after the (table-aligned) search start, and [npos] only if every such
    run before the table of the end address has a mapped page in it. *)
Theorem findFirstFreePageRange_first_fit {B} (m : Manager (B := B)) range d0 :
  m_searchStart m = d0 * 4194304 -> 0 <= d0 -> in_u32 (m_rangeEnd m) -> m_searchStart m <= m_rangeEnd m ->
  0 < range < 2 ^ 31 ->
  first_range m (d0 * 1024) range (findFirstFreePageRange m range) \/
  (findFirstFreePageRange m range = npos /\
   forall j, d0 * 1024 <= j -> j + range <= m_rangeEnd m / 4194304 * 1024 -> exists k, j <= k < j + range /\ used m k = true).
Proof.
  intros Hs H0 Hu Hle Hr. unfold in_u32 in Hu.
  assert (Ed : dirIndex (virtualAddress (m_rangeEnd m)) = m_rangeEnd m / 4194304) by by rewrite virtualAddress_eq.
  assert (Hd : d0 <= m_rangeEnd m / 4194304 < 1024).
  { split; [apply Z.div_le_lower_bound; lia|apply Z.div_lt_upper_bound; lia]. }
  pose proof (findFirstFreePageRange_spec m range d0 (m_rangeEnd m / 4194304) Hs) as H. cbv zeta in H.
  apply H; [lia|done|exact Hd|exact Hr].
Qed.

Section mapping.
Context {B : Type} {HB : Bitmap B}.
Implicit Types m : Manager (B := B).

Lemma virtualToPhysical_None m a : virtualToPhysical m a = None <->
  d_present (m_directory m (dirIndex (virtualAddress a))) = 0 \/
  present (tables m (dirIndex (virtualAddress a)) (tableIndex (virtualAddress a))) = 0.
Proof.
  unfold virtualToPhysical. cbv zeta. destruct (Z.eqb_spec (d_present (m_directory m (dirIndex (virtualAddress a)))) 0) as [Hd|Hd];
    cbn [orb]; [split; [by left|done]|].
  destruct (Z.eqb_spec (present (tables m (dirIndex (virtualAddress a)) (tableIndex (virtualAddress a)))) 0) as [Ht|Ht].
  - split; [by right|done].
  - split; [discriminate|]. intros [?|?]; contradiction.
Qed.

(** The address of the page an address is in. *)
Lemma same_page a v : in_u32 a -> in_u32 v ->
  dirIndex (virtualAddress a) = dirIndex (virtualAddress v) -> tableIndex (virtualAddress a) = tableIndex (virtualAddress v) ->
  a / 4096 = v / 4096.
Proof.
  intros Ha Hv. rewrite !virtualAddress_eq by done. cbn. intros Ed Et.
  assert (H : forall x, 0 <= x -> x / 4194304 = x / 4096 / 1024) by (intros x Hx; by rewrite Z.div_div).
  unfold in_u32 in *. rewrite !H in Ed by lia.
  rewrite (Z.div_mod (a / 4096) 1024), (Z.div_mod (v / 4096) 1024) by lia. congruence.
Qed.

(** Installing an entry in a table that the directory has. *)
Lemma install_entry m v e a : in_u32 v -> in_u32 a ->
  d_present (m_directory m (dirIndex (virtualAddress v))) <> 0 -> present e <> 0 ->
  let d := dirIndex (virtualAddress v) in
  let m' := set_table d (<[tableIndex (virtualAddress v) := e]> (tables m d)) m in
  virtualToPhysical m' a =
    if a / 4096 =? v / 4096 then Some (u32 (Z.shiftl (pageAddr e) 12)) else virtualToPhysical m a.
Proof.
  intros Hv Ha Hd He d m'. destruct (Z.eqb_spec (a / 4096) (v / 4096)) as [E|E].
  - assert (Ed : dirIndex (virtualAddress a) = d).
    { unfold d. rewrite !virtualAddress_eq by done. cbn. unfold in_u32 in *.
      replace 4194304 with (4096 * 1024) by lia. rewrite <- !Z.div_div by lia. by rewrite E. }
    assert (Et : tableIndex (virtualAddress a) = tableIndex (virtualAddress v)).
    { rewrite !virtualAddress_eq by done. cbn. by rewrite E. }
    unfold virtualToPhysical. rewrite Ed, Et. unfold m'. cbn [m_directory tables set_table].
    rewrite !fn_lookup_insert. destruct (Z.eqb_spec (d_present (m_directory m d)) 0); [done|].
    destruct (Z.eqb_spec (present e) 0); [done|]. done.
  - unfold virtualToPhysical, m'. cbn [m_directory tables set_table].
    destruct (decide (dirIndex (virtualAddress a) = d)) as [Ed|Hne].
    + rewrite Ed, fn_lookup_insert. rewrite fn_lookup_insert_ne; [done|]. intros Et. apply E. by apply same_page.
    + by rewrite fn_lookup_insert_ne by done.
Qed.

(** A table that the directory did not have and that is empty changes no
    translation. *)
Lemma install_table m d e a :
  d_present (m_directory m d) = 0 ->
  virtualToPhysical (set_table d (fun _ => zero_entry) (set_dir d e m)) a = virtualToPhysical m a.
Proof.
  intros Hd. unfold virtualToPhysical, set_table, set_dir. cbn [m_directory tables].
  destruct (decide (dirIndex (virtualAddress a) = d)) as [->|Hne].
  - rewrite !fn_lookup_insert, Hd. cbn [zero_entry present]. rewrite !Z.eqb_refl, orb_true_r. done.
  - by rewrite !fn_lookup_insert_ne by done.
Qed.
End mapping.

(** The step that writes the entry, once the table is there. *)
Definition write_entry {B} (paddr vaddr flags : Z) : K (Manager (B := B)) unit :=
  let d := dirIndex (virtualAddress vaddr) in
  let t := tableIndex (virtualAddress vaddr) in
  tableEntry ← kgets (fun m => tables m d t) ;
  if negb (present tableEntry =? 0) then kpanic "Attempted to map address that is already in use!"
  else kmodify (fun m => set_table d (<[t := flagged_entry (p_pageAddr (page paddr)) flags]> (tables m d)) m).

(** The entry that translates an address. *)
Definition entry_at {B} (m : Manager (B := B)) (a : Z) : TableEntry :=
  tables m (dirIndex (virtualAddress a)) (tableIndex (virtualAddress a)).

(** What it does to an unmapped page. *)
Lemma write_entry_spec {B} {HB : Bitmap B} (m : Manager (B := B)) paddr vaddr flags :
  in_u32 paddr -> in_u32 vaddr -> d_present (m_directory m (dirIndex (virtualAddress vaddr))) <> 0 ->
  present (entry_at m vaddr) = 0 ->
  exists m', write_entry paddr vaddr flags m = Done (tt, m') /\
    (forall a, in_u32 a -> virtualToPhysical m' a =
       if a / 4096 =? vaddr / 4096 then Some (pageAlign paddr) else virtualToPhysical m a) /\
    (readWrite (entry_at m' vaddr) = 0 <-> Z.testbit flags 0 = true) /\
    (usermode (entry_at m' vaddr) = 0 <-> Z.testbit flags 1 = false) /\
    physical m' = physical m /\ m_directory m' = m_directory m.
Proof.
  intros Hp Hv Hd Hn. set (e := flagged_entry (p_pageAddr (page paddr)) flags).
  assert (He : u32 (Z.shiftl (pageAddr e) 12) = pageAlign paddr).
  { unfold e, flagged_entry. cbn [pageAddr]. rewrite page_eq, pageAlign_eq by done. cbn [p_pageAddr].
    rewrite Z.shiftl_mul_pow2 by lia. change (2 ^ 12) with 4096. apply u32_small. unfold in_u32 in *.
    pose proof (Z.div_mod paddr 4096). pose proof (Z.mod_pos_bound paddr 4096).
    pose proof (Z.div_pos paddr 4096). lia. }
  eexists. unfold write_entry, kgets. rewrite run_bind. fold (entry_at m vaddr). rewrite Hn. split; [reflexivity|]. split.
  - intros a Ha. rewrite <- He. by apply install_entry.
  - unfold entry_at. cbn [tables set_table]. rewrite !fn_lookup_insert. cbn [readWrite usermode flagged_entry].
    change READ_ONLY with (2 ^ 0). change USERMODE with (2 ^ 1). rewrite (land_pow2 flags 0), (land_pow2 flags 1) by lia.
    destruct (Z.testbit flags 0), (Z.testbit flags 1); cbn; repeat split; done.
Qed.


(** ** What the checks and [map] do *)

(** [isPageFree] answers whether the page is mapped. *)
Lemma isPageFree_means_mapped {B} {HB : Bitmap B} (m : Manager (B := B)) a : in_u32 a ->
  isPageFree m a = bool_decide (virtualToPhysical m a <> None).
Proof.
  intros Ha. assert (Hal : in_u32 (pageAlign a)).
  { rewrite pageAlign_eq by done. unfold in_u32 in *. pose proof (Z.div_mod a 4096). pose proof (Z.mod_pos_bound a 4096).
    pose proof (Z.div_pos a 4096). lia. }
  assert (Hv : dirIndex (virtualAddress (pageAlign a)) = dirIndex (virtualAddress a) /\
               tableIndex (virtualAddress (pageAlign a)) = tableIndex (virtualAddress a)).
  { rewrite !virtualAddress_eq by done. rewrite pageAlign_eq by done. cbn. replace 4194304 with (4096 * 1024) by lia.
    rewrite <- !Z.div_div by lia. by rewrite !Z.div_mul by lia. }
  destruct Hv as [Ed Et]. unfold isPageFree. rewrite Ed, Et.
  destruct (Z.eqb_spec (d_present (m_directory m (dirIndex (virtualAddress a)))) 0) as [Hd|Hd].
  { rewrite bool_decide_false; [done|]. intros H. apply H, virtualToPhysical_None. by left. }
  destruct (Z.eqb_spec (present (tables m (dirIndex (virtualAddress a)) (tableIndex (virtualAddress a)))) 0) as [Ht|Ht].
  - rewrite bool_decide_false; [done|]. intros H. apply H, virtualToPhysical_None. by right.
  - rewrite bool_decide_true; [done|]. rewrite virtualToPhysical_None. tauto.
Qed.

(** So a request for an address whose page is free is refused. *)
Lemma map_refuses_free_page {B} {HB : Bitmap B} (m : Manager (B := B)) vaddr size flags :
  in_u32 vaddr -> vaddr <> npos -> virtualToPhysical m vaddr = None ->
  0 < B_TO_PAGES size -> pageAlign vaddr + pageAlignUp (B_TO_PAGES size) < 2 ^ 32 ->
  map vaddr size flags m = Done (0, m).
Proof.
  intros Hv Hn Hfree Hs Hend. unfold map. cbv zeta. destruct (Z.eqb_spec vaddr npos); [done|].
  rewrite (run_bind_done _ _ m m m eq_refl). destruct (_ || _); [done|].
  assert (Hal : in_u32 (pageAlign vaddr)).
  { rewrite pageAlign_eq by done. unfold in_u32 in *. pose proof (Z.div_mod vaddr 4096). pose proof (Z.mod_pos_bound vaddr 4096).
    pose proof (Z.div_pos vaddr 4096). lia. }
  assert (Hpg : B_TO_PAGES size <= 2 ^ 20).
  { unfold B_TO_PAGES, ARCH_PAGE_SIZE. apply Z.div_le_upper_bound; [lia|]. pose proof (u32_range (size + 4096 - 1)) as H.
    unfold in_u32 in H. lia. }
  assert (Hup : 4096 <= pageAlignUp (B_TO_PAGES size)).
  { rewrite pageAlignUp_eq by (unfold in_u32; lia). rewrite u32_small by (unfold in_u32; lia).
    assert (1 <= (B_TO_PAGES size + 4095) / 4096) by (apply Z.div_le_lower_bound; lia). lia. }
  assert (Hno : isPageFree m (pageAlign vaddr) = false).
  { rewrite isPageFree_means_mapped by done. apply bool_decide_false. intros H. apply H. clear H.
    unfold virtualToPhysical in *. rewrite virtualAddress_eq in * by done. rewrite pageAlign_eq in * by done.
    cbn [dirIndex tableIndex] in *. replace (vaddr / 4096 * 4096 / 4194304) with (vaddr / 4194304).
    2:{ replace 4194304 with (4096 * 1024) by lia. rewrite <- !Z.div_div by lia. by rewrite Z.div_mul by lia. }
    rewrite Z.div_mul by lia. done. }
  assert (E : isPageRangeFree m vaddr (B_TO_PAGES size) = Done false).
  { unfold isPageRangeFree. cbv zeta. change (Z.to_nat (ADDRESS_SPACE_SIZE / ARCH_PAGE_SIZE)) with (Z.to_nat (Z.succ 1048575)).
    rewrite Z2Nat.inj_succ by lia. generalize (Z.to_nat 1048575). intros fuel. cbn [range_free_loop].
    rewrite u32_small by (unfold in_u32 in *; lia).
    destruct (Z.ltb_spec (pageAlign vaddr) (pageAlign vaddr + pageAlignUp (B_TO_PAGES size))); [|lia]. by rewrite Hno. }
  rewrite (run_bind_done _ _ m false m) by (unfold kread; by rewrite E). done.
Qed.

(** What [map] returns is the end of the range it mapped. *)
Lemma map_loop_end {B} {HB : Bitmap B} n : forall vaddr flags (m : Manager (B := B)) r m',
  map_loop n vaddr flags m = Done (r, m') -> in_u32 vaddr -> r = u32 (vaddr + Z.of_nat n * ARCH_PAGE_SIZE).
Proof.
  induction n as [|n IH]; intros vaddr flags m r m' E Hv; cbn [map_loop] in E.
  - injection E as <- _. rewrite Z.add_0_r. by rewrite u32_small.
  - rewrite run_bind in E. destruct (onphys _ m) as [[pa m1]| | |]; [|done..].
    rewrite run_bind in E. destruct (mapPhysicalToVirtual _ _ _ _) as [[[] m2]| | |]; [|done..].
    rewrite (IH _ _ _ _ _ E (u32_range _)). unfold u32 at 1, wrap, u32, wrap. rewrite Zplus_mod_idemp_l. f_equal. unfold ARCH_PAGE_SIZE. lia.
Qed.

(** ** A manager with the frames above 1 MiB free and one table *)
#[local] Existing Instance Manager.frame_bitmap.
Definition demo_dir : Z -> DirectoryEntry := <[768 := mkDirectoryEntry 1 1 0 0 0 0 0 0 0 7]> (fun _ => word_directory_entry 0).
Definition demo_tables : Z -> Z -> TableEntry := <[768 := <[0 := mkTableEntry 1 1 0 0 0 0 0 0 0 0 5]> (fun _ => zero_entry)]> (fun _ _ => zero_entry).
Definition demo_manager : Manager (B := Bitset.Bitset MEM_BITMAP_SIZE) :=
  Manager_init demo_dir demo_tables (Bitset.Bitset_default 0) 0xC0000000 0x10000000.

Lemma findFirstFreePageRange_first_fit_witness : findFirstFreePageRange demo_manager 3 = 0xC0001000 /\
  first_range demo_manager (768 * 1024) 3 0xC0001000.
Proof.
  assert (E : findFirstFreePageRange demo_manager 3 = 0xC0001000) by (vm_compute; reflexivity). split; [exact E|].
  destruct (findFirstFreePageRange_first_fit demo_manager 3 768) as [H|[H _]].
  - reflexivity.
  - lia.
  - unfold in_u32; split; vm_compute; congruence.
  - vm_compute; congruence.
  - lia.
  - rewrite E in H. exact H.
  - rewrite E in H. discriminate H.
Defined.

