(* ===== verification/LinkedLists.v ===== *)
(** * The doubly linked list (Library/LinkedList.hpp)

    Nodes in a heap, the operations of class [LinkedList] on them, and the
    refinement of lists by them. *)
From S2P Require Import Prelude Words.
From Stdlib Require Import ZArith Lia Bool.
From stdpp Require Import base strings numbers functions gmap list.
#[local] Open Scope Z_scope.

Section linked_list.
Context {T : Type}.

(** The address of a node; [NULL] is [None]. *)
Abbreviation ptr := (option positive).

Record LinkedListNode := mkNode { data : T; next : ptr; prev : ptr }.
Definition SetData (v : T) (n : LinkedListNode) := mkNode v (next n) (prev n).
Definition SetNext (p : ptr) (n : LinkedListNode) := mkNode (data n) p (prev n).
Definition SetPrevious (p : ptr) (n : LinkedListNode) := mkNode (data n) (next n) p.
(** The constructor with a value. *)
Definition Node (v : T) : LinkedListNode := mkNode v None None.

(** The list object, and the nodes in the heap. *)
Record LinkedList := mkList { head : ptr; tail : ptr; count : Z; nodes : gmap positive LinkedListNode }.
Definition set_head (p : ptr) (s : LinkedList) := mkList p (tail s) (count s) (nodes s).
Definition set_tail (p : ptr) (s : LinkedList) := mkList (head s) p (count s) (nodes s).
Definition set_count (c : Z) (s : LinkedList) := mkList (head s) (tail s) c (nodes s).
Definition set_nodes h (s : LinkedList) := mkList (head s) (tail s) (count s) h.

Definition LinkedList_default (h : gmap positive LinkedListNode) : LinkedList := mkList None None 0 h.

(** [p->...]: a load and a store through a pointer. *)
Definition load (p : ptr) (s : LinkedList) : outcome LinkedListNode :=
  match p with
  | None => Fault
  | Some t => match nodes s !! t with Some n => Done n | None => Fault end
  end.
Definition store (p : ptr) (f : LinkedListNode -> LinkedListNode) : K LinkedList unit := fun s =>
  match p with
  | None => Fault
  | Some t =>
      match nodes s !! t with
      | Some n => Done (tt, set_nodes (<[t := f n]> (nodes s)) s)
      | None => Fault
      end
  end.
Definition Data (p : ptr) : K LinkedList T := kread (fun s => n ← load p s ; Done (data n)).
Definition Next (p : ptr) : K LinkedList ptr := kread (fun s => n ← load p s ; Done (next n)).
Definition Previous (p : ptr) : K LinkedList ptr := kread (fun s => n ← load p s ; Done (prev n)).

(** [new LinkedListNode<T>(val)], when the allocator returns the address [a];
    and [delete]. *)
Definition new (a : positive) (val : T) : K LinkedList ptr := fun s =>
  Done (Some a, set_nodes (<[a := Node val]> (nodes s)) s).
Definition free (p : ptr) : K LinkedList unit := fun s =>
  match p with
  | None => Done (tt, s)
  | Some t => Done (tt, set_nodes (delete t (nodes s)) s)
  end.

Definition incr_count : K LinkedList unit := kmodify (fun s => set_count (u32 (count s + 1)) s).
Definition decr_count : K LinkedList unit := kmodify (fun s => set_count (u32 (count s - 1)) s).

Definition InsertBefore (nxt : ptr) (a : positive) (val : T) : K LinkedList unit :=
  match nxt with
  | None => mret tt
  | Some _ =>
      newNode ← new a val ;
      p ← Previous nxt ;
      store newNode (SetPrevious p) ;;
      store nxt (SetPrevious newNode) ;;
      store newNode (SetNext nxt) ;;
      p ← Previous newNode ;
      (match p with
       | Some _ => store p (SetNext newNode)
       | None => kmodify (set_head newNode)
       end) ;;
      incr_count
  end.

Definition InsertAfter (prv : ptr) (a : positive) (val : T) : K LinkedList unit :=
  match prv with
  | None => mret tt
  | Some _ =>
      newNode ← new a val ;
      n ← Next prv ;
      store newNode (SetNext n) ;;
      store prv (SetNext newNode) ;;
      store newNode (SetPrevious prv) ;;
      n ← Next newNode ;
      (match n with
       | Some _ => store n (SetPrevious newNode)
       | None => kmodify (set_tail newNode)
       end) ;;
      incr_count
  end.

Definition InsertFront (a : positive) (val : T) : K LinkedList unit :=
  h ← kgets head ;
  match h with
  | Some _ => InsertBefore h a val
  | None => n ← new a val ; kmodify (set_head n) ;; kmodify (fun s => set_tail (head s) s) ;; incr_count
  end.

Definition InsertBack (a : positive) (val : T) : K LinkedList unit :=
  t ← kgets tail ;
  match t with
  | Some _ => InsertAfter t a val
  | None => n ← new a val ; kmodify (set_tail n) ;; kmodify (fun s => set_head (tail s) s) ;; incr_count
  end.

(** [LinkedList(T val)]. *)
Definition LinkedList_of (a : positive) (val : T) : K LinkedList unit :=
  kmodify (fun s => LinkedList_default (nodes s)) ;; InsertFront a val.

Definition Remove (del : ptr) : K LinkedList unit :=
  h ← kgets head ;
  (if bool_decide (del = h) then n ← Next del ; kmodify (set_head n) else mret tt) ;;
  t ← kgets tail ;
  (if bool_decide (del = t) then p ← Previous del ; kmodify (set_tail p) else mret tt) ;;
  n ← Next del ;
  (match n with Some _ => p ← Previous del ; store n (SetPrevious p) | None => mret tt end) ;;
  p ← Previous del ;
  (match p with Some _ => n ← Next del ; store p (SetNext n) | None => mret tt end) ;;
  decr_count.

Definition RemoveFront : K LinkedList ptr :=
  h ← kgets head ;
  match h with None => mret None | Some _ => Remove h ;; mret h end.
Definition RemoveBack : K LinkedList ptr :=
  t ← kgets tail ;
  match t with None => mret None | Some _ => Remove t ;; mret t end.
Definition RemoveBefore (node : ptr) : K LinkedList ptr :=
  match node with
  | None => mret None
  | Some _ => before ← Previous node ; Remove before ;; mret before
  end.
Definition RemoveAfter (node : ptr) : K LinkedList ptr :=
  match node with
  | None => mret None
  | Some _ => after ← Next node ; Remove after ;; mret after
  end.

Definition Head : K LinkedList ptr := kgets head.
Definition Tail : K LinkedList ptr := kgets tail.
Definition Count : K LinkedList Z := kgets count.
Definition IsEmpty : K LinkedList bool := c ← Count ; mret (c =? 0).

(** The destructor: [while ((back = RemoveBack())) delete back;], the number of
    nodes the heap can hold being its fuel. *)
Fixpoint destroy_loop (fuel : nat) : K LinkedList unit :=
  back ← RemoveBack ;
  match back, fuel with
  | None, _ => mret tt
  | Some _, O => kstuck
  | Some _, S fuel' => free back ;; destroy_loop fuel'
  end.
Definition destroy : K LinkedList unit := s ← kget ; destroy_loop (size (nodes s)).

(** ** The list a heap represents *)

Implicit Types (xs l : list (positive * T)) (h : gmap positive LinkedListNode) (p q : ptr).

(** The address of the first node, or [q]; of the last node, or [p]. *)
Definition first xs q : ptr := match xs with [] => q | x :: _ => Some x.1 end.
Fixpoint final p xs : ptr := match xs with [] => p | x :: xs' => final (Some x.1) xs' end.

(** The nodes of [xs], linked both ways, between the nodes [p] and [q]. *)
Fixpoint chain h p xs q : Prop :=
  match xs with
  | [] => True
  | x :: xs' => h !! x.1 = Some (mkNode x.2 (first xs' q) p) /\ chain h (Some x.1) xs' q
  end.

Record rep (s : LinkedList) xs : Prop := {
  rep_nodup : NoDup xs.*1;
  rep_head : head s = first xs None;
  rep_tail : tail s = final None xs;
  rep_count : count s = u32 (Z.of_nat (length xs));
  rep_chain : chain (nodes s) None xs None;
}.

Lemma first_app l1 l2 q : first (l1 ++ l2) q = first l1 (first l2 q).
Proof. by destruct l1. Qed.
Lemma final_app p l1 l2 : final p (l1 ++ l2) = final (final p l1) l2.
Proof. revert p. induction l1 as [|x l1 IH]; intros p; cbn; [done|apply IH]. Qed.
Lemma final_snoc p l x : final p (l ++ [x]) = Some x.1.
Proof. by rewrite final_app. Qed.
Lemma final_cons p x l : final p (x :: l) = final None (x :: l).
Proof. done. Qed.

Lemma chain_app h p l1 l2 q : chain h p (l1 ++ l2) q <-> chain h p l1 (first l2 q) /\ chain h (final p l1) l2 q.
Proof.
  revert p. induction l1 as [|x l1 IH]; intros p; cbn; [tauto|]. rewrite IH, first_app. tauto.
Qed.

Lemma chain_frame h h' p l q : chain h p l q -> (forall t, t ∈ l.*1 -> h' !! t = h !! t) -> chain h' p l q.
Proof.
  revert p. induction l as [|x l IH]; intros p; cbn; [done|]. intros [Hx Hl] Hf. split.
  - rewrite Hf; [done|]. by left.
  - apply IH; [done|]. intros t Ht. apply Hf. by right.
Qed.

Lemma first_elem l t : first l None = Some t -> t ∈ l.*1.
Proof. destruct l as [|x l]; cbn; [done|]. intros [= <-]. by left. Qed.
Lemma final_elem l t : final None l = Some t -> t ∈ l.*1.
Proof.
  destruct l as [|x l _] using rev_ind; [done|]. rewrite final_snoc. intros [= <-].
  rewrite fmap_app. apply elem_of_app. right. by left.
Qed.

Lemma final_None l : final None l = None -> l = [].
Proof. destruct l as [|x l _] using rev_ind; [done|]. by rewrite final_snoc. Qed.

(** Changing what the last node points to; what the first node points back to. *)
Lemma relink_last h h' p l q q' : chain h p l q -> NoDup l.*1 ->
  (forall t, t ∈ l.*1 -> h' !! t = if decide (final None l = Some t) then SetNext q' <$> h !! t else h !! t) ->
  chain h' p l q'.
Proof.
  destruct l as [|[u w] l _] using rev_ind; [done|]. rewrite final_snoc. cbn [fst snd].
  rewrite fmap_app, NoDup_app. intros Hc (_ & Hd & _) Hh. apply chain_app in Hc as [Hc [Hu _]]. cbn in Hu.
  apply chain_app. split.
  - cbn [first] in *. eapply chain_frame; [exact Hc|]. intros t Ht.
    rewrite Hh by (apply elem_of_app; by left). rewrite decide_False; [done|]. intros [= ->].
    apply (Hd t Ht). by left.
  - cbn. split; [|done]. rewrite Hh by (apply elem_of_app; right; by left). by rewrite decide_True, Hu.
Qed.
Lemma relink_first h h' p p' l q : chain h p l q -> NoDup l.*1 ->
  (forall t, t ∈ l.*1 -> h' !! t = if decide (first l None = Some t) then SetPrevious p' <$> h !! t else h !! t) ->
  chain h' p' l q.
Proof.
  destruct l as [|[u w] l]; [done|]. cbn. intros [Hu Hc] Hnd Hh. apply NoDup_cons in Hnd as [Hn _]. split.
  - rewrite Hh by by left. by rewrite decide_True, Hu.
  - eapply chain_frame; [exact Hc|]. intros t Ht. rewrite Hh by by right. rewrite decide_False; [done|].
    by intros [= ->].
Qed.

Lemma chain_elem h p l q x : chain h p l q -> x ∈ l -> exists n, h !! x.1 = Some n /\ data n = x.2.
Proof.
  revert p. induction l as [|y l IH]; intros p; cbn; [by intros _ ?%elem_of_nil|].
  intros [Hy Hc] [->|Hx]%elem_of_cons; [by eexists|by eapply IH].
Qed.
Lemma chain_mem h p l q t : chain h p l q -> t ∈ l.*1 -> is_Some (h !! t).
Proof.
  intros Hc (x & -> & Hx)%list_elem_of_fmap. destruct (chain_elem _ _ _ _ _ Hc Hx) as (n & E & _). by eexists.
Qed.

(** ** Runs of the accesses *)

Lemma Next_run s t n : nodes s !! t = Some n -> Next (Some t) s = Done (next n, s).
Proof. intros E. unfold Next, kread, load. by rewrite E. Qed.
Lemma Previous_run s t n : nodes s !! t = Some n -> Previous (Some t) s = Done (prev n, s).
Proof. intros E. unfold Previous, kread, load. by rewrite E. Qed.
Lemma node_store_run s t n f : nodes s !! t = Some n ->
  store (Some t) f s = Done (tt, set_nodes (<[t := f n]> (nodes s)) s).
Proof. intros E. unfold store. by rewrite E. Qed.

(** ** Insertion and removal in the middle of a list *)

(** The heap [h'] is [h] with the last node of [l1] pointing to [n] and the
    first of [l2] back to [p]; of the node [a] nothing is said. *)
Definition relinked h h' l1 l2 n p (a : positive) : Prop := forall t, t <> a ->
  h' !! t = if decide (final None l1 = Some t) then SetNext n <$> h !! t
            else if decide (first l2 None = Some t) then SetPrevious p <$> h !! t else h !! t.

Lemma relinked_left h h' l1 l2 n p a q : relinked h h' l1 l2 n p a -> chain h None l1 q ->
  NoDup (l1.*1 ++ l2.*1) -> a ∉ l1.*1 -> chain h' None l1 n.
Proof.
  intros Hr Hc Hnd Ha. apply NoDup_app in Hnd as (Hn1 & Hd & _). eapply relink_last; [exact Hc|done|].
  intros t Ht. rewrite Hr by congruence. destruct (decide _); [done|]. rewrite decide_False; [done|].
  intros Hf%first_elem. by apply (Hd t).
Qed.
Lemma relinked_right h h' l1 l2 n p a p' : relinked h h' l1 l2 n p a -> chain h p' l2 None ->
  NoDup (l1.*1 ++ l2.*1) -> a ∉ l2.*1 -> chain h' p l2 None.
Proof.
  intros Hr Hc Hnd Ha. apply NoDup_app in Hnd as (_ & Hd & Hn2). eapply relink_first; [exact Hc|done|].
  intros t Ht. rewrite Hr by congruence. rewrite (decide_False (P := final None l1 = Some t)); [done|].
  intros Hf%final_elem. by apply (Hd t).
Qed.

Lemma insert_rep s s' l1 l2 a v : rep s (l1 ++ l2) -> nodes s !! a = None ->
  nodes s' !! a = Some (mkNode v (first l2 None) (final None l1)) ->
  relinked (nodes s) (nodes s') l1 l2 (Some a) (Some a) a ->
  head s' = first (l1 ++ [(a, v)]) None -> tail s' = final (Some a) l2 -> count s' = u32 (count s + 1) ->
  rep s' (l1 ++ (a, v) :: l2).
Proof.
  intros [R1 R2 R3 R4 R5] Ha Hna Hr Hh Ht Hc. rewrite fmap_app in R1.
  apply chain_app in R5 as [C1 C2].
  assert (Hf : a ∉ l1.*1 /\ a ∉ l2.*1).
  { split; intros Hin.
    - destruct (chain_mem _ _ _ _ _ C1 Hin) as [n E]. congruence.
    - destruct (chain_mem _ _ _ _ _ C2 Hin) as [n E]. congruence. }
  destruct Hf as [Hf1 Hf2]. split.
  - rewrite fmap_app. cbn. apply NoDup_app in R1 as (N1 & Nd & N2). apply NoDup_app. split; [done|].
    split; [|by apply NoDup_cons]. intros t Ht1 [-> | Ht2]%elem_of_cons; [done|by apply (Nd t)].
  - rewrite Hh. by destruct l1.
  - rewrite Ht, final_app. done.
  - rewrite Hc, R4, !length_app. cbn. unfold u32, wrap. rewrite Zplus_mod_idemp_l. f_equal. lia.
  - apply chain_app. split; [by eapply relinked_left|]. cbn. split; [done|]. by eapply relinked_right.
Qed.

Lemma remove_rep s s' l1 x l2 : rep s (l1 ++ x :: l2) ->
  relinked (nodes s) (nodes s') l1 l2 (first l2 None) (final None l1) x.1 ->
  head s' = first (l1 ++ l2) None -> tail s' = final None (l1 ++ l2) -> count s' = u32 (count s - 1) ->
  rep s' (l1 ++ l2).
Proof.
  intros [R1 R2 R3 R4 R5] Hr Hh Ht Hc. rewrite fmap_app in R1. cbn in R1.
  apply chain_app in R5 as [C1 [Cx C2]]. apply NoDup_app in R1 as (N1 & Nd & [Nx N2]%NoDup_cons).
  assert (N : NoDup (l1.*1 ++ l2.*1)).
  { apply NoDup_app. split; [done|]. split; [|done]. intros t Ht1 Ht2. apply (Nd t Ht1). by right. }
  split; [by rewrite fmap_app|done|done| |].
  - rewrite Hc, R4, !length_app. cbn. unfold u32, wrap. rewrite Zminus_mod_idemp_l. f_equal. lia.
  - apply chain_app. split; [eapply relinked_left|eapply relinked_right]; try done.
    intros Hin. apply (Nd _ Hin). by left.
Qed.

(** A node of the list, as the heap has it. *)
Lemma rep_node s l1 x l2 : rep s (l1 ++ x :: l2) ->
  nodes s !! x.1 = Some (mkNode x.2 (first l2 None) (final None l1)).
Proof. intros [_ _ _ _ Hc]. apply chain_app in Hc as [_ [Hx _]]. exact Hx. Qed.
Lemma rep_fresh s xs a : rep s xs -> nodes s !! a = None -> a ∉ xs.*1.
Proof. intros [_ _ _ _ Hc] Ha Hin. destruct (chain_mem _ _ _ _ _ Hc Hin) as [n E]. congruence. Qed.
Lemma rep_last_node s l1 l2 t : rep s (l1 ++ l2) -> final None l1 = Some t ->
  exists v p, nodes s !! t = Some (mkNode v (first l2 None) p).
Proof.
  destruct l1 as [|x l1 _] using rev_ind; [done|]. rewrite final_snoc. intros Hr [= <-].
  rewrite <- app_assoc in Hr. rewrite (rep_node _ _ _ _ Hr). by eexists _, _.
Qed.

(** Step through a run: the lookups are in the heap as it was, under the
    changes made so far. *)
Ltac heap_lookup :=
  cbn [nodes set_nodes set_head set_tail set_count];
  repeat first [rewrite lookup_insert_eq | rewrite lookup_insert_ne by congruence];
  first [eassumption | reflexivity].
Ltac heap_step :=
  first [ erewrite run_bind_done; [|eapply Previous_run; heap_lookup]
        | erewrite run_bind_done; [|eapply Next_run; heap_lookup]
        | erewrite run_bind_done; [|eapply node_store_run; heap_lookup] ];
  cbn [next prev SetNext SetPrevious Node].

Lemma ret_bind_run {S A C} (a : A) (f : A -> K S C) s : (mret a ≫= f) s = f a s.
Proof. reflexivity. Qed.
Ltac heap_run := repeat (rewrite ?run_bind_assoc, ?ret_bind_run; heap_step).

(** The addresses in use after it. *)
Ltac heap_dom :=
  cbn [nodes set_nodes set_head set_tail set_count]; rewrite !dom_insert_L;
  repeat match goal with H : nodes ?s !! ?t = Some _ |- _ =>
    assert (t ∈ dom (nodes s)) by (apply elem_of_dom; by eexists); clear H end;
  set_solver.

Lemma InsertBefore_spec s l1 x l2 a v : rep s (l1 ++ x :: l2) -> nodes s !! a = None ->
  exists s', InsertBefore (Some x.1) a v s = Done (tt, s') /\ rep s' (l1 ++ (a, v) :: x :: l2) /\
    dom (nodes s') = {[a]} ∪ dom (nodes s).
Proof.
  intros Hr Ha. pose proof (rep_node _ _ _ _ Hr) as Hx.
  assert (Hxa : x.1 <> a) by (intros <-; congruence).
  unfold InsertBefore. rewrite (run_bind_done _ _ s (Some a) (set_nodes (<[a := Node v]> (nodes s)) s) eq_refl).
  do 5 heap_step. destruct (final None l1) as [t|] eqn:Ef.
  - destruct (rep_last_node _ _ _ _ Hr Ef) as (w & p & Et).
    assert (Hta : t <> a) by (intros ->; congruence).
    assert (Htx : t <> x.1).
    { intros ->. pose proof (rep_nodup _ _ Hr) as Hnd. rewrite fmap_app in Hnd. apply NoDup_app in Hnd as (_ & Hd & _).
      apply (Hd x.1); [by apply final_elem|by left]. }
    heap_step. eexists. split; [reflexivity|]. split.
    + eapply insert_rep; [exact Hr|done|..]; cbn [nodes set_nodes set_count head tail count]; try done.
      * rewrite lookup_insert_ne by done. rewrite lookup_insert_eq. by rewrite Ef.
      * intros u Hu. rewrite Ef. cbn [first]. destruct (decide (Some t = Some u)) as [[= <-]|Htu].
        { rewrite lookup_insert_eq. by rewrite Et. }
        rewrite lookup_insert_ne by congruence. rewrite lookup_insert_ne by done.
        destruct (decide (Some x.1 = Some u)) as [[= <-]|Hxu].
        { rewrite lookup_insert_eq. by rewrite Hx. }
        rewrite !lookup_insert_ne by congruence. done.
      * rewrite (rep_head _ _ Hr). destruct l1; [done|]. done.
      * rewrite (rep_tail _ _ Hr), final_app. done.
    + heap_dom.
  - apply final_None in Ef as ->.
    eexists. split; [reflexivity|]. split.
    + apply (insert_rep s _ [] (x :: l2)); [exact Hr|done|..]; cbn [nodes set_nodes set_head set_count head tail count]; try done.
      * by rewrite lookup_insert_eq.
      * intros u Hu. cbn [final first]. rewrite decide_False by done. rewrite lookup_insert_ne by done.
        destruct (decide (Some x.1 = Some u)) as [[= <-]|Hxu].
        { rewrite lookup_insert_eq. by rewrite Hx. }
        rewrite !lookup_insert_ne by congruence. done.
      * rewrite (rep_tail _ _ Hr). done.
    + heap_dom.
Qed.

Lemma InsertAfter_spec s l1 x l2 a v : rep s (l1 ++ x :: l2) -> nodes s !! a = None ->
  exists s', InsertAfter (Some x.1) a v s = Done (tt, s') /\ rep s' (l1 ++ x :: (a, v) :: l2) /\
    dom (nodes s') = {[a]} ∪ dom (nodes s).
Proof.
  intros Hr Ha. pose proof (rep_node _ _ _ _ Hr) as Hx.
  assert (Hxa : x.1 <> a) by (intros <-; congruence).
  assert (El : forall l, l1 ++ x :: l = (l1 ++ [x]) ++ l) by (intros l; by rewrite <- app_assoc).
  rewrite El in Hr |- *.
  unfold InsertAfter. rewrite (run_bind_done _ _ s (Some a) (set_nodes (<[a := Node v]> (nodes s)) s) eq_refl).
  do 5 heap_step. destruct l2 as [|y l2]; cbn [first] in *.
  - eexists. split; [reflexivity|]. split.
    + eapply insert_rep; [exact Hr|done|..]; cbn [nodes set_nodes set_tail set_count head tail count]; try done.
      * rewrite lookup_insert_eq. by rewrite final_snoc.
      * intros u Hu. rewrite final_snoc. rewrite lookup_insert_ne by done.
        destruct (decide (Some x.1 = Some u)) as [[= <-]|Hxu].
        { rewrite lookup_insert_eq. by rewrite Hx. }
        rewrite !lookup_insert_ne by congruence. done.
      * rewrite (rep_head _ _ Hr), app_nil_r. by destruct l1.
    + heap_dom.
  - pose proof (rep_node _ _ _ _ Hr) as Hy.
    assert (Hya : y.1 <> a) by (intros E; congruence).
    assert (Hxy : x.1 <> y.1).
    { intros E. pose proof (rep_nodup _ _ Hr) as Hnd. rewrite fmap_app in Hnd. apply NoDup_app in Hnd as (_ & Hd & _).
      apply (Hd x.1); [rewrite fmap_app; apply elem_of_app; right; by left|rewrite E; by left]. }
    heap_step. eexists. split; [reflexivity|]. split.
    + eapply insert_rep; [exact Hr|done|..]; cbn [nodes set_nodes set_count head tail count]; try done.
      * rewrite lookup_insert_ne by done. rewrite lookup_insert_eq. by rewrite final_snoc.
      * intros u Hu. rewrite final_snoc. cbn [first].
        destruct (decide (Some x.1 = Some u)) as [[= <-]|Hxu].
        { rewrite !lookup_insert_ne by congruence. rewrite lookup_insert_eq. by rewrite Hx. }
        destruct (decide (Some y.1 = Some u)) as [[= <-]|Hyu].
        { rewrite lookup_insert_eq. by rewrite Hy. }
        rewrite !lookup_insert_ne by congruence. done.
      * rewrite (rep_head _ _ Hr). by destruct l1.
      * rewrite (rep_tail _ _ Hr), final_app. done.
    + heap_dom.
Qed.

(** Insertion into the empty list. *)
Lemma insert_empty s s' a v : rep s [] -> head s' = Some a -> tail s' = Some a -> count s' = u32 (count s + 1) ->
  nodes s' = <[a := Node v]> (nodes s) -> rep s' [(a, v)].
Proof.
  intros [_ _ _ Hc _] Hh Ht Hc' Hn. split; cbn.
  - apply NoDup_singleton.
  - done.
  - done.
  - by rewrite Hc', Hc.
  - rewrite Hn, lookup_insert_eq. done.
Qed.

Lemma InsertFront_spec s xs a v : rep s xs -> nodes s !! a = None ->
  exists s', InsertFront a v s = Done (tt, s') /\ rep s' ((a, v) :: xs) /\ dom (nodes s') = {[a]} ∪ dom (nodes s).
Proof.
  intros Hr Ha. unfold InsertFront, kgets. rewrite run_bind. rewrite (rep_head _ _ Hr).
  destruct xs as [|x xs]; cbn [first].
  - eexists. split; [reflexivity|]. split; [by eapply insert_empty|heap_dom].
  - apply (InsertBefore_spec s [] x xs a v Hr Ha).
Qed.
Lemma InsertBack_spec s xs a v : rep s xs -> nodes s !! a = None ->
  exists s', InsertBack a v s = Done (tt, s') /\ rep s' (xs ++ [(a, v)]) /\ dom (nodes s') = {[a]} ∪ dom (nodes s).
Proof.
  intros Hr Ha. unfold InsertBack, kgets. rewrite run_bind. rewrite (rep_tail _ _ Hr).
  destruct xs as [|x xs _] using rev_ind; [|rewrite final_snoc].
  - eexists. split; [reflexivity|]. split; [by eapply insert_empty|heap_dom].
  - destruct (InsertAfter_spec s xs x [] a v Hr Ha) as (s' & E & H & Hd). exists s'.
    split; [done|]. rewrite <- app_assoc. done.
Qed.

(** *** Removal *)

(** A node at the head is the first of the list, one at the tail the last. *)
Lemma at_head s l1 x l2 : rep s (l1 ++ x :: l2) -> Some x.1 = head s <-> l1 = [].
Proof.
  intros Hr. rewrite (rep_head _ _ Hr). destruct l1 as [|y l1]; cbn; [done|]. split; [|done]. intros [= E].
  pose proof (rep_nodup _ _ Hr) as Hnd. cbn in Hnd. apply NoDup_cons in Hnd as [Hn _]. destruct Hn.
  rewrite <- E, fmap_app. apply elem_of_app. right. by left.
Qed.
Lemma at_tail s l1 x l2 : rep s (l1 ++ x :: l2) -> Some x.1 = tail s <-> l2 = [].
Proof.
  intros Hr. rewrite (rep_tail _ _ Hr), final_app. cbn. destruct l2 as [|y l2 _] using rev_ind; [done|].
  rewrite final_snoc. split; [|by destruct l2]. intros [= E].
  pose proof (rep_nodup _ _ Hr) as Hnd. rewrite fmap_app in Hnd. apply NoDup_app in Hnd as (_ & _ & Hnd).
  cbn in Hnd. apply NoDup_cons in Hnd as [Hn _]. destruct Hn. rewrite E, fmap_app. apply elem_of_app. right. by left.
Qed.

(** [Remove] changes the ends of the list first, and then goes on with the
    neighbours. *)
Definition remove_ends (del : ptr) (rest : K LinkedList unit) : K LinkedList unit :=
  h ← kgets head ;
  (if bool_decide (del = h) then n ← Next del ; kmodify (set_head n) else mret tt) ;;
  t ← kgets tail ;
  (if bool_decide (del = t) then p ← Previous del ; kmodify (set_tail p) else mret tt) ;;
  rest.

Lemma remove_ends_spec s l1 x l2 rest : rep s (l1 ++ x :: l2) ->
  remove_ends (Some x.1) rest s = rest (mkList (first (l1 ++ l2) None) (final None (l1 ++ l2)) (count s) (nodes s)).
Proof.
  intros Hr. pose proof (rep_node _ _ _ _ Hr) as Hx. pose proof (at_head _ _ _ _ Hr) as Hh.
  pose proof (at_tail _ _ _ _ Hr) as Ht. pose proof (rep_head _ _ Hr) as Eh. pose proof (rep_tail _ _ Hr) as Et.
  unfold remove_ends, kgets. rewrite run_bind. set (s1 := mkList (first (l1 ++ l2) None) (tail s) (count s) (nodes s)).
  assert (E : (if bool_decide (Some x.1 = head s) then n ← Next (Some x.1) ; kmodify (set_head n) else mret tt) s = Done (tt, s1)).
  { destruct l1 as [|y l1].
    - rewrite bool_decide_true by by apply Hh. by heap_step.
    - rewrite bool_decide_false by (intros E; by apply Hh in E). unfold mret, K_ret, s1. cbn [first app].
      cbn [first app] in Eh. rewrite <- Eh. by destruct s. }
  rewrite (run_bind_done _ _ _ _ _ E), run_bind. cbn [s1 tail].
  destruct l2 as [|y l2].
  - rewrite bool_decide_true by by apply Ht. rewrite run_bind_assoc. heap_step. unfold kmodify, set_tail. rewrite run_bind.
    cbn. by rewrite app_nil_r.
  - rewrite bool_decide_false by (intros E'; by apply Ht in E'). unfold mret, K_ret, s1. rewrite run_bind, Et, !final_app. done.
Qed.

Lemma rep_ends s l1 x l2 t u : rep s (l1 ++ x :: l2) -> final None l1 = Some t -> first l2 None = Some u ->
  t <> x.1 /\ u <> x.1 /\ t <> u.
Proof.
  intros Hr Ht%final_elem Hu%first_elem. pose proof (rep_nodup _ _ Hr) as Hnd.
  rewrite fmap_app in Hnd. cbn in Hnd. apply NoDup_app in Hnd as (_ & Hd & [Hn _]%NoDup_cons).
  split; [|split].
  - intros ->. apply (Hd x.1 Ht). by left.
  - by intros ->.
  - intros ->. apply (Hd u Ht). by right.
Qed.
Lemma rep_last s l1 x l2 t : rep s (l1 ++ x :: l2) -> final None l1 = Some t ->
  t <> x.1 /\ exists v p, nodes s !! t = Some (mkNode v (Some x.1) p).
Proof.
  intros Hr Ht. split; [|by apply (rep_last_node s l1 (x :: l2))].
  pose proof (rep_nodup _ _ Hr) as Hnd. rewrite fmap_app in Hnd. cbn in Hnd. apply NoDup_app in Hnd as (_ & Hd & _).
  intros ->. apply (Hd x.1); [by apply final_elem|by left].
Qed.
Lemma rep_next s l1 x l2 u : rep s (l1 ++ x :: l2) -> first l2 None = Some u ->
  u <> x.1 /\ exists v n, nodes s !! u = Some (mkNode v n (Some x.1)).
Proof.
  intros Hr Hu. destruct l2 as [|y l2]; [done|]. injection Hu as <-. split.
  - intros E. pose proof (rep_nodup _ _ Hr) as Hnd. rewrite fmap_app in Hnd. cbn in Hnd.
    apply NoDup_app in Hnd as (_ & _ & [Hn _]%NoDup_cons). rewrite E in Hn. apply Hn. by left.
  - assert (El : l1 ++ x :: y :: l2 = (l1 ++ [x]) ++ y :: l2) by by rewrite <- app_assoc. rewrite El in Hr.
    rewrite (rep_node _ _ _ _ Hr), final_snoc. by eexists _, _.
Qed.

Lemma Remove_spec s l1 x l2 : rep s (l1 ++ x :: l2) ->
  exists s', Remove (Some x.1) s = Done (tt, s') /\ rep s' (l1 ++ l2) /\ dom (nodes s') = dom (nodes s).
Proof.
  intros Hr. pose proof (rep_node _ _ _ _ Hr) as Hx.
  change (Remove (Some x.1)) with (remove_ends (Some x.1) (
      n ← Next (Some x.1) ;
      (match n with Some _ => p ← Previous (Some x.1) ; store n (SetPrevious p) | None => mret tt end) ;;
      p ← Previous (Some x.1) ;
      (match p with Some _ => n ← Next (Some x.1) ; store p (SetNext n) | None => mret tt end) ;;
      decr_count)).
  rewrite (remove_ends_spec _ _ _ _ _ Hr). heap_step.
  assert (Hfin : forall h', relinked (nodes s) h' l1 l2 (first l2 None) (final None l1) x.1 ->
    rep (mkList (first (l1 ++ l2) None) (final None (l1 ++ l2)) (u32 (count s - 1)) h') (l1 ++ l2)).
  { intros h' Hl. by eapply remove_rep. }
  unfold relinked in Hfin.
  destruct (first l2 None) as [u|] eqn:Eu, (final None l1) as [t|] eqn:Et.
  - destruct (rep_next _ _ _ _ _ Hr Eu) as (Hux & w & n & Hu). destruct (rep_last _ _ _ _ _ Hr Et) as (Htx & w' & p & Ht).
    destruct (rep_ends _ _ _ _ _ _ Hr Et Eu) as (_ & _ & Htu).
    heap_run. eexists. split; [reflexivity|]. split; [|heap_dom].
    apply Hfin. intros y Hy. cbn [nodes set_nodes].
    destruct (decide (Some t = Some y)) as [[= <-]|Hty]; [by rewrite lookup_insert_eq, Ht|].
    rewrite lookup_insert_ne by congruence.
    destruct (decide (Some u = Some y)) as [[= <-]|Huy]; [by rewrite lookup_insert_eq, Hu|].
    by rewrite lookup_insert_ne by congruence.
  - destruct (rep_next _ _ _ _ _ Hr Eu) as (Hux & w & n & Hu).
    heap_run. rewrite ?ret_bind_run. eexists. split; [reflexivity|]. split; [|heap_dom].
    apply Hfin. intros y Hy. cbn [nodes set_nodes]. rewrite decide_False by done.
    destruct (decide (Some u = Some y)) as [[= <-]|Huy]; [by rewrite lookup_insert_eq, Hu|].
    by rewrite lookup_insert_ne by congruence.
  - destruct (rep_last _ _ _ _ _ Hr Et) as (Htx & w' & p & Ht).
    heap_run. eexists. split; [reflexivity|]. split; [|heap_dom].
    apply Hfin. intros y Hy. cbn [nodes set_nodes].
    destruct (decide (Some t = Some y)) as [[= <-]|Hty]; [by rewrite lookup_insert_eq, Ht|].
    rewrite decide_False by done. by rewrite lookup_insert_ne by congruence.
  - heap_run. rewrite ?ret_bind_run. eexists. split; [reflexivity|]. split; [|done].
    apply Hfin. intros y Hy. by rewrite !decide_False by done.
Qed.

(** The nodes that are removed at an end or next to a node. *)
Lemma RemoveFront_spec s xs : rep s xs ->
  match xs with
  | [] => RemoveFront s = Done (None, s)
  | x :: xs' => exists s', RemoveFront s = Done (Some x.1, s') /\ rep s' xs' /\ dom (nodes s') = dom (nodes s)
  end.
Proof.
  intros Hr. unfold RemoveFront, kgets. rewrite run_bind, (rep_head _ _ Hr). destruct xs as [|x xs]; [done|].
  destruct (Remove_spec s [] x xs Hr) as (s' & E & H). exists s'. split; [|exact H]. cbn [first].
  by rewrite (run_bind_done _ _ _ _ _ E).
Qed.
Lemma RemoveBack_spec s xs : rep s xs ->
  (xs = [] /\ RemoveBack s = Done (None, s)) \/
  exists xs' x s', xs = xs' ++ [x] /\ RemoveBack s = Done (Some x.1, s') /\ rep s' xs' /\ dom (nodes s') = dom (nodes s).
Proof.
  intros Hr. unfold RemoveBack, kgets. rewrite run_bind, (rep_tail _ _ Hr).
  destruct xs as [|x xs _] using rev_ind; [by left|right]. rewrite final_snoc.
  destruct (Remove_spec s xs x [] Hr) as (s' & E & H & Hd). rewrite app_nil_r in H. exists xs, x, s'.
  split; [done|]. split; [|done]. by rewrite (run_bind_done _ _ _ _ _ E).
Qed.
Lemma RemoveBefore_spec s l1 x y l2 : rep s (l1 ++ x :: y :: l2) ->
  exists s', RemoveBefore (Some y.1) s = Done (Some x.1, s') /\ rep s' (l1 ++ y :: l2) /\ dom (nodes s') = dom (nodes s).
Proof.
  intros Hr. destruct (Remove_spec s l1 x (y :: l2) Hr) as (s' & E & H). exists s'. split; [|exact H].
  assert (El : l1 ++ x :: y :: l2 = (l1 ++ [x]) ++ y :: l2) by by rewrite <- app_assoc. rewrite El in Hr.
  pose proof (rep_node _ _ _ _ Hr) as Hy. rewrite final_snoc in Hy. unfold RemoveBefore. heap_step.
  by rewrite (run_bind_done _ _ _ _ _ E).
Qed.
Lemma RemoveAfter_spec s l1 x y l2 : rep s (l1 ++ x :: y :: l2) ->
  exists s', RemoveAfter (Some x.1) s = Done (Some y.1, s') /\ rep s' (l1 ++ x :: l2) /\ dom (nodes s') = dom (nodes s).
Proof.
  intros Hr. pose proof (rep_node _ _ _ _ Hr) as Hx. cbn [first] in Hx.
  assert (El : forall l, l1 ++ x :: l = (l1 ++ [x]) ++ l) by (intros l; by rewrite <- app_assoc). rewrite El in Hr.
  destruct (Remove_spec s (l1 ++ [x]) y l2 Hr) as (s' & E & H & Hd). exists s'. rewrite El.
  split; [|done]. unfold RemoveAfter. heap_step. by rewrite (run_bind_done _ _ _ _ _ E).
Qed.
(** There is no node before the head, and none after the tail: removing it
    dereferences NULL. *)
Lemma Remove_NULL s : Remove None s = Fault.
Proof. by destruct s as [[] [] c n]. Qed.
Lemma RemoveBefore_head_faults s x xs : rep s (x :: xs) -> RemoveBefore (Some x.1) s = Fault.
Proof.
  intros Hr. pose proof (rep_node s [] x xs Hr) as Hx. unfold RemoveBefore. heap_step.
  rewrite run_bind. cbn [final]. by rewrite Remove_NULL.
Qed.
Lemma RemoveAfter_tail_faults s xs x : rep s (xs ++ [x]) -> RemoveAfter (Some x.1) s = Fault.
Proof.
  intros Hr. pose proof (rep_node s xs x [] Hr) as Hx. unfold RemoveAfter. heap_step.
  rewrite run_bind. cbn [first]. by rewrite Remove_NULL.
Qed.

(** Deleting a node that is no longer in the list. *)
Lemma free_spec s xs t : rep s xs -> t ∉ xs.*1 ->
  exists s', free (Some t) s = Done (tt, s') /\ rep s' xs /\ nodes s' = delete t (nodes s).
Proof.
  intros [R1 R2 R3 R4 R5] Ht. eexists. split; [reflexivity|]. split; [|done]. split; [done..|].
  eapply chain_frame; [exact R5|]. intros u Hu. cbn. rewrite lookup_delete_ne; [done|]. by intros ->.
Qed.

Lemma destroy_loop_spec xs : forall s fuel, rep s xs -> (length xs <= fuel)%nat ->
  exists s', destroy_loop fuel s = Done (tt, s') /\ rep s' [] /\ dom (nodes s') = dom (nodes s) ∖ list_to_set xs.*1.
Proof.
  induction xs as [|x xs IH] using rev_ind; intros s fuel Hr Hf.
  - pose proof (RemoveBack_spec _ _ Hr) as [[_ E]|(xs' & x & s' & Hx & _)]; [|by destruct xs'].
    destruct fuel; cbn [destroy_loop]; rewrite (run_bind_done _ _ _ _ _ E); exists s; (split; [done|]; split; [done|]; set_solver).
  - pose proof (RemoveBack_spec _ _ Hr) as [[Hn _]|(xs' & x' & s1 & Hx & E & Hr1 & Hd1)]; [by destruct xs|].
    apply app_inj_tail in Hx as [<- <-]. rewrite length_app in Hf. cbn in Hf. destruct fuel as [|fuel]; [lia|].
    cbn [destroy_loop]. rewrite (run_bind_done _ _ _ _ _ E).
    pose proof (rep_nodup _ _ Hr) as Hnd. rewrite fmap_app in Hnd. apply NoDup_app in Hnd as (_ & Hd & _).
    destruct (free_spec s1 xs x.1 Hr1) as (s2 & E2 & Hr2 & Hn2).
    { intros Hin. apply (Hd _ Hin). by left. }
    rewrite (run_bind_done _ _ _ _ _ E2). destruct (IH s2 fuel Hr2) as (s3 & E3 & Hr3 & Hd3); [lia|].
    exists s3. split; [done|]. split; [done|]. rewrite Hd3, Hn2, dom_delete_L, Hd1, fmap_app, list_to_set_app_L. set_solver.
Qed.

Lemma rep_size s xs : rep s xs -> (length xs <= size (nodes s))%nat.
Proof.
  intros Hr. rewrite <- size_dom. rewrite <- (length_fmap fst xs).
  assert (Hs : size (list_to_set xs.*1 : gset positive) = length xs.*1) by (apply size_list_to_set, (rep_nodup _ _ Hr)).
  rewrite <- Hs. apply subseteq_size. intros t Ht%elem_of_list_to_set.
  destruct (chain_mem _ _ _ _ _ (rep_chain _ _ Hr) Ht) as [n E]. apply elem_of_dom. by eexists.
Qed.

(** ** The abstract list, and sequences of calls *)

Inductive call :=
  | CInsertFront (a : positive) (v : T) | CInsertBack (a : positive) (v : T)
  | CInsertBefore (n : positive) (a : positive) (v : T) | CInsertAfter (n : positive) (a : positive) (v : T)
  | CRemove (n : positive) | CRemoveFront | CRemoveBack | CRemoveBefore (n : positive) | CRemoveAfter (n : positive)
  | CDelete (n : positive).

(** A call on the code: the node it returns, if any. *)
Definition do_call (c : call) : K LinkedList ptr :=
  match c with
  | CInsertFront a v => InsertFront a v ;; mret None
  | CInsertBack a v => InsertBack a v ;; mret None
  | CInsertBefore n a v => InsertBefore (Some n) a v ;; mret None
  | CInsertAfter n a v => InsertAfter (Some n) a v ;; mret None
  | CRemove n => Remove (Some n) ;; mret None
  | CRemoveFront => RemoveFront
  | CRemoveBack => RemoveBack
  | CRemoveBefore n => RemoveBefore (Some n)
  | CRemoveAfter n => RemoveAfter (Some n)
  | CDelete n => free (Some n) ;; mret None
  end.

(** A call on the list of addresses and values, with the set [used] of the
    addresses of nodes.  [absent] says that the caller is in error. *)
Definition split_at (n : positive) xs : option (list (positive * T) * (positive * T) * list (positive * T)) :=
  '(i, x) ← list_find (fun x => x.1 = n) xs ; Some (take i xs, x, drop (S i) xs).
Definition fresh_in (a : positive) (used : gset positive) : bool := bool_decide (a ∉ used).

Definition abs_call (c : call) (x : list (positive * T) * gset positive)
    : option (ptr * (list (positive * T) * gset positive)) :=
  let '(xs, used) := x in
  match c with
  | CInsertFront a v => guard (a ∉ used) ;; Some (None, ((a, v) :: xs, {[a]} ∪ used))
  | CInsertBack a v => guard (a ∉ used) ;; Some (None, (xs ++ [(a, v)], {[a]} ∪ used))
  | CInsertBefore n a v => guard (a ∉ used) ;;
      '(l1, x, l2) ← split_at n xs ; Some (None, (l1 ++ (a, v) :: x :: l2, {[a]} ∪ used))
  | CInsertAfter n a v => guard (a ∉ used) ;;
      '(l1, x, l2) ← split_at n xs ; Some (None, (l1 ++ x :: (a, v) :: l2, {[a]} ∪ used))
  | CRemove n => '(l1, x, l2) ← split_at n xs ; Some (None, (l1 ++ l2, used))
  | CRemoveFront => Some (first xs None, (drop 1 xs, used))
  | CRemoveBack => Some (final None xs, (take (length xs - 1) xs, used))
  | CRemoveBefore n =>
      '(l1, x, l2) ← split_at n xs ;
      match last l1 with None => None | Some y => Some (Some y.1, (take (length l1 - 1) l1 ++ x :: l2, used)) end
  | CRemoveAfter n =>
      '(l1, x, l2) ← split_at n xs ;
      match l2 with [] => None | y :: l2' => Some (Some y.1, (l1 ++ x :: l2', used)) end
  | CDelete n => guard (n ∉ xs.*1) ;; Some (None, (xs, used ∖ {[n]}))
  end.

Fixpoint do_calls (cs : list call) : K LinkedList (list ptr) :=
  match cs with
  | [] => mret []
  | c :: cs' => r ← do_call c ; rs ← do_calls cs' ; mret (r :: rs)
  end.
Fixpoint abs_calls (cs : list call) x : option (list ptr * (list (positive * T) * gset positive)) :=
  match cs with
  | [] => Some ([], x)
  | c :: cs' => '(r, x) ← abs_call c x ; '(rs, x) ← abs_calls cs' x ; Some (r :: rs, x)
  end.


Lemma split_at_Some n xs l1 x l2 : split_at n xs = Some (l1, x, l2) -> xs = l1 ++ x :: l2 /\ x.1 = n.
Proof.
  unfold split_at. intros H. apply bind_Some in H as ([i y] & Hf & [= <- <- <-]).
  apply list_find_Some in Hf as (Hi & Hn & _). split; [|done]. symmetry. by apply take_drop_middle.
Qed.

Lemma do_call_refines c s xs used r xs' used' : rep s xs -> dom (nodes s) = used ->
  abs_call c (xs, used) = Some (r, (xs', used')) ->
  exists s', do_call c s = Done (r, s') /\ rep s' xs' /\ dom (nodes s') = used'.
Proof.
  intros Hr <- E. assert (Hfresh : forall a, a ∉ dom (nodes s) -> nodes s !! a = None) by (intros a; apply not_elem_of_dom).
  destruct c; cbn in E; repeat (case_guard; cbn in E; [|discriminate E]); cbn [do_call].
  - injection E as <- <- <-. destruct (InsertFront_spec s xs a v Hr) as (s' & E & ? & ?); [auto|].
    exists s'. by rewrite (run_bind_done _ _ _ _ _ E).
  - injection E as <- <- <-. destruct (InsertBack_spec s xs a v Hr) as (s' & E & ? & ?); [auto|].
    exists s'. by rewrite (run_bind_done _ _ _ _ _ E).
  - apply bind_Some in E as ([[l1 x] l2] & [-> <-]%split_at_Some & [= <- <- <-]).
    destruct (InsertBefore_spec s l1 x l2 a v Hr) as (s' & E & ? & ?); [auto|].
    exists s'. by rewrite (run_bind_done _ _ _ _ _ E).
  - apply bind_Some in E as ([[l1 x] l2] & [-> <-]%split_at_Some & [= <- <- <-]).
    destruct (InsertAfter_spec s l1 x l2 a v Hr) as (s' & E & ? & ?); [auto|].
    exists s'. by rewrite (run_bind_done _ _ _ _ _ E).
  - apply bind_Some in E as ([[l1 x] l2] & [-> <-]%split_at_Some & [= <- <- <-]).
    destruct (Remove_spec s l1 x l2 Hr) as (s' & E & ? & ?).
    exists s'. by rewrite (run_bind_done _ _ _ _ _ E).
  - injection E as <- <- <-. pose proof (RemoveFront_spec s xs Hr) as H. destruct xs as [|x xs]; [by exists s|].
    destruct H as (s' & E & ? & ?). by exists s'.
  - injection E as <- <- <-. destruct (RemoveBack_spec s xs Hr) as [[-> E]|(xs' & x & s' & -> & E & ? & ?)]; [by exists s|].
    exists s'. rewrite final_snoc, length_app, Nat.add_sub, take_app_length. done.
  - apply bind_Some in E as ([[l1 x] l2] & [-> <-]%split_at_Some & E).
    destruct l1 as [|y l1 _] using rev_ind; [done|]. rewrite last_snoc in E. injection E as <- <- <-.
    rewrite <- app_assoc in Hr. destruct (RemoveBefore_spec s l1 y x l2 Hr) as (s' & E & ? & ?).
    exists s'. by rewrite length_app, Nat.add_sub, take_app_length.
  - apply bind_Some in E as ([[l1 x] l2] & [-> <-]%split_at_Some & E).
    destruct l2 as [|y l2]; [done|]. injection E as <- <- <-.
    destruct (RemoveAfter_spec s l1 x y l2 Hr) as (s' & E & ? & ?). by exists s'.
  - injection E as <- <- <-. destruct (free_spec s xs n Hr) as (s' & E & ? & Hn); [done|].
    exists s'. rewrite (run_bind_done _ _ _ _ _ E), Hn, dom_delete_L. done.
Qed.

Lemma do_calls_refine cs : forall s xs used rs xs' used', rep s xs -> dom (nodes s) = used ->
  abs_calls cs (xs, used) = Some (rs, (xs', used')) ->
  exists s', do_calls cs s = Done (rs, s') /\ rep s' xs' /\ dom (nodes s') = used'.
Proof.
  induction cs as [|c cs IH]; intros s xs used rs xs' used' Hr Hd E; cbn [abs_calls do_calls] in *.
  - injection E as <- <- <-. by exists s.
  - apply bind_Some in E as ([r [xs1 used1]] & E1 & E). apply bind_Some in E as ([rs1 [xs2 used2]] & E2 & [= <- <- <-]).
    destruct (do_call_refines c s xs used r xs1 used1 Hr Hd E1) as (s1 & Ec & Hr1 & Hd1).
    destruct (IH s1 xs1 used1 rs1 xs2 used2 Hr1 Hd1 E2) as (s2 & Ecs & Hr2 & Hd2). exists s2.
    by rewrite (run_bind_done _ _ _ _ _ Ec), (run_bind_done _ _ _ _ _ Ecs).
Qed.

Lemma rep_default h : rep (LinkedList_default h) [].
Proof. split; [apply NoDup_nil_2|done|done|done|done]. Qed.

End linked_list.
Arguments LinkedListNode : clear implicits.
Arguments LinkedList : clear implicits.

(** C20. Any sequence of calls that the abstract list allows (addresses from the
    allocator are new, nodes named in a call are in the list, there is a node to
    remove) runs on the code without a fault, returns the same nodes, and leaves
    a heap that represents the abstract list, with [Count()] its length modulo
    2^32; the destructor then returns, and frees exactly the nodes of the list. *)
Theorem linked_list_refines_list {T} (h : gmap positive (LinkedListNode T)) cs rs xs used :
  abs_calls cs ([], dom h) = Some (rs, (xs, used)) ->
  exists s, do_calls cs (LinkedList_default h) = Done (rs, s) /\ rep s xs /\ dom (nodes s) = used /\
    Count s = Done (u32 (Z.of_nat (length xs)), s) /\
    exists s', destroy s = Done (tt, s') /\ rep s' [] /\ dom (nodes s') = used ∖ list_to_set xs.*1.
Proof.
  intros E. destruct (do_calls_refine cs (LinkedList_default h) [] (dom h) rs xs used) as (s & Es & Hr & Hd);
    [apply rep_default|done|done|].
  exists s. do 3 (split; [done|]). split; [by unfold Count, kgets; rewrite (rep_count _ _ Hr)|].
  destruct (destroy_loop_spec xs s (size (nodes s)) Hr (rep_size s xs Hr)) as (s' & E' & Hr' & Hd').
  exists s'. by rewrite <- Hd.
Qed.

Lemma linked_list_refines_list_witness :
  exists s, do_calls [CInsertBack 1 10; CInsertBack 2 20; CInsertFront 3 30; CInsertAfter 1 4 40; CRemoveBefore 1; CRemoveBack]
              (LinkedList_default (∅ : gmap positive (LinkedListNode Z))) = Done ([None; None; None; None; Some 3%positive; Some 2%positive], s)
            /\ rep s [(1%positive, 10); (4%positive, 40)].
Proof.
  destruct (linked_list_refines_list (∅ : gmap positive (LinkedListNode Z))
    [CInsertBack 1 10; CInsertBack 2 20; CInsertFront 3 30; CInsertAfter 1 4 40; CRemoveBefore 1; CRemoveBack]
    [None; None; None; None; Some 3%positive; Some 2%positive] [(1%positive, 10); (4%positive, 40)] {[1; 2; 3; 4]}%positive)
    as (s & E & Hr & _).
  - vm_compute. reflexivity.
  - exists s. split; [exact E|exact Hr].
Defined.
