(* ===== verification/KString.v ===== *)
(** * Strings and memory blocks (Library/string.cpp)

    Memory is a finite map from addresses to bytes; an access outside of it is
    a fault.  A loop that runs to a terminator has the size of memory as its
    fuel: it visits other addresses in every round. *)
From S2P Require Import Prelude Words.
From Stdlib Require Import ZArith Lia Bool.
From stdpp Require Import base strings numbers functions gmap list.
#[local] Open Scope Z_scope.

Abbreviation memory := (gmap Z Z).

Definition load (p : Z) (m : memory) : outcome Z := match m !! p with Some b => Done b | None => Fault end.
Definition store (p b : Z) : K memory unit := fun m =>
  match m !! p with Some _ => Done (tt, <[p := b]> m) | None => Fault end.

(** ** Strings *)

Fixpoint strlen_loop (fuel : nat) (s i : Z) (m : memory) : outcome Z :=
  c ← load (s + i) m ;
  if c =? 0 then Done i else
  match fuel with
  | O => Stuck
  | S fuel' => i' ← int_ok (i + 1) ; strlen_loop fuel' s i' m
  end.
Definition strlen (s : Z) (m : memory) : outcome Z := strlen_loop (size m) s 0 m.

(** [memcpy], [memset], [memmove] and [memcmp]. *)
Definition memcpy (dst src size : Z) : K memory Z :=
  kfor (Z.to_nat size) 0 1 (fun i => b ← kread (load (src + i)) ; store (dst + i) b) ;;
  mret dst.
Definition memset (buf value size : Z) : K memory Z :=
  kfor (Z.to_nat size) 0 1 (fun i => store (buf + i) (u8 value)) ;;
  mret buf.
Definition memmove (dst src size : Z) : K memory Z :=
  (if dst <? src then
     kfor (Z.to_nat size) 0 1 (fun i => b ← kread (load (src + i)) ; store (dst + i) b)
   else
     kfor (Z.to_nat size) size (-1) (fun i => b ← kread (load (src + (i - 1))) ; store (dst + (i - 1)) b)) ;;
  mret dst.
Definition memcmp (a b num : Z) (m : memory) : outcome Z :=
  r ← search (Z.to_nat num) 0 (fun i =>
        x ← load (a + i) m ;
        y ← load (b + i) m ;
        if x <? y then Done (Some (s32 (u32 (- i))))
        else if x >? y then Done (Some (s32 i)) else Done None) ;
  Done (match r with Some v => v | None => 0 end).

Definition strcat (dest src : Z) : K memory Z :=
  len_dest ← kread (strlen dest) ;
  len_src ← kread (strlen src) ;
  memcpy (dest + len_dest) src (len_src + 1) ;;
  mret dest.

Fixpoint strcpy_loop (fuel : nat) (dest src : Z) : K memory unit :=
  c ← kread (load src) ;
  if c =? 0 then store dest 0 else
  match fuel with
  | O => kstuck
  | S fuel' => store dest c ;; strcpy_loop fuel' (dest + 1) (src + 1)
  end.
Definition strcpy (dest src : Z) : K memory unit := m ← kget ; strcpy_loop (size m) dest src.

Fixpoint strncpy_loop (fuel : nat) (dest src len : Z) : K memory unit :=
  c ← kread (load src) ;
  if (c =? 0) || (len =? 0) then store dest 0 else
  match fuel with
  | O => kstuck
  | S fuel' => store dest c ;; strncpy_loop fuel' (dest + 1) (src + 1) (len - 1)
  end.
Definition strncpy (dest src len : Z) : K memory unit := m ← kget ; strncpy_loop (size m) dest src len.

(** A [char] is signed. *)
Fixpoint strcmp_loop (fuel : nat) (s1 s2 : Z) (m : memory) : outcome Z :=
  c1 ← load s1 m ;
  c2 ← load s2 m ;
  if (c1 =? 0) || negb (c1 =? c2) then Done (s8 c1 - s8 c2) else
  match fuel with
  | O => Stuck
  | S fuel' => strcmp_loop fuel' (s1 + 1) (s2 + 1) m
  end.
Definition strcmp (s1 s2 : Z) (m : memory) : outcome Z := strcmp_loop (size m) s1 s2 m.

Fixpoint strstr_loop (fuel : nat) (haystack needle : Z) (m : memory) : outcome (option Z) :=
  c ← load haystack m ;
  if c =? 0 then Done None else
  n ← load needle m ;
  eq ← (if c =? n then strcmp haystack needle m else Done 1) ;
  if (c =? n) && (eq =? 0) then Done (Some haystack) else
  match fuel with
  | O => Stuck
  | S fuel' => strstr_loop fuel' (haystack + 1) needle m
  end.
Definition strstr (haystack needle : Z) (m : memory) : outcome (option Z) := strstr_loop (size m) haystack needle m.

(** [for (i = 0; i < j; i++, j--)]. *)
Fixpoint reverse_loop (fuel : nat) (s i j : Z) : K memory unit :=
  if i <? j then
    match fuel with
    | O => kstuck
    | S fuel' =>
        c ← kread (load (s + i)) ;
        d ← kread (load (s + j)) ;
        store (s + i) d ;;
        store (s + j) c ;;
        reverse_loop fuel' s (i + 1) (j - 1)
    end
  else mret tt.
Definition reverse (s : Z) : K memory unit :=
  n ← kread (strlen s) ;
  m ← kget ;
  reverse_loop (size m) s 0 (n - 1).

Definition ch_0 : Z := 48.
Definition ch_minus : Z := 45.

(** The digits of a number below 2^31; there are at most ten. *)
Fixpoint itoa_loop (fuel : nat) (str i n : Z) : K memory Z :=
  store (str + i) (u8 (n mod 10 + ch_0)) ;;
  let n := n / 10 in
  if n >? 0 then
    match fuel with
    | O => kstuck
    | S fuel' => itoa_loop fuel' str (i + 1) n
    end
  else mret (i + 1).
(** The negation of [INT_MIN] overflows. *)
Definition itoa (n str : Z) : K memory unit :=
  let sign := n in
  n ← kread (fun _ => if sign <? 0 then int_ok (- n) else Done n) ;
  i ← itoa_loop 9 str 0 n ;
  i ← (if sign <? 0 then store (str + i) ch_minus ;; mret (i + 1) else mret i) ;
  store (str + i) 0 ;;
  reverse str.

(** ** Bytes in memory *)

Fixpoint bytes (m : memory) (p : Z) (l : list Z) : Prop :=
  match l with
  | [] => True
  | b :: l' => m !! p = Some b /\ bytes m (p + 1) l'
  end.
(** The string [s] is at [p]. *)
Definition is_char (b : Z) : Prop := 0 < b < 256.
Definition cstr (m : memory) (p : Z) (s : list Z) : Prop := bytes m p (s ++ [0]) /\ Forall is_char s.
(** [n] bytes at [p] can be written. *)
Definition mapped (m : memory) (p n : Z) : Prop := forall a, p <= a < p + n -> is_Some (m !! a).

Lemma bytes_lookup m p l : bytes m p l <-> forall i b, l !! i = Some b -> m !! (p + Z.of_nat i) = Some b.
Proof.
  revert p. induction l as [|c l IH]; intros p; cbn [bytes].
  - split; [|done]. intros _ i b Hb. by rewrite lookup_nil in Hb.
  - rewrite IH. split.
    + intros [Hc Hl] [|i] b Hb; [injection Hb as <-; by rewrite Z.add_0_r|].
      replace (p + Z.of_nat (S i)) with (p + 1 + Z.of_nat i) by lia. by apply Hl.
    + intros H. split.
      * specialize (H 0%nat c eq_refl). by rewrite Z.add_0_r in H.
      * intros i b Hb. replace (p + 1 + Z.of_nat i) with (p + Z.of_nat (S i)) by lia. by apply H.
Qed.
Lemma bytes_app m p l1 l2 : bytes m p (l1 ++ l2) <-> bytes m p l1 /\ bytes m (p + Z.of_nat (length l1)) l2.
Proof.
  revert p. induction l1 as [|b l1 IH]; intros p; cbn [bytes app length]; [rewrite Z.add_0_r; tauto|].
  rewrite IH. replace (p + Z.of_nat (S (length l1))) with (p + 1 + Z.of_nat (length l1)) by lia. tauto.
Qed.
Lemma bytes_mapped m p l : bytes m p l -> mapped m p (Z.of_nat (length l)).
Proof.
  intros Hb a Ha. destruct (lookup_lt_is_Some_2 l (Z.to_nat (a - p))) as [b Eb]; [lia|].
  exists b. rewrite bytes_lookup in Hb. replace a with (p + Z.of_nat (Z.to_nat (a - p))) by lia. by apply Hb.
Qed.
(** As many bytes as there are addresses. *)
Lemma mapped_size m p n : mapped m p n -> 0 <= n -> (Z.to_nat n <= size m)%nat.
Proof.
  intros Hm Hn. rewrite <- size_dom.
  pose (l := (fun i => p + Z.of_nat i) <$> seq 0 (Z.to_nat n)).
  assert (Hnd : NoDup l) by (apply NoDup_fmap; [intros x y; lia|apply NoDup_seq]).
  assert (Hl : length l = Z.to_nat n) by (unfold l; by rewrite length_fmap, length_seq).
  rewrite <- Hl, <- (size_list_to_set (C := gset Z) l Hnd). apply subseteq_size.
  intros a (i & -> & Hi)%elem_of_list_to_set%list_elem_of_fmap. apply elem_of_seq in Hi.
  apply elem_of_dom, Hm. lia.
Qed.
Lemma cstr_size m p s : cstr m p s -> (S (length s) <= size m)%nat.
Proof.
  intros [Hb _]. pose proof (mapped_size m p _ (bytes_mapped _ _ _ Hb)) as H. rewrite length_app in H. cbn in H. lia.
Qed.
Lemma cstr_lookup m p s i : cstr m p s -> 0 <= i < Z.of_nat (length s) ->
  exists b, s !! Z.to_nat i = Some b /\ m !! (p + i) = Some b /\ is_char b.
Proof.
  intros [Hb Hs] Hi. apply bytes_app in Hb as [Hb _]. destruct (lookup_lt_is_Some_2 s (Z.to_nat i)) as [b Eb]; [lia|].
  exists b. split; [done|]. split; [|by eapply Forall_lookup_1 in Hs].
  rewrite bytes_lookup in Hb. specialize (Hb _ _ Eb). by replace (p + i) with (p + Z.of_nat (Z.to_nat i)) by lia.
Qed.
Lemma cstr_end m p s : cstr m p s -> m !! (p + Z.of_nat (length s)) = Some 0.
Proof. intros [Hb _]. by apply bytes_app in Hb as [_ [Hb _]]. Qed.
Lemma cstr_cons m p c s : cstr m p (c :: s) <-> m !! p = Some c /\ is_char c /\ cstr m (p + 1) s.
Proof. unfold cstr. cbn. rewrite Forall_cons. tauto. Qed.
Lemma cstr_nil m p : cstr m p [] <-> m !! p = Some 0.
Proof. unfold cstr. cbn. split; [by intros [[? _] _]|by intros ?]. Qed.

(** The memory [m'] is [m] with [n] bytes copied from [s] to [d]. *)
Definition copied (m m' : memory) (d s n : Z) : Prop :=
  forall a, m' !! a = if (d <=? a) && (a <? d + n) then m !! (s + (a - d)) else m !! a.

Lemma copied_bytes m m' d s l : copied m m' d s (Z.of_nat (length l)) -> bytes m s l -> bytes m' d l.
Proof.
  rewrite !bytes_lookup. intros Hc Hb i b Hi. rewrite Hc. pose proof (lookup_lt_Some _ _ _ Hi) as Hlt.
  destruct (Z.leb_spec d (d + Z.of_nat i)); [|lia]. destruct (Z.ltb_spec (d + Z.of_nat i) (d + Z.of_nat (length l))); [|lia].
  cbn. replace (s + (d + Z.of_nat i - d)) with (s + Z.of_nat i) by lia. by apply Hb.
Qed.

(** ** Blocks *)

Lemma load_run m p b : m !! p = Some b -> load p m = Done b.
Proof. intros E. unfold load. by rewrite E. Qed.
Lemma kread_load m p b : m !! p = Some b -> kread (load p) m = Done (b, m).
Proof. intros E. unfold kread, load. by rewrite E. Qed.
Lemma store_run m p b : is_Some (m !! p) -> store p b m = Done (tt, <[p := b]> m).
Proof. intros [c E]. unfold store. by rewrite E. Qed.

(** Case analysis on the comparisons in a goal. *)
Ltac decide_ranges :=
  repeat match goal with
    | |- context [?x <=? ?y] => destruct (Z.leb_spec x y); cbn [andb]; try lia
    | |- context [?x <? ?y] => destruct (Z.ltb_spec x y); cbn [andb]; try lia
    end.

Lemma copied_0 m d s : copied m m d s 0.
Proof. intros a. by decide_ranges. Qed.

Lemma copied_step m m' d s k b : copied m m' d s k -> 0 <= k -> m !! (s + k) = Some b ->
  copied m (<[d + k := b]> m') d s (k + 1).
Proof.
  intros Hc Hk Hb a. destruct (decide (a = d + k)) as [->|Hne].
  - rewrite lookup_insert_eq. decide_ranges. by replace (s + (d + k - d)) with (s + k) by lia.
  - rewrite lookup_insert_ne by done. rewrite Hc. decide_ranges; done.
Qed.

Lemma copy_forward m d s n : 0 <= n -> mapped m s n -> mapped m d n -> d <= s \/ s + n <= d ->
  exists m', kfor (Z.to_nat n) 0 1 (fun i => b ← kread (load (s + i)) ; store (d + i) b) m = Done (tt, m') /\
    copied m m' d s n.
Proof.
  intros Hn Hs Hd Hov.
  destruct (kfor_inv (fun i m' => copied m m' d s i) (Z.to_nat n) 0 1
    (fun i => b ← kread (load (s + i)) ; store (d + i) b) m (copied_0 m d s)) as (m' & E & Hc).
  - intros k m' Hk HI. replace (0 + k * 1) with k in * by lia. replace (0 + (k + 1) * 1) with (k + 1) by lia.
    destruct (Hs (s + k)) as [b Eb]; [lia|]. destruct (Hd (d + k)) as [c Ec]; [lia|].
    assert (Eb' : m' !! (s + k) = Some b) by (rewrite HI; decide_ranges; done).
    assert (Ec' : m' !! (d + k) = Some c) by (rewrite HI; decide_ranges; done).
    eexists. split; [|by apply copied_step with (b := b); [|lia|]].
    rewrite (run_bind_done _ _ _ _ _ (kread_load _ _ _ Eb')). by apply store_run; eexists.
  - exists m'. split; [done|]. by replace (0 + Z.of_nat (Z.to_nat n) * 1) with n in Hc by lia.
Qed.

Lemma copy_backward m d s n : 0 <= n -> mapped m s n -> mapped m d n -> s <= d ->
  exists m', kfor (Z.to_nat n) n (-1) (fun i => b ← kread (load (s + (i - 1))) ; store (d + (i - 1)) b) m = Done (tt, m') /\
    copied m m' d s n.
Proof.
  intros Hn Hs Hd Hov.
  set (I := fun i (m' : memory) => forall a, m' !! a = if (d + i <=? a) && (a <? d + n) then m !! (s + (a - d)) else m !! a).
  destruct (kfor_inv I (Z.to_nat n) n (-1)
    (fun i => b ← kread (load (s + (i - 1))) ; store (d + (i - 1)) b) m) as (m' & E & Hc).
  - intros a. by decide_ranges.
  - intros k m' Hk HI. replace (n + k * -1) with (n - k) in * by lia. replace (n + (k + 1) * -1) with (n - k - 1) by lia.
    destruct (Hs (s + (n - k - 1))) as [b Eb]; [lia|]. destruct (Hd (d + (n - k - 1))) as [c Ec]; [lia|].
    assert (Eb' : m' !! (s + (n - k - 1)) = Some b) by (rewrite HI; decide_ranges; done).
    assert (Ec' : m' !! (d + (n - k - 1)) = Some c) by (rewrite HI; decide_ranges; done).
    exists (<[d + (n - k - 1) := b]> m'). split.
    + rewrite (run_bind_done _ _ _ _ _ (kread_load _ _ _ Eb')). apply store_run. by eexists.
    + intros a. destruct (decide (a = d + (n - k - 1))) as [->|Hne].
      * rewrite lookup_insert_eq. decide_ranges. by replace (s + (d + (n - k - 1) - d)) with (s + (n - k - 1)) by lia.
      * rewrite lookup_insert_ne by done. rewrite HI. decide_ranges; done.
  - exists m'. split; [done|]. replace (n + Z.of_nat (Z.to_nat n) * -1) with 0 in Hc by lia.
    intros a. rewrite Hc. by rewrite Z.add_0_r.
Qed.

Lemma memcpy_spec m d s n : 0 <= n -> mapped m s n -> mapped m d n -> d <= s \/ s + n <= d ->
  exists m', memcpy d s n m = Done (d, m') /\ copied m m' d s n.
Proof.
  intros Hn Hs Hd Hov. destruct (copy_forward m d s n) as (m' & E & Hc); [done..|].
  exists m'. unfold memcpy. by rewrite (run_bind_done _ _ _ _ _ E).
Qed.

Lemma memset_spec m d v n : 0 <= n -> mapped m d n ->
  exists m', memset d v n m = Done (d, m') /\
    forall a, m' !! a = if (d <=? a) && (a <? d + n) then Some (u8 v) else m !! a.
Proof.
  intros Hn Hd.
  destruct (kfor_inv (fun i m' => forall a, m' !! a = if (d <=? a) && (a <? d + i) then Some (u8 v) else m !! a)
    (Z.to_nat n) 0 1 (fun i => store (d + i) (u8 v)) m) as (m' & E & Hc).
  - intros a. by decide_ranges.
  - intros k m' Hk HI. replace (0 + k * 1) with k in * by lia. replace (0 + (k + 1) * 1) with (k + 1) by lia.
    destruct (Hd (d + k)) as [c Ec]; [lia|]. eexists. split; [apply store_run; exists c; rewrite HI; decide_ranges; done|].
    intros a. destruct (decide (a = d + k)) as [->|Hne].
    + rewrite lookup_insert_eq. by decide_ranges.
    + rewrite lookup_insert_ne by done. rewrite HI. decide_ranges; done.
  - exists m'. unfold memset. rewrite (run_bind_done _ _ _ _ _ E). split; [done|].
    by replace (0 + Z.of_nat (Z.to_nat n) * 1) with n in Hc by lia.
Qed.

(** ** Strings *)

Lemma strlen_loop_spec s p : forall i fuel m, cstr m (p + i) s -> 0 <= i -> i + Z.of_nat (length s) <= INT_MAX ->
  (length s <= fuel)%nat -> strlen_loop fuel p i m = Done (i + Z.of_nat (length s)).
Proof.
  induction s as [|c s IH]; intros i fuel m Hc Hi Hmax Hf.
  - apply cstr_nil in Hc. destruct fuel; cbn [strlen_loop]; unfold load; rewrite Hc; cbn; by rewrite Z.add_0_r.
  - apply cstr_cons in Hc as (Hb & Hch & Hc). cbn [length] in *. destruct fuel as [|fuel]; [lia|].
    cbn [strlen_loop]. unfold load. rewrite Hb. cbn [mbind outcome_bind].
    unfold is_char in Hch. destruct (Z.eqb_spec c 0); [lia|]. rewrite int_ok_done by (unfold INT_MIN in *; lia).
    cbn [mbind outcome_bind]. rewrite IH; [f_equal; lia|by rewrite Z.add_assoc|lia..].
Qed.
Lemma strlen_spec m p s : cstr m p s -> Z.of_nat (length s) <= INT_MAX -> strlen p m = Done (Z.of_nat (length s)).
Proof.
  intros Hc Hl. pose proof (cstr_size _ _ _ Hc). unfold strlen.
  rewrite (strlen_loop_spec s p 0); [done|by rewrite Z.add_0_r|lia..].
Qed.

Lemma strcpy_loop_spec s : forall d p fuel m, cstr m p s -> mapped m d (Z.of_nat (length s) + 1) ->
  d <= p \/ p + Z.of_nat (length s) < d -> (length s <= fuel)%nat ->
  exists m', strcpy_loop fuel d p m = Done (tt, m') /\ copied m m' d p (Z.of_nat (length s) + 1).
Proof.
  induction s as [|c s IH]; intros d p fuel m Hc Hd Hov Hf.
  - apply cstr_nil in Hc. exists (<[d := 0]> m). split.
    + destruct fuel; cbn [strcpy_loop]; rewrite (run_bind_done _ _ _ _ _ (kread_load _ _ _ Hc));
        rewrite Z.eqb_refl; apply store_run, Hd; cbn; lia.
    + intros a. destruct (decide (a = d)) as [->|Hne].
      * rewrite lookup_insert_eq. cbn. decide_ranges. by rewrite Z.sub_diag, Z.add_0_r.
      * rewrite lookup_insert_ne by done. cbn. decide_ranges; done.
  - pose proof Hc as Hall. apply cstr_cons in Hc as (Hb & Hch & Hc). cbn [length] in *. destruct fuel as [|fuel]; [lia|].
    cbn [strcpy_loop]. rewrite (run_bind_done _ _ _ _ _ (kread_load _ _ _ Hb)).
    unfold is_char in Hch. destruct (Z.eqb_spec c 0); [lia|].
    assert (Es : store d c m = Done (tt, <[d := c]> m)) by (apply store_run, Hd; lia).
    rewrite (run_bind_done _ _ _ _ _ Es).
    destruct (IH (d + 1) (p + 1) fuel (<[d := c]> m)) as (m' & E & Hcp); [| |lia|lia|].
    + split; [|apply Hc]. apply bytes_lookup. intros i b Hi. destruct Hc as [Hc _].
      rewrite bytes_lookup in Hc. pose proof (lookup_lt_Some _ _ _ Hi) as Hlt. rewrite length_app in Hlt. cbn in Hlt.
      rewrite lookup_insert_ne by lia. by apply Hc.
    + intros a Ha. destruct (decide (a = d)) as [->|]; [rewrite lookup_insert_eq; by eexists|].
      rewrite lookup_insert_ne by done. apply Hd. lia.
    + exists m'. split; [done|]. intros a. rewrite Hcp. destruct (decide (a = d)) as [->|Hne].
      * decide_ranges. rewrite lookup_insert_eq. rewrite Z.sub_diag, Z.add_0_r. done.
      * decide_ranges; rewrite ?lookup_insert_ne by lia; try done. f_equal. lia.
Qed.

(** The memory after at most [len] characters of the string and a terminator
    have been written. *)
Lemma strncpy_loop_spec s : forall d p len fuel m, cstr m p s -> 0 <= len ->
  mapped m d (Z.min len (Z.of_nat (length s)) + 1) ->
  d <= p \/ p + Z.of_nat (length s) < d -> (length s <= fuel)%nat ->
  exists m', strncpy_loop fuel d p len m = Done (tt, m') /\
    bytes m' d (take (Z.to_nat len) s ++ [0]) /\
    forall a, a < d \/ d + Z.min len (Z.of_nat (length s)) < a -> m' !! a = m !! a.
Proof.
  induction s as [|c s IH]; intros d p len fuel m Hc Hlen Hd Hov Hf.
  - apply cstr_nil in Hc. exists (<[d := 0]> m). split.
    + destruct fuel; cbn [strncpy_loop]; rewrite (run_bind_done _ _ _ _ _ (kread_load _ _ _ Hc));
        rewrite Z.eqb_refl; apply store_run, Hd; cbn; lia.
    + rewrite take_nil. split; [split; [apply lookup_insert_eq|done]|]. intros a Ha. cbn in Ha.
      by rewrite lookup_insert_ne by lia.
  - pose proof Hc as Hall. apply cstr_cons in Hc as (Hb & Hch & Hc). cbn [length] in *. destruct fuel as [|fuel]; [lia|].
    cbn [strncpy_loop]. rewrite (run_bind_done _ _ _ _ _ (kread_load _ _ _ Hb)).
    unfold is_char in Hch. destruct (Z.eqb_spec c 0); [lia|]. cbn [orb].
    destruct (Z.eqb_spec len 0) as [->|Hl].
    { exists (<[d := 0]> m). split; [apply store_run, Hd; lia|]. cbn. split; [split; [apply lookup_insert_eq|done]|].
      intros a Ha. by rewrite lookup_insert_ne by lia. }
    assert (Es : store d c m = Done (tt, <[d := c]> m)) by (apply store_run, Hd; lia).
    rewrite (run_bind_done _ _ _ _ _ Es).
    destruct (IH (d + 1) (p + 1) (len - 1) fuel (<[d := c]> m)) as (m' & E & Hcp & Hout); [|lia| |lia|lia|].
    + split; [|apply Hc]. apply bytes_lookup. intros i b Hi. destruct Hc as [Hc _].
      rewrite bytes_lookup in Hc. pose proof (lookup_lt_Some _ _ _ Hi) as Hlt. rewrite length_app in Hlt. cbn in Hlt.
      rewrite lookup_insert_ne by lia. by apply Hc.
    + intros a Ha. destruct (decide (a = d)) as [->|]; [rewrite lookup_insert_eq; by eexists|].
      rewrite lookup_insert_ne by done. apply Hd. lia.
    + exists m'. split; [done|]. split.
      * replace (Z.to_nat len) with (S (Z.to_nat (len - 1))) by lia. cbn [take app bytes]. split; [|done].
        rewrite Hout by lia. apply lookup_insert_eq.
      * intros a Ha. rewrite Hout by lia. by rewrite lookup_insert_ne by lia.
Qed.

(** [strcmp] on the strings themselves. *)
Fixpoint compare_strings (s1 s2 : list Z) : Z :=
  match s1, s2 with
  | c1 :: s1', c2 :: s2' => if c1 =? c2 then compare_strings s1' s2' else s8 c1 - s8 c2
  | _, _ => s8 (default 0 (head s1)) - s8 (default 0 (head s2))
  end.

Lemma s8_inj a b : 0 <= a < 256 -> 0 <= b < 256 -> s8 a = s8 b -> a = b.
Proof.
  unfold s8, swrap, wrap. change (2 ^ 8) with 256. change (2 ^ (8 - 1)) with 128. intros Ha Hb.
  rewrite !Z.mod_small by done. cbv zeta. destruct (Z.ltb_spec a 128), (Z.ltb_spec b 128); lia.
Qed.

Lemma compare_strings_eq s1 s2 : Forall is_char s1 -> Forall is_char s2 -> compare_strings s1 s2 = 0 <-> s1 = s2.
Proof.
  revert s2. induction s1 as [|c1 s1 IH]; intros [|c2 s2] H1 H2; cbn [compare_strings default from_option head id]; [done|..].
  - apply Forall_cons in H2 as [H2 _]. unfold is_char in H2. split; [|done]. intros E.
    assert (0 = c2); [|lia]. apply s8_inj; lia.
  - apply Forall_cons in H1 as [H1 _]. unfold is_char in H1. split; [|done]. intros E.
    assert (0 = c1); [|lia]. apply s8_inj; lia.
  - apply Forall_cons in H1 as [H1 H1'], H2 as [H2 H2']. unfold is_char in *. destruct (Z.eqb_spec c1 c2) as [->|Hne].
    + rewrite (IH s2 H1' H2'). split; [by intros ->|by intros [=]].
    + split; [|by intros [=]]. intros E. destruct Hne. apply s8_inj; lia.
Qed.

Lemma strcmp_loop_spec s1 : forall s2 p1 p2 fuel m, cstr m p1 s1 -> cstr m p2 s2 -> (length s1 <= fuel)%nat ->
  strcmp_loop fuel p1 p2 m = Done (compare_strings s1 s2).
Proof.
  induction s1 as [|c1 s1 IH]; intros s2 p1 p2 fuel m H1 H2 Hf.
  - apply cstr_nil in H1. assert (E2 : m !! p2 = Some (default 0 (head s2))).
    { destruct s2; [apply cstr_nil in H2; exact H2|]. by apply cstr_cons in H2 as (? & _). }
    destruct fuel; cbn [strcmp_loop]; unfold load; rewrite H1, E2; by destruct s2.
  - apply cstr_cons in H1 as (E1 & Hc1 & H1). destruct fuel as [|fuel]; [cbn in Hf; lia|]. cbn [length] in Hf.
    cbn [strcmp_loop]. rewrite (load_run _ _ _ E1). cbn [mbind outcome_bind]. unfold is_char in Hc1.
    destruct (Z.eqb_spec c1 0); [lia|]. cbn [orb]. destruct s2 as [|c2 s2].
    + apply cstr_nil in H2. rewrite (load_run _ _ _ H2). cbn [mbind outcome_bind]. destruct (Z.eqb_spec c1 0); [lia|]. done.
    + apply cstr_cons in H2 as (E2 & _ & H2). rewrite (load_run _ _ _ E2). cbn [mbind outcome_bind compare_strings].
      destruct (c1 =? c2); cbn [negb]; [|done]. apply IH; [done|done|lia].
Qed.
Lemma strcmp_spec m p1 p2 s1 s2 : cstr m p1 s1 -> cstr m p2 s2 -> strcmp p1 p2 m = Done (compare_strings s1 s2).
Proof. intros H1 H2. pose proof (cstr_size _ _ _ H1). unfold strcmp. apply strcmp_loop_spec; [done..|lia]. Qed.

(** [strstr] finds the needle at the end of the haystack only. *)
Lemma strstr_loop_spec hs ns n : forall h fuel m, cstr m h hs -> cstr m n ns -> (length hs <= fuel)%nat ->
  exists r, strstr_loop fuel h n m = Done r /\
    match r with
    | Some a => exists i, a = h + Z.of_nat i /\ (i < length hs)%nat /\ drop i hs = ns /\ forall j, (j < i)%nat -> drop j hs <> ns
    | None => forall j, (j < length hs)%nat -> drop j hs <> ns
    end.
Proof.
  induction hs as [|c hs IH]; intros h fuel m Hh Hn Hf.
  - apply cstr_nil in Hh. exists None. split; [|cbn; lia].
    destruct fuel; cbn [strstr_loop]; unfold load; by rewrite Hh.
  - pose proof Hh as Hall. apply cstr_cons in Hh as (E & Hc & Hh). destruct fuel as [|fuel]; [cbn in Hf; lia|].
    cbn [length] in *. cbn [strstr_loop]. rewrite (load_run _ _ _ E). cbn [mbind outcome_bind]. unfold is_char in Hc.
    destruct (Z.eqb_spec c 0); [lia|].
    assert (En : load n m = Done (default 0 (head ns))).
    { unfold load. destruct ns; [apply cstr_nil in Hn; by rewrite Hn|]. apply cstr_cons in Hn as (En & _). by rewrite En. }
    rewrite En. cbn [mbind outcome_bind]. rewrite (strcmp_spec m h n (c :: hs) ns Hall Hn).
    pose proof (compare_strings_eq (c :: hs) ns) as Hcmp. destruct Hall as [_ Hs], Hn as [Hnb Hns].
    specialize (Hcmp Hs Hns). set (k := compare_strings (c :: hs) ns) in *.
    assert (Hhit : (c =? default 0 (head ns)) && (k =? 0) = bool_decide (c :: hs = ns)).
    { destruct (Z.eqb_spec k 0) as [Hk|Hk].
      - apply Hcmp in Hk as <-. cbn. by rewrite Z.eqb_refl, bool_decide_true.
      - rewrite andb_false_r, bool_decide_false by tauto. done. }
    destruct (IH (h + 1) fuel m Hh (conj Hnb Hns)) as (r & Er & Hr); [lia|].
    exists (if bool_decide (c :: hs = ns) then Some h else r). split.
    { destruct (c =? default 0 (head ns)); cbn [andb mbind outcome_bind] in *; rewrite Hhit || rewrite <- Hhit;
        [by destruct (bool_decide _)|exact Er]. }
    case_bool_decide as Heq.
    + exists 0%nat. split; [lia|]. split; [lia|]. split; [done|lia].
    + destruct r as [a|].
      * destruct Hr as (i & -> & Hi & Hd & Hm). exists (S i). split; [lia|]. split; [lia|]. split; [done|].
        intros [|j] Hj; [done|]. apply Hm. lia.
      * intros [|j] Hj; [done|]. apply Hr. lia.
Qed.

(** *** [reverse] *)

Abbreviation rev := list.reverse.

Lemma reverse_loop_spec fuel : forall s i j m, 0 <= i -> i <= j + 1 -> (Z.to_nat (j - i + 1) <= 2 * fuel + 1)%nat ->
  mapped m (s + i) (j - i + 1) ->
  exists m', reverse_loop fuel s i j m = Done (tt, m') /\
    forall a, m' !! a = if (s + i <=? a) && (a <? s + j + 1) then m !! (s + i + (s + j) - a) else m !! a.
Proof.
  induction fuel as [|fuel IH]; intros s i j m Hi Hij Hf Hm; cbn [reverse_loop]; destruct (Z.ltb_spec i j); try lia.
  1, 3: exists m; (split; [done|]); intros a; decide_ranges; try done; f_equal; lia.
  destruct (Hm (s + i)) as [c Ec]; [lia|]. destruct (Hm (s + j)) as [d Ed]; [lia|].
  rewrite (run_bind_done _ _ _ _ _ (kread_load _ _ _ Ec)), (run_bind_done _ _ _ _ _ (kread_load _ _ _ Ed)).
  assert (E1 : store (s + i) d m = Done (tt, <[s + i := d]> m)) by (apply store_run; by eexists).
  rewrite (run_bind_done _ _ _ _ _ E1).
  assert (E2 : store (s + j) c (<[s + i := d]> m) = Done (tt, <[s + j := c]> (<[s + i := d]> m))).
  { apply store_run. rewrite lookup_insert_ne by lia. by eexists. }
  rewrite (run_bind_done _ _ _ _ _ E2).
  destruct (IH s (i + 1) (j - 1) (<[s + j := c]> (<[s + i := d]> m))) as (m' & E & Hl); [lia..| |].
  { intros a Ha. rewrite !lookup_insert_ne by lia. apply Hm. lia. }
  exists m'. split; [done|]. intros a. rewrite Hl.
  destruct (decide (a = s + i)) as [->|Hai].
  { decide_ranges. rewrite lookup_insert_ne, lookup_insert_eq by lia. rewrite <- Ed. f_equal. lia. }
  destruct (decide (a = s + j)) as [->|Haj].
  { decide_ranges. rewrite lookup_insert_eq by lia. rewrite <- Ec. f_equal. lia. }
  decide_ranges; rewrite !lookup_insert_ne by lia; try done. f_equal. lia.
Qed.

Lemma reverse_spec m p s : cstr m p s -> Z.of_nat (length s) <= INT_MAX ->
  exists m', reverse p m = Done (tt, m') /\ cstr m' p (rev s) /\
    forall a, ~ p <= a < p + Z.of_nat (length s) -> m' !! a = m !! a.
Proof.
  intros Hc Hmax. set (n := Z.of_nat (length s)).
  assert (Hm : mapped m p n).
  { intros a Ha. destruct (cstr_lookup m p s (a - p) Hc) as (b & _ & Eb & _); [lia|].
    replace (p + (a - p)) with a in Eb by lia. by eexists. }
  pose proof (cstr_size _ _ _ Hc) as Hsz.
  destruct (reverse_loop_spec (size m) p 0 (n - 1) m) as (m' & E & Hl); [lia..| |].
  { replace (p + 0) with p by lia. by replace (n - 1 - 0 + 1) with n by lia. }
  exists m'. split.
  { unfold reverse. rewrite (run_bind_done _ _ m n m) by (unfold kread; by rewrite (strlen_spec m p s Hc Hmax)).
    by rewrite (run_bind_done _ _ m m m eq_refl). }
  assert (Hout : forall a, ~ p <= a < p + n -> m' !! a = m !! a) by (intros a Ha; rewrite Hl; by decide_ranges).
  split; [|done]. split; [|apply Forall_reverse, Hc]. apply bytes_app. split.
  - apply bytes_lookup. intros i b Hb. apply reverse_lookup_Some in Hb as [Hb Hi].
    destruct (cstr_lookup m p s (n - 1 - Z.of_nat i) Hc) as (b' & Eb' & Eb & _); [lia|].
    replace (Z.to_nat (n - 1 - Z.of_nat i)) with (length s - S i)%nat in Eb' by lia.
    rewrite Hb in Eb'. injection Eb' as <-. rewrite Hl. decide_ranges. rewrite <- Eb. f_equal. lia.
  - rewrite length_reverse. split; [|done]. rewrite Hout by lia. by apply cstr_end.
Qed.

(** *** [itoa] *)

(** The value of digits, the least significant one first. *)
Definition is_digit (b : Z) : Prop := ch_0 <= b < ch_0 + 10.
Fixpoint value_le (ds : list Z) : Z :=
  match ds with [] => 0 | d :: ds' => (d - ch_0) + 10 * value_le ds' end.
(** The number a decimal numeral stands for. *)
Definition decimal (ds : list Z) : Z := foldl (fun acc d => 10 * acc + (d - ch_0)) 0 ds.

Lemma decimal_snoc ds d : decimal (ds ++ [d]) = 10 * decimal ds + (d - ch_0).
Proof. unfold decimal. by rewrite foldl_app. Qed.
Lemma decimal_reverse ds : decimal (rev ds) = value_le ds.
Proof. induction ds as [|d ds IH]; [done|]. rewrite reverse_cons, decimal_snoc, IH. cbn [value_le]. lia. Qed.

(** Numerals: digits, the first one not a zero unless it is the only one. *)
Definition numeral (ds : list Z) : Prop :=
  Forall is_digit ds /\ ds <> [] /\ (head ds = Some ch_0 -> ds = [ch_0]).

Lemma itoa_loop_spec fuel : forall str i n m, 0 <= n < 10 ^ Z.of_nat (S fuel) ->
  mapped m (str + i) (Z.of_nat (S fuel)) ->
  exists ds m', itoa_loop fuel str i n m = Done (i + Z.of_nat (length ds), m') /\
    bytes m' (str + i) ds /\ (1 <= length ds <= S fuel)%nat /\ Forall is_digit ds /\ value_le ds = n /\
    (last ds = Some ch_0 -> ds = [ch_0]) /\
    forall a, ~ str + i <= a < str + i + Z.of_nat (length ds) -> m' !! a = m !! a.
Proof.
  induction fuel as [|fuel IH]; intros str i n m Hn Hm; cbn [itoa_loop];
    pose proof (Z.mod_pos_bound n 10 ltac:(lia)) as Hmod; pose proof (Z.div_mod n 10 ltac:(lia)) as Hdm;
    assert (Hu : u8 (n mod 10 + ch_0) = n mod 10 + ch_0) by (apply u8_small; unfold ch_0; lia); rewrite Hu;
    assert (E1 : store (str + i) (n mod 10 + ch_0) m = Done (tt, <[str + i := n mod 10 + ch_0]> m)) by (apply store_run, Hm; lia);
    rewrite (run_bind_done _ _ _ _ _ E1).
  - assert (n / 10 = 0) as -> by (apply Z.div_small; change (10 ^ Z.of_nat 1) with 10 in Hn; lia).
    cbn. exists [n mod 10 + ch_0], (<[str + i := n mod 10 + ch_0]> m). split; [done|].
    split; [split; [apply lookup_insert_eq|done]|]. split; [cbn; lia|].
    split; [apply Forall_singleton; unfold is_digit; lia|]. split; [cbn; lia|].
    split; [by intros [= ->]|]. intros a Ha. cbn in Ha. by rewrite lookup_insert_ne by lia.
  - destruct (Z.gtb_spec (n / 10) 0) as [Hg|Hg].
    + destruct (IH str (i + 1) (n / 10) (<[str + i := n mod 10 + ch_0]> m)) as (ds & m' & E & Hb & Hlen & Hdig & Hv & Hlast & Hout).
      { split; [lia|]. apply Z.div_lt_upper_bound; [lia|]. rewrite <- Z.pow_succ_r by lia.
        replace (Z.succ (Z.of_nat (S fuel))) with (Z.of_nat (S (S fuel))) by lia. apply Hn. }
      { intros a Ha. rewrite lookup_insert_ne by lia. apply Hm. lia. }
      exists ((n mod 10 + ch_0) :: ds), m'. rewrite E. cbn [length bytes].
      split; [do 2 f_equal; lia|]. split.
      { split; [rewrite Hout by lia; apply lookup_insert_eq|]. by replace (str + i + 1) with (str + (i + 1)) by lia. }
      split; [lia|]. split; [apply Forall_cons; split; [unfold is_digit; lia|done]|]. split; [cbn [value_le]; lia|].
      split.
      * destruct ds as [|d ds]; [cbn in Hlen; lia|]. rewrite last_cons_cons. intros Hl. specialize (Hlast Hl).
        rewrite Hlast in Hv. cbn in Hv. lia.
      * intros a Ha. rewrite Hout by lia. by rewrite lookup_insert_ne by lia.
    + assert (n / 10 = 0) as Hz by (pose proof (Z.div_pos n 10); lia).
      exists [n mod 10 + ch_0], (<[str + i := n mod 10 + ch_0]> m). split; [done|].
      split; [split; [apply lookup_insert_eq|done]|]. split; [cbn; lia|].
      split; [apply Forall_singleton; unfold is_digit; lia|]. split; [cbn; lia|].
      split; [by intros [= ->]|]. intros a Ha. cbn in Ha. by rewrite lookup_insert_ne by lia.
Qed.

Lemma numeral_reverse ds : Forall is_digit ds -> (1 <= length ds)%nat -> (last ds = Some ch_0 -> ds = [ch_0]) ->
  numeral (rev ds).
Proof.
  intros Hd Hl Hlast. split; [by apply Forall_reverse|]. split.
  - intros E. apply (f_equal length) in E. rewrite length_reverse in E. cbn in E. lia.
  - rewrite head_reverse. intros H. by rewrite (Hlast H).
Qed.
Lemma digits_are_chars ds : Forall is_digit ds -> Forall is_char ds.
Proof. intros H. eapply Forall_impl; [exact H|]. intros d. unfold is_digit, is_char, ch_0. lia. Qed.

(** Writing a sign and a terminator after the digits, and reversing. *)
Lemma itoa_finish m str ds (neg : bool) : bytes m str ds -> Forall is_digit ds -> (1 <= length ds <= 10)%nat ->
  mapped m str 12 ->
  exists m', (i ← (if neg then store (str + Z.of_nat (length ds)) ch_minus ;; mret (Z.of_nat (length ds) + 1)
                   else mret (Z.of_nat (length ds))) ;
              store (str + i) 0 ;; reverse str) m = Done (tt, m') /\
    cstr m' str ((if neg then [ch_minus] else []) ++ rev ds) /\
    forall a, ~ str <= a < str + 12 -> m' !! a = m !! a.
Proof.
  intros Hb Hd Hl Hm. set (n := Z.of_nat (length ds)). 
  set (all := ds ++ (if neg then [ch_minus] else [])).
  assert (Hlen : Z.of_nat (length all) = if neg then n + 1 else n) by (unfold all; rewrite length_app; destruct neg; cbn; lia).
  assert (Hrev : rev all = (if neg then [ch_minus] else []) ++ rev ds) by (unfold all; rewrite reverse_app; by destruct neg).
  assert (exists m1, (if neg then store (str + n) ch_minus ;; mret (n + 1) else mret n) m = Done (Z.of_nat (length all), m1) /\
    bytes m1 str all /\ mapped m1 str 12 /\ forall a, ~ str <= a < str + 12 -> m1 !! a = m !! a) as (m1 & E1 & Hb1 & Hm1 & Ho1).
  { rewrite Hlen. unfold all. destruct neg.
    - exists (<[str + n := ch_minus]> m). split; [|split; [|split]].
      + assert (E : store (str + n) ch_minus m = Done (tt, <[str + n := ch_minus]> m)) by (apply store_run, Hm; lia).
        by rewrite (run_bind_done _ _ _ _ _ E).
      + apply bytes_app. split; [|split; [apply lookup_insert_eq|done]]. rewrite bytes_lookup in Hb |- *.
        intros i b Hi. pose proof (lookup_lt_Some _ _ _ Hi). rewrite lookup_insert_ne by lia. by apply Hb.
      + intros a Ha. destruct (decide (a = str + n)) as [->|]; [rewrite lookup_insert_eq; by eexists|].
        rewrite lookup_insert_ne by done. by apply Hm.
      + intros a Ha. rewrite lookup_insert_ne; [done|]. lia.
    - exists m. rewrite app_nil_r. done. }
  rewrite (run_bind_done _ _ _ _ _ E1).
  assert (Hchars : Forall is_char all).
  { unfold all. apply Forall_app. split; [by apply digits_are_chars|]. destruct neg; [by apply Forall_singleton|done]. }
  assert (Hend : 0 <= Z.of_nat (length all) < 12) by (rewrite Hlen; destruct neg; lia).
  assert (E2 : store (str + Z.of_nat (length all)) 0 m1 = Done (tt, <[str + Z.of_nat (length all) := 0]> m1)) by (apply store_run, Hm1; lia).
  rewrite (run_bind_done _ _ _ _ _ E2).
  destruct (reverse_spec (<[str + Z.of_nat (length all) := 0]> m1) str all) as (m' & E & Hc & Ho); [|unfold INT_MAX; lia|].
  - split; [|done]. apply bytes_app. split; [|split; [apply lookup_insert_eq|done]]. rewrite bytes_lookup in Hb1 |- *.
    intros i b Hi. pose proof (lookup_lt_Some _ _ _ Hi). rewrite lookup_insert_ne by lia. by apply Hb1.
  - exists m'. rewrite <- Hrev. split; [done|]. split; [done|]. intros a Ha. rewrite Ho by lia.
    rewrite lookup_insert_ne by lia. by apply Ho1.
Qed.

Lemma itoa_spec m n str : INT_MIN < n <= INT_MAX -> mapped m str 12 ->
  exists ds m', itoa n str m = Done (tt, m') /\ cstr m' str ((if n <? 0 then [ch_minus] else []) ++ ds) /\
    numeral ds /\ decimal ds = Z.abs n /\ (length ds <= 10)%nat /\
    forall a, ~ str <= a < str + 12 -> m' !! a = m !! a.
Proof.
  intros Hn Hm. unfold itoa. cbv zeta.
  assert (E0 : kread (fun _ : memory => if n <? 0 then int_ok (- n) else Done n) m = Done (Z.abs n, m)).
  { unfold kread. destruct (Z.ltb_spec n 0); [|do 2 f_equal; lia]. unfold INT_MIN, INT_MAX in *.
    rewrite int_ok_done by (unfold INT_MIN, INT_MAX; lia). do 2 f_equal. lia. }
  rewrite (run_bind_done _ _ _ _ _ E0).
  destruct (itoa_loop_spec 9 str 0 (Z.abs n) m) as (ds & m1 & E1 & Hb & Hl & Hd & Hv & Hlast & Hout).
  { change (10 ^ Z.of_nat 10) with 10000000000. unfold INT_MIN, INT_MAX in *. lia. }
  { intros a Ha. apply Hm. lia. }
  rewrite (run_bind_done _ _ _ _ _ E1). rewrite Z.add_0_r in Hb, Hout. rewrite Z.add_0_l.
  destruct (itoa_finish m1 str ds (n <? 0)) as (m' & E & Hc & Ho); [done|done|lia| |].
  { intros a Ha. destruct (decide (str <= a < str + Z.of_nat (length ds))) as [Hin|Hin].
    - apply bytes_mapped in Hb. by apply Hb.
    - rewrite Hout by done. by apply Hm. }
  exists (rev ds), m'. split; [done|]. split; [done|]. split; [apply numeral_reverse; [done|lia|done]|].
  split; [by rewrite decimal_reverse|]. split; [rewrite length_reverse; lia|].
  intros a Ha. rewrite Ho by done. apply Hout. lia.
Qed.

(** ** Theorems *)

(** [memmove] copies the block as it was, however the two blocks overlap, and
    changes nothing else. *)
Lemma memmove_spec m dst src n : 0 <= n -> mapped m src n -> mapped m dst n ->
  exists m', memmove dst src n m = Done (dst, m') /\
    forall a, m' !! a = if (dst <=? a) && (a <? dst + n) then m !! (src + (a - dst)) else m !! a.
Proof.
  intros Hn Hs Hd. unfold memmove. destruct (Z.ltb_spec dst src).
  - destruct (copy_forward m dst src n) as (m' & E & Hc); [done..|lia|]. exists m'.
    by rewrite (run_bind_done _ _ _ _ _ E).
  - destruct (copy_backward m dst src n) as (m' & E & Hc); [done..|lia|]. exists m'.
    by rewrite (run_bind_done _ _ _ _ _ E).
Qed.

(** C22. [itoa] of every [int] but the smallest writes the canonical decimal
    numeral of the number, with its sign, into at most twelve bytes; for the
    smallest one its negation overflows. *)
Theorem itoa_correct m n str : INT_MIN <= n <= INT_MAX -> mapped m str 12 ->
  (n = INT_MIN /\ itoa n str m = Fault) \/
  exists ds m', itoa n str m = Done (tt, m') /\ cstr m' str ((if n <? 0 then [ch_minus] else []) ++ ds) /\
    numeral ds /\ decimal ds = Z.abs n /\ (length ds <= 10)%nat /\
    forall a, ~ str <= a < str + 12 -> m' !! a = m !! a.
Proof.
  intros Hn Hm. destruct (decide (n = INT_MIN)) as [->|Hne]; [left|right].
  - split; reflexivity.
  - apply itoa_spec; [lia|done].
Qed.


(** [strstr] finds the needle only where the haystack ends with it. *)
Lemma strstr_finds_suffixes m h n hs ns : cstr m h hs -> cstr m n ns ->
  exists r, strstr h n m = Done r /\
    match r with
    | Some a => exists i, a = h + Z.of_nat i /\ (i < length hs)%nat /\ drop i hs = ns /\ forall j, (j < i)%nat -> drop j hs <> ns
    | None => forall j, (j < length hs)%nat -> drop j hs <> ns
    end.
Proof. intros Hh Hn. pose proof (cstr_size _ _ _ Hh). apply strstr_loop_spec; [done..|lia]. Qed.

(** [memcmp] of two blocks that differ in their first byte is zero. *)
Lemma memcmp_ignores_first_byte : memcmp 0 1 1 {[0 := 1; 1 := 2]} = Done 0.
Proof. reflexivity. Qed.

(** ** A concrete memory: ["ab"] at 0, ["cd"] at 10, and space *)
Definition demo_memory : memory :=
  <[0 := 97]> (<[1 := 98]> (<[2 := 0]> (<[10 := 99]> (<[11 := 100]> (<[12 := 0]>
    (list_to_map ((fun i => (Z.of_nat i, 255)) <$> seq 0 40))))))).

Lemma mapped_by_test m p n : forallb (fun a => bool_decide (is_Some (m !! a))) (seqZ p n) = true -> mapped m p n.
Proof.
  intros H a Ha. rewrite forallb_forall in H. eapply bool_decide_eq_true_1. apply H.
  apply list_elem_of_In, elem_of_seqZ. lia.
Qed.

(** Tests of concrete memories. *)
Definition read_string (m : memory) (p n : Z) : list Z := (fun a => default 0 (m !! a)) <$> seqZ p n.
Lemma cstr_test m p s : bool_decide (read_string m p (Z.of_nat (length s) + 1) = s ++ [0]) &&
  forallb (fun a => bool_decide (is_Some (m !! a))) (seqZ p (Z.of_nat (length s) + 1)) &&
  forallb (fun c => (0 <? c) && (c <? 256)) s = true -> cstr m p s.
Proof.
  rewrite !andb_true_iff. intros ((H1%bool_decide_eq_true & H2%mapped_by_test) & H3). split.
  - apply bytes_lookup. intros i b Hi. rewrite <- H1 in Hi. unfold read_string in Hi.
    apply list_lookup_fmap_Some in Hi as (a & -> & Ha). apply lookup_seqZ in Ha as [-> Hlt].
    destruct (H2 (p + Z.of_nat i)) as [c Ec]; [lia|]. by rewrite Ec.
  - apply Forall_forall. intros c Hc. rewrite forallb_forall in H3. specialize (H3 c (proj1 (list_elem_of_In _ _) Hc)).
    apply andb_true_iff in H3 as [Ha%Z.ltb_lt Hb%Z.ltb_lt]. by split.
Qed.

Lemma itoa_correct_witness : exists m', itoa (-205) 20 demo_memory = Done (tt, m') /\
  exists ds, cstr m' 20 (45 :: ds) /\ decimal ds = 205.
Proof.
  destruct (itoa_correct demo_memory (-205) 20) as [[H _]|(ds & m' & E & Hc & _ & Hv & _)].
  - unfold INT_MIN, INT_MAX. lia.
  - apply mapped_by_test. vm_compute. reflexivity.
  - discriminate H.
  - exists m'. split; [exact E|]. exists ds. split; [exact Hc|exact Hv].
Defined.

