(* ===== verification/Printf.v ===== *)
(** * Formatted output (Library/printf.cpp)

    The state machine of [printf_helper] over a format string in memory, with
    any callback for the characters, and [kvsprintf]; and what a format means. *)
From S2P Require Import Prelude Words KString.
From Stdlib Require Import ZArith Lia Bool Ascii.
From stdpp Require Import base strings numbers functions gmap list.
#[local] Open Scope Z_scope.

(** The code of a character. *)
Definition ch (a : ascii) : Z := Z.of_N (N_of_ascii a).

Definition PR_LJ : Z := 1.
Definition PR_CA : Z := 2.
Definition PR_SG : Z := 4.
Definition PR_64 : Z := 8.
Definition PR_32 : Z := 16.
Definition PR_16 : Z := 32.
Definition PR_WS : Z := 64.
Definition PR_LZ : Z := 128.
Definition PR_FP : Z := 256.

(** The variables of [printf_helper]; [args] are the words on the stack that
    [va_arg] has not taken yet. *)
Record vars := mkVars { state : Z; flags : Z; count : Z; given_wd : Z; args : list Z }.
Definition set_state st (v : vars) := mkVars st (flags v) (count v) (given_wd v) (args v).
Definition set_flags f (v : vars) := mkVars (state v) f (count v) (given_wd v) (args v).
Definition set_count c (v : vars) := mkVars (state v) (flags v) c (given_wd v) (args v).
Definition set_wd w (v : vars) := mkVars (state v) (flags v) (count v) w (args v).
Definition set_args a (v : vars) := mkVars (state v) (flags v) (count v) (given_wd v) a.
Definition or_flag f (v : vars) := set_flags (Z.lor (flags v) f) v.
Definition has (f : Z) (v : vars) : bool := negb (Z.land (flags v) f =? 0).
(** [state = flags = given_wd = 0]. *)
Definition reset (v : vars) : vars := mkVars 0 0 (count v) 0 (args v).
Definition next_state (v : vars) : vars := set_state (state v + 1) v.

(** What is printed: digits or a character from the local buffer, or a string. *)
Inductive where_ := Local (l : list Z) | Pointer (p : Z).

Section printf.
(** The state of the callback, beside memory; and the callback. *)
Context {X : Type} (fn : Z -> K (memory * X) unit).

Definition peek (p : Z) : K (memory * X) Z := kread (fun s => load p s.1).

(** [fn(c, &ptr); count++;]. *)
Definition out (c : Z) (v : vars) : K (memory * X) vars := fn c ;; mret (set_count (u32 (count v + 1)) v).

Fixpoint pad (n : nat) (c : Z) (v : vars) : K (memory * X) vars :=
  match n with O => mret v | S n' => v ← out c v ; pad n' c v end.

(** The loop over the bytes at [where], up to a NUL. *)
Fixpoint out_list (l : list Z) (v : vars) : K (memory * X) vars :=
  match l with
  | [] => mret v
  | c :: l' => if c =? 0 then mret v else v ← out c v ; out_list l' v
  end.
Fixpoint out_string (fuel : nat) (p : Z) (v : vars) : K (memory * X) vars :=
  c ← peek p ;
  if c =? 0 then mret v else
  match fuel with
  | O => kstuck
  | S fuel' => v ← out c v ; out_string fuel' (p + 1) v
  end.
Definition out_where (w : where_) (v : vars) : K (memory * X) vars :=
  match w with
  | Local l => out_list l v
  | Pointer p => s ← kget ; out_string (size s.1) p v
  end.

(** [EMIT2]. *)
Definition emit2 (w : where_) (actual_wd : Z) (v : vars) : K (memory * X) vars :=
  v ← (if has PR_LJ v then mret v
       else v' ← pad (Z.to_nat (given_wd v - actual_wd)) (if has PR_LZ v then ch "0" else ch " ") v ;
            mret (set_wd (Z.min (given_wd v) actual_wd) v')) ;
  v ← (if has PR_WS v && negb (has PR_LZ v) then out (ch "-") v else mret v) ;
  v ← out_where w v ;
  let wd := if given_wd v <? actual_wd then 0 else given_wd v - actual_wd in
  v ← pad (Z.to_nat wd) (ch " ") v ;
  mret (set_wd 0 v).

(** [EMIT]. *)
Definition emit (w : where_) (v : vars) : K (memory * X) vars :=
  len ← (match w with
         | Local l => mret (Z.of_nat (length l))
         | Pointer p => kread (fun s => strlen p s.1)
         end) ;
  let actual_wd := if has PR_WS v then u32 (len + 1) else len in
  v ← (if has PR_WS v && has PR_LZ v then out (ch "-") v else mret v) ;
  emit2 w actual_wd v.

(** The digits of a number below 2^32; in base 8 there are at most eleven. *)
Definition digit (caps : bool) (t : Z) : Z :=
  if t <? 10 then u8 (t + ch "0") else if caps then u8 (t - 10 + ch "A") else u8 (t - 10 + ch "a").
Fixpoint digits (fuel : nat) (caps : bool) (radix num : Z) (where_ : list Z) : outcome (list Z) :=
  let where_ := digit caps (num mod radix) :: where_ in
  let num := num / radix in
  if num =? 0 then Done where_ else
  match fuel with O => Stuck | S fuel' => digits fuel' caps radix num where_ end.

Definition pop (v : vars) : outcome (Z * vars) :=
  match args v with [] => Fault | a :: l => Done (a, set_args l v) end.
(** [num] is a [long]; a [long long] is two words, and loses the high one. *)
Definition load_num (v : vars) : outcome (Z * vars) :=
  if has PR_64 v then
    '(lo, v) ← pop v ; '(hi, v) ← pop v ; Done (s32 lo, v)
  else '(a, v) ← pop v ; Done (s32 a, v).

(** [DO_NUM]. *)
Definition do_num (radix : Z) (v : vars) : K (memory * X) vars :=
  '(num, v) ← kread (fun _ => load_num v) ;
  '(num, v) ← (if has PR_SG v && (num <? 0)
               then n ← kread (fun _ => int_ok (- num)) ; mret (n, or_flag PR_WS v)
               else mret (num, v)) ;
  l ← kread (fun _ => digits 10 (has PR_CA v) radix (u32 num) []) ;
  emit (Local l) v.

(** STATE 4: the conversion character. *)
Definition conversion (c : Z) (v : vars) : K (memory * X) vars :=
  if (c =? ch "X") || (c =? ch "x") || (c =? ch "p") then
    let v := if c =? ch "X" then or_flag PR_CA v else v in
    do_num 16 (or_flag PR_32 (set_wd 8 (or_flag PR_LZ v)))
  else if c =? ch "n" then do_num 16 v
  else if (c =? ch "d") || (c =? ch "i") then do_num 10 (or_flag PR_SG v)
  else if c =? ch "u" then do_num 10 v
  else if c =? ch "o" then do_num 8 v
  else if c =? ch "c" then
    let v := set_flags (Z.ldiff (flags v) PR_LZ) v in
    '(a, v) ← kread (fun _ => pop v) ;
    emit2 (Local [u8 a]) 1 v
  else if c =? ch "s" then
    let v := set_flags (Z.ldiff (flags v) PR_LZ) v in
    '(a, v) ← kread (fun _ => pop v) ;
    emit (Pointer a) v
  else mret v.

Definition stage4 (p : Z) (v : vars) : K (memory * X) (Z * vars) :=
  c ← peek p ; v ← conversion c v ; mret (p, reset v).

(** STATE 3: the modifiers; on i686 a [size_t] has 32 bits. *)
Definition modifier (c : Z) (v : vars) : option vars :=
  if c =? ch "F" then Some (or_flag PR_FP v)
  else if c =? ch "N" then Some v
  else if c =? ch "z" then Some (or_flag PR_32 v)
  else if c =? ch "l" then Some (or_flag PR_32 v)
  else if c =? ch "L" then Some (or_flag PR_64 v)
  else if c =? ch "h" then Some (or_flag PR_16 v)
  else None.
Definition stage3 (p : Z) (v : vars) : K (memory * X) (Z * vars) :=
  c ← peek p ;
  match modifier c v with
  | Some v => mret (p, v)
  | None => stage4 p (next_state v)
  end.

(** STATE 2: the field width. *)
Definition stage2 (p : Z) (v : vars) : K (memory * X) (Z * vars) :=
  c ← peek p ;
  if (ch "0" <=? c) && (c <=? ch "9") then mret (p, set_wd (u32 (10 * given_wd v + (c - ch "0"))) v)
  else stage3 p (next_state v).

(** STATE 1: the flags. *)
Definition stage1 (p : Z) (v : vars) : K (memory * X) (Z * vars) :=
  c ← peek p ;
  if c =? ch "%" then v ← out c v ; mret (p, reset v)
  else if c =? ch "-" then mret (p, if has PR_LJ v then reset v else or_flag PR_LJ v)
  else
    let v := next_state v in
    if c =? ch "0" then stage2 (p + 1) (or_flag PR_LZ v) else stage2 p v.

(** STATE 0: text.  A [char] is extended with its sign. *)
Definition stage0 (p : Z) (v : vars) : K (memory * X) (Z * vars) :=
  c ← peek p ;
  if negb (c =? ch "%") then v ← out (u32 (s8 c)) v ; mret (p, v)
  else stage1 (p + 1) (next_state v).

Definition stage (p : Z) (v : vars) : K (memory * X) (Z * vars) :=
  if state v =? 0 then stage0 p v
  else if state v =? 1 then stage1 p v
  else if state v =? 2 then stage2 p v
  else if state v =? 3 then stage3 p v
  else if state v =? 4 then stage4 p v
  else mret (p, reset v).

(** The loop over the format, up to its NUL. *)
Fixpoint printf_loop (fuel : nat) (fmt : Z) (v : vars) : K (memory * X) Z :=
  c ← peek fmt ;
  if c =? 0 then mret (s32 (count v)) else
  match fuel with
  | O => kstuck
  | S fuel' => '(fmt, v) ← stage fmt v ; printf_loop fuel' (fmt + 1) v
  end.
Definition printf_helper (fmt : Z) (args : list Z) : K (memory * X) Z :=
  s ← kget ; printf_loop (size s.1) fmt (mkVars 0 0 0 0 args).

End printf.

(** [vsprintf_help]: its state is the pointer behind [ptr]. *)
Definition vsprintf_help (c : Z) : K (memory * Z) unit := fun s =>
  match store s.2 (u8 c) s.1 with
  | Done (_, m) => Done (tt, (m, s.2 + 1))
  | Panic msg => Panic msg
  | Fault => Fault
  | Stuck => Stuck
  end.

Definition kvsprintf (buf fmt : Z) (args : list Z) : K memory Z := fun m =>
  match printf_helper vsprintf_help fmt args (m, buf) with
  | Done (ret_val, s) => (store (buf + ret_val) 0 ;; mret ret_val) s.1
  | Panic msg => Panic msg
  | Fault => Fault
  | Stuck => Stuck
  end.
(** [ksprintf], its variable arguments being [args]. *)
Definition ksprintf (buf fmt : Z) (args : list Z) : K memory Z := kvsprintf buf fmt args.

(** "%d items" at address 0, a buffer at 100. *)
Definition memory_with (l : list (Z * string)) : memory :=
  foldr (fun x m => foldr (fun y m => <[x.1 + Z.of_nat y.1 := y.2]> m) m
                     (imap pair ((ch <$> String.list_ascii_of_string x.2) ++ [0]))) ∅ l.
Definition blank (p n : Z) (m : memory) : memory := foldr (fun a m => <[a := 255]> m) m (seqZ p n).

Example printf_test : match ksprintf 100 0 [u32 (-42); 50; 0xBEEF] (blank 100 40 (memory_with [(0, "[%05d|%-6s|%X]"%string); (50, "abc"%string)])) with
  | Done (n, m) => Some (n, read_string m 100 n) | _ => None end = Some (23, ch <$> String.list_ascii_of_string "[-0042|abc   |0000BEEF]").
Proof. vm_compute. reflexivity. Qed.

(** ** What a format means *)

(** A piece of a format: a character of the text, "%%", or a conversion. *)
Inductive item :=
  | Text (c : Z)
  | Percent
  | Conv (lj lz : bool) (width mods : list Z) (conv : Z).

Definition opt (b : bool) (c : Z) : list Z := if b then [c] else [].
Definition print_item (it : item) : list Z :=
  match it with
  | Text c => [c]
  | Percent => [ch "%"; ch "%"]
  | Conv lj lz width mods conv => ch "%" :: opt lj (ch "-") ++ opt lz (ch "0") ++ width ++ mods ++ [conv]
  end.
Definition print_format (its : list item) : list Z := its ≫= print_item.

Definition modifiers : list Z := ch <$> ["F"; "N"; "z"; "l"; "L"; "h"]%char.
Definition conversions : list Z := ch <$> ["X"; "x"; "p"; "n"; "d"; "i"; "u"; "o"; "c"; "s"]%char.
(** A width does not begin with a zero: that is the flag. *)
Definition item_ok (it : item) : Prop :=
  match it with
  | Text c => is_char c /\ c <> ch "%"
  | Percent => True
  | Conv lj lz width mods conv =>
      Forall is_digit width /\ (lz = false -> head width <> Some ch_0) /\
      Forall (.∈ modifiers) mods /\ conv ∈ conversions
  end.

(** A field: its sign and its digits or characters, in [wd] places; the sign
    is before the zeroes or after the spaces. *)
Definition justified (lj lz neg : bool) (wd actual_wd : Z) (body : list Z) : list Z :=
  (if lj then [] else replicate (Z.to_nat (wd - actual_wd)) (if lz then ch "0" else ch " ")) ++
  opt (neg && negb lz) (ch "-") ++ body ++
  (if lj then replicate (Z.to_nat (wd - actual_wd)) (ch " ") else []).
Definition field (lj lz neg : bool) (wd actual_wd : Z) (body : list Z) : list Z :=
  opt (neg && lz) (ch "-") ++ justified lj lz neg wd actual_wd body.

Definition long_long (mods : list Z) : bool := bool_decide (ch "L" ∈ mods).

(** The field of a number, the word [w] of the arguments. *)
Definition number_field (lj lz signed caps : bool) (wd radix w : Z) : option (list Z) :=
  let neg := signed && (s32 w <? 0) in
  if neg && (s32 w =? INT_MIN) then None else
  match digits 10 caps radix (if neg then - s32 w else u32 (s32 w)) [] with
  | Done l => Some (field lj lz neg wd (Z.of_nat (length l) + Z.b2z neg) l)
  | _ => None
  end.

(** What an item prints, and the arguments it leaves.  [strs] are the strings
    that pointers among the arguments point to. *)
Definition item_out (strs : Z -> option (list Z)) (it : item) (args : list Z) : option (list Z * list Z) :=
  match it with
  | Text c => Some ([u32 (s8 c)], args)
  | Percent => Some ([ch "%"], args)
  | Conv lj lz width mods conv =>
      let wd := u32 (decimal width) in
      match args with
      | [] => None
      | w :: rest =>
          if conv =? ch "c" then
            Some (field lj false false wd 1 (if u8 w =? 0 then [] else [u8 w]), rest)
          else if conv =? ch "s" then
            l ← strs w ; Some (field lj false false wd (Z.of_nat (length l)) l, rest)
          else
            rest' ← (if long_long mods then match rest with [] => None | _ :: r => Some r end else Some rest) ;
            o ← (if (conv =? ch "X") || (conv =? ch "x") || (conv =? ch "p")
                 then number_field lj true false (conv =? ch "X") 8 16 w
                 else if conv =? ch "n" then number_field lj lz false false wd 16 w
                 else if conv =? ch "u" then number_field lj lz false false wd 10 w
                 else if conv =? ch "o" then number_field lj lz false false wd 8 w
                 else number_field lj lz true false wd 10 w) ;
            Some (o, rest')
      end
  end.
Fixpoint format_out (strs : Z -> option (list Z)) (its : list item) (args : list Z) : option (list Z * list Z) :=
  match its with
  | [] => Some ([], args)
  | it :: its' =>
      '(o, args) ← item_out strs it args ; '(os, args) ← format_out strs its' args ; Some (o ++ os, args)
  end.

Lemma format_out_cons strs it its args o args' os r : item_out strs it args = Some (o, args') ->
  format_out strs its args' = Some (os, r) -> format_out strs (it :: its) args = Some (o ++ os, r).
Proof. intros E1 E2. cbn [format_out]. rewrite E1. cbn [mbind option_bind]. by rewrite E2. Qed.
Lemma format_out_app strs its1 : forall its2 args o1 args' o2 r, format_out strs its1 args = Some (o1, args') ->
  format_out strs its2 args' = Some (o2, r) -> format_out strs (its1 ++ its2) args = Some (o1 ++ o2, r).
Proof.
  induction its1 as [|it its1 IH]; intros its2 args o1 args' o2 r E1 E2; cbn [format_out app] in *; [by injection E1 as <- <-|].
  apply bind_Some in E1 as ([o args1] & Eo & E1). apply bind_Some in E1 as ([os args2] & Eos & [= <- <-]).
  rewrite Eo. cbn [mbind option_bind]. rewrite (IH _ _ _ _ _ _ Eos E2). cbn. by rewrite app_assoc.
Qed.
Lemma format_out_text strs l args : format_out strs (Text <$> l) args = Some ((fun c => u32 (s8 c)) <$> l, args).
Proof. induction l as [|c l IH]; [done|]. cbn [fmap list_fmap]. eapply (format_out_cons _ _ _ _ [_]); [reflexivity|exact IH]. Qed.
Lemma print_format_text l : print_format (Text <$> l) = l.
Proof. induction l as [|c l IH]; [done|]. cbn. f_equal. exact IH. Qed.

(** ** Runs that print *)
Section runs.
Context {X : Type} (fn : Z -> K (memory * X) unit).

(** What the run needs of memory. *)
Context (P : memory -> Prop).

(** The callback, called with the characters of a list in order, accepts them
    all and leaves [P] true every time. *)
Fixpoint emits (l : list Z) (s s' : memory * X) : Prop :=
  match l with
  | [] => s' = s
  | c :: l' => exists s1, fn c s = Done (tt, s1) /\ P s1.1 /\ emits l' s1 s'
  end.

(** [m] passes [o] to the callback and returns [a], if the callback accepts. *)
Definition prints {A} (m : K (memory * X) A) (o : list Z) (a : A) : Prop :=
  forall s s', P s.1 -> emits o s s' -> m s = Done (a, s').

Lemma emits_app l1 l2 s s' : emits (l1 ++ l2) s s' -> exists s1, emits l1 s s1 /\ emits l2 s1 s'.
Proof.
  revert s. induction l1 as [|c l1 IH]; intros s E; cbn [app emits] in *; [by exists s|].
  destruct E as (s1 & E1 & H1 & E). destruct (IH _ E) as (s2 & E2 & E3). exists s2. split; [|done]. by exists s1.
Qed.
Lemma emits_P l s s' : emits l s s' -> P s.1 -> P s'.1.
Proof.
  revert s. induction l as [|c l IH]; intros s E Hs; cbn [emits] in *; [by subst|].
  destruct E as (s1 & E1 & H1 & E). by eapply IH.
Qed.

Lemma prints_ret {A} (a : A) : prints (mret a) [] a.
Proof. intros s s' _ ->. done. Qed.
Lemma prints_bind {A C} (m : K (memory * X) A) (f : A -> K (memory * X) C) o1 o2 a b :
  prints m o1 a -> prints (f a) o2 b -> prints (m ≫= f) (o1 ++ o2) b.
Proof.
  intros Hm Hf s s' Hs E. apply emits_app in E as (s1 & E1 & E2).
  rewrite (run_bind_done _ _ _ _ _ (Hm _ _ Hs E1)). apply Hf; [by eapply emits_P|done].
Qed.
(** A step that prints nothing. *)
Lemma prints_step {A C} (m : K (memory * X) A) (f : A -> K (memory * X) C) o a b :
  prints m [] a -> prints (f a) o b -> prints (m ≫= f) o b.
Proof. apply (prints_bind m f [] o). Qed.
Lemma prints_last {A C} (m : K (memory * X) A) (f : A -> C) o a : prints m o a -> prints (x ← m ; mret (f x)) o (f a).
Proof. intros Hm. rewrite <- (app_nil_r o). eapply prints_bind; [exact Hm|apply prints_ret]. Qed.
Lemma prints_read {A} (f : memory * X -> outcome A) a : (forall s, P s.1 -> f s = Done a) -> prints (kread f) [] a.
Proof. intros Hf s s' Hs ->. unfold kread. by rewrite Hf. Qed.
Lemma prints_peek p c : (forall m, P m -> m !! p = Some c) -> prints (peek p) [] c.
Proof. intros H. apply prints_read. intros s Hs. unfold load. by rewrite H. Qed.

(** [n] characters more. *)
Definition bump (n : Z) (v : vars) : vars := set_count (u32 (count v + n)) v.
Definition counted (v : vars) : Prop := in_u32 (count v).

Lemma bump_0 v : counted v -> bump 0 v = v.
Proof. intros H. unfold bump. rewrite Z.add_0_r, u32_small by done. by destruct v. Qed.
Lemma bump_bump a b v : bump a (bump b v) = bump (b + a) v.
Proof.
  unfold bump, set_count. cbn. f_equal. unfold u32, wrap. rewrite Zplus_mod_idemp_l. f_equal. lia.
Qed.
Lemma counted_bump n v : counted (bump n v).
Proof. apply u32_range. Qed.

Lemma prints_out c v : prints (out fn c v) [c] (bump 1 v).
Proof.
  intros s s' Hs (s1 & E & _ & ->). unfold out. by rewrite (run_bind_done _ _ _ _ _ E).
Qed.
Lemma prints_pad n c v : counted v -> prints (pad fn n c v) (replicate n c) (bump (Z.of_nat n) v).
Proof.
  revert v. induction n as [|n IH]; intros v Hv; cbn [pad replicate]; [rewrite bump_0 by done; apply prints_ret|].
  change (c :: replicate n c) with ([c] ++ replicate n c). eapply prints_bind; [apply prints_out|].
  replace (bump (Z.of_nat (S n)) v) with (bump (Z.of_nat n) (bump 1 v)) by (rewrite bump_bump; f_equal; lia).
  apply IH, counted_bump.
Qed.
Lemma prints_list l v : counted v -> Forall (fun c => c <> 0) l -> prints (out_list fn l v) l (bump (Z.of_nat (length l)) v).
Proof.
  intros Hv Hl. revert v Hv. induction Hl as [|c l Hc Hl IH]; intros v Hv; cbn [out_list length].
  - rewrite bump_0 by done. apply prints_ret.
  - destruct (Z.eqb_spec c 0); [done|]. change (c :: l) with ([c] ++ l). eapply prints_bind; [apply prints_out|].
    replace (bump (Z.of_nat (S (length l))) v) with (bump (Z.of_nat (length l)) (bump 1 v)) by (rewrite bump_bump; f_equal; lia).
    apply IH, counted_bump.
Qed.
Lemma prints_string l : forall p fuel v, counted v -> (forall m, P m -> cstr m p l) -> (length l <= fuel)%nat ->
  prints (out_string fn fuel p v) l (bump (Z.of_nat (length l)) v).
Proof.
  induction l as [|c l IH]; intros p fuel v Hv Hp Hf.
  - assert (Hpk : prints (peek p) [] 0) by (apply prints_peek; intros m Hm; apply cstr_nil, Hp, Hm).
    destruct fuel; cbn [out_string]; (eapply prints_step; [exact Hpk|]); cbn; rewrite bump_0 by done; apply prints_ret.
  - destruct fuel as [|fuel]; [cbn in Hf; lia|]. cbn [out_string length] in *.
    eapply prints_step; [apply (prints_peek p c)|].
    { intros m Hm. by apply Hp, cstr_cons in Hm as (? & _). }
    cbv beta. intros s s' Hs. destruct (Z.eqb_spec c 0) as [->|_].
    { apply Hp, cstr_cons in Hs as (_ & Hc & _). unfold is_char in Hc. lia. }
    revert s s' Hs. change (prints (v ← out fn c v ; out_string fn fuel (p + 1) v) ([c] ++ l) (bump (Z.of_nat (S (length l))) v)).
    eapply prints_bind; [apply prints_out|].
    replace (bump (Z.of_nat (S (length l))) v) with (bump (Z.of_nat (length l)) (bump 1 v)) by (rewrite bump_bump; f_equal; lia).
    apply IH; [apply counted_bump| |lia]. intros m Hm. by apply Hp, cstr_cons in Hm as (_ & _ & ?).
Qed.

(** *** Flags *)
Lemma has_or f g v : has f (or_flag g v) = has f v || negb (Z.land g f =? 0).
Proof.
  unfold has, or_flag, set_flags. cbn [flags]. rewrite Z.land_lor_distr_l, <- negb_andb. f_equal.
  apply eq_bool_prop_intro. rewrite andb_True, !Is_true_true, !Z.eqb_eq. apply Z.lor_eq_0_iff.
Qed.
Lemma has_diff f g v : has f (set_flags (Z.ldiff (flags v) g) v) = has (Z.ldiff f g) v.
Proof.
  unfold has, set_flags. cbn [flags]. do 2 f_equal. apply Z.bits_inj'. intros n Hn.
  rewrite !Z.land_spec, !Z.ldiff_spec. destruct (Z.testbit (flags v) n), (Z.testbit f n), (Z.testbit g n); done.
Qed.

Lemma prints_eq {A} (m : K (memory * X) A) o o' a a' : prints m o a -> o = o' -> a = a' -> prints m o' a'.
Proof. by intros ? <- <-. Qed.
Lemma prints_opt (b : bool) c v : counted v ->
  prints (if b then out fn c v else mret v) (opt b c) (bump (Z.of_nat (length (opt b c))) v).
Proof. intros Hv. destruct b; [apply prints_out|]. cbn. rewrite bump_0 by done. apply prints_ret. Qed.

(** *** Fields *)
Definition where_prints (w : where_) (body : list Z) : Prop :=
  forall v, counted v -> prints (out_where fn w v) body (bump (Z.of_nat (length body)) v).

Lemma prints_emit2 w act v body : counted v -> where_prints w body ->
  let o := justified (has PR_LJ v) (has PR_LZ v) (has PR_WS v) (given_wd v) act body in
  prints (emit2 fn w act v) o (set_wd 0 (bump (Z.of_nat (length o)) v)).
Proof.
  intros Hv Hw o. unfold o, justified, emit2. clear o.
  set (pd := if has PR_LZ v then ch "0" else ch " ").
  set (n := Z.to_nat (given_wd v - act)).
  set (sg := opt (has PR_WS v && negb (has PR_LZ v)) (ch "-")).
  destruct (has PR_LJ v) eqn:Hlj.
  - eapply prints_bind; [apply prints_ret|].
    eapply prints_bind; [by apply prints_opt|]. fold sg.
    eapply prints_bind; [apply Hw, counted_bump|]. rewrite bump_bump.
    set (v1 := bump _ v). change (given_wd v1) with (given_wd v).
    assert (En : Z.to_nat (if given_wd v <? act then 0 else given_wd v - act) = n) by (unfold n; destruct (Z.ltb_spec (given_wd v) act); lia).
    rewrite En. rewrite <- (app_nil_r (replicate n (ch " "))).
    eapply prints_bind; [apply prints_pad, counted_bump|].
    eapply prints_eq; [apply prints_ret|done|]. f_equal. unfold v1. rewrite bump_bump. f_equal.
    cbn [app]. rewrite app_nil_r, !length_app, length_replicate. lia.
  - eapply prints_bind.
    { rewrite <- (app_nil_r (replicate n pd)). eapply prints_bind; [by apply prints_pad|]. apply prints_ret. }
    set (v1 := set_wd (Z.min (given_wd v) act) (bump (Z.of_nat n) v)).
    change (has PR_WS v1) with (has PR_WS v). change (has PR_LZ v1) with (has PR_LZ v).
    eapply prints_bind; [apply prints_opt; apply counted_bump|]. fold sg.
    eapply prints_bind; [apply Hw, counted_bump|]. rewrite bump_bump.
    set (v2 := bump _ v1). change (given_wd v2) with (Z.min (given_wd v) act).
    assert (En : Z.to_nat (if Z.min (given_wd v) act <? act then 0 else Z.min (given_wd v) act - act) = 0%nat).
    { destruct (Z.ltb_spec (Z.min (given_wd v) act) act); lia. }
    rewrite En. cbn [pad]. eapply prints_step; [apply prints_ret|].
    eapply prints_eq; [apply prints_ret|done|]. unfold v2, v1, bump, set_wd, set_count. cbn. f_equal.
    rewrite !length_app, length_replicate. cbn. unfold u32, wrap. rewrite Zplus_mod_idemp_l. f_equal. fold sg. lia.
Qed.

Lemma prints_emit w len v body : counted v -> where_prints w body -> 0 <= len -> len + 1 < 2 ^ 32 ->
  prints (match w with Local l => mret (Z.of_nat (length l)) | Pointer p => kread (fun s => strlen p s.1) end) [] len ->
  let o := field (has PR_LJ v) (has PR_LZ v) (has PR_WS v) (given_wd v) (len + Z.b2z (has PR_WS v)) body in
  prints (emit fn w v) o (set_wd 0 (bump (Z.of_nat (length o)) v)).
Proof.
  intros Hv Hw Hlen Hmax Hl o. unfold o, field, emit. clear o.
  eapply prints_step; [exact Hl|]. cbv beta.
  assert (Ea : (if has PR_WS v then u32 (len + 1) else len) = len + Z.b2z (has PR_WS v)).
  { destruct (has PR_WS v); cbn; [apply u32_small; unfold in_u32; lia|lia]. }
  rewrite Ea. cbv zeta. eapply prints_bind; [by apply prints_opt|].
  set (v1 := bump _ v). eapply prints_eq; [apply (prints_emit2 w _ v1 body); [apply counted_bump|done]|done|].
  unfold v1. rewrite bump_bump. f_equal. f_equal. rewrite length_app, Nat2Z.inj_add. reflexivity.
Qed.

(** *** Numbers *)

Lemma digit_value caps t : 0 <= t < 16 -> digit caps t <> 0.
Proof.
  intros Ht. unfold digit. destruct (Z.ltb_spec t 10); [|destruct caps];
    rewrite u8_small by (change (ch "0") with 48; change (ch "A") with 65; change (ch "a") with 97; lia);
    change (ch "0") with 48; change (ch "A") with 65; change (ch "a") with 97; lia.
Qed.

(** The digits of [n] in a base, none of them superfluous. *)
Definition base_numeral (caps : bool) (radix n : Z) (l : list Z) : Prop :=
  exists ds, l = digit caps <$> ds /\ Forall (fun d => 0 <= d < radix) ds /\
    foldl (fun acc d => radix * acc + d) 0 ds = n /\ ds <> [] /\ (head ds = Some 0 -> ds = [0]).

Lemma digits_spec fuel : forall caps radix n w, 2 <= radix -> 0 <= n < radix ^ Z.of_nat (S fuel) ->
  exists l, digits fuel caps radix n w = Done (l ++ w) /\ base_numeral caps radix n l /\ (length l <= S fuel)%nat.
Proof.
  induction fuel as [|fuel IH]; intros caps radix n w Hr Hn; cbn [digits];
    pose proof (Z.mod_pos_bound n radix ltac:(lia)) as Hm; pose proof (Z.div_mod n radix ltac:(lia)) as Hdm.
  - assert (n / radix = 0) as E by (apply Z.div_small; rewrite Z.pow_1_r in Hn; lia). rewrite E in *. cbn.
    exists [digit caps (n mod radix)]. split; [done|]. split; [|cbn; lia]. exists [n mod radix].
    split; [done|]. split; [by apply Forall_singleton|]. split; [cbn; lia|]. split; [done|]. by intros [= ->].
  - destruct (Z.eqb_spec (n / radix) 0) as [E|E].
    + rewrite E in Hdm. exists [digit caps (n mod radix)]. split; [done|]. split; [|cbn; lia]. exists [n mod radix].
      split; [done|]. split; [by apply Forall_singleton|]. split; [cbn; lia|]. split; [done|]. by intros [= ->].
    + destruct (IH caps radix (n / radix) (digit caps (n mod radix) :: w)) as (l & El & (ds & -> & Hd & Hv & Hne & Hh) & Hl); [done| |].
      { split; [apply Z.div_pos; lia|]. apply Z.div_lt_upper_bound; [lia|]. rewrite <- Z.pow_succ_r by lia.
        replace (Z.succ (Z.of_nat (S fuel))) with (Z.of_nat (S (S fuel))) by lia. apply Hn. }
      exists ((digit caps <$> ds) ++ [digit caps (n mod radix)]). rewrite El, <- app_assoc. split; [done|].
      split; [|rewrite length_app; cbn [length]; lia]. exists (ds ++ [n mod radix]). rewrite fmap_app. split; [done|].
      split; [apply Forall_app; split; [done|by apply Forall_singleton]|]. split; [rewrite foldl_app, Hv; cbn [foldl]; lia|].
      split; [by destruct ds|]. destruct ds as [|d ds]; [done|]. cbn. intros [= ->]. specialize (Hh eq_refl).
      rewrite Hh in Hv. cbn in Hv. lia.
Qed.

Lemma base_numeral_nonzero caps radix n l : 2 <= radix <= 16 -> base_numeral caps radix n l -> Forall (fun c => c <> 0) l.
Proof.
  intros Hr (ds & -> & Hd & _). apply Forall_fmap. eapply Forall_impl; [exact Hd|]. intros d Hb. cbv beta in Hb. apply digit_value. lia.
Qed.

Lemma s32_range w : INT_MIN <= s32 w <= INT_MAX.
Proof.
  change INT_MIN with (-2147483648). change INT_MAX with 2147483647.
  unfold s32, swrap. cbv zeta. change (2 ^ (32 - 1)) with 2147483648. change (2 ^ 32) with 4294967296.
  pose proof (Z.mod_pos_bound w 4294967296). destruct (Z.ltb_spec (w mod 4294967296) 2147483648); lia.
Qed.

(** The digits printed for a word. *)
Lemma word_digits caps radix n : In radix [8; 10; 16] -> 0 <= n < 2 ^ 32 ->
  exists l, digits 10 caps radix n [] = Done l /\ base_numeral caps radix n l /\ (length l <= 11)%nat.
Proof.
  intros Hr Hn. destruct (digits_spec 10 caps radix n []) as (l & E & H & Hl).
  - destruct Hr as [<-|[<-|[<-|[]]]]; lia.
  - destruct Hr as [<-|[<-|[<-|[]]]]; lia.
  - exists l. by rewrite E, app_nil_r.
Qed.

Lemma where_local l : Forall (fun c => c <> 0) l -> where_prints (Local l) l.
Proof. intros Hl v Hv. by apply prints_list. Qed.

Lemma prints_do_num radix v w o v1 : counted v -> In radix [8; 10; 16] -> has PR_WS v = false ->
  load_num v = Done (s32 w, v1) -> flags v1 = flags v -> given_wd v1 = given_wd v -> count v1 = count v ->
  number_field (has PR_LJ v) (has PR_LZ v) (has PR_SG v) (has PR_CA v) (given_wd v) radix w = Some o ->
  exists v', prints (do_num fn radix v) o v' /\ count v' = u32 (count v + Z.of_nat (length o)) /\ args v' = args v1.
Proof.
  intros Hv Hr Hws Hl Hf Hg Hcnt Ho. unfold number_field in Ho. set (neg := has PR_SG v && (s32 w <? 0)) in *.
  destruct (neg && (s32 w =? INT_MIN)) eqn:Hmin; [done|].
  set (mag := if neg then - s32 w else u32 (s32 w)) in *.
  pose proof (s32_range w) as Hs. assert (Hneg : neg = true -> INT_MIN < s32 w < 0).
  { intros E. rewrite E in Hmin. cbn in Hmin. unfold neg in E. apply andb_true_iff in E as [_ E].
    apply Z.ltb_lt in E. apply Z.eqb_neq in Hmin. lia. }
  assert (Hmag : 0 <= mag < 2 ^ 32).
  { unfold mag. destruct neg; [|apply u32_range]. unfold INT_MIN, INT_MAX in *. lia. }
  destruct (word_digits (has PR_CA v) radix mag Hr Hmag) as (l & El & Hb & Hlen). rewrite El in Ho. injection Ho as <-.
  assert (Hhas : forall f, has f v1 = has f v) by (intros f; unfold has; by rewrite Hf).
  assert (Hc1 : counted v1) by (unfold counted; by rewrite Hcnt).
  set (v2 := if neg then or_flag PR_WS v1 else v1).
  assert (H2 : has PR_LJ v2 = has PR_LJ v /\ has PR_LZ v2 = has PR_LZ v /\ has PR_CA v2 = has PR_CA v /\ has PR_WS v2 = neg).
  { unfold v2. destruct neg; rewrite ?has_or, !Hhas, ?Hws; cbn [negb]; rewrite ?orb_false_r; repeat split; reflexivity. }
  destruct H2 as (H2a & H2b & H2c & H2d).
  eexists. split; [|split].
  - unfold do_num. eapply prints_step; [apply prints_read; intros s _; exact Hl|]. cbv beta iota.
    eapply prints_step with (a := (if neg then - s32 w else s32 w, v2)).
    { rewrite Hhas. fold neg. unfold v2. destruct neg; [|apply prints_ret].
      eapply prints_step; [apply prints_read; intros s _; apply int_ok_done; unfold INT_MIN, INT_MAX in *; lia|]. apply prints_ret. }
    cbv beta iota. eapply prints_step with (a := l).
    { apply prints_read. intros s _. rewrite H2c. rewrite <- El. f_equal. unfold mag. destruct neg; [|done].
      apply u32_small. unfold in_u32, INT_MIN, INT_MAX in *. lia. }
    cbv beta. eapply prints_eq; [apply (prints_emit (Local l) (Z.of_nat (length l)) v2 l)|..].
    + unfold v2. by destruct neg.
    + apply where_local. eapply base_numeral_nonzero; [|exact Hb]. destruct Hr as [<-|[<-|[<-|[]]]]; lia.
    + lia.
    + lia.
    + apply prints_ret.
    + rewrite H2a, H2b, H2d. assert (Eg : given_wd v2 = given_wd v) by (unfold v2; by destruct neg). by rewrite Eg.
    + reflexivity.
  - rewrite H2a, H2b, H2d. assert (Eg : given_wd v2 = given_wd v) by (unfold v2; by destruct neg). rewrite Eg.
    assert (Ec : count v2 = count v) by (unfold v2; by destruct neg). cbn. by rewrite Ec.
  - unfold v2. by destruct neg.
Qed.

(** *** Conversions *)

Lemma has_or_ne f g v : Z.land g f = 0 -> has f (or_flag g v) = has f v.
Proof. intros E. by rewrite has_or, E, orb_false_r. Qed.
Lemma has_or_in f g v : Z.land g f <> 0 -> has f (or_flag g v) = true.
Proof. intros E. rewrite has_or. apply Z.eqb_neq in E. by rewrite E, orb_true_r. Qed.
Lemma has_wd f w v : has f (set_wd w v) = has f v.
Proof. done. Qed.
Lemma has_args f a v : has f (set_args a v) = has f v.
Proof. done. Qed.
Ltac flag_facts :=
  repeat first [rewrite has_or_ne by reflexivity | rewrite has_or_in by discriminate
               | rewrite has_wd | rewrite has_args | rewrite has_diff].

(** The flags and the width read before a conversion character. *)
Record shape (v : vars) (lj lz l64 : bool) (wd : Z) : Prop := {
  sh_lj : has PR_LJ v = lj;
  sh_lz : has PR_LZ v = lz;
  sh_64 : has PR_64 v = l64;
  sh_ca : has PR_CA v = false;
  sh_sg : has PR_SG v = false;
  sh_ws : has PR_WS v = false;
  sh_wd : given_wd v = wd;
}.

(** The arguments that a number takes. *)
Definition after_number (l64 : bool) (rest : list Z) : option (list Z) :=
  if l64 then match rest with [] => None | _ :: r => Some r end else Some rest.

Lemma load_num_run v w rest rest' : args v = w :: rest -> after_number (has PR_64 v) rest = Some rest' ->
  load_num v = Done (s32 w, set_args rest' v).
Proof.
  intros Ea Hr. unfold load_num, pop, after_number in *. rewrite Ea. destruct (has PR_64 v); cbn.
  - destruct rest as [|hi rest]; [done|]. injection Hr as <-. done.
  - by injection Hr as <-.
Qed.

Lemma prints_number radix v lj lz l64 wd sg ca w rest rest' o : counted v -> In radix [8; 10; 16] ->
  has PR_LJ v = lj -> has PR_LZ v = lz -> has PR_64 v = l64 -> has PR_CA v = ca -> has PR_SG v = sg ->
  has PR_WS v = false -> given_wd v = wd -> args v = w :: rest -> after_number l64 rest = Some rest' ->
  number_field lj lz sg ca wd radix w = Some o ->
  exists v', prints (do_num fn radix v) o v' /\ count v' = u32 (count v + Z.of_nat (length o)) /\ args v' = rest'.
Proof.
  intros Hv Hr <- <- <- <- <- Hws <- Ea Hrest Ho.
  apply (prints_do_num radix v w o (set_args rest' v)); try done. by apply (load_num_run v w rest).
Qed.

Lemma where_string a l : (forall m, P m -> cstr m a l) -> where_prints (Pointer a) l.
Proof.
  intros Hl v Hv s s' Hs E. cbn [out_where]. rewrite (run_bind_done _ _ s s s eq_refl).
  apply (prints_string l a (size s.1) v); [done|done| |done|done].
  specialize (Hl _ Hs). apply cstr_size in Hl. lia.
Qed.
Lemma where_char b : where_prints (Local [b]) (if b =? 0 then [] else [b]).
Proof.
  intros v Hv. destruct (Z.eqb_spec b 0) as [->|Hb].
  - cbn. rewrite bump_0 by done. apply prints_ret.
  - apply where_local; [|done]. by apply Forall_singleton.
Qed.

(** The strings behind the pointers of the arguments. *)
Variable strs : Z -> option (list Z).
Hypothesis Hstrs : forall a l, strs a = Some l -> Z.of_nat (length l) <= INT_MAX /\ forall m, P m -> cstr m a l.

Lemma prints_conversion v lj lz width mods conv o rest : counted v -> conv ∈ conversions ->
  shape v lj lz (long_long mods) (u32 (decimal width)) ->
  item_out strs (Conv lj lz width mods conv) (args v) = Some (o, rest) ->
  exists v', prints (conversion fn conv v) o v' /\ count v' = u32 (count v + Z.of_nat (length o)) /\ args v' = rest.
Proof.
  intros Hv Hc [H1 H2 H3 H4 H5 H6 H7] Ho. cbn [item_out] in Ho. destruct (args v) as [|w rest0] eqn:Ea; [done|].
  change conversions with [ch "X"; ch "x"; ch "p"; ch "n"; ch "d"; ch "i"; ch "u"; ch "o"; ch "c"; ch "s"] in Hc.
  assert (Hnum : forall radix v1 lz1 sg ca wd, In radix [8; 10; 16] -> counted v1 -> has PR_LJ v1 = lj -> has PR_LZ v1 = lz1 ->
    has PR_64 v1 = long_long mods -> has PR_CA v1 = ca -> has PR_SG v1 = sg -> has PR_WS v1 = false -> given_wd v1 = wd ->
    args v1 = w :: rest0 -> count v1 = count v ->
    (rest' ← after_number (long_long mods) rest0 ; o ← number_field lj lz1 sg ca wd radix w ; Some (o, rest')) = Some (o, rest) ->
    exists v', prints (do_num fn radix v1) o v' /\ count v' = u32 (count v + Z.of_nat (length o)) /\ args v' = rest).
  { intros radix v1 lz1 sg ca wd Hr Hv1 E1 E2 E3 E4 E5 E6 E7 E8 E9 E.
    apply bind_Some in E as (r & Er & E). apply bind_Some in E as (o' & Eo & [= <- <-]). rewrite <- E9.
    by apply (prints_number radix v1 lj lz1 (long_long mods) wd sg ca w rest0). }
  repeat (apply elem_of_cons in Hc as [->|Hc]); [..|by apply elem_of_nil in Hc].
  - apply (Hnum 16 (or_flag PR_32 (set_wd 8 (or_flag PR_LZ (or_flag PR_CA v)))) true false true 8); flag_facts; auto; cbn; tauto.
  - apply (Hnum 16 (or_flag PR_32 (set_wd 8 (or_flag PR_LZ v))) true false false 8); flag_facts; auto; cbn; tauto.
  - apply (Hnum 16 (or_flag PR_32 (set_wd 8 (or_flag PR_LZ v))) true false false 8); flag_facts; auto; cbn; tauto.
  - apply (Hnum 16 v lz false false (u32 (decimal width))); auto; cbn; tauto.
  - apply (Hnum 10 (or_flag PR_SG v) lz true false (u32 (decimal width))); flag_facts; auto; cbn; tauto.
  - apply (Hnum 10 (or_flag PR_SG v) lz true false (u32 (decimal width))); flag_facts; auto; cbn; tauto.
  - apply (Hnum 10 v lz false false (u32 (decimal width))); auto; cbn; tauto.
  - apply (Hnum 8 v lz false false (u32 (decimal width))); auto; cbn; tauto.
  - injection Ho as <- <-. set (v1 := set_args rest0 (set_flags (Z.ldiff (flags v) PR_LZ) v)).
    assert (Ef : has PR_LJ v1 = lj /\ has PR_LZ v1 = false /\ has PR_WS v1 = false).
    { unfold v1. flag_facts. change (Z.ldiff PR_LJ PR_LZ) with PR_LJ. change (Z.ldiff PR_WS PR_LZ) with PR_WS.
      split; [done|]. split; [|done]. unfold has. change (Z.ldiff PR_LZ PR_LZ) with 0. by rewrite Z.land_0_r. }
    destruct Ef as (F1 & F2 & F3).
    eexists. split; [|split].
    + eapply prints_step; [apply prints_read; intros s _; unfold pop; cbn; by rewrite Ea|]. cbv beta iota. fold v1.
      eapply prints_eq; [apply (prints_emit2 (Local [u8 w]) 1 v1 (if u8 w =? 0 then [] else [u8 w])); [done|apply where_char]|..|reflexivity].
      rewrite F1, F2, F3. change (given_wd v1) with (given_wd v). by rewrite H7.
    + rewrite F1, F2, F3. change (given_wd v1) with (given_wd v). by rewrite H7.
    + done.
  - apply bind_Some in Ho as (l & El & [= <- <-]). destruct (Hstrs _ _ El) as [Hlen Hstr].
    set (v1 := set_args rest0 (set_flags (Z.ldiff (flags v) PR_LZ) v)).
    assert (Ef : has PR_LJ v1 = lj /\ has PR_LZ v1 = false /\ has PR_WS v1 = false).
    { unfold v1. flag_facts. change (Z.ldiff PR_LJ PR_LZ) with PR_LJ. change (Z.ldiff PR_WS PR_LZ) with PR_WS.
      split; [done|]. split; [|done]. unfold has. change (Z.ldiff PR_LZ PR_LZ) with 0. by rewrite Z.land_0_r. }
    destruct Ef as (F1 & F2 & F3). unfold INT_MAX in Hlen.
    eexists. split; [|split].
    + eapply prints_step; [apply prints_read; intros s _; unfold pop; cbn; by rewrite Ea|]. cbv beta iota. fold v1.
      eapply prints_eq; [apply (prints_emit (Pointer w) (Z.of_nat (length l)) v1 l); [done|by apply where_string|lia|lia|]|..|reflexivity].
      { apply prints_read. intros s Hs. apply strlen_spec; [by apply Hstr|unfold INT_MAX; lia]. }
      rewrite F1, F2, F3, Z.add_0_r. change (given_wd v1) with (given_wd v). by rewrite H7.
    + rewrite F1, F2, F3, Z.add_0_r. change (given_wd v1) with (given_wd v). by rewrite H7.
    + done.
Qed.

(** *** The state machine on the text of an item *)

Definition text_at (p : Z) (t : list Z) : Prop := forall m, P m -> cstr m p t.
Definition go (fuel : nat) (m : K (memory * X) (Z * vars)) : K (memory * X) Z :=
  '(fmt, v) ← m ; printf_loop fn fuel (fmt + 1) v.

Lemma text_next p c t : text_at p (c :: t) -> text_at (p + 1) t.
Proof. intros H m Hm. by apply H, cstr_cons in Hm as (_ & _ & ?). Qed.
Lemma text_peek p c t : text_at p (c :: t) -> prints (peek p) [] c.
Proof. intros H. apply prints_peek. intros m Hm. by apply H, cstr_cons in Hm as (? & _). Qed.
Lemma text_app p t1 t2 : text_at p (t1 ++ t2) -> text_at (p + Z.of_nat (length t1)) t2.
Proof.
  revert p. induction t1 as [|c t1 IH]; intros p H; cbn [app length] in *; [by rewrite Z.add_0_r|].
  apply text_next, IH in H. by replace (p + Z.of_nat (S (length t1))) with (p + 1 + Z.of_nat (length t1)) by lia.
Qed.

Lemma loop_step p c t fuel v o r : text_at p (c :: t) -> prints (go fuel (stage fn p v)) o r ->
  prints (printf_loop fn (S fuel) p v) o r.
Proof.
  intros Ht Hg. cbn [printf_loop]. eapply prints_step; [by eapply text_peek|]. cbv beta.
  intros s s' Hs. pose proof (Ht _ Hs) as Hc. apply cstr_cons in Hc as (_ & Hc & _). unfold is_char in Hc.
  destruct (Z.eqb_spec c 0); [lia|]. by apply Hg.
Qed.
Lemma loop_end p v : text_at p [] -> forall fuel, prints (printf_loop fn fuel p v) [] (s32 (count v)).
Proof.
  intros Ht fuel. assert (Hpk : prints (peek p) [] 0) by (apply prints_peek; intros m Hm; apply cstr_nil, Ht, Hm).
  destruct fuel; cbn [printf_loop]; (eapply prints_step; [exact Hpk|]); cbn; apply prints_ret.
Qed.
(** A step that peeks, inside of [go]. *)
Lemma go_peek p c t fuel (f : Z -> K (memory * X) (Z * vars)) o r : text_at p (c :: t) ->
  prints (go fuel (f c)) o r -> prints (go fuel (x ← peek p ; f x)) o r.
Proof.
  intros Ht Hg s s' Hs E. unfold go in *. rewrite run_bind_assoc.
  apply (prints_step (peek p) _ o c r (text_peek p c t Ht) Hg s s' Hs E).
Qed.
Lemma go_ret p v fuel o r : prints (printf_loop fn fuel (p + 1) v) o r -> prints (go fuel (mret (p, v))) o r.
Proof. intros H s s' Hs E. unfold go. rewrite run_bind. by apply H. Qed.
(** A step that prints, inside of [go]. *)
Lemma go_bind {A} (m : K (memory * X) A) fuel f o1 o2 a r : prints m o1 a -> prints (go fuel (f a)) o2 r ->
  prints (go fuel (x ← m ; f x)) (o1 ++ o2) r.
Proof.
  intros Hm Hg s s' Hs E. unfold go in *. rewrite run_bind_assoc. by apply (prints_bind m _ o1 o2 a r Hm Hg).
Qed.

Lemma go_left p c t fuel v o r : text_at p (ch "-" :: c :: t) -> has PR_LJ v = false -> state v = 1 ->
  prints (go fuel (stage1 fn (p + 1) (or_flag PR_LJ v))) o r -> prints (go (S fuel) (stage1 fn p v)) o r.
Proof.
  intros Ht Hf Hs Hg. unfold stage1 at 1. eapply go_peek; [exact Ht|].
  change (ch "-" =? ch "%") with false. change (ch "-" =? ch "-") with true. cbv iota. rewrite Hf. apply go_ret.
  eapply loop_step; [by eapply text_next|]. unfold stage. change (state (or_flag PR_LJ v)) with (state v). by rewrite Hs.
Qed.
Lemma go_zero p t fuel v o r : text_at p (ch "0" :: t) ->
  prints (go fuel (stage2 fn (p + 1) (or_flag PR_LZ (next_state v)))) o r -> prints (go fuel (stage1 fn p v)) o r.
Proof. intros Ht Hg. unfold stage1. eapply go_peek; [exact Ht|]. exact Hg. Qed.
Lemma go_no_flag p c t fuel v o r : text_at p (c :: t) -> c <> ch "%" -> c <> ch "-" -> c <> ch "0" ->
  prints (go fuel (stage2 fn p (next_state v))) o r -> prints (go fuel (stage1 fn p v)) o r.
Proof.
  intros Ht H1 H2 H3 Hg. unfold stage1. eapply go_peek; [exact Ht|].
  destruct (Z.eqb_spec c (ch "%")); [done|]. destruct (Z.eqb_spec c (ch "-")); [done|].
  destruct (Z.eqb_spec c (ch "0")); [done|]. exact Hg.
Qed.

(** The width the digits read so far and [ds] make. *)
Definition widen (wd : Z) (ds : list Z) : Z := foldl (fun w d => u32 (10 * w + (d - ch "0"))) wd ds.
Lemma widen_decimal ds : widen 0 ds = u32 (decimal ds).
Proof.
  induction ds as [|d ds IH] using rev_ind; [done|]. unfold widen in *. rewrite foldl_app, IH, decimal_snoc. cbn [foldl].
  change (ch "0") with ch_0. unfold u32, wrap.
  rewrite (Z.add_mod (10 * (decimal ds mod 2 ^ 32))), (Z.add_mod (10 * decimal ds)) by lia.
  by rewrite Z.mul_mod_idemp_r by lia.
Qed.
Lemma go_width ds : forall p c t fuel v o r, text_at p (ds ++ c :: t) -> Forall is_digit ds -> state v = 2 ->
  prints (go fuel (stage2 fn (p + Z.of_nat (length ds)) (set_wd (widen (given_wd v) ds) v))) o r ->
  prints (go (length ds + fuel) (stage2 fn p v)) o r.
Proof.
  induction ds as [|d ds IH]; intros p c t fuel v o r Ht Hd Hs Hg.
  - cbn in *. rewrite Z.add_0_r in Hg. replace (set_wd (given_wd v) v) with v in Hg by (by destruct v). exact Hg.
  - apply Forall_cons in Hd as [Hd Hds]. cbn [app length Nat.add] in *. unfold stage2 at 1.
    eapply go_peek; [exact Ht|]. unfold is_digit in Hd. change (ch "0") with ch_0. change (ch "9") with (ch_0 + 9).
    destruct (Z.leb_spec ch_0 d); [|lia]. destruct (Z.leb_spec d (ch_0 + 9)); [|lia]. cbn [andb]. apply go_ret.
    destruct (ds ++ c :: t) as [|c' t'] eqn:Et; [by destruct ds|].
    eapply loop_step; [eapply text_next; exact Ht|]. rewrite <- Et in Ht. unfold stage. cbn [state set_wd]. rewrite Hs.
    apply (IH (p + 1) c t fuel); [by eapply text_next|done|done|].
    replace (p + Z.of_nat (S (length ds))) with (p + 1 + Z.of_nat (length ds)) in Hg by lia. exact Hg.
Qed.
Lemma go_no_digit p c t fuel v o r : text_at p (c :: t) -> ~ is_digit c ->
  prints (go fuel (stage3 fn p (next_state v))) o r -> prints (go fuel (stage2 fn p v)) o r.
Proof.
  intros Ht Hc Hg. unfold stage2. eapply go_peek; [exact Ht|]. unfold is_digit in Hc.
  change (ch "0") with ch_0 in *. change (ch "9") with (ch_0 + 9).
  destruct (Z.leb_spec ch_0 c); cbn [andb]; [|exact Hg]. destruct (Z.leb_spec c (ch_0 + 9)); [lia|exact Hg].
Qed.

(** A modifier only sets a flag. *)
Lemma modifier_shape c v lj lz l64 wd : c ∈ modifiers -> shape v lj lz l64 wd ->
  exists v', modifier c v = Some v' /\ shape v' lj lz (l64 || (c =? ch "L")) wd /\
    state v' = state v /\ count v' = count v /\ args v' = args v.
Proof.
  intros Hc [H1 H2 H3 H4 H5 H6 H7]. change modifiers with [ch "F"; ch "N"; ch "z"; ch "l"; ch "L"; ch "h"] in Hc.
  repeat (apply elem_of_cons in Hc as [->|Hc]); [..|by apply elem_of_nil in Hc]; eexists; (split; [reflexivity|]);
    (split; [|done]); split; flag_facts; rewrite ?H3; try done; by destruct l64.
Qed.
Lemma go_mods ms : forall p c t fuel v o r lj lz l64 wd, text_at p (ms ++ c :: t) -> Forall (.∈ modifiers) ms ->
  state v = 3 -> shape v lj lz l64 wd ->
  (forall v', shape v' lj lz (l64 || long_long ms) wd -> count v' = count v -> args v' = args v ->
     prints (go fuel (stage3 fn (p + Z.of_nat (length ms)) v')) o r) ->
  prints (go (length ms + fuel) (stage3 fn p v)) o r.
Proof.
  induction ms as [|d ms IH]; intros p c t fuel v o r lj lz l64 wd Ht Hd Hs Hsh Hg.
  - cbn. replace p with (p + Z.of_nat (length (A:=Z) [])) by (cbn; lia). apply Hg; [|done|done].
    unfold long_long. by rewrite bool_decide_false, orb_false_r by set_solver.
  - apply Forall_cons in Hd as [Hd Hds]. cbn [app length Nat.add] in *. unfold stage3 at 1.
    eapply go_peek; [exact Ht|]. destruct (modifier_shape d v lj lz l64 wd Hd Hsh) as (v1 & -> & Hsh1 & Hs1 & Hc1 & Ha1).
    apply go_ret. destruct (ms ++ c :: t) as [|c' t'] eqn:Et; [by destruct ms|].
    eapply loop_step; [eapply text_next; exact Ht|]. rewrite <- Et in Ht. unfold stage. rewrite Hs1, Hs.
    apply (IH (p + 1) c t fuel v1 o r lj lz (l64 || (d =? ch "L")) wd); [by eapply text_next|done|by rewrite Hs1|done|].
    intros v' Hsh' Hc' Ha'. replace (p + 1 + Z.of_nat (length ms)) with (p + Z.of_nat (S (length ms))) by lia.
    apply Hg; [|congruence|congruence]. replace (l64 || long_long (d :: ms)) with (l64 || (d =? ch "L") || long_long ms); [done|].
    rewrite <- orb_assoc. f_equal. unfold long_long. destruct (Z.eqb_spec d (ch "L")) as [->|Hne].
    + rewrite (bool_decide_true (ch "L" ∈ ch "L" :: ms)) by by left. done.
    + apply bool_decide_ext. rewrite elem_of_cons. split; [by right|]. intros [E|]; [by destruct Hne|done].
Qed.

Lemma app_length_opt (b1 b2 : bool) c1 c2 : length (opt b1 c1 ++ opt b2 c2) = (length (opt b1 c1) + length (opt b2 c2))%nat.
Proof. apply length_app. Qed.
Definition is_reset (v : vars) : Prop := state v = 0 /\ flags v = 0 /\ given_wd v = 0.

Lemma letters_plain c : c ∈ modifiers \/ c ∈ conversions -> ~ is_digit c /\ c <> ch "%" /\ c <> ch "-" /\ c <> ch "0".
Proof.
  intros Hc. assert (Hr : ch "F" <= c <= ch "z" ).
  { change modifiers with [ch "F"; ch "N"; ch "z"; ch "l"; ch "L"; ch "h"] in Hc.
    change conversions with [ch "X"; ch "x"; ch "p"; ch "n"; ch "d"; ch "i"; ch "u"; ch "o"; ch "c"; ch "s"] in Hc.
    destruct Hc as [Hc|Hc]; repeat (apply elem_of_cons in Hc as [->|Hc]); try (by apply elem_of_nil in Hc); by split. }
  change (ch "F") with 70 in Hr. change (ch "z") with 122 in Hr. unfold is_digit, ch_0.
  change (ch "%") with 37. change (ch "-") with 45. change (ch "0") with 48. lia.
Qed.
Lemma conversion_no_modifier c v : c ∈ conversions -> modifier c v = None.
Proof.
  change conversions with [ch "X"; ch "x"; ch "p"; ch "n"; ch "d"; ch "i"; ch "u"; ch "o"; ch "c"; ch "s"].
  intros Hc. repeat (apply elem_of_cons in Hc as [->|Hc]; [reflexivity|]). by apply elem_of_nil in Hc.
Qed.

Lemma go_conv p conv t fuel v lj lz width mods o o2 r rest : text_at p (conv :: t) -> conv ∈ conversions -> counted v ->
  shape v lj lz (long_long mods) (u32 (decimal width)) ->
  item_out strs (Conv lj lz width mods conv) (args v) = Some (o, rest) ->
  (forall v', is_reset v' -> count v' = u32 (count v + Z.of_nat (length o)) -> args v' = rest ->
     prints (printf_loop fn fuel (p + 1) v') o2 r) ->
  prints (go fuel (stage3 fn p v)) (o ++ o2) r.
Proof.
  intros Ht Hc Hv Hsh Ho Hg. unfold stage3. eapply go_peek; [exact Ht|]. rewrite conversion_no_modifier by done.
  unfold stage4. eapply go_peek; [exact Ht|].
  destruct (prints_conversion (next_state v) lj lz width mods conv o rest) as (v' & Hp & Hcnt & Ha); [done|done| |done|].
  { destruct Hsh. by split. }
  eapply go_bind; [exact Hp|]. apply go_ret, Hg; [done|exact Hcnt|exact Ha].
Qed.

(** The first character after the flags. *)
Lemma go_flags (lj lz : bool) p c t fuel v o r : text_at p (opt lj (ch "-") ++ opt lz (ch "0") ++ c :: t) ->
  state v = 1 -> flags v = 0 -> (lz = false -> c <> ch "%" /\ c <> ch "-" /\ c <> ch "0") ->
  (forall v', state v' = 2 -> shape v' lj lz false (given_wd v) -> given_wd v' = given_wd v -> count v' = count v -> args v' = args v ->
     prints (go fuel (stage2 fn (p + Z.of_nat (length (opt lj (ch "-") ++ opt lz (ch "0")))) v')) o r) ->
  prints (go ((if lj then 1 else 0) + fuel)%nat (stage1 fn p v)) o r.
Proof.
  intros Ht Hs Hf Hc Hg.
  assert (Hno : forall f, has f v = false) by (intros f; unfold has; by rewrite Hf).
  set (v1 := if lj then or_flag PR_LJ v else v).
  assert (Hsh : forall f (l z : bool), flags f = Z.lor (if l then PR_LJ else 0) (if z then PR_LZ else 0) ->
    given_wd f = given_wd v -> shape f l z false (given_wd v)).
  { intros f l z Hfl Hwd. split; [..|exact Hwd]; unfold has; rewrite Hfl; by destruct l, z. }
  assert (Hz : forall q, text_at q (opt lz (ch "0") ++ c :: t) ->
    q + Z.of_nat (length (opt lz (ch "0"))) = p + Z.of_nat (length (opt lj (ch "-") ++ opt lz (ch "0"))) ->
    prints (go fuel (stage1 fn q v1)) o r).
  { intros q Hq Eq. destruct lz.
    - eapply go_zero; [exact Hq|]. cbn [opt length] in Eq. change (Z.of_nat 1) with 1 in Eq. rewrite Eq.
      unfold v1. destruct lj; apply Hg; try done; try (cbn; by rewrite Hs); (apply Hsh; [cbn; rewrite Hf; reflexivity|done]).
    - destruct (Hc eq_refl) as (C1 & C2 & C3). eapply go_no_flag; [exact Hq|done..|].
      cbn [opt length] in Eq. change (Z.of_nat 0) with 0 in Eq. rewrite Z.add_0_r in Eq. rewrite Eq.
      unfold v1. destruct lj; apply Hg; try done; try (cbn; by rewrite Hs); (apply Hsh; [cbn; rewrite Hf; reflexivity|done]). }
  destruct lj; cbn [opt app Nat.add] in *.
  - destruct (opt lz (ch "0") ++ c :: t) as [|c' t'] eqn:Et; [by destruct lz|].
    eapply go_left; [exact Ht|apply Hno|done|]. apply Hz; [by eapply text_next|].
    cbn [length]. lia.
  - by apply Hz.
Qed.

Lemma prints_item it t p v fuel fuel0 o o2 r rest : item_ok it -> text_at p (print_item it ++ t) -> is_reset v -> counted v ->
  item_out strs it (args v) = Some (o, rest) -> (length (print_item it) + fuel <= fuel0)%nat ->
  (forall fuel' v', (fuel <= fuel')%nat -> is_reset v' -> count v' = u32 (count v + Z.of_nat (length o)) -> args v' = rest ->
     prints (printf_loop fn fuel' (p + Z.of_nat (length (print_item it))) v') o2 r) ->
  prints (printf_loop fn fuel0 p v) (o ++ o2) r.
Proof.
  intros Hok Ht (Hs & Hf & Hw) Hv Ho Hfuel Hg. destruct fuel0 as [|fuel0]; [destruct it; cbn in Hfuel; lia|].
  destruct it as [c| |lj lz width mods conv].
  - cbn [print_item app length] in *. destruct Hok as [Hc Hne]. eapply loop_step; [exact Ht|]. unfold stage. rewrite Hs. cbn [Z.eqb].
    unfold stage0. eapply go_peek; [exact Ht|]. destruct (Z.eqb_spec c (ch "%")); [done|]. cbn [negb]. injection Ho as <- <-.
    eapply go_bind; [apply prints_out|]. apply go_ret, Hg; [lia|by split|done|done].
  - cbn [print_item app length] in *. eapply loop_step; [exact Ht|]. unfold stage. rewrite Hs. cbn [Z.eqb].
    unfold stage0. eapply go_peek; [exact Ht|]. change (ch "%" =? ch "%") with true. cbn [negb]. injection Ho as <- <-.
    unfold stage1. eapply go_peek; [by eapply text_next|]. change (ch "%" =? ch "%") with true. cbv iota.
    eapply go_bind; [apply prints_out|]. apply go_ret. replace (p + 1 + 1) with (p + Z.of_nat 2) by lia. apply Hg; [lia|by split|done|done].
  - destruct Hok as (Hd & Hz & Hm & Hc). cbn [print_item] in *. rewrite <- !app_comm_cons in Ht. eapply loop_step; [exact Ht|].
    unfold stage. rewrite Hs. cbn [Z.eqb]. unfold stage0. eapply go_peek; [exact Ht|]. change (ch "%" =? ch "%") with true. cbn [negb].
    apply text_next in Ht. rewrite <- !app_assoc in Ht. cbn [length] in *. rewrite !length_app in *. cbn [length] in *.
    set (lf := length (opt lj (ch "-"))) in *. set (lzn := length (opt lz (ch "0"))) in *.
    assert (Hlf : lf = if lj then 1%nat else 0%nat) by (unfold lf; by destruct lj).
    assert (Ef : fuel0 = ((if lj then 1 else 0) + (length width + (length mods + (fuel0 - lf - length width - length mods))))%nat) by lia.
    rewrite Ef. set (fuel' := (fuel0 - lf - length width - length mods)%nat).
    set (tl := width ++ mods ++ [conv] ++ t).
    destruct tl as [|c' t'] eqn:Et; [unfold tl in Et; by destruct width, mods|].
    eapply (go_flags lj lz (p + 1) c' t'); [|cbn; by rewrite Hs|done| |].
    + rewrite <- Et. unfold tl. exact Ht.
    + intros ->. unfold tl in Et. destruct width as [|d width].
      * assert (Hl : c' ∈ modifiers \/ c' ∈ conversions).
        { destruct mods as [|d mods]; cbn in Et; injection Et as <- _; [by right|left]. by apply Forall_cons in Hm as [? _]. }
        by apply letters_plain in Hl as (_ & ? & ? & ?).
      * cbn in Et. injection Et as <- _. apply Forall_cons in Hd as [Hd _]. specialize (Hz eq_refl). cbn in Hz.
        unfold is_digit, ch_0 in *. change (ch "%") with 37. change (ch "-") with 45. change (ch "0") with 48.
        assert (d <> 48) by congruence. lia.
    + intros v1 Hs1 Hsh1 Hw1 Hc1 Ha1. rewrite app_length_opt. fold lf lzn. change (given_wd (next_state v)) with (given_wd v) in Hsh1, Hw1. rewrite Hw in Hsh1, Hw1.
      set (q := p + 1 + Z.of_nat (lf + lzn)).
      assert (Hq : text_at q (width ++ mods ++ [conv] ++ t)).
      { replace q with (p + 1 + Z.of_nat lf + Z.of_nat lzn) by (unfold q; lia). apply text_app, text_app. exact Ht. }
      destruct (mods ++ [conv] ++ t) as [|cm tm] eqn:Em; [by destruct mods|].
      eapply go_width; [exact Hq|done|done|]. rewrite Hw1, widen_decimal.
      apply text_app in Hq. set (q2 := q + Z.of_nat (length width)) in *.
      eapply go_no_digit; [exact Hq| |].
      { assert (Hl : cm ∈ modifiers \/ cm ∈ conversions).
        { destruct mods as [|d mods]; cbn in Em; injection Em as <- _; [by right|left]. by apply Forall_cons in Hm as [? _]. }
        by apply letters_plain in Hl as (? & _). }
      rewrite <- Em in Hq. 
      eapply (go_mods mods q2 conv t _ _ _ _ lj lz false (u32 (decimal width))); [exact Hq|done|cbn; by rewrite Hs1| |].
      { destruct Hsh1. by split. }
      intros v2 Hsh2 Hc2 Ha2. cbn [orb] in Hsh2. apply text_app in Hq.
      eapply (go_conv _ conv t _ _ lj lz width mods o o2 r rest); [exact Hq|done| |done| |].
      * unfold counted in *. rewrite Hc2. cbn. by rewrite Hc1.
      * rewrite Ha2. cbn. by rewrite Ha1.
      * intros v' Hr' Hc' Ha'.
        replace (q2 + Z.of_nat (length mods) + 1) with (p + Z.of_nat (S (lf + (lzn + (length width + (length mods + 1)))))) by (unfold q2, q; lia).
        apply Hg; [unfold fuel'; lia|done| |done]. rewrite Hc', Hc2. cbn. by rewrite Hc1.
Qed.

Lemma prints_items its : forall p v fuel O rest, Forall item_ok its -> text_at p (print_format its) -> is_reset v -> counted v ->
  format_out strs its (args v) = Some (O, rest) -> (length (print_format its) <= fuel)%nat ->
  prints (printf_loop fn fuel p v) O (s32 (u32 (count v + Z.of_nat (length O)))).
Proof.
  induction its as [|it its IH]; intros p v fuel O rest Hok Ht Hr Hv Ho Hf.
  - injection Ho as <- _. cbn. rewrite Z.add_0_r, u32_small by done. by apply loop_end.
  - apply Forall_cons in Hok as [Hi Hits]. cbn [format_out] in Ho.
    apply bind_Some in Ho as ([o args1] & Eo & Ho). apply bind_Some in Ho as ([os args2] & Eos & [= <- <-]).
    change (print_format (it :: its)) with (print_item it ++ print_format its) in *. rewrite length_app in Hf.
    eapply (prints_item it (print_format its) p v (length (print_format its)) fuel o os); [done|done|done|done|exact Eo|done|].
    intros fuel' v' Hf' Hr' Hc' Ha'. apply text_app in Ht.
    replace (s32 (u32 (count v + Z.of_nat (length (o ++ os))))) with (s32 (u32 (count v' + Z.of_nat (length os)))).
    + apply (IH _ v' fuel' os args2); [done|done|done| |by rewrite Ha'|done]. unfold counted. rewrite Hc'. apply u32_range.
    + rewrite Hc', length_app. f_equal. unfold u32, wrap. rewrite Zplus_mod_idemp_l. f_equal. lia.
Qed.

Lemma printf_helper_prints p its args O rest : Forall item_ok its -> text_at p (print_format its) ->
  format_out strs its args = Some (O, rest) -> Z.of_nat (length O) <= INT_MAX ->
  prints (printf_helper fn p args) O (Z.of_nat (length O)).
Proof.
  intros Hok Ht Ho Hlen s s' Hs E. unfold printf_helper. rewrite (run_bind_done _ _ s s s eq_refl).
  unfold INT_MAX in Hlen. pose proof (cstr_size _ _ _ (Ht _ Hs)) as Hsz.
  rewrite (prints_items its p (mkVars 0 0 0 0 args) (size s.1) O rest Hok Ht) with (s' := s'); try done.
  - cbn [count]. rewrite Z.add_0_l, u32_small by (unfold in_u32; lia). rewrite s32_small; [done|].
    unfold INT_MIN, INT_MAX. lia.
  - lia.
Qed.
End runs.

(** ** Into a buffer *)

(** Outside of [n] bytes at [buf], memory is as in [m0]. *)
Definition kept (m0 : memory) (buf n : Z) (m : memory) : Prop := forall a, ~ buf <= a < buf + n -> m !! a = m0 !! a.

Lemma vsprintf_emits m0 buf n O : forall m q, kept m0 buf n m -> buf <= q -> q + Z.of_nat (length O) <= buf + n ->
  mapped m q (Z.of_nat (length O)) ->
  exists m', emits vsprintf_help (kept m0 buf n) O (m, q) (m', q + Z.of_nat (length O)) /\
    bytes m' q (u8 <$> O) /\ forall a, ~ q <= a < q + Z.of_nat (length O) -> m' !! a = m !! a.
Proof.
  induction O as [|c O IH]; intros m q Hk Hq Hend Hm.
  - exists m. rewrite Z.add_0_r. by repeat split.
  - cbn [length emits fmap list_fmap bytes] in *.
    assert (Es : store q (u8 c) m = Done (tt, <[q := u8 c]> m)) by (apply store_run, Hm; lia).
    destruct (IH (<[q := u8 c]> m) (q + 1)) as (m' & E & Hb & Ho); [|lia|lia| |].
    { intros a Ha. rewrite lookup_insert_ne by lia. by apply Hk. }
    { intros a Ha. rewrite lookup_insert_ne by lia. apply Hm. lia. }
    exists m'. split; [|split].
    + exists (<[q := u8 c]> m, q + 1). unfold vsprintf_help. cbn [fst snd]. rewrite Es. split; [done|]. split.
      * intros a Ha. cbn. rewrite lookup_insert_ne by lia. by apply Hk.
      * by replace (q + Z.of_nat (S (length O))) with (q + 1 + Z.of_nat (length O)) by lia.
    + split; [|done]. rewrite Ho by lia. apply lookup_insert_eq.
    + intros a Ha. rewrite Ho by lia. by rewrite lookup_insert_ne by lia.
Qed.

Lemma cstr_kept m0 buf n m p s : kept m0 buf n m -> cstr m0 p s ->
  p + Z.of_nat (length s) < buf \/ buf + n <= p -> cstr m p s.
Proof.
  intros Hk [Hb Hs] Hd. split; [|done]. rewrite bytes_lookup in Hb |- *. intros i b Hi.
  pose proof (lookup_lt_Some _ _ _ Hi) as Hlt. rewrite length_app in Hlt. cbn in Hlt. rewrite Hk by lia. by apply Hb.
Qed.

(** The text, and a terminator, in the buffer. *)
Lemma kvsprintf_spec (m : memory) strs buf p its args O rest :
  Forall item_ok its -> cstr m p (print_format its) -> format_out strs its args = Some (O, rest) ->
  Z.of_nat (length O) < INT_MAX -> mapped m buf (Z.of_nat (length O) + 1) ->
  let n := Z.of_nat (length O) in
  p + Z.of_nat (length (print_format its)) < buf \/ buf + n <= p ->
  (forall a l, strs a = Some l -> Z.of_nat (length l) <= INT_MAX /\ cstr m a l /\
     (a + Z.of_nat (length l) < buf \/ buf + n <= a)) ->
  exists m', kvsprintf buf p args m = Done (n, m') /\ bytes m' buf ((u8 <$> O) ++ [0]) /\
    forall a, ~ buf <= a < buf + n + 1 -> m' !! a = m !! a.
Proof.
  intros Hok Ht Ho Hlen Hm n. assert (Hn : n = Z.of_nat (length O)) by done. clearbody n. rewrite <- Hn in *. intros Hd Hs.
  destruct (vsprintf_emits m buf n O m buf) as (m1 & E & Hb & Hk); [done|lia|lia|intros a Ha; apply Hm; lia|]. rewrite <- Hn in *.
  assert (Er : printf_helper vsprintf_help p args (m, buf) = Done (n, (m1, buf + n))).
  { rewrite Hn at 1. apply (printf_helper_prints vsprintf_help (kept m buf n) strs) with (its := its) (rest := rest); try done; try lia.
    - intros a l El. destruct (Hs a l El) as (H1 & H2 & H3). split; [done|]. intros m' Hm'. by eapply cstr_kept.
    - intros m' Hm'. by eapply cstr_kept. }
  unfold kvsprintf. rewrite Er. cbn [fst]. exists (<[buf + n := 0]> m1).
  assert (Es : store (buf + n) 0 m1 = Done (tt, <[buf + n := 0]> m1)).
  { apply store_run. rewrite Hk by lia. apply Hm. lia. }
  rewrite (run_bind_done _ _ _ _ _ Es). split; [done|]. split.
  - apply bytes_app. rewrite length_fmap, <- Hn. split; [|split; [apply lookup_insert_eq|done]].
    rewrite bytes_lookup in Hb |- *. intros i b Hi. pose proof (lookup_lt_Some _ _ _ Hi) as Hlt. rewrite length_fmap in Hlt.
    rewrite lookup_insert_ne by lia. by apply Hb.
  - intros a Ha. rewrite lookup_insert_ne by lia. apply Hk. lia.
Qed.

(** ** Theorems *)



(** The digits that are printed for a 32-bit word in base 8, 10 or 16
    denote the word, without a superfluous zero, and fit into the buffer. *)
Theorem digits_correct caps radix n : In radix [8; 10; 16] -> 0 <= n < 2 ^ 32 ->
  exists l, digits 10 caps radix n [] = Done l /\ base_numeral caps radix n l /\ (length l <= 31)%nat.
Proof. intros Hr Hn. destruct (word_digits caps radix n Hr Hn) as (l & ? & ? & ?). exists l. split; [done|]. split; [done|lia]. Qed.

(** ** "%d items, %s" at 0, "abc" at 50, and a buffer at 100 *)
Definition demo_items : list item :=
  [Conv false false [] [] (ch "d")] ++ (Text <$> (ch <$> String.list_ascii_of_string " items, ")) ++ [Conv false false [ch "6"] [] (ch "s")].
Definition demo_format : memory := blank 100 40 (memory_with [(0, "%d items, %6s"%string); (50, "abc"%string)]).
Definition demo_strs (a : Z) : option (list Z) := if a =? 50 then Some (ch <$> String.list_ascii_of_string "abc") else None.

Lemma demo_items_ok : Forall item_ok demo_items.
Proof.
  unfold demo_items. cbn. repeat (apply Forall_cons; split); try done;
    try (split; [by repeat constructor|]; split; [done|]; split; [by constructor|]; by apply (bool_decide_unpack _); vm_compute).
Qed.

(** A callback that collects the characters. *)
Definition collect (c : Z) : K (memory * list Z) unit := kmodify (fun s => (s.1, s.2 ++ [c])).

Lemma collect_emits l m : forall acc, emits collect (fun m' => m' = m) l (m, acc) (m, acc ++ l).
Proof.
  induction l as [|c l IH]; intros acc; cbn [emits]; [by rewrite app_nil_r|].
  exists (m, acc ++ [c]). split; [done|]. split; [done|]. replace (acc ++ c :: l) with ((acc ++ [c]) ++ l); [apply IH|].
  by rewrite <- app_assoc.
Qed.


Lemma digits_correct_witness : exists l, digits 10 true 16 0xBEEF [] = Done l /\ base_numeral true 16 0xBEEF l.
Proof.
  destruct (digits_correct true 16 0xBEEF) as (l & E & H & _).
  - right. right. left. reflexivity.
  - lia.
  - exists l. split; [exact E|exact H].
Defined.
