(* ===== verification/Clock.v ===== *)
(** * Clocks (Devices/Clock/rtc.cpp, Library/time.cpp)

    The driver of the CMOS real time clock: how [read] gets one consistent
    instant out of a device that ticks while its registers are read, and what
    it makes of the registers; the Unix epoch of a date, and the date of an
    epoch.  The calendar itself is specified by counting days. *)
From S2P Require Import Prelude Words.
From Stdlib Require Import ZArith Lia Bool.
From stdpp Require Import base list numbers.
#[local] Open Scope Z_scope.

(** ** Epochs and dates *)

(** [getJulianDay]; the arguments are [uint8_t], [uint8_t] and [uint16_t], so
    that no [int] operation overflows. *)
Definition getJulianDay (days months years : Z) : Z :=
  let a := Z.quot (14 - months) 12 in
  let y := years + 4800 - a in
  let m := months + 12 * a - 3 in
  let jdn := days + Z.quot (153 * m + 2) 5 + 365 * y + Z.quot y 4 - Z.quot y 100 + Z.quot y 400 - 32045 in
  u64 jdn.

Definition getUnixEpoch (seconds minutes hours days months years : Z) : Z :=
  let jdnNow := getJulianDay days months years in
  let jdn1970 := getJulianDay 1 1 1970 in
  let jdnDiff := u64 (jdnNow - jdn1970) in
  u64 (u64 (u64 (u64 (jdnDiff * (60 * 60 * 24)) + hours * 3600) + minutes * 60) + seconds).

(** The fields of a [TimeDescriptor] ([_dayOfWeek] is never set). *)
Record TimeDescriptor := mkTime {
  _seconds : Z; _minutes : Z; _hour : Z; _day : Z; _month : Z; _year : Z
}.
#[export] Instance TimeDescriptor_eq_dec : EqDecision TimeDescriptor.
Proof. solve_decision. Defined.

(** The [int] expressions of [converterEpochToDate] can overflow, for an epoch
    some hundred thousand years ahead. *)
Definition converterEpochToDate (epoch : Z) : outcome TimeDescriptor :=
  let seconds := epoch mod 60 in
  let epoch := epoch / 60 in
  let minutes := epoch mod 60 in
  let epoch := epoch / 60 in
  let hour := epoch mod 24 in
  let epoch := epoch / 24 in
  let a := s32 (u64 (u64 (u64 (4 * epoch) + 102032) / 146097 + 15)) in
  let b := s32 (u64 (epoch + 2442113 + a - Z.quot a 4)) in
  b20 ← int_ok (20 * b) ;
  n ← int_ok (b20 - 2442) ;
  let year := Z.quot n 7305 in
  y365 ← int_ok (365 * year) ;
  r ← int_ok (b - y365) ;
  c ← int_ok (r - Z.quot year 4) ;
  c1000 ← int_ok (c * 1000) ;
  let month := Z.quot c1000 30601 in
  let day := c - month * 30 - Z.quot (month * 601) 1000 in
  let '(year, month) :=
    if month <=? 13 then (year - 4716, month - 1) else (year - 4715, month - 13) in
  Done (mkTime seconds minutes hour day month year).

(** ** The real time clock *)
Module RTC.

Definition RTC_CURRENT_YEAR : Z := 2021.
Definition RTC_CURRENT_CENTURY : Z := 0.

(** The globals of the driver. *)
Record values := mkValues {
  second : Z; minute : Z; hour : Z; day : Z; month : Z; year : Z; century : Z
}.
#[export] Instance values_eq_dec : EqDecision values.
Proof. solve_decision. Defined.

(** The register selected by the last byte written to RTC_CMOS_PORT, the
    number of bytes read from RTC_DATA_PORT so far, and the globals. *)
Record rtc := mkRtc { accesses : nat; selected : Z; current : values }.

Section driver.
(** The device: the byte that the [n]-th access reads from a register. *)
Context (cmos : nat -> Z -> Z).

Definition writeByte_cmos (reg : Z) : K rtc unit :=
  kmodify (fun s => mkRtc (accesses s) reg (current s)).
Definition readByte_data : K rtc Z := fun s =>
  Done (u8 (cmos (accesses s) (selected s)), mkRtc (S (accesses s)) (selected s) (current s)).

Definition getUpdateInProgress : K rtc bool :=
  writeByte_cmos 0x0A ;;
  v ← readByte_data ;
  mret (negb (Z.land v 0x80 =? 0)).

Definition getRegister (reg : Z) : K rtc Z := writeByte_cmos reg ;; readByte_data.

(** [while (getUpdateInProgress());] *)
Fixpoint wait (fuel : nat) : K rtc unit :=
  b ← getUpdateInProgress ;
  if (b : bool) then match fuel with O => kstuck | S fuel' => wait fuel' end else mret tt.

Definition set_fields (s m h d mo y : Z) (v : values) : values := mkValues s m h d mo y (century v).
Definition set_century (c : Z) (v : values) : values :=
  mkValues (second v) (minute v) (hour v) (day v) (month v) (year v) c.
Definition set_current (f : values -> values) : K rtc unit :=
  kmodify (fun s => mkRtc (accesses s) (selected s) (f (current s))).

(** The six assignments of both passes. *)
Definition read_fields : K rtc unit :=
  s ← getRegister 0x00 ; m ← getRegister 0x02 ; h ← getRegister 0x04 ;
  d ← getRegister 0x07 ; mo ← getRegister 0x08 ; y ← getRegister 0x09 ;
  set_current (set_fields s m h d mo y).

(** The loop: read again until nothing changed.  RTC_CURRENT_CENTURY is 0, so
    that the century is only read in the first pass. *)
Fixpoint settle (fuel : nat) (waits : nat) (last : values) : K rtc unit :=
  now ← kgets current ;
  if bool_decide (last = now) then mret tt else
  match fuel with
  | O => kstuck
  | S fuel' => wait waits ;; read_fields ;; settle fuel' waits now
  end.

Definition from_bcd (v : Z) : Z := Z.land v 0x0F + v / 16 * 10.

(** Lines 127 to 157: BCD to binary, 12 to 24 hours, the year in full. *)
Definition convert (registerB : Z) (v : values) : values :=
  let v :=
    if Z.land registerB 0x04 =? 0 then
      mkValues (from_bcd (second v)) (from_bcd (minute v))
        (Z.lor (Z.land (hour v) 0x0F + Z.land (hour v) 0x70 / 16 * 10) (Z.land (hour v) 0x80))
        (from_bcd (day v)) (from_bcd (month v)) (from_bcd (year v))
        (if negb (RTC_CURRENT_CENTURY =? 0) then from_bcd (century v) else century v)
    else v in
  let h :=
    if (Z.land registerB 0x02 =? 0) && negb (Z.land (hour v) 0x80 =? 0)
    then (Z.land (hour v) 0x7F + 12) mod 24 else hour v in
  let y :=
    if negb (RTC_CURRENT_CENTURY =? 0) then u32 (year v + century v * 100)
    else let y := u32 (year v + RTC_CURRENT_YEAR / 100 * 100) in
         if y <? RTC_CURRENT_YEAR then u32 (y + 100) else y in
  mkValues (second v) (minute v) h (day v) (month v) y (century v).

Definition zeros : values := mkValues 0 0 0 0 0 0 0.

Definition read (fuel waits : nat) : K rtc unit :=
  wait waits ;;
  read_fields ;;
  c ← getRegister RTC_CURRENT_CENTURY ;
  set_current (set_century c) ;;
  settle fuel waits zeros ;;
  registerB ← getRegister 0x0B ;
  set_current (convert registerB).

(** [getEpoch]; the arguments are cut down to the types of the parameters. *)
Definition getEpoch (fuel waits : nat) : K rtc Z :=
  read fuel waits ;;
  v ← kgets current ;
  mret (getUnixEpoch (u8 (second v)) (u8 (minute v)) (u8 (hour v)) (u8 (day v)) (u8 (month v)) (u16 (year v))).

(** [TimeDescriptor::toDate], which the default constructor calls. *)
Definition toDate (fuel waits : nat) : K rtc TimeDescriptor :=
  epoch ← getEpoch fuel waits ;
  kread (fun _ => converterEpochToDate epoch) ;;
  kread (fun _ => converterEpochToDate epoch).

End driver.
End RTC.

(** ** The calendar *)

Definition leap (y : Z) : bool := (y mod 4 =? 0) && (negb (y mod 100 =? 0) || (y mod 400 =? 0)).
Definition days_in_month (y m : Z) : Z :=
  if m =? 2 then (if leap y then 29 else 28)
  else if (m =? 4) || (m =? 6) || (m =? 9) || (m =? 11) then 30 else 31.

(** Days in the first [n] months of a year, and in [n] years from 1970 on. *)
Fixpoint days_of_months (y : Z) (n : nat) : Z :=
  match n with O => 0 | S n' => days_of_months y n' + days_in_month y (Z.of_nat n) end.
Fixpoint days_of_years (n : nat) : Z :=
  match n with O => 0 | S n' => days_of_years n' + (if leap (1970 + Z.of_nat n') then 366 else 365) end.

(** Days from 1 January 1970 to a date. *)
Definition day_number (y m d : Z) : Z :=
  days_of_years (Z.to_nat (y - 1970)) + days_of_months y (Z.to_nat (m - 1)) + (d - 1).

Definition epoch_of (t : TimeDescriptor) : Z :=
  day_number (_year t) (_month t) (_day t) * 86400 + _hour t * 3600 + _minutes t * 60 + _seconds t.

(** A date and time of the calendar, in a year the interfaces can hold. *)
Record valid (t : TimeDescriptor) : Prop := {
  valid_seconds : 0 <= _seconds t < 60;
  valid_minutes : 0 <= _minutes t < 60;
  valid_hour : 0 <= _hour t < 24;
  valid_month : 1 <= _month t <= 12;
  valid_day : 1 <= _day t <= days_in_month (_year t) (_month t);
  valid_year : 1970 <= _year t < 2 ^ 16
}.

(** ** Epochs are counted in the calendar *)

Ltac leap_cases :=
  unfold leap in *;
  repeat match goal with
         | |- context [?a =? ?b] => destruct (Z.eqb_spec a b)
         | H : context [?a =? ?b] |- _ => destruct (Z.eqb_spec a b)
         end; cbn [andb orb negb] in *.

(** The number [n] of a day in a year that starts in March, [e] being counted
    from 1 March of the year 0. *)
Definition march_days (Y doy : Z) : Z := 365 * Y + Y / 4 - Y / 100 + Y / 400 + doy.

(** Day of the year counted from March, for the code's month [m] (March is 0). *)
Definition march_doy (m d : Z) : Z := (153 * m + 2) / 5 + d - 1.

Lemma julian_march d m y :
  1 <= m <= 12 -> 1 <= d <= 31 -> 0 <= y < 2 ^ 16 ->
  let Y := if m <=? 2 then y - 1 else y in
  let mm := if m <=? 2 then m + 9 else m - 3 in
  getJulianDay d m y = march_days (Y + 4800) (march_doy mm d) - 32044.
Proof.
  intros Hm Hd Hy Y mm. unfold getJulianDay, march_days, march_doy.
  replace (Z.quot (14 - m) 12) with (if m <=? 2 then 1 else 0).
  2: { rewrite Z.quot_div_nonneg by lia. destruct (Z.leb_spec m 2); [apply Z.div_unique with (2 - m)|apply Z.div_unique with (14 - m)]; lia. }
  replace (y + 4800 - (if m <=? 2 then 1 else 0)) with (Y + 4800) by (subst Y; destruct (m <=? 2); lia).
  replace (m + 12 * (if m <=? 2 then 1 else 0) - 3) with mm by (subst mm; destruct (m <=? 2); lia).
  assert (0 <= mm <= 11) by (subst mm; destruct (Z.leb_spec m 2); lia).
  assert (-1 <= Y < 2 ^ 16) by (subst Y; destruct (Z.leb_spec m 2); lia).
  rewrite !Z.quot_div_nonneg by lia. clearbody Y mm.
  unfold u64. rewrite wrap_small; [lia|].
  change (2 ^ 64) with 18446744073709551616. Z.to_euclidean_division_equations; lia.
Qed.

(** The first of January moves by the length of a year. *)
Lemma january_step y :
  march_days (y + 4800) (march_doy 10 1) - march_days (y - 1 + 4800) (march_doy 10 1) = if leap y then 366 else 365.
Proof. unfold march_days. leap_cases; Z.to_euclidean_division_equations; lia. Qed.

Lemma january_counts n :
  march_days (1970 + Z.of_nat n - 1 + 4800) (march_doy 10 1) =
  march_days (1969 + 4800) (march_doy 10 1) + days_of_years n.
Proof.
  induction n as [|n IH]; [done|]. cbn [days_of_years]. pose proof (january_step (1970 + Z.of_nat n)).
  replace (1970 + Z.of_nat (S n) - 1) with (1970 + Z.of_nat n) by lia. lia.
Qed.

Lemma month_range (P : Z -> Prop) m :
  P 1 -> P 2 -> P 3 -> P 4 -> P 5 -> P 6 -> P 7 -> P 8 -> P 9 -> P 10 -> P 11 -> P 12 -> 1 <= m <= 12 -> P m.
Proof.
  intros. assert (m = 1 \/ m = 2 \/ m = 3 \/ m = 4 \/ m = 5 \/ m = 6 \/ m = 7 \/ m = 8 \/ m = 9 \/ m = 10 \/ m = 11 \/ m = 12)
    as Hm by lia. destruct_or! Hm; by subst.
Qed.

(** Within a year the months are counted. *)
Lemma months_count y m d : 1 <= m <= 12 ->
  march_days ((if m <=? 2 then y - 1 else y) + 4800) (march_doy (if m <=? 2 then m + 9 else m - 3) d) =
  march_days (y - 1 + 4800) (march_doy 10 1) + days_of_months y (Z.to_nat (m - 1)) + (d - 1).
Proof.
  pose proof (january_step y) as Hj. intros Hm. pattern m. apply month_range; [..|exact Hm];
    match goal with |- context [days_of_months y ?n] =>
      let n' := eval vm_compute in n in change n with n' end;
    cbv [days_of_months days_in_month Z.of_nat Pos.of_succ_nat Pos.succ Z.leb Z.compare Pos.compare Pos.compare_cont
         Z.eqb Pos.eqb orb];
    unfold march_days, march_doy in *; destruct (leap y); Z.to_euclidean_division_equations; lia.
Qed.

Lemma getJulianDay_calendar d m y :
  1 <= m <= 12 -> 1 <= d <= 31 -> 1970 <= y < 2 ^ 16 ->
  getJulianDay d m y = getJulianDay 1 1 1970 + day_number y m d.
Proof.
  intros Hm Hd Hy. rewrite julian_march by lia. cbn zeta. rewrite months_count by done.
  pose proof (january_counts (Z.to_nat (y - 1970))) as H. rewrite Z2Nat.id in H by lia.
  replace (1970 + (y - 1970)) with y in H by lia. rewrite H. unfold day_number.
  change (getJulianDay 1 1 1970) with (march_days (1969 + 4800) (march_doy 10 1) - 32044). lia.
Qed.

Lemma days_of_years_range n : 365 * Z.of_nat n <= days_of_years n <= 366 * Z.of_nat n.
Proof. induction n as [|n IH]; cbn [days_of_years]; [lia|]. destruct (leap _); lia. Qed.

Lemma days_in_month_range y m : 28 <= days_in_month y m <= 31.
Proof. unfold days_in_month. repeat case_match; lia. Qed.

Lemma days_of_months_range y n : 0 <= days_of_months y n <= 31 * Z.of_nat n.
Proof.
  induction n as [|n IH]; cbn [days_of_months]; [lia|].
  pose proof (days_in_month_range y (Z.of_nat (S n))). lia.
Qed.

Lemma day_number_range t : valid t -> 0 <= day_number (_year t) (_month t) (_day t) < 2 ^ 25.
Proof.
  intros [? ? ? Hm Hd Hy]. unfold day_number.
  pose proof (days_of_years_range (Z.to_nat (_year t - 1970))).
  pose proof (days_of_months_range (_year t) (Z.to_nat (_month t - 1))).
  pose proof (days_in_month_range (_year t) (_month t)). lia.
Qed.

Lemma getUnixEpoch_calendar t : valid t ->
  getUnixEpoch (_seconds t) (_minutes t) (_hour t) (_day t) (_month t) (_year t) = epoch_of t.
Proof.
  intros Hv. pose proof (day_number_range t Hv) as Hr. destruct Hv as [Hs Hmi Hh Hm Hd Hy].
  pose proof (days_in_month_range (_year t) (_month t)).
  unfold getUnixEpoch, epoch_of. rewrite getJulianDay_calendar by lia.
  change (getJulianDay 1 1 1970) with 2440588. unfold u64, wrap.
  change (2 ^ 25) with 33554432 in *. change (2 ^ 64) with 18446744073709551616.
  generalize dependent (day_number (_year t) (_month t) (_day t)). intros n Hn.
  rewrite (Z.mod_small (2440588 + n - 2440588)), (Z.mod_small (_ * _)) by lia.
  by rewrite (Z.mod_small (_ + _ * 3600)), (Z.mod_small (_ + _ * 60)), Z.mod_small by lia; lia.
Qed.

(** ** Dates are read off an epoch *)

(** The century and the year of a day counted from 1 March of the year 0. *)
Lemma march_century Y doy : 0 <= doy <= (if leap (Y + 1) then 365 else 364) -> 0 <= Y ->
  (4 * march_days Y doy + 3) / 146097 = Y / 100.
Proof.
  intros Hd HY. unfold march_days.
  assert (E : Y / 400 = Y / 100 / 4) by (rewrite Z.div_div by lia; done). rewrite E.
  leap_cases; Z.to_euclidean_division_equations; lia.
Qed.

Lemma julian_year Z0 doy : 0 <= doy <= (if Z0 mod 4 =? 3 then 365 else 364) -> 0 <= Z0 ->
  (20 * (365 * Z0 + Z0 / 4 + doy + 123) - 2442) / 7305 = Z0.
Proof. intros Hd HZ. destruct (Z.eqb_spec (Z0 mod 4) 3); Z.to_euclidean_division_equations; lia. Qed.

(** Evaluate the numbers of a known month. *)
Ltac evaluate k := let n := eval vm_compute in k in change k with n.
Ltac month_values :=
  repeat match goal with
         | |- context [(153 * ?k + 2) / 5] => evaluate ((153 * k + 2) / 5)
         | |- context [?k =? 11] => evaluate k
         end.

(** The day of the year gives month and day back. *)
Lemma march_month mm d :
  0 <= mm <= 11 -> 1 <= d <= (if mm =? 11 then 29 else if (mm =? 1) || (mm =? 3) || (mm =? 6) || (mm =? 8) then 30 else 31) ->
  let c := march_doy mm d + 123 in
  c * 1000 / 30601 = mm + 4 /\ c - (mm + 4) * 30 - (mm + 4) * 601 / 1000 = d.
Proof.
  intros Hm. replace mm with (mm + 1 - 1) by lia. assert (Hm' : 1 <= mm + 1 <= 12) by lia.
  revert Hm'. generalize (mm + 1). clear mm Hm. intros m Hm. pattern m.
  apply month_range; [..|exact Hm]; unfold march_doy; month_values; cbv [Z.eqb Pos.eqb orb];
    intros Hd; split; Z.to_euclidean_division_equations; lia.
Qed.

Lemma march_of_date y m d : 1 <= m <= 12 -> 1 <= d <= days_in_month y m -> 1970 <= y < 2 ^ 16 ->
  let Y := if m <=? 2 then y - 1 else y in
  let mm := if m <=? 2 then m + 9 else m - 3 in
  day_number y m d = march_days Y (march_doy mm d) - 719468 /\
  0 <= march_doy mm d <= (if leap (Y + 1) then 365 else 364) /\ 0 <= mm <= 11 /\
  1 <= d <= (if mm =? 11 then 29 else if (mm =? 1) || (mm =? 3) || (mm =? 6) || (mm =? 8) then 30 else 31).
Proof.
  intros Hm Hd Hy Y mm. pose proof (days_in_month_range y m).
  pose proof (getJulianDay_calendar d m y Hm ltac:(lia) Hy) as Hc.
  rewrite julian_march in Hc by lia. fold Y mm in Hc. change (getJulianDay 1 1 1970) with 2440588 in Hc.
  split.
  { unfold march_days in *. clearbody Y mm. Z.to_euclidean_division_equations; lia. }
  clear Hc. subst Y mm. revert Hd. pattern m. apply month_range; [..|exact Hm];
    cbv [Z.leb Z.compare Pos.compare Pos.compare_cont];
    replace (y - 1 + 1) with y by lia; intros Hd; unfold march_doy;
    month_values; cbv [days_in_month Z.eqb Pos.eqb orb] in Hd |- *; destruct (leap _) in *; lia.
Qed.

Lemma epoch_clock t : valid t ->
  let e := epoch_of t in
  e mod 60 = _seconds t /\ e / 60 mod 60 = _minutes t /\ e / 60 / 60 mod 24 = _hour t /\
  e / 60 / 60 / 24 = day_number (_year t) (_month t) (_day t).
Proof.
  intros [Hs Hmi Hh _ _ _]. unfold epoch_of. generalize (day_number (_year t) (_month t) (_day t)). intros n.
  cbn zeta. replace (n * 86400 + _hour t * 3600 + _minutes t * 60 + _seconds t)
    with (_seconds t + ((_minutes t + (_hour t + n * 24) * 60) * 60)) by lia.
  rewrite Z.mod_add, Z.div_add, (Z.div_small (_seconds t)), Z.add_0_l by lia.
  rewrite Z.mod_add, Z.div_add, (Z.div_small (_minutes t)), Z.add_0_l by lia.
  rewrite Z.mod_add, Z.div_add, (Z.div_small (_hour t)), Z.add_0_l by lia.
  by rewrite !Z.mod_small by lia.
Qed.

(** The two [int]s the code makes of the day number. *)
Lemma conversion_ab Y doy n : n = march_days Y doy - 719468 -> 0 <= n ->
  0 <= doy <= (if leap (Y + 1) then 365 else 364) -> 1969 <= Y < 2 ^ 16 ->
  let a := s32 (u64 (u64 (u64 (4 * n) + 102032) / 146097 + 15)) in
  s32 (u64 (n + 2442113 + a - Z.quot a 4)) = 365 * (Y + 4716) + (Y + 4716) / 4 + doy + 123.
Proof.
  intros Hn H0 Hd HY a. pose proof (march_century Y doy Hd ltac:(lia)) as Hc.
  assert (0 <= n < 2 ^ 26).
  { unfold march_days in Hn. destruct (leap _); Z.to_euclidean_division_equations; lia. }
  assert (Ha : a = Y / 100 - 4).
  { subst a. unfold u64. rewrite (wrap_small 64 (4 * n)), (wrap_small 64 (_ + 102032)) by lia.
    replace ((4 * n + 102032) / 146097 + 15) with (Y / 100 - 4)
      by (clear - Hc Hn; Z.to_euclidean_division_equations; lia).
    rewrite wrap_small, s32_small; [done|unfold INT_MIN, INT_MAX|];
      clear - HY; Z.to_euclidean_division_equations; lia. }
  clearbody a. subst a. rewrite Z.quot_div_nonneg by (clear - HY; Z.to_euclidean_division_equations; lia).
  assert (E : n + 2442113 + (Y / 100 - 4) - (Y / 100 - 4) / 4 = 365 * (Y + 4716) + (Y + 4716) / 4 + doy + 123).
  { rewrite Hn. unfold march_days. assert (E : Y / 400 = Y / 100 / 4) by (rewrite Z.div_div by lia; done).
    rewrite E. clear; Z.to_euclidean_division_equations; lia. }
  rewrite E. unfold u64. rewrite wrap_small, s32_small; [done|unfold INT_MIN, INT_MAX|];
    destruct (leap _); clear - Hd HY; Z.to_euclidean_division_equations; lia.
Qed.

Lemma leap_fourth Y : (if leap (Y + 1) then 365 else 364) <= (if (Y + 4716) mod 4 =? 3 then 365 else 364).
Proof. destruct (Z.eqb_spec ((Y + 4716) mod 4) 3); leap_cases; Z.to_euclidean_division_equations; lia. Qed.

Lemma converter_of_epoch t : valid t -> converterEpochToDate (epoch_of t) = Done t.
Proof.
  intros Hv. pose proof (epoch_clock t Hv) as (E1 & E2 & E3 & E4). pose proof (day_number_range t Hv) as Hn.
  destruct t as [se mi h d m y]. destruct Hv as [_ _ _ Hm Hd Hy]. cbn [_seconds _minutes _hour _day _month _year] in *.
  pose proof (march_of_date y m d Hm Hd Hy) as Hmarch. cbn zeta in Hmarch.
  assert (HY : 1969 <= (if m <=? 2 then y - 1 else y) < 2 ^ 16) by (destruct (m <=? 2); lia).
  assert (Hback : (if (if m <=? 2 then m + 9 else m - 3) + 4 <=? 13 then true else false) = negb (m <=? 2))
    by (destruct (Z.leb_spec m 2); cbn; [destruct (Z.leb_spec (m + 9 + 4) 13)|destruct (Z.leb_spec (m - 3 + 4) 13)]; lia || done).
  destruct Hmarch as (En & Hdoy & Hmm & Hdd).
  unfold converterEpochToDate. cbv zeta. rewrite E1, E2, E3, E4, En in *.
  remember (if m <=? 2 then y - 1 else y) as Y eqn:EY. remember (if m <=? 2 then m + 9 else m - 3) as mm eqn:Emm.
  rewrite (conversion_ab Y (march_doy mm d)) by (done || lia).
  pose proof (leap_fourth Y). pose proof (julian_year (Y + 4716) (march_doy mm d) ltac:(lia) ltac:(lia)) as Hyear.
  destruct (march_month mm d Hmm Hdd) as [Hmonth Hday].
  assert (0 <= march_doy mm d <= 365) by (destruct (leap _); lia).
  remember (march_doy mm d) as doy eqn:Edoy. clear Edoy.
  assert (0 <= (Y + 4716) / 4 < 2 ^ 15) by (clear - HY; Z.to_euclidean_division_equations; lia).
  rewrite int_ok_done by (unfold INT_MIN, INT_MAX; lia). cbn [mbind outcome_bind].
  rewrite int_ok_done by (unfold INT_MIN, INT_MAX; lia). cbn [mbind outcome_bind].
  rewrite (Z.quot_div_nonneg (_ - 2442)), Hyear by lia.
  rewrite int_ok_done by (unfold INT_MIN, INT_MAX; lia). cbn [mbind outcome_bind].
  rewrite int_ok_done by (unfold INT_MIN, INT_MAX; lia). cbn [mbind outcome_bind].
  rewrite (Z.quot_div_nonneg (Y + 4716)) by lia.
  replace (365 * (Y + 4716) + (Y + 4716) / 4 + doy + 123 - 365 * (Y + 4716) - (Y + 4716) / 4) with (doy + 123) by lia.
  rewrite int_ok_done by (unfold INT_MIN, INT_MAX; lia). cbn [mbind outcome_bind].
  rewrite int_ok_done by (unfold INT_MIN, INT_MAX; lia). cbn [mbind outcome_bind].
  rewrite (Z.quot_div_nonneg (_ * 1000)), Hmonth by lia.
  rewrite (Z.quot_div_nonneg ((mm + 4) * 601)), Hday by lia.
  destruct (Z.leb_spec (mm + 4) 13); destruct (Z.leb_spec m 2); try discriminate Hback;
    f_equal; f_equal; lia.
Qed.

(** Different instants have different epochs. *)
Lemma epoch_inj t t' : valid t -> valid t' -> epoch_of t = epoch_of t' -> t = t'.
Proof.
  intros Hv Hv' E. pose proof (converter_of_epoch t Hv) as H.
  rewrite E, (converter_of_epoch t' Hv') in H. by injection H.
Qed.

(** ** One instant from a ticking device *)
Module RTCFacts.
Import RTC.

(** A register value of the device, in BCD or in binary. *)
Definition enc (bcd : bool) (n : Z) : Z := if bcd then 16 * (n / 10) + n mod 10 else n.
(** Hours on a 12-hour clock: bit 7 is set in the afternoon. *)
Definition enc_hour (bcd twelve : bool) (h : Z) : Z :=
  if twelve then Z.lor (enc bcd (if h mod 12 =? 0 then 12 else h mod 12)) (if 12 <=? h then 0x80 else 0)
  else enc bcd h.

(** The documented behaviour of the MC146818: the time is in six registers,
    register B tells how, and register A that an update is in progress, which
    it is for at most [U] accesses in a row.  The clock does not tick more than
    once in the time that the driver needs for four passes. *)
Record ticks (cmos : nat -> Z -> Z) (now : nat -> TimeDescriptor) (bcd twelve : bool) (U : nat) : Prop := {
  now_valid t : valid (now t) /\ 2021 <= _year (now t) <= 2120;
  reg_second t : cmos t 0x00 = enc bcd (_seconds (now t));
  reg_minute t : cmos t 0x02 = enc bcd (_minutes (now t));
  reg_hour t : cmos t 0x04 = enc_hour bcd twelve (_hour (now t));
  reg_day t : cmos t 0x07 = enc bcd (_day (now t));
  reg_month t : cmos t 0x08 = enc bcd (_month (now t));
  reg_year t : cmos t 0x09 = enc bcd (_year (now t) mod 100);
  reg_B t : cmos t 0x0B = (if bcd then 0 else 4) + (if twelve then 0 else 2);
  updates_end (t : nat) : exists k, (k <= U)%nat /\ Z.land (u8 (cmos (t + k)%nat 0x0A)) 0x80 = 0;
  never_back t t' : (t <= t')%nat -> epoch_of (now t) <= epoch_of (now t');
  slow (t : nat) : epoch_of (now (t + 4 * U + 32)%nat) <= epoch_of (now t) + 1
}.

(** What the driver makes of an hour: on a 12-hour clock the hours from noon
    and from midnight are exchanged. *)
Definition read_hour (twelve : bool) (h : Z) : Z := if twelve && (h mod 12 =? 0) then 12 - h else h.
Definition as_read (twelve : bool) (t : TimeDescriptor) : TimeDescriptor :=
  mkTime (_seconds t) (_minutes t) (read_hour twelve (_hour t)) (_day t) (_month t) (_year t).
Definition fields_of (v : values) : TimeDescriptor :=
  mkTime (second v) (minute v) (hour v) (day v) (month v) (year v).

Section read.
Context (cmos : nat -> Z -> Z) (now : nat -> TimeDescriptor) (bcd twelve : bool) (U : nat).
Context (Hdev : ticks cmos now bcd twelve U).

Lemma getRegister_run r s :
  getRegister cmos r s = Done (u8 (cmos (accesses s) r), mkRtc (S (accesses s)) r (current s)).
Proof. done. Qed.

Lemma uip_run s :
  getUpdateInProgress cmos s =
  Done (negb (Z.land (u8 (cmos (accesses s) 0x0A)) 0x80 =? 0), mkRtc (S (accesses s)) 0x0A (current s)).
Proof. done. Qed.

Lemma wait_end n s k : (k <= n)%nat -> Z.land (u8 (cmos (accesses s + k)%nat 0x0A)) 0x80 = 0 ->
  exists j, (j <= k)%nat /\ wait cmos n s = Done (tt, mkRtc (accesses s + S j) 0x0A (current s)).
Proof.
  revert s k. induction n as [|n IH]; intros s k Hk Hz; cbn [wait]; rewrite (run_bind_done _ _ _ _ _ (uip_run s)).
  - assert (k = O) as -> by lia. rewrite Nat.add_0_r in Hz. rewrite Hz. exists O. split; [lia|].
    by rewrite Nat.add_1_r.
  - destruct (Z.land (u8 (cmos (accesses s) 10)) 128 =? 0) eqn:E; cbn [negb].
    + exists O. split; [lia|]. by rewrite Nat.add_1_r.
    + destruct k as [|k]; [rewrite Nat.add_0_r in Hz; rewrite Hz in E; done|].
      destruct (IH (mkRtc (S (accesses s)) 0x0A (current s)) k) as (j & Hj & Ej); [lia| |].
      { cbn [accesses]. by replace (S (accesses s) + k)%nat with (accesses s + S k)%nat by lia. }
      exists (S j). split; [lia|]. rewrite Ej. cbn [accesses current]. do 2 f_equal. f_equal. lia.
Qed.

Lemma wait_run n s : (U <= n)%nat ->
  exists j, (j <= U)%nat /\ wait cmos n s = Done (tt, mkRtc (accesses s + S j) 0x0A (current s)).
Proof.
  intros Hn. destruct (updates_end _ _ _ _ _ Hdev (accesses s)) as (k & Hk & E).
  destruct (wait_end n s k) as (j & Hj & Ej); [lia|done|]. exists j. split; [lia|done].
Qed.

(** What six reads from access [a] on find. *)
Definition seen (a : nat) (v : values) : values :=
  set_fields (u8 (cmos a 0x00)) (u8 (cmos (a + 1)%nat 0x02)) (u8 (cmos (a + 2)%nat 0x04))
    (u8 (cmos (a + 3)%nat 0x07)) (u8 (cmos (a + 4)%nat 0x08)) (u8 (cmos (a + 5)%nat 0x09)) v.

Lemma pass_run {B} n s (f : unit -> K rtc B) : (U <= n)%nat ->
  exists a, (accesses s < a <= accesses s + U + 1)%nat /\
    (wait cmos n ;; read_fields cmos ;; f tt) s = f tt (mkRtc (a + 6) 0x09 (seen a (current s))).
Proof.
  intros Hn. destruct (wait_run n s Hn) as (j & Hj & Ej). exists (accesses s + S j)%nat. split; [lia|].
  rewrite (run_bind_done _ _ _ _ _ Ej). unfold read_fields. rewrite run_bind_assoc.
  unfold seen. generalize (accesses s + S j)%nat as a. intros a.
  rewrite !Nat.add_succ_r, Nat.add_0_r. reflexivity.
Qed.

(** The register values at one instant. *)
Definition raw (t : TimeDescriptor) (c : Z) : values :=
  mkValues (enc bcd (_seconds t)) (enc bcd (_minutes t)) (enc_hour bcd twelve (_hour t))
    (enc bcd (_day t)) (enc bcd (_month t)) (enc bcd (_year t mod 100)) c.

Lemma enc_range n : 0 <= n < 100 -> 0 <= enc bcd n < 160 /\ (n <> 0 -> enc bcd n <> 0).
Proof. unfold enc. destruct bcd; Z.to_euclidean_division_equations; lia. Qed.

Lemma enc_inj n n' : 0 <= n < 100 -> 0 <= n' < 100 -> enc bcd n = enc bcd n' -> n = n'.
Proof. unfold enc. destruct bcd; Z.to_euclidean_division_equations; lia. Qed.

Lemma enc_hour_range h : 0 <= h < 24 -> 0 <= enc_hour bcd twelve h < 256.
Proof.
  intros Hh. assert (E : In h [0;1;2;3;4;5;6;7;8;9;10;11;12;13;14;15;16;17;18;19;20;21;22;23]) by (cbn; lia).
  destruct bcd, twelve; cbn in E; destruct_or! E; subst; vm_compute; (split; [discriminate|done]) || done.
Qed.

Lemma seen_const a t v : (forall i, (i <= 5)%nat -> now (a + i)%nat = t) -> seen a v = raw t (century v).
Proof.
  intros H. pose proof (H O ltac:(lia)) as H0. rewrite Nat.add_0_r in H0.
  destruct (now_valid _ _ _ _ _ Hdev a) as [[Hs Hmi Hh Hm Hd Hy] _]. rewrite H0 in *.
  pose proof (days_in_month_range (_year t) (_month t)).
  pose proof (Z.mod_pos_bound (_year t) 100 ltac:(lia)).
  unfold seen, set_fields, raw. destruct Hdev as [_ R0 R2 R4 R7 R8 R9 _ _ _ _].
  rewrite R0, R2, R4, R7, R8, R9, H0, !H by lia.
  rewrite !u8_small; [done|..]; try apply enc_hour_range; try lia;
    match goal with |- context [enc bcd ?n] => pose proof (enc_range n ltac:(lia)) end; lia.
Qed.

(** The clock stands still between two accesses that find the same instant. *)
Lemma between a t a' : (a <= t <= a')%nat -> epoch_of (now a) = epoch_of (now a') -> now t = now a'.
Proof.
  intros Ht E. destruct Hdev as [Hv _ _ _ _ _ _ _ _ Hm _]. apply epoch_inj; [apply Hv..|].
  pose proof (Hm a t ltac:(lia)). pose proof (Hm t a' ltac:(lia)). lia.
Qed.

Lemma window a t : (a <= t <= a + 4 * U + 32)%nat ->
  epoch_of (now a) <= epoch_of (now t) <= epoch_of (now a) + 1.
Proof.
  intros Ht. destruct Hdev as [_ _ _ _ _ _ _ _ _ Hm Hs].
  pose proof (Hm a t ltac:(lia)). pose proof (Hm t (a + 4 * U + 32)%nat ltac:(lia)). specialize (Hs a). lia.
Qed.

(** Two passes that see the same second see the same instant. *)
Lemma same_second a a' v v' : (a <= a' <= a + 4 * U + 32)%nat ->
  second (seen a v) = second (seen a' v') -> epoch_of (now a) = epoch_of (now a').
Proof.
  intros Ha E. pose proof (window a a' Ha) as Hw.
  destruct (now_valid _ _ _ _ _ Hdev a) as [Hv _]. destruct (now_valid _ _ _ _ _ Hdev a') as [Hv' _].
  pose proof (epoch_clock _ Hv) as (S1 & _). pose proof (epoch_clock _ Hv') as (S2 & _).
  destruct Hv as [Hs _ _ _ _ _]. destruct Hv' as [Hs' _ _ _ _ _].
  cbn in E. rewrite !(reg_second _ _ _ _ _ Hdev) in E.
  pose proof (enc_range (_seconds (now a)) ltac:(lia)). pose proof (enc_range (_seconds (now a')) ltac:(lia)).
  rewrite !u8_small in E by lia. apply enc_inj in E; [|lia..]. cbn zeta in S1, S2.
  rewrite E in S1. clear - S1 S2 Hw. Z.to_euclidean_division_equations; lia.
Qed.

(** The last pass before [s] started at access [a]. *)
Definition at_pass (a : nat) (s : rtc) : Prop :=
  (a + 6 <= accesses s <= a + 7)%nat /\ current s = seen a (current s).

Lemma at_pass_day a s : at_pass a s -> zeros <> current s.
Proof.
  intros [_ E] Hz. assert (Hd : day (current s) = 0) by by rewrite <- Hz. rewrite E in Hd. cbn in Hd.
  rewrite (reg_day _ _ _ _ _ Hdev) in Hd. destruct (now_valid _ _ _ _ _ Hdev (a + 3)%nat) as [[_ _ _ _ Hv _] _].
  pose proof (days_in_month_range (_year (now (a + 3)%nat)) (_month (now (a + 3)%nat))).
  pose proof (enc_range (_day (now (a + 3)%nat)) ltac:(lia)). rewrite u8_small in Hd by lia. lia.
Qed.

(** Two passes that agree have seen one instant. *)
Lemma passes_agree a s a' s' : at_pass a s -> at_pass a' s' -> (a + 6 <= a' <= a + 4 * U + 32)%nat ->
  current s = current s' -> current s' = raw (now a') (century (current s')).
Proof.
  intros [_ E] [_ E'] Ha Ec. assert (He : epoch_of (now a) = epoch_of (now a')).
  { apply (same_second a a' (current s) (current s')); [lia|]. by rewrite <- E, <- E', Ec. }
  rewrite <- Ec, E, (seen_const a (now a')); [done|].
  intros i Hi. apply (between a); [lia|done].
Qed.

(** If two passes differ then the clock has ticked, and stands still for the
    rest of the window. *)
Lemma passes_differ a s a' s' : at_pass a s -> at_pass a' s' -> (a + 6 <= a' <= a + 4 * U + 27)%nat ->
  current s <> current s' -> century (current s) = century (current s') ->
  forall b, (a' + 5 <= b <= a + 4 * U + 32)%nat -> now b = now (a + 4 * U + 32)%nat.
Proof.
  intros [_ E] [_ E'] Ha Hne Hc b Hb.
  pose proof (window a (a' + 5) ltac:(lia)). pose proof (window a (a + 4 * U + 32) ltac:(lia)).
  destruct (decide (epoch_of (now (a' + 5)%nat) = epoch_of (now a))) as [Heq|Hneq].
  - exfalso. apply Hne. rewrite E, E', (seen_const a (now (a' + 5)%nat)), (seen_const a' (now (a' + 5)%nat)), Hc; [done|..];
      intros i Hi; apply (between a); lia || done.
  - apply (between (a' + 5)%nat); [lia|].
    pose proof (never_back _ _ _ _ _ Hdev (a' + 5) (a + 4 * U + 32) ltac:(lia)). lia.
Qed.

Lemma settle_stop n w s : settle cmos n w (current s) s = Done (tt, s).
Proof. destruct n; cbn [settle]; rewrite run_bind; cbn; by rewrite bool_decide_eq_true_2. Qed.

Lemma settle_step n w last s : (U <= w)%nat -> last <> current s ->
  exists a' s', settle cmos (S n) w last s = settle cmos n w (current s) s' /\
    (accesses s < a' <= accesses s + U + 1)%nat /\ accesses s' = (a' + 6)%nat /\ at_pass a' s' /\
    century (current s') = century (current s).
Proof.
  intros Hw Hne. cbn [settle]. rewrite (run_bind_done _ _ s (current s) s eq_refl).
  rewrite bool_decide_eq_false_2 by done.
  destruct (pass_run w s (fun _ => settle cmos n w (current s)) Hw) as (a' & Ha & E).
  exists a', (mkRtc (a' + 6) 0x09 (seen a' (current s))). split; [exact E|].
  repeat split; cbn; lia.
Qed.

(** Three more passes are enough for two to agree. *)
Lemma settle_run n w a s : (U <= w)%nat -> at_pass a s ->
  exists a' s', settle cmos (S (S (S n))) w zeros s = Done (tt, s') /\
    (a < a' < accesses s')%nat /\ current s' = raw (now a') (century (current s')).
Proof.
  intros Hw Hp. pose proof (proj1 Hp) as Hacc. destruct (settle_step (S (S n)) w zeros s Hw) as (a2 & s2 & E2 & A2 & N2 & P2 & C2);
    [by apply (at_pass_day a)|]. rewrite E2.
  destruct (decide (current s = current s2)) as [Heq|Hne].
  { rewrite Heq, settle_stop. exists a2, s2. split; [done|]. split; [lia|].
    apply (passes_agree a s); try done. lia. }
  destruct (settle_step (S n) w (current s) s2 Hw Hne) as (a3 & s3 & E3 & A3 & N3 & P3 & C3). rewrite E3.
  destruct (decide (current s2 = current s3)) as [Heq|Hne'].
  { rewrite Heq, settle_stop. exists a3, s3. split; [done|]. split; [lia|].
    apply (passes_agree a2 s2); try done. lia. }
  destruct (settle_step n w (current s2) s3 Hw Hne') as (a4 & s4 & E4 & A4 & N4 & P4 & C4). rewrite E4.
  pose proof (passes_differ a s a2 s2 Hp P2 ltac:(lia) Hne ltac:(congruence)) as Hstill.
  assert (Heq : current s3 = current s4).
  { rewrite (proj2 P3), (proj2 P4), (seen_const a3 (now (a + 4 * U + 32)%nat)), (seen_const a4 (now (a + 4 * U + 32)%nat)), C4;
      [done|intros i Hi; apply Hstill; lia..]. }
  rewrite Heq, settle_stop. exists a4, s4. split; [done|]. split; [lia|].
  apply (passes_agree a3 s3); try done. lia.
Qed.

Lemma from_bcd_enc n : 0 <= n < 100 -> from_bcd (16 * (n / 10) + n mod 10) = n.
Proof.
  intros Hn. unfold from_bcd. change 0x0F with (Z.ones 4). rewrite Z.land_ones by lia. change (2 ^ 4) with 16.
  Z.to_euclidean_division_equations; lia.
Qed.

(** The hour after both conversions. *)
Definition converted_hour (b : Z) (h : Z) : Z := hour (convert b (mkValues 0 0 h 0 0 0 0)).

Lemma convert_hour h : 0 <= h < 24 ->
  converted_hour ((if bcd then 0 else 4) + (if twelve then 0 else 2)) (enc_hour bcd twelve h) = read_hour twelve h.
Proof.
  intros Hh. assert (E : In h [0;1;2;3;4;5;6;7;8;9;10;11;12;13;14;15;16;17;18;19;20;21;22;23]) by (cbn; lia).
  destruct bcd, twelve; cbn in E; destruct_or! E; subst; done.
Qed.

Lemma convert_year y : 2021 <= y <= 2120 ->
  (let y' := u32 (y mod 100 + RTC_CURRENT_YEAR / 100 * 100) in
   if y' <? RTC_CURRENT_YEAR then u32 (y' + 100) else y') = y.
Proof.
  intros Hy. unfold RTC_CURRENT_YEAR. change (2021 / 100 * 100) with 2000.
  rewrite !u32_small by (unfold in_u32; Z.to_euclidean_division_equations; lia).
  cbv zeta. destruct (Z.ltb_spec (y mod 100 + 2000) 2021); Z.to_euclidean_division_equations; lia.
Qed.

Lemma convert_raw t c : valid t -> 2021 <= _year t <= 2120 ->
  fields_of (convert ((if bcd then 0 else 4) + (if twelve then 0 else 2)) (raw t c)) = as_read twelve t.
Proof.
  intros [Hs Hmi Hh Hm Hd _] Hy. pose proof (days_in_month_range (_year t) (_month t)).
  pose proof (convert_year _ Hy) as Ey. pose proof (convert_hour _ Hh) as Eh.
  pose proof (Z.mod_pos_bound (_year t) 100 ltac:(lia)).
  unfold converted_hour, fields_of, as_read, convert, raw, enc in *.
  destruct bcd, twelve; cbn -[Z.div Z.mul Z.modulo from_bcd u32 Z.ltb enc_hour] in Ey, Eh |- *;
    rewrite ?from_bcd_enc by lia; f_equal; done.
Qed.

Lemma read_run fuel waits s : (3 <= fuel)%nat -> (U <= waits)%nat ->
  exists t s', read cmos fuel waits s = Done (tt, s') /\ (accesses s <= t < accesses s')%nat /\
    fields_of (current s') = as_read twelve (now t).
Proof.
  intros Hf Hw. destruct fuel as [|[|[|n]]]; [lia..|]. unfold read.
  destruct (pass_run waits s (fun _ => c ← getRegister cmos RTC_CURRENT_CENTURY ;
    set_current (set_century c) ;; settle cmos (S (S (S n))) waits zeros ;;
    registerB ← getRegister cmos 0x0B ; set_current (convert registerB)) Hw) as (a & Ha & E).
  match goal with |- exists _ _, ?r = _ /\ _ => assert (Er : r = _) by exact E end. rewrite Er. clear E Er.
  rewrite (run_bind_done _ _ _ _ _ (getRegister_run _ _)).
  unfold set_current at 1. rewrite (run_bind_done _ _ _ tt _ eq_refl).
  match goal with |- exists _ _, (settle _ _ _ _ ≫= _) ?s1 = _ /\ _ =>
    destruct (settle_run n waits a s1 Hw) as (a' & s' & E & Ha' & Hr); [split; cbn; [lia|done]|] end.
  rewrite (run_bind_done _ _ _ _ _ E). rewrite (run_bind_done _ _ _ _ _ (getRegister_run _ _)).
  eexists a', _. split; [reflexivity|]. cbn [accesses current]. split; [lia|].
  rewrite (reg_B _ _ _ _ _ Hdev), Hr.
  rewrite u8_small by (destruct bcd, twelve; lia).
  destruct (now_valid _ _ _ _ _ Hdev a'). by apply convert_raw.
Qed.
End read.


(** C31. [getUnixEpoch] counts the seconds of the Gregorian calendar since 1970
    (a day number is the sum of the lengths of the years and months before
    it), and [converterEpochToDate] takes every such count back to the date it
    came from, for all dates up to the year 65535 and without overflow. *)
Theorem epoch_roundtrip t : valid t ->
  getUnixEpoch (_seconds t) (_minutes t) (_hour t) (_day t) (_month t) (_year t) = epoch_of t /\
  converterEpochToDate (epoch_of t) = Done t.
Proof.
  intros Hv. split; [exact (getUnixEpoch_calendar t Hv)|exact (converter_of_epoch t Hv)].
Qed.

Lemma valid_as_read twelve t : valid t -> valid (as_read twelve t).
Proof.
  intros [Hs Hmi Hh Hm Hd Hy]. split; cbn; try done. unfold read_hour.
  destruct twelve; cbn; [|done]. destruct (Z.eqb_spec (_hour t mod 12) 0); [|done].
  Z.to_euclidean_division_equations; lia.
Qed.

(** A [TimeDescriptor] made without arguments holds the date and time the
    real time clock shows during its constructor (on a 24-hour clock; on a
    12-hour clock with the two hours exchanged): the registers, the conversion
    to an epoch and the conversion back fit together. *)
Theorem TimeDescriptor_shows_clock cmos now bcd twelve U fuel waits s :
  ticks cmos now bcd twelve U -> (3 <= fuel)%nat -> (U <= waits)%nat ->
  exists t s', toDate cmos fuel waits s = Done (as_read twelve (now t), s') /\
    (accesses s <= t < accesses s')%nat.
Proof.
  intros Hdev Hf Hw. destruct (read_run cmos now bcd twelve U Hdev fuel waits s Hf Hw) as (t & s' & E & Ht & Ef).
  exists t, s'. split; [|done]. destruct (now_valid _ _ _ _ _ Hdev t) as [Hv Hy].
  pose proof (valid_as_read twelve _ Hv) as Hv'. pose proof (days_in_month_range (_year (now t)) (_month (now t))).
  unfold toDate, getEpoch. rewrite run_bind_assoc, (run_bind_done _ _ _ _ _ E).
  rewrite run_bind_assoc, (run_bind_done _ _ s' (current s') s' eq_refl).
  rewrite (run_bind_done _ _ s' _ s' eq_refl).
  assert (Ee : getUnixEpoch (u8 (second (current s'))) (u8 (minute (current s'))) (u8 (hour (current s')))
    (u8 (day (current s'))) (u8 (month (current s'))) (u16 (year (current s'))) = epoch_of (as_read twelve (now t))).
  { rewrite <- getUnixEpoch_calendar by done. rewrite <- Ef. rewrite <- Ef in Hv'.
    destruct Hv' as [Hs Hmi Hh Hm Hd Hy']. cbn in *. 
    pose proof (days_in_month_range (year (current s')) (month (current s'))).
    rewrite !u8_small by lia. unfold u16. by rewrite wrap_small by lia. }
  rewrite Ee. unfold kread. rewrite !run_bind, (converter_of_epoch _ Hv'). done.
Qed.

(** On a 12-hour clock noon is taken for midnight. *)
Theorem noon_reads_as_midnight t : _hour t = 12 -> _hour (as_read true t) = 0.
Proof. intros H. unfold as_read, read_hour. cbn [_hour]. by rewrite H. Qed.

(** A clock that ticks from 2024-02-29 23:59:59 at access 9. *)
Definition demo_now (t : nat) : TimeDescriptor :=
  if (t <? 9)%nat then mkTime 59 59 23 29 2 2024 else mkTime 0 0 0 1 3 2024.
Definition demo_cmos (t : nat) (r : Z) : Z :=
  let n := demo_now t in
  if r =? 0 then enc true (_seconds n) else if r =? 2 then enc true (_minutes n)
  else if r =? 4 then enc_hour true false (_hour n) else if r =? 7 then enc true (_day n)
  else if r =? 8 then enc true (_month n) else if r =? 9 then enc true (_year n mod 100)
  else if r =? 10 then (if (t =? 1)%nat then 0x80 else 0) else 2.

Lemma demo_ticks : ticks demo_cmos demo_now true false 1.
Proof.
  assert (Hcase : forall t, demo_now t = mkTime 59 59 23 29 2 2024 /\ (t < 9)%nat \/ demo_now t = mkTime 0 0 0 1 3 2024 /\ (9 <= t)%nat).
  { intros t. unfold demo_now. destruct (Nat.ltb_spec t 9); auto. }
  split; try done.
  - intros t. destruct (Hcase t) as [[-> _]|[-> _]]; (split; [split|]); vm_compute; split; congruence.
  - intros t. destruct (decide (t = 1)%nat) as [->|].
    + exists 1%nat. split; [lia|done].
    + exists 0%nat. split; [lia|]. unfold demo_cmos. cbn -[Nat.eqb]. destruct (Nat.eqb_spec (t + 0) 1); [lia|done].
  - intros t t' Ht. destruct (Hcase t) as [[-> H1]|[-> H1]], (Hcase t') as [[-> H2]|[-> H2]]; try (vm_compute; congruence); lia.
  - intros t. destruct (Hcase t) as [[-> H1]|[-> H1]]; destruct (Hcase (t + 4 * 1 + 32)%nat) as [[-> H2]|[-> H2]]; try (vm_compute; congruence); lia.
Qed.


(** The clock ticks in the first pass; the driver reads on until two passes agree. *)
Example demo_read : toDate demo_cmos 3 1 (mkRtc 0 0 zeros) =
  Done (mkTime 0 0 0 1 3 2024, mkRtc 23 11 (mkValues 0 0 0 1 3 2024 89)).
Proof. vm_compute. reflexivity. Qed.

Lemma epoch_roundtrip_witness :
  getUnixEpoch 59 59 23 29 2 2024 = 1709251199 /\ converterEpochToDate 1709251199 = Done (mkTime 59 59 23 29 2 2024).
Proof.
  destruct (epoch_roundtrip (mkTime 59 59 23 29 2 2024)) as [H1 H2]; [split; vm_compute; split; congruence|].
  split; [exact H1|exact H2].
Defined.

Lemma TimeDescriptor_shows_clock_witness :
  exists t s', toDate demo_cmos 3 1 (mkRtc 0 0 zeros) = Done (as_read false (demo_now t), s') /\ (0 <= t < accesses s')%nat.
Proof. apply (TimeDescriptor_shows_clock demo_cmos demo_now true false 1 3 1 (mkRtc 0 0 zeros)); [apply demo_ticks|lia..]. Defined.
End RTCFacts.
