(* ===== verification/Display.v ===== *)
(** * Framebuffer, pixels and glyphs (Devices/Graphics)

    The framebuffer class and the one that is registered, the double buffer of
    graphics.cpp over the byte memory of KString.v, and the drawing of glyphs. *)
From S2P Require Import Prelude Words KString.
From Stdlib Require Import ZArith Lia Bool.
From stdpp Require Import base strings numbers functions gmap list.
#[local] Open Scope Z_scope.

(** ** The framebuffer *)

Inductive FramebufferMemoryModel := Undefined_FBMM | RGB_FBMM.

Record Framebuffer := mkFB {
  _addr : Z; _width : Z; _height : Z; _depth : Z; _pitch : Z;
  _redMaskSize : Z; _redMaskShift : Z; _greenMaskSize : Z; _greenMaskShift : Z;
  _blueMaskSize : Z; _blueMaskShift : Z; _memoryModel : FramebufferMemoryModel
}.

(** [_depth / 8] in a [uint8_t]. *)
Definition getPixelWidth (fb : Framebuffer) : Z := u8 (_depth fb / 8).

(** The constructors also register the first object that is made; objects are
    known by their address [this]. *)
Definition registers (this : Z) (framebuffer : option Z) : option Z :=
  match framebuffer with None => Some this | Some p => Some p end.
Definition Framebuffer_default (this : Z) : K (option Z) Framebuffer :=
  kmodify (registers this) ;; mret (mkFB 0 0 0 0 0 0 0 0 0 0 0 Undefined_FBMM).
Definition Framebuffer_common (this width height depth pitch addr : Z) : K (option Z) Framebuffer :=
  kmodify (registers this) ;; mret (mkFB addr width height depth pitch 0 0 0 0 0 0 Undefined_FBMM).
Definition Framebuffer_all (this width height depth pitch addr : Z) (model : FramebufferMemoryModel)
    (redMaskSize redMaskShift greenMaskSize greenMaskShift blueMaskSize blueMaskShift : Z) : K (option Z) Framebuffer :=
  kmodify (registers this) ;;
  mret (mkFB addr width height depth pitch redMaskSize redMaskShift greenMaskSize greenMaskShift
          blueMaskSize blueMaskShift model).
Definition getFramebuffer : K (option Z) (option Z) := kget.

(** ** The double buffer *)

(** [requests] are the sections that [init] has mapped (mapKernelRangeVirtual
    is in Paging.v). *)
Record graphics := mkG {
  mem : memory; info : option Framebuffer; backbuffer : Z; initialized : bool; requests : list (Z * Z)
}.
Definition set_mem (m : memory) (g : graphics) : graphics :=
  mkG m (info g) (backbuffer g) (initialized g) (requests g).
Definition on_memory {A} (m : K memory A) : K graphics A := kzoom mem set_mem m.

(** The object [info] points to. *)
Definition the_info : K graphics Framebuffer :=
  kread (fun g => match info g with Some fb => Done fb | None => Fault end).

(** A member of [info] shifted and masked; a shift by 32 or more is undefined. *)
Definition component (color shift : Z) : outcome Z :=
  if shift <? 32 then Done (Z.land (Z.shiftr color shift) 0xff) else Fault.

Definition buffer_size (fb : Framebuffer) : Z := u32 (_pitch fb * _height fb).

Section malloc.
(** The allocator is the submodule liballoc. *)
Context (malloc : Z -> K memory Z).

Definition init (fb : option Framebuffer) : K graphics unit :=
  kmodify (fun g => mkG (mem g) fb (backbuffer g) (initialized g) (requests g)) ;;
  match fb with
  | None => mret tt
  | Some fb =>
      if _addr fb =? 0 then mret tt else
      kmodify (fun g => mkG (mem g) (info g) (backbuffer g) (initialized g) (requests g ++ [(_addr fb, buffer_size fb)])) ;;
      b ← on_memory (malloc (buffer_size fb)) ;
      kmodify (fun g => mkG (mem g) (info g) b (initialized g) (requests g)) ;;
      on_memory (memcpy b (_addr fb) (buffer_size fb)) ;;
      kmodify (fun g => mkG (mem g) (info g) (backbuffer g) true (requests g))
  end.
End malloc.

Definition pixel (x y color : Z) : K graphics unit :=
  ok ← kgets initialized ;
  if negb ok then mret tt else
  fb ← the_info ;
  if (x <=? _width fb) && (y <=? _height fb) then
    base ← kgets backbuffer ;
    let p := base + u32 (y * _pitch fb) + u32 (x * getPixelWidth fb) in
    b ← kread (fun _ => component color (_blueMaskShift fb)) ;
    on_memory (store p b) ;;
    g ← kread (fun _ => component color (_greenMaskShift fb)) ;
    on_memory (store (p + 1) g) ;;
    r ← kread (fun _ => component color (_redMaskShift fb)) ;
    on_memory (store (p + 2) r) ;;
    kwhen (getPixelWidth fb =? 4) (on_memory (store (p + 3) 0))
  else mret tt.

Definition resetDoubleBuffer : K graphics unit :=
  ok ← kgets initialized ;
  if negb ok then mret tt else
  fb ← the_info ;
  base ← kgets backbuffer ;
  on_memory (memset base 0 (buffer_size fb)) ;; mret tt.

Definition swap : K graphics unit :=
  ok ← kgets initialized ;
  if negb ok then mret tt else
  fb ← the_info ;
  base ← kgets backbuffer ;
  on_memory (memcpy (_addr fb) base (buffer_size fb)) ;; mret tt.

(** [for (curr = c; curr <= last; curr++)] on [uint32_t]. *)
Fixpoint upto (fuel : nat) (c last : Z) (body : Z -> K graphics unit) : K graphics unit :=
  if c <=? last then
    match fuel with
    | O => kstuck
    | S fuel' => body c ;; upto fuel' (u32 (c + 1)) last body
    end
  else mret tt.

Definition putrect (fuel : nat) (x y w h color : Z) : K graphics unit :=
  ok ← kgets initialized ;
  if negb ok then mret tt else
  upto fuel x (u32 (x + w)) (fun curr_x =>
    upto fuel y (u32 (y + h)) (fun curr_y => pixel curr_x curr_y color)) ;;
  swap.

(** ** Glyphs *)
Module Font.

Definition FONT_COUNT : Z := 128.
Definition FONT_WIDTH : Z := 8.
Definition FONT_HEIGHT : Z := 8.

Definition fontData : list (list Z) := [
  [0x00; 0x00; 0x00; 0x00; 0x00; 0x00; 0x00; 0x00];
  [0x00; 0x00; 0x00; 0x00; 0x00; 0x00; 0x00; 0x00];
  [0x00; 0x00; 0x00; 0x00; 0x00; 0x00; 0x00; 0x00];
  [0x00; 0x00; 0x00; 0x00; 0x00; 0x00; 0x00; 0x00];
  [0x00; 0x00; 0x00; 0x00; 0x00; 0x00; 0x00; 0x00];
  [0x00; 0x00; 0x00; 0x00; 0x00; 0x00; 0x00; 0x00];
  [0x00; 0x00; 0x00; 0x00; 0x00; 0x00; 0x00; 0x00];
  [0x00; 0x00; 0x00; 0x00; 0x00; 0x00; 0x00; 0x00];
  [0x00; 0x00; 0x00; 0x00; 0x00; 0x00; 0x00; 0x00];
  [0x00; 0x00; 0x00; 0x00; 0x00; 0x00; 0x00; 0x00];
  [0x00; 0x00; 0x00; 0x00; 0x00; 0x00; 0x00; 0x00];
  [0x00; 0x00; 0x00; 0x00; 0x00; 0x00; 0x00; 0x00];
  [0x00; 0x00; 0x00; 0x00; 0x00; 0x00; 0x00; 0x00];
  [0x00; 0x00; 0x00; 0x00; 0x00; 0x00; 0x00; 0x00];
  [0x00; 0x00; 0x00; 0x00; 0x00; 0x00; 0x00; 0x00];
  [0x00; 0x00; 0x00; 0x00; 0x00; 0x00; 0x00; 0x00];
  [0x00; 0x00; 0x00; 0x00; 0x00; 0x00; 0x00; 0x00];
  [0x00; 0x00; 0x00; 0x00; 0x00; 0x00; 0x00; 0x00];
  [0x00; 0x00; 0x00; 0x00; 0x00; 0x00; 0x00; 0x00];
  [0x00; 0x00; 0x00; 0x00; 0x00; 0x00; 0x00; 0x00];
  [0x00; 0x00; 0x00; 0x00; 0x00; 0x00; 0x00; 0x00];
  [0x00; 0x00; 0x00; 0x00; 0x00; 0x00; 0x00; 0x00];
  [0x00; 0x00; 0x00; 0x00; 0x00; 0x00; 0x00; 0x00];
  [0x00; 0x00; 0x00; 0x00; 0x00; 0x00; 0x00; 0x00];
  [0x00; 0x00; 0x00; 0x00; 0x00; 0x00; 0x00; 0x00];
  [0x00; 0x00; 0x00; 0x00; 0x00; 0x00; 0x00; 0x00];
  [0x00; 0x00; 0x00; 0x00; 0x00; 0x00; 0x00; 0x00];
  [0x00; 0x00; 0x00; 0x00; 0x00; 0x00; 0x00; 0x00];
  [0x00; 0x00; 0x00; 0x00; 0x00; 0x00; 0x00; 0x00];
  [0x00; 0x00; 0x00; 0x00; 0x00; 0x00; 0x00; 0x00];
  [0x00; 0x00; 0x00; 0x00; 0x00; 0x00; 0x00; 0x00];
  [0x00; 0x00; 0x00; 0x00; 0x00; 0x00; 0x00; 0x00];
  [0x00; 0x00; 0x00; 0x00; 0x00; 0x00; 0x00; 0x00];
  [0x18; 0x3C; 0x3C; 0x18; 0x18; 0x00; 0x18; 0x00];
  [0x36; 0x36; 0x00; 0x00; 0x00; 0x00; 0x00; 0x00];
  [0x36; 0x36; 0x7F; 0x36; 0x7F; 0x36; 0x36; 0x00];
  [0x0C; 0x3E; 0x03; 0x1E; 0x30; 0x1F; 0x0C; 0x00];
  [0x00; 0x63; 0x33; 0x18; 0x0C; 0x66; 0x63; 0x00];
  [0x1C; 0x36; 0x1C; 0x6E; 0x3B; 0x33; 0x6E; 0x00];
  [0x06; 0x06; 0x03; 0x00; 0x00; 0x00; 0x00; 0x00];
  [0x18; 0x0C; 0x06; 0x06; 0x06; 0x0C; 0x18; 0x00];
  [0x06; 0x0C; 0x18; 0x18; 0x18; 0x0C; 0x06; 0x00];
  [0x00; 0x66; 0x3C; 0xFF; 0x3C; 0x66; 0x00; 0x00];
  [0x00; 0x0C; 0x0C; 0x3F; 0x0C; 0x0C; 0x00; 0x00];
  [0x00; 0x00; 0x00; 0x00; 0x00; 0x0C; 0x0C; 0x06];
  [0x00; 0x00; 0x00; 0x3F; 0x00; 0x00; 0x00; 0x00];
  [0x00; 0x00; 0x00; 0x00; 0x00; 0x0C; 0x0C; 0x00];
  [0x60; 0x30; 0x18; 0x0C; 0x06; 0x03; 0x01; 0x00];
  [0x3E; 0x63; 0x73; 0x7B; 0x6F; 0x67; 0x3E; 0x00];
  [0x0C; 0x0E; 0x0C; 0x0C; 0x0C; 0x0C; 0x3F; 0x00];
  [0x1E; 0x33; 0x30; 0x1C; 0x06; 0x33; 0x3F; 0x00];
  [0x1E; 0x33; 0x30; 0x1C; 0x30; 0x33; 0x1E; 0x00];
  [0x38; 0x3C; 0x36; 0x33; 0x7F; 0x30; 0x78; 0x00];
  [0x3F; 0x03; 0x1F; 0x30; 0x30; 0x33; 0x1E; 0x00];
  [0x1C; 0x06; 0x03; 0x1F; 0x33; 0x33; 0x1E; 0x00];
  [0x3F; 0x33; 0x30; 0x18; 0x0C; 0x0C; 0x0C; 0x00];
  [0x1E; 0x33; 0x33; 0x1E; 0x33; 0x33; 0x1E; 0x00];
  [0x1E; 0x33; 0x33; 0x3E; 0x30; 0x18; 0x0E; 0x00];
  [0x00; 0x0C; 0x0C; 0x00; 0x00; 0x0C; 0x0C; 0x00];
  [0x00; 0x0C; 0x0C; 0x00; 0x00; 0x0C; 0x0C; 0x06];
  [0x18; 0x0C; 0x06; 0x03; 0x06; 0x0C; 0x18; 0x00];
  [0x00; 0x00; 0x3F; 0x00; 0x00; 0x3F; 0x00; 0x00];
  [0x06; 0x0C; 0x18; 0x30; 0x18; 0x0C; 0x06; 0x00];
  [0x1E; 0x33; 0x30; 0x18; 0x0C; 0x00; 0x0C; 0x00];
  [0x3E; 0x63; 0x7B; 0x7B; 0x7B; 0x03; 0x1E; 0x00];
  [0x0C; 0x1E; 0x33; 0x33; 0x3F; 0x33; 0x33; 0x00];
  [0x3F; 0x66; 0x66; 0x3E; 0x66; 0x66; 0x3F; 0x00];
  [0x3C; 0x66; 0x03; 0x03; 0x03; 0x66; 0x3C; 0x00];
  [0x1F; 0x36; 0x66; 0x66; 0x66; 0x36; 0x1F; 0x00];
  [0x7F; 0x46; 0x16; 0x1E; 0x16; 0x46; 0x7F; 0x00];
  [0x7F; 0x46; 0x16; 0x1E; 0x16; 0x06; 0x0F; 0x00];
  [0x3C; 0x66; 0x03; 0x03; 0x73; 0x66; 0x7C; 0x00];
  [0x33; 0x33; 0x33; 0x3F; 0x33; 0x33; 0x33; 0x00];
  [0x1E; 0x0C; 0x0C; 0x0C; 0x0C; 0x0C; 0x1E; 0x00];
  [0x78; 0x30; 0x30; 0x30; 0x33; 0x33; 0x1E; 0x00];
  [0x67; 0x66; 0x36; 0x1E; 0x36; 0x66; 0x67; 0x00];
  [0x0F; 0x06; 0x06; 0x06; 0x46; 0x66; 0x7F; 0x00];
  [0x63; 0x77; 0x7F; 0x7F; 0x6B; 0x63; 0x63; 0x00];
  [0x63; 0x67; 0x6F; 0x7B; 0x73; 0x63; 0x63; 0x00];
  [0x1C; 0x36; 0x63; 0x63; 0x63; 0x36; 0x1C; 0x00];
  [0x3F; 0x66; 0x66; 0x3E; 0x06; 0x06; 0x0F; 0x00];
  [0x1E; 0x33; 0x33; 0x33; 0x3B; 0x1E; 0x38; 0x00];
  [0x3F; 0x66; 0x66; 0x3E; 0x36; 0x66; 0x67; 0x00];
  [0x1E; 0x33; 0x07; 0x0E; 0x38; 0x33; 0x1E; 0x00];
  [0x3F; 0x2D; 0x0C; 0x0C; 0x0C; 0x0C; 0x1E; 0x00];
  [0x33; 0x33; 0x33; 0x33; 0x33; 0x33; 0x3F; 0x00];
  [0x33; 0x33; 0x33; 0x33; 0x33; 0x1E; 0x0C; 0x00];
  [0x63; 0x63; 0x63; 0x6B; 0x7F; 0x77; 0x63; 0x00];
  [0x63; 0x63; 0x36; 0x1C; 0x1C; 0x36; 0x63; 0x00];
  [0x33; 0x33; 0x33; 0x1E; 0x0C; 0x0C; 0x1E; 0x00];
  [0x7F; 0x63; 0x31; 0x18; 0x4C; 0x66; 0x7F; 0x00];
  [0x1E; 0x06; 0x06; 0x06; 0x06; 0x06; 0x1E; 0x00];
  [0x03; 0x06; 0x0C; 0x18; 0x30; 0x60; 0x40; 0x00];
  [0x1E; 0x18; 0x18; 0x18; 0x18; 0x18; 0x1E; 0x00];
  [0x08; 0x1C; 0x36; 0x63; 0x00; 0x00; 0x00; 0x00];
  [0x00; 0x00; 0x00; 0x00; 0x00; 0x00; 0x00; 0xFF];
  [0x0C; 0x0C; 0x18; 0x00; 0x00; 0x00; 0x00; 0x00];
  [0x00; 0x00; 0x1E; 0x30; 0x3E; 0x33; 0x6E; 0x00];
  [0x07; 0x06; 0x06; 0x3E; 0x66; 0x66; 0x3B; 0x00];
  [0x00; 0x00; 0x1E; 0x33; 0x03; 0x33; 0x1E; 0x00];
  [0x38; 0x30; 0x30; 0x3E; 0x33; 0x33; 0x6E; 0x00];
  [0x00; 0x00; 0x1E; 0x33; 0x3F; 0x03; 0x1E; 0x00];
  [0x1C; 0x36; 0x06; 0x0F; 0x06; 0x06; 0x0F; 0x00];
  [0x00; 0x00; 0x6E; 0x33; 0x33; 0x3E; 0x30; 0x1F];
  [0x07; 0x06; 0x36; 0x6E; 0x66; 0x66; 0x67; 0x00];
  [0x0C; 0x00; 0x0E; 0x0C; 0x0C; 0x0C; 0x1E; 0x00];
  [0x30; 0x00; 0x30; 0x30; 0x30; 0x33; 0x33; 0x1E];
  [0x07; 0x06; 0x66; 0x36; 0x1E; 0x36; 0x67; 0x00];
  [0x0E; 0x0C; 0x0C; 0x0C; 0x0C; 0x0C; 0x1E; 0x00];
  [0x00; 0x00; 0x33; 0x7F; 0x7F; 0x6B; 0x63; 0x00];
  [0x00; 0x00; 0x1F; 0x33; 0x33; 0x33; 0x33; 0x00];
  [0x00; 0x00; 0x1E; 0x33; 0x33; 0x33; 0x1E; 0x00];
  [0x00; 0x00; 0x3B; 0x66; 0x66; 0x3E; 0x06; 0x0F];
  [0x00; 0x00; 0x6E; 0x33; 0x33; 0x3E; 0x30; 0x78];
  [0x00; 0x00; 0x3B; 0x6E; 0x66; 0x06; 0x0F; 0x00];
  [0x00; 0x00; 0x3E; 0x03; 0x1E; 0x30; 0x1F; 0x00];
  [0x08; 0x0C; 0x3E; 0x0C; 0x0C; 0x2C; 0x18; 0x00];
  [0x00; 0x00; 0x33; 0x33; 0x33; 0x33; 0x6E; 0x00];
  [0x00; 0x00; 0x33; 0x33; 0x33; 0x1E; 0x0C; 0x00];
  [0x00; 0x00; 0x63; 0x6B; 0x7F; 0x7F; 0x36; 0x00];
  [0x00; 0x00; 0x63; 0x36; 0x1C; 0x36; 0x63; 0x00];
  [0x00; 0x00; 0x33; 0x33; 0x33; 0x3E; 0x30; 0x1F];
  [0x00; 0x00; 0x3F; 0x19; 0x0C; 0x26; 0x3F; 0x00];
  [0x38; 0x0C; 0x0C; 0x07; 0x0C; 0x0C; 0x38; 0x00];
  [0x18; 0x18; 0x18; 0x00; 0x18; 0x18; 0x18; 0x00];
  [0x07; 0x0C; 0x0C; 0x38; 0x0C; 0x0C; 0x07; 0x00];
  [0x6E; 0x3B; 0x00; 0x00; 0x00; 0x00; 0x00; 0x00];
  [0x00; 0x00; 0x00; 0x00; 0x00; 0x00; 0x00; 0x00]
].

(** [fontData[fp][fy] & (1 << fx)]; the table has FONT_COUNT rows. *)
Definition glyph_bit (fp fy fx : Z) : outcome bool :=
  match fontData !! Z.to_nat fp with
  | Some row =>
      match row !! Z.to_nat fy with
      | Some b => Done (negb (Z.land b (Z.shiftl 1 fx) =? 0))
      | None => Fault
      end
  | None => Fault
  end.
(** [fx != FONT_WIDTH && fy != FONT_HEIGHT && ...]. *)
Definition in_glyph (fp fy fx : Z) : outcome bool :=
  if negb (fx =? FONT_WIDTH) && negb (fy =? FONT_HEIGHT) then glyph_bit fp fy fx else Done false.

(** [Draw(c, x, y, fore)]; [x + fx] is computed in [uint32_t]. *)
Definition Draw_fore (c x y fore : Z) : K graphics unit :=
  let x := u32 (x * FONT_WIDTH) in
  let y := u32 (y * FONT_HEIGHT) in
  let fp := u8 c in
  kfor 9 0 1 (fun fy =>
    kfor 9 0 1 (fun fx =>
      bit ← kread (fun _ => in_glyph fp fy fx) ;
      kwhen bit (pixel (u32 (x + fx)) (u32 (y + fy)) fore))).

(** [Draw(c, x, y, fore, back)]. *)
Definition Draw (c x y fore back : Z) : K graphics unit :=
  let x := u32 (x * FONT_WIDTH) in
  let y := u32 (y * FONT_HEIGHT) in
  let fp := u8 c in
  kfor 9 0 1 (fun fy =>
    kfor 9 0 1 (fun fx =>
      bit ← kread (fun _ => in_glyph fp fy fx) ;
      if (bit : bool) then pixel (u32 (x + fx)) (u32 (y + fy)) fore
      else pixel (u32 (x + fx)) (u32 (y + fy)) back)).

End Font.

(** ** Pictures

    A picture gives the bytes of every pixel of the screen. *)
Definition picture : Type := Z -> Z -> list Z.

Definition pixel_address (fb : Framebuffer) (base x y : Z) : Z := base + y * _pitch fb + x * getPixelWidth fb.

(** Blue, green and red, and a zero byte if there are four. *)
Definition pixel_bytes (fb : Framebuffer) (color : Z) : list Z :=
  [ Z.land (Z.shiftr color (_blueMaskShift fb)) 0xff; Z.land (Z.shiftr color (_greenMaskShift fb)) 0xff;
    Z.land (Z.shiftr color (_redMaskShift fb)) 0xff ] ++ (if getPixelWidth fb =? 4 then [0] else []).

Definition repaint (f : picture) (x y : Z) (l : list Z) : picture :=
  fun px py => if (px =? x) && (py =? y) then l else f px py.

(** A mode the drawing functions can work with. *)
Record mode_ok (fb : Framebuffer) : Prop := {
  mode_width : 0 <= _width fb;
  mode_height : 0 <= _height fb;
  mode_pixel : 3 <= getPixelWidth fb;
  mode_line : _width fb * getPixelWidth fb <= _pitch fb;
  mode_size : _pitch fb * _height fb < 2 ^ 32;
  mode_blue : 0 <= _blueMaskShift fb < 32;
  mode_green : 0 <= _greenMaskShift fb < 32;
  mode_red : 0 <= _redMaskShift fb < 32
}.

(** After [init]: the double buffer is a block of memory. *)
Record ready (fb : Framebuffer) (g : graphics) : Prop := {
  ready_initialized : initialized g = true;
  ready_info : info g = Some fb;
  ready_mode : mode_ok fb;
  ready_buffer : mapped (mem g) (backbuffer g) (_pitch fb * _height fb)
}.

Definition shows (fb : Framebuffer) (g : graphics) (f : picture) : Prop :=
  forall x y, 0 <= x < _width fb -> 0 <= y < _height fb ->
    length (f x y) = length (pixel_bytes fb 0) /\ bytes (mem g) (pixel_address fb (backbuffer g) x y) (f x y).

(** [g'] is [g] with a double buffer that shows [f]. *)
Record painted (fb : Framebuffer) (g : graphics) (f : picture) (g' : graphics) : Prop := {
  painted_state : g' = set_mem (mem g') g;
  painted_shows : shows fb g' f;
  painted_mapped a : is_Some (mem g !! a) -> is_Some (mem g' !! a);
  painted_frame a : ~ backbuffer g <= a < backbuffer g + _pitch fb * _height fb -> mem g' !! a = mem g !! a
}.

(** Bytes put into memory one after the other. *)
Fixpoint put (p : Z) (l : list Z) (m : memory) : memory :=
  match l with [] => m | b :: l' => put (p + 1) l' (<[p := b]> m) end.

Lemma put_out p l m a : ~ p <= a < p + Z.of_nat (length l) -> put p l m !! a = m !! a.
Proof.
  revert p m. induction l as [|b l IH]; intros p m Ha; cbn [put length] in *; [done|].
  rewrite IH by lia. rewrite lookup_insert_ne by lia. done.
Qed.

Lemma put_bytes p l m : bytes (put p l m) p l.
Proof.
  revert p m. induction l as [|b l IH]; intros p m; cbn [put bytes]; [done|]. split; [|apply IH].
  rewrite put_out by lia. apply lookup_insert_eq.
Qed.

Lemma put_mapped p l m a : is_Some (m !! a) -> is_Some (put p l m !! a).
Proof.
  revert p m. induction l as [|b l IH]; intros p m Ha; cbn [put]; [done|]. apply IH.
  destruct (decide (p = a)) as [->|]; [rewrite lookup_insert_eq; by eexists|by rewrite lookup_insert_ne].
Qed.

Lemma bytes_ext m m' p l : (forall a, p <= a < p + Z.of_nat (length l) -> m' !! a = m !! a) ->
  bytes m p l -> bytes m' p l.
Proof.
  rewrite !bytes_lookup. intros H Hb i b Hi. pose proof (lookup_lt_Some _ _ _ Hi). rewrite H by lia. by apply Hb.
Qed.

Lemma pixel_bytes_length fb c : length (pixel_bytes fb c) = if getPixelWidth fb =? 4 then 4%nat else 3%nat.
Proof. unfold pixel_bytes. by destruct (getPixelWidth fb =? 4). Qed.

(** Every pixel has its place in the buffer, and no two share a byte. *)
Lemma pixel_place fb base x y : mode_ok fb -> 0 <= x < _width fb -> 0 <= y < _height fb ->
  0 <= y * _pitch fb + x * getPixelWidth fb /\
  y * _pitch fb + x * getPixelWidth fb + Z.of_nat (length (pixel_bytes fb 0)) <= _pitch fb * _height fb /\
  pixel_address fb base x y = base + u32 (y * _pitch fb) + u32 (x * getPixelWidth fb).
Proof.
  intros [Hw Hh Hp Hl Hs _ _ _] Hx Hy. rewrite pixel_bytes_length.
  assert (Hlen : Z.of_nat (if getPixelWidth fb =? 4 then 4%nat else 3%nat) <= getPixelWidth fb)
    by (destruct (Z.eqb_spec (getPixelWidth fb) 4); lia).
  assert (y * _pitch fb + _pitch fb <= _pitch fb * _height fb) by nia.
  assert (x * getPixelWidth fb + getPixelWidth fb <= _pitch fb) by nia.
  split; [nia|]. split; [lia|]. unfold pixel_address. rewrite !u32_small by (unfold in_u32; nia). lia.
Qed.

Lemma pixel_apart fb base x y x' y' : mode_ok fb -> 0 <= x < _width fb -> 0 <= x' < _width fb ->
  (x, y) <> (x', y') ->
  pixel_address fb base x y + Z.of_nat (length (pixel_bytes fb 0)) <= pixel_address fb base x' y' \/
  pixel_address fb base x' y' + Z.of_nat (length (pixel_bytes fb 0)) <= pixel_address fb base x y.
Proof.
  intros [Hw Hh Hp Hl Hs _ _ _] Hx Hx' Hne. rewrite pixel_bytes_length. unfold pixel_address.
  assert (Hlen : Z.of_nat (if getPixelWidth fb =? 4 then 4%nat else 3%nat) <= getPixelWidth fb)
    by (destruct (Z.eqb_spec (getPixelWidth fb) 4); lia).
  destruct (Z.lt_trichotomy y y') as [H | [-> | H]].
  - left. assert (y * _pitch fb + _pitch fb <= y' * _pitch fb) by nia. nia.
  - destruct (Z.lt_trichotomy x x') as [H | [-> | H]]; [left; nia|congruence|right; nia].
  - right. assert (y' * _pitch fb + _pitch fb <= y * _pitch fb) by nia. nia.
Qed.

Lemma component_run c s : 0 <= s < 32 -> component c s = Done (Z.land (Z.shiftr c s) 0xff).
Proof. intros H. unfold component. destruct (Z.ltb_spec s 32); [done|lia]. Qed.

Lemma component_read c s (g : graphics) : 0 <= s < 32 ->
  kread (fun _ => component c s) g = Done (Z.land (Z.shiftr c s) 0xff, g).
Proof. intros H. unfold kread. by rewrite component_run. Qed.

Lemma on_store_run p b g : is_Some (mem g !! p) ->
  on_memory (store p b) g = Done (tt, set_mem (<[p := b]> (mem g)) g).
Proof. intros H. unfold on_memory, kzoom. by rewrite store_run. Qed.

Lemma kread_done {S A} (f : S -> outcome A) s a : f s = Done a -> kread f s = Done (a, s).
Proof. intros E. unfold kread. by rewrite E. Qed.

Lemma put_snoc p l b m : put p (l ++ [b]) m = <[p + Z.of_nat (length l) := b]> (put p l m).
Proof.
  revert p m. induction l as [|c l IH]; intros p m; cbn [put app length]; [by rewrite Z.add_0_r|].
  rewrite IH. by replace (p + 1 + Z.of_nat (length l)) with (p + Z.of_nat (S (length l))) by lia.
Qed.

(** One more byte after those that are there. *)
Lemma on_store_next p l l' b q g : l' = l ++ [b] -> is_Some (mem g !! q) -> q = p + Z.of_nat (length l) ->
  on_memory (store q b) (set_mem (put p l (mem g)) g) = Done (tt, set_mem (put p l' (mem g)) g).
Proof. intros -> Hs ->. rewrite on_store_run by (by apply put_mapped). by rewrite put_snoc. Qed.

Lemma on_store_first p b g : is_Some (mem g !! p) ->
  on_memory (store p b) g = Done (tt, set_mem (put p [b] (mem g)) g).
Proof. intros Hs. by rewrite on_store_run. Qed.

(** [pixel] at any place that its check lets through, the memory being there. *)
Lemma pixel_put fb g x y color : initialized g = true -> info g = Some fb -> mode_ok fb ->
  x <= _width fb -> y <= _height fb ->
  mapped (mem g) (backbuffer g + u32 (y * _pitch fb) + u32 (x * getPixelWidth fb)) (if getPixelWidth fb =? 4 then 4 else 3) ->
  pixel x y color g =
  Done (tt, set_mem (put (backbuffer g + u32 (y * _pitch fb) + u32 (x * getPixelWidth fb)) (pixel_bytes fb color) (mem g)) g).
Proof.
  intros Hi Ho Hm Hx Hy Hmap. unfold pixel.
  rewrite (run_bind_done _ _ g true g) by (unfold kgets; by rewrite Hi). cbn [negb].
  rewrite (run_bind_done _ _ g fb g) by (unfold the_info; apply kread_done; by rewrite Ho).
  destruct (Z.leb_spec x (_width fb)); [|lia]. destruct (Z.leb_spec y (_height fb)); [|lia]. cbn [andb].
  rewrite (run_bind_done _ _ g (backbuffer g) g) by done. cbv zeta.
  remember (backbuffer g + u32 (y * _pitch fb) + u32 (x * getPixelWidth fb)) as p eqn:Ep.
  assert (Hmap3 : forall a, p <= a < p + 3 -> is_Some (mem g !! a)).
  { intros a Ha. apply Hmap. destruct (getPixelWidth fb =? 4); lia. }
  destruct Hm as [_ _ _ _ _ Sb Sg Sr].
  rewrite (run_bind_done _ _ _ _ _ (component_read _ _ _ Sb)).
  rewrite (run_bind_done _ _ _ _ _ (on_store_first p _ g (Hmap3 p ltac:(lia)))).
  rewrite (run_bind_done _ _ _ _ _ (component_read _ _ _ Sg)).
  rewrite (run_bind_done _ _ _ _ _ (on_store_next p [_] [_; _] _ (p + 1) g eq_refl (Hmap3 (p + 1) ltac:(lia)) ltac:(cbn; lia))).
  rewrite (run_bind_done _ _ _ _ _ (component_read _ _ _ Sr)).
  rewrite (run_bind_done _ _ _ _ _ (on_store_next p [_; _] [_; _; _] _ (p + 2) g eq_refl (Hmap3 (p + 2) ltac:(lia)) ltac:(cbn; lia))).
  unfold kwhen, pixel_bytes. destruct (getPixelWidth fb =? 4) eqn:E4; [|done].
  apply (on_store_next p [_; _; _] [_; _; _; _] _ (p + 3) g); [done|apply Hmap; lia|cbn; lia].
Qed.

(** [pixel] inside the screen. *)
Lemma pixel_run fb g x y color : ready fb g -> 0 <= x < _width fb -> 0 <= y < _height fb ->
  pixel x y color g =
  Done (tt, set_mem (put (pixel_address fb (backbuffer g) x y) (pixel_bytes fb color) (mem g)) g).
Proof.
  intros [Hi Ho Hm Hb] Hx Hy. destruct (pixel_place fb (backbuffer g) x y Hm Hx Hy) as (H0 & H1 & E).
  rewrite E. unfold pixel_address in E. rewrite pixel_bytes_length in H1. apply pixel_put; [done..|lia|lia|].
  intros a Ha. apply Hb. destruct (getPixelWidth fb =? 4); lia.
Qed.

Lemma painted_refl fb g f : shows fb g f -> painted fb g f g.
Proof. intros Hs. by split; [destruct g| |..]. Qed.

Lemma painted_ready fb g f g' : ready fb g -> painted fb g f g' -> ready fb g'.
Proof.
  intros [Hi Ho Hm Hb] [Hst _ Hmap _]. rewrite Hst. split; try done.
  intros a Ha. cbn in *. by apply Hmap, Hb.
Qed.

Lemma painted_ext fb g f f' g' : painted fb g f g' ->
  (forall x y, 0 <= x < _width fb -> 0 <= y < _height fb -> f' x y = f x y) -> painted fb g f' g'.
Proof. intros [Hst Hs Hm Hf] H. split; try done. intros x y Hx Hy. rewrite H by done. by apply Hs. Qed.

(** One more pixel. *)
Lemma pixel_painted fb g f g1 x y color : ready fb g -> painted fb g f g1 ->
  0 <= x < _width fb -> 0 <= y < _height fb ->
  exists g2, pixel x y color g1 = Done (tt, g2) /\ painted fb g (repaint f x y (pixel_bytes fb color)) g2.
Proof.
  intros Hr Hp Hx Hy. pose proof (painted_ready _ _ _ _ Hr Hp) as Hr1.
  pose proof (ready_mode _ _ Hr) as Hmode. pose proof (painted_state _ _ _ _ Hp) as Est.
  assert (Eb : backbuffer g1 = backbuffer g) by by rewrite Est.
  rewrite (pixel_run fb g1) by done. eexists. split; [reflexivity|].
  destruct (pixel_place fb (backbuffer g) x y Hmode Hx Hy) as (H0 & H1 & _).
  assert (Hlen : forall c, length (pixel_bytes fb c) = length (pixel_bytes fb 0)) by (intros; by rewrite !pixel_bytes_length).
  rewrite Eb. destruct Hp as [_ Hs Hm Hf]. split.
  - rewrite Est. done.
  - intros px py Hpx Hpy. unfold repaint. cbn [backbuffer mem set_mem]. rewrite Eb.
    destruct (Hs px py Hpx Hpy) as [Hl Hb]. rewrite Eb in Hb.
    destruct (Z.eqb_spec px x) as [->|Hnx]; [destruct (Z.eqb_spec py y) as [->|Hny]|]; cbn [andb].
    + split; [apply Hlen|apply put_bytes].
    + split; [done|]. apply (bytes_ext (mem g1)); [|done]. intros a Ha. apply put_out. rewrite Hlen. rewrite Hl in Ha.
      destruct (pixel_apart fb (backbuffer g) x y x py Hmode Hx Hpx ltac:(congruence)); lia.
    + split; [done|]. apply (bytes_ext (mem g1)); [|done]. intros a Ha. apply put_out. rewrite Hlen. rewrite Hl in Ha.
      destruct (pixel_apart fb (backbuffer g) x y px py Hmode Hx Hpx ltac:(congruence)); lia.
  - intros a Ha. cbn [mem set_mem]. by apply put_mapped, Hm.
  - intros a Ha. cbn [mem set_mem]. rewrite put_out; [by apply Hf|]. rewrite Hlen. unfold pixel_address. lia.
Qed.

(** A bit of a glyph; the ninth row and column belong to no glyph. *)
Definition glyph (c px py : Z) : bool :=
  (px <? 8) && (py <? 8) && Z.testbit (nth (Z.to_nat py) (nth (Z.to_nat c) Font.fontData []) 0) px.

Lemma in_glyph_run c px py : 0 <= c < 128 -> 0 <= px < 9 -> 0 <= py < 9 ->
  Font.in_glyph c py px = Done (glyph c px py).
Proof.
  intros Hc Hx Hy. unfold Font.in_glyph, glyph, Font.FONT_WIDTH, Font.FONT_HEIGHT.
  destruct (Z.eqb_spec px 8), (Z.ltb_spec px 8); try lia; [done|].
  destruct (Z.eqb_spec py 8), (Z.ltb_spec py 8); try lia; [done|]. cbn [negb andb].
  unfold Font.glyph_bit.
  destruct (lookup_lt_is_Some_2 Font.fontData (Z.to_nat c)) as [row Erow]; [change (length Font.fontData) with 128%nat; lia|].
  assert (Hrow : length row = 8%nat).
  { assert (Hall : forallb (fun r => Nat.eqb (length r) 8) Font.fontData = true) by reflexivity.
    rewrite forallb_forall in Hall. apply Nat.eqb_eq, Hall, list_elem_of_In, list_elem_of_lookup. by exists (Z.to_nat c). }
  destruct (lookup_lt_is_Some_2 row (Z.to_nat py)) as [b Eb]; [lia|].
  rewrite Erow, Eb. rewrite (nth_lookup_Some _ _ [] _ Erow), (nth_lookup_Some _ _ 0 _ Eb).
  by rewrite Z.shiftl_1_l, land_pow2, negb_involutive by lia.
Qed.

(** The picture with the character [c] at column [x] and line [y]: nine pixels
    by nine. *)
Definition draw_character (fb : Framebuffer) (f : picture) (c x y fore back : Z) : picture := fun px py =>
  if (8 * x <=? px) && (px <? 8 * x + 9) && (8 * y <=? py) && (py <? 8 * y + 9)
  then pixel_bytes fb (if glyph c (px - 8 * x) (py - 8 * y) then fore else back)
  else f px py.

(** The picture after [fy] full lines of the block and [k] pixels of the next. *)
Definition draw_partly (fb : Framebuffer) (f : picture) (c X Y fore back fy k : Z) : picture := fun px py =>
  if (X <=? px) && (px <? X + 9) && (Y <=? py) && ((py <? Y + fy) || (py =? Y + fy) && (px <? X + k))
  then pixel_bytes fb (if glyph c (px - X) (py - Y) then fore else back)
  else f px py.

Lemma draw_partly_step fb f c X Y fore back fy k px py : 0 <= k < 9 -> 0 <= fy ->
  draw_partly fb f c X Y fore back fy (k + 1) px py =
  repaint (draw_partly fb f c X Y fore back fy k) (X + k) (Y + fy)
    (pixel_bytes fb (if glyph c k fy then fore else back)) px py.
Proof.
  intros Hk Hy. unfold draw_partly, repaint.
  destruct (Z.eqb_spec px (X + k)) as [->|]; [destruct (Z.eqb_spec py (Y + fy)) as [->|]|]; cbn [andb].
  - replace (X + k - X) with k by lia. replace (Y + fy - Y) with fy by lia. decide_ranges.
    by rewrite orb_true_r.
  - done.
  - destruct (Z.ltb_spec px (X + (k + 1))), (Z.ltb_spec px (X + k)); try lia; done.
Qed.

(** A full line. *)
Lemma draw_partly_line fb f c X Y fore back fy px py : 0 <= fy ->
  draw_partly fb f c X Y fore back (fy + 1) 0 px py = draw_partly fb f c X Y fore back fy 9 px py.
Proof.
  intros Hy. unfold draw_partly.
  destruct (Z.eqb_spec py (Y + fy)), (Z.eqb_spec py (Y + (fy + 1))), (Z.ltb_spec py (Y + (fy + 1))),
    (Z.ltb_spec py (Y + fy)); try lia; cbn [orb andb]; try done; decide_ranges; done.
Qed.

Section drawing.
Context (fb : Framebuffer) (g : graphics) (f : picture) (c x y fore back : Z).
Context (Hr : ready fb g) (Hs : shows fb g f) (Hc : 0 <= c < 128).
Context (Hx : 0 <= x /\ 8 * x + 9 <= _width fb) (Hy : 0 <= y /\ 8 * y + 9 <= _height fb).
Context (Hsmall : _width fb < 2 ^ 32 /\ _height fb < 2 ^ 32).

(** One round of the inner loop of [Draw]. *)
Lemma draw_round fy k g1 : 0 <= fy < 9 -> 0 <= k < 9 ->
  painted fb g (draw_partly fb f c (8 * x) (8 * y) fore back fy k) g1 ->
  exists g2,
    (bit ← kread (fun _ => Font.in_glyph c fy k) ;
     if (bit : bool) then pixel (u32 (8 * x + k)) (u32 (8 * y + fy)) fore
     else pixel (u32 (8 * x + k)) (u32 (8 * y + fy)) back) g1 = Done (tt, g2) /\
    painted fb g (draw_partly fb f c (8 * x) (8 * y) fore back fy (k + 1)) g2.
Proof.
  intros Hfy Hk Hp.
  rewrite (run_bind_done _ _ g1 (glyph c k fy) g1) by (apply kread_done; by apply in_glyph_run).
  rewrite !u32_small by (unfold in_u32; lia).
  destruct (pixel_painted fb g _ g1 (8 * x + k) (8 * y + fy) (if glyph c k fy then fore else back) Hr Hp)
    as (g2 & E & Hp2); [lia..|].
  exists g2. split; [by destruct (glyph c k fy)|]. apply (painted_ext _ _ _ _ _ Hp2).
  intros px py _ _. apply draw_partly_step; lia.
Qed.

Lemma draw_run : exists g', Font.Draw c x y fore back g = Done (tt, g') /\
  painted fb g (draw_character fb f c x y fore back) g'.
Proof.
  unfold Font.Draw. cbv zeta. unfold Font.FONT_WIDTH, Font.FONT_HEIGHT. rewrite !(u32_small (_ * 8)) by (unfold in_u32; lia).
  rewrite u8_small by lia. rewrite (Z.mul_comm x), (Z.mul_comm y).
  match goal with |- exists _, kfor 9 0 1 ?body g = _ /\ _ =>
    destruct (kfor_inv (fun fy g1 => 0 <= fy /\ painted fb g (draw_partly fb f c (8 * x) (8 * y) fore back fy 0) g1)
      9 0 1 body g) as (g' & E & _ & Hp) end.
  - split; [done|]. apply (painted_ext _ _ f); [by apply painted_refl|]. intros px py _ _. unfold draw_partly.
    destruct (Z.eqb_spec py (8 * y + 0)), (Z.ltb_spec py (8 * y + 0)); try lia; cbn [orb andb];
      decide_ranges; rewrite ?andb_false_r; done.
  - intros fy g1 Hfy [_ Hp]. replace (0 + fy * 1) with fy in * by lia. replace (0 + (fy + 1) * 1) with (fy + 1) by lia.
    match goal with |- exists _, kfor 9 0 1 ?body g1 = _ /\ _ =>
      destruct (kfor_inv (fun k g2 => painted fb g (draw_partly fb f c (8 * x) (8 * y) fore back fy k) g2)
        9 0 1 body g1 Hp) as (g2 & E & Hp2) end.
    + intros k g2 Hk Hp2. replace (0 + k * 1) with k in * by lia. replace (0 + (k + 1) * 1) with (k + 1) by lia.
      apply draw_round; [lia..|done].
    + exists g2. split; [done|]. split; [lia|]. apply (painted_ext _ _ _ _ _ Hp2). intros px py _ _.
      apply draw_partly_line. lia.
  - exists g'. split; [done|]. apply (painted_ext _ _ _ _ _ Hp). intros px py _ _.
    unfold draw_character, draw_partly. change (0 + Z.of_nat 9 * 1) with 9.
    destruct (Z.eqb_spec py (8 * y + 9)), (Z.ltb_spec py (8 * y + 9)); try lia; cbn [orb andb]; rewrite ?andb_true_r; try done.
    decide_ranges; rewrite ?andb_false_r; done.
Qed.
End drawing.

(** ** The properties *)

(** [pixel] on every branch: without a framebuffer nothing happens; inside
    the screen exactly the bytes of one pixel of the double buffer change, to
    the components of the colour; well outside nothing happens; but the column
    [x = width] is let through and is the first pixel of the next line, and the
    line [y = height] is let through and lies behind the buffer, where the
    write faults unless something else is mapped there. *)
Theorem pixel_correct fb g f x y color : ready fb g -> shows fb g f -> 0 <= x -> 0 <= y ->
  (forall g0, initialized g0 = false -> pixel x y color g0 = Done (tt, g0)) /\
  (x < _width fb -> y < _height fb ->
     exists g', pixel x y color g = Done (tt, g') /\ painted fb g (repaint f x y (pixel_bytes fb color)) g') /\
  (_width fb < x \/ _height fb < y -> pixel x y color g = Done (tt, g)) /\
  (x = _width fb -> y + 1 < _height fb -> 0 < _width fb -> _pitch fb = _width fb * getPixelWidth fb ->
     pixel x y color g = pixel 0 (y + 1) color g) /\
  (x = 0 -> y = _height fb -> mem g !! (backbuffer g + _pitch fb * _height fb) = None ->
     pixel x y color g = Fault).
Proof.
  intros Hr Hs Hx Hy. pose proof Hr as [Hi Ho Hm Hb].
  split; [|split; [|split; [|split]]].
  - intros g0 H0. unfold pixel. rewrite (run_bind_done _ _ g0 false g0) by (unfold kgets; by rewrite H0). done.
  - intros Hxw Hyh. apply (pixel_painted fb g f g); [done|by apply painted_refl|lia|lia].
  - intros Hout. unfold pixel.
    rewrite (run_bind_done _ _ g true g) by (unfold kgets; by rewrite Hi). cbn [negb].
    rewrite (run_bind_done _ _ g fb g) by (unfold the_info; apply kread_done; by rewrite Ho).
    destruct (Z.leb_spec x (_width fb)), (Z.leb_spec y (_height fb)); try lia; done.
  - intros -> Hyh Hw Hp. destruct Hm as [_ _ H3 _ Hsz _ _ _].
    assert ((y + 1) * _pitch fb + _pitch fb <= _pitch fb * _height fb) by nia.
    unfold pixel. rewrite !run_bind. unfold kgets. rewrite Hi. cbn [negb].
    rewrite !(run_bind_done _ _ g fb g) by (unfold the_info; apply kread_done; by rewrite Ho).
    destruct (Z.leb_spec (_width fb) (_width fb)), (Z.leb_spec y (_height fb)),
      (Z.leb_spec 0 (_width fb)), (Z.leb_spec (y + 1) (_height fb)); try lia. cbn [andb].
    rewrite !(u32_small) by (unfold in_u32; nia).
    rewrite !(run_bind_done _ _ g (backbuffer g) g) by done. cbv zeta.
    replace (backbuffer g + y * _pitch fb + _width fb * getPixelWidth fb)
      with (backbuffer g + (y + 1) * _pitch fb + 0 * getPixelWidth fb) by lia. done.
  - intros -> -> Hnone. destruct Hm as [Hw Hh _ _ Hsz Sb _ _]. unfold pixel.
    rewrite (run_bind_done _ _ g true g) by (unfold kgets; by rewrite Hi). cbn [negb].
    rewrite (run_bind_done _ _ g fb g) by (unfold the_info; apply kread_done; by rewrite Ho).
    destruct (Z.leb_spec 0 (_width fb)), (Z.leb_spec (_height fb) (_height fb)); try lia. cbn [andb].
    rewrite (run_bind_done _ _ g (backbuffer g) g) by done. cbv zeta.
    rewrite (run_bind_done _ _ _ _ _ (component_read _ _ _ Sb)).
    destruct (decide (0 <= _pitch fb * _height fb)) as [Hpos|Hneg].
    + rewrite (u32_small (_ * _pitch fb)), (u32_small (0 * _)) by (unfold in_u32; nia).
      rewrite run_bind. unfold on_memory, kzoom, store.
      replace (backbuffer g + _height fb * _pitch fb + 0 * getPixelWidth fb)
        with (backbuffer g + _pitch fb * _height fb) by lia. by rewrite Hnone.
    + exfalso. apply Hneg. pose proof (mode_line _ (ready_mode _ _ Hr)). pose proof (mode_pixel _ (ready_mode _ _ Hr)). nia.
Qed.

(** [Font::Draw] paints the cell of a character: for a character of the
    table and a cell inside the screen, the pixels of the glyph get the
    foreground and all others of the cell the background; so do the ninth
    column and the ninth line, which belong to the neighbouring cells, and
    nothing else changes. *)
Theorem Draw_correct fb g f c x y fore back : ready fb g -> shows fb g f -> 0 <= c < 128 ->
  0 <= x /\ 8 * x + 9 <= _width fb < 2 ^ 32 -> 0 <= y /\ 8 * y + 9 <= _height fb < 2 ^ 32 ->
  exists g', Font.Draw c x y fore back g = Done (tt, g') /\
    painted fb g (draw_character fb f c x y fore back) g'.
Proof. intros Hr Hs Hc Hx Hy. apply draw_run; [done|done|lia|lia|lia|lia]. Qed.

(** A character outside of the table is looked up behind it. *)
Theorem Draw_outside_table c x y fore back g : 128 <= c < 256 -> Font.Draw c x y fore back g = Fault.
Proof.
  intros Hc. unfold Font.Draw. cbv zeta. rewrite u8_small by lia. cbn [kfor]. rewrite run_bind. cbn [kfor].
  rewrite !run_bind. unfold kread at 1, Font.in_glyph. cbn [Z.eqb Font.FONT_WIDTH Font.FONT_HEIGHT negb andb].
  unfold Font.glyph_bit. rewrite lookup_ge_None_2; [done|]. change (length Font.fontData) with 128%nat. lia.
Qed.

Lemma on_memory_run {A} (m : K memory A) g a m' : m (mem g) = Done (a, m') -> on_memory m g = Done (a, set_mem m' g).
Proof. intros E. unfold on_memory, kzoom. by rewrite E. Qed.

Lemma buffer_size_eq fb : mode_ok fb -> 0 <= _pitch fb * _height fb -> buffer_size fb = _pitch fb * _height fb.
Proof. intros [_ _ _ _ Hs _ _ _] Hn. apply u32_small. unfold in_u32. lia. Qed.

(** The screen becomes a copy of the double buffer. *)
Lemma swap_copies fb g : ready fb g -> mapped (mem g) (_addr fb) (_pitch fb * _height fb) ->
  backbuffer g + _pitch fb * _height fb <= _addr fb \/ _addr fb + _pitch fb * _height fb <= backbuffer g ->
  exists g', swap g = Done (tt, g') /\ g' = set_mem (mem g') g /\
    (forall a, 0 <= a < _pitch fb * _height fb -> mem g' !! (_addr fb + a) = mem g !! (backbuffer g + a)) /\
    (forall a, ~ _addr fb <= a < _addr fb + _pitch fb * _height fb -> mem g' !! a = mem g !! a).
Proof.
  intros [Hi Ho Hm Hb] Hmap Hap.
  assert (Hn : 0 <= _pitch fb * _height fb).
  { destruct Hm. assert (0 <= _width fb * getPixelWidth fb) by (apply Z.mul_nonneg_nonneg; lia). apply Z.mul_nonneg_nonneg; lia. }
  destruct (memcpy_spec (mem g) (_addr fb) (backbuffer g) (_pitch fb * _height fb)) as (m' & E & Hc); [done..|lia|].
  exists (set_mem m' g). split; [|split; [done|split]].
  - unfold swap. rewrite (run_bind_done _ _ g true g) by (unfold kgets; by rewrite Hi). cbn [negb].
    rewrite (run_bind_done _ _ g fb g) by (unfold the_info; apply kread_done; by rewrite Ho).
    rewrite (run_bind_done _ _ g (backbuffer g) g) by done. rewrite buffer_size_eq by done.
    by rewrite (run_bind_done _ _ _ _ _ (on_memory_run _ _ _ _ E)).
  - intros a Hin. cbn. rewrite Hc. decide_ranges. by replace (backbuffer g + (_addr fb + a - _addr fb)) with (backbuffer g + a) by lia.
  - intros a Hout. cbn. rewrite Hc. by decide_ranges.
Qed.

(** The double buffer becomes zero. *)
Lemma resetDoubleBuffer_blanks fb g : ready fb g -> 0 <= _pitch fb * _height fb ->
  exists g', resetDoubleBuffer g = Done (tt, g') /\ g' = set_mem (mem g') g /\
    forall a, mem g' !! a = if (backbuffer g <=? a) && (a <? backbuffer g + _pitch fb * _height fb) then Some 0 else mem g !! a.
Proof.
  intros [Hi Ho Hm Hb] Hn. destruct (memset_spec (mem g) (backbuffer g) 0 (_pitch fb * _height fb)) as (m' & E & Hc); [done..|].
  exists (set_mem m' g). split; [|done].
  unfold resetDoubleBuffer. rewrite (run_bind_done _ _ g true g) by (unfold kgets; by rewrite Hi). cbn [negb].
  rewrite (run_bind_done _ _ g fb g) by (unfold the_info; apply kread_done; by rewrite Ho).
  rewrite (run_bind_done _ _ g (backbuffer g) g) by done. rewrite buffer_size_eq by done.
  by rewrite (run_bind_done _ _ _ _ _ (on_memory_run _ _ _ _ E)).
Qed.

(** [init] leaves a double buffer that shows what the screen shows. *)
Lemma init_ready malloc fb g b m1 :
  let n := _pitch fb * _height fb in
  mode_ok fb -> _addr fb <> 0 -> 0 <= n -> mapped (mem g) (_addr fb) n ->
  malloc n (mem g) = Done (b, m1) -> mapped m1 b n ->
  (forall a, is_Some (mem g !! a) -> m1 !! a = mem g !! a) ->
  b + n <= _addr fb \/ _addr fb + n <= b ->
  exists g1, init malloc (Some fb) g = Done (tt, g1) /\ ready fb g1 /\ backbuffer g1 = b /\
    mapped (mem g1) (_addr fb) n /\
    (forall a, 0 <= a < n -> mem g1 !! (b + a) = mem g !! (_addr fb + a)) /\
    requests g1 = requests g ++ [(_addr fb, n)].
Proof.
  intros n Hm Ha Hn Hmap Em Hb1 Hold Hap.
  assert (Hsize : buffer_size fb = n) by by apply buffer_size_eq.
  assert (Hmap1 : mapped m1 (_addr fb) n) by (intros a Hin; rewrite Hold by (by apply Hmap); by apply Hmap).
  destruct (memcpy_spec m1 b (_addr fb) n) as (m2 & E2 & Hcp); [done..|lia|].
  exists (mkG m2 (Some fb) b true (requests g ++ [(_addr fb, n)])).
  assert (Hready : ready fb (mkG m2 (Some fb) b true (requests g ++ [(_addr fb, n)]))).
  { split; try done. intros a Hin. cbn in *. rewrite Hcp. destruct (Z.leb_spec b a), (Z.ltb_spec a (b + n)); try lia.
    cbn. apply Hmap1. lia. }
  split; [|split; [done|split; [done|split; [|split; [|done]]]]].
  - unfold init. rewrite (run_bind_done _ _ g tt (mkG (mem g) (Some fb) (backbuffer g) (initialized g) (requests g)) eq_refl).
    destruct (Z.eqb_spec (_addr fb) 0); [done|]. rewrite Hsize.
    erewrite run_bind_done; [|reflexivity]. erewrite run_bind_done; [|apply on_memory_run; exact Em].
    erewrite run_bind_done; [|reflexivity]. erewrite run_bind_done; [|apply on_memory_run; exact E2]. done.
  - intros a Hin. cbn. rewrite Hcp. destruct (Z.leb_spec b a), (Z.ltb_spec a (b + n)); try lia; cbn; by apply Hmap1.
  - intros a Hin. cbn. rewrite Hcp. destruct (Z.leb_spec b (b + a)), (Z.ltb_spec (b + a) (b + n)); try lia. cbn.
    replace (_addr fb + (b + a - b)) with (_addr fb + a) by lia. apply Hold, Hmap. lia.
Qed.

(** Double buffering: with an allocator that returns a block apart from
    the framebuffer, [init] leaves a double buffer that shows what the screen
    shows; drawing is not seen on the screen until [swap], which makes the
    screen a copy of the double buffer; [resetDoubleBuffer] blanks the double
    buffer only. *)
Theorem double_buffering malloc fb g b m1 :
  let n := _pitch fb * _height fb in
  mode_ok fb -> _addr fb <> 0 -> 0 <= n -> mapped (mem g) (_addr fb) n ->
  malloc n (mem g) = Done (b, m1) -> mapped m1 b n ->
  (forall a, is_Some (mem g !! a) -> m1 !! a = mem g !! a) ->
  b + n <= _addr fb \/ _addr fb + n <= b ->
  exists g1, init malloc (Some fb) g = Done (tt, g1) /\ ready fb g1 /\ backbuffer g1 = b /\
    mapped (mem g1) (_addr fb) n /\
    (forall a, 0 <= a < n -> mem g1 !! (b + a) = mem g !! (_addr fb + a)) /\
    requests g1 = requests g ++ [(_addr fb, n)] /\
    (forall g2, ready fb g2 -> backbuffer g2 = b -> mapped (mem g2) (_addr fb) n ->
       (exists g3, swap g2 = Done (tt, g3) /\
          (forall a, 0 <= a < n -> mem g3 !! (_addr fb + a) = mem g2 !! (b + a)) /\
          (forall a, ~ _addr fb <= a < _addr fb + n -> mem g3 !! a = mem g2 !! a)) /\
       (exists g3, resetDoubleBuffer g2 = Done (tt, g3) /\
          forall a, mem g3 !! a = if (b <=? a) && (a <? b + n) then Some 0 else mem g2 !! a)).
Proof.
  intros n Hm Ha Hn Hmap Em Hb1 Hold Hap.
  destruct (init_ready malloc fb g b m1 Hm Ha Hn Hmap Em Hb1 Hold Hap) as (g1 & E & Hr & Eb & Hmap1 & Hcp & Hreq).
  exists g1. do 6 (split; [done|]).
  intros g2 Hr2 Eb2 Hmap2. rewrite <- Eb2 in Hap |- *. split.
  - destruct (swap_copies fb g2 Hr2 Hmap2) as (g3 & E3 & _ & Hin & Hout); [fold n; lia|]. by exists g3.
  - destruct (resetDoubleBuffer_blanks fb g2 Hr2 Hn) as (g3 & E3 & _ & Hin). by exists g3.
Qed.

(** A buffer of zeros shows black. *)
Lemma zeros_show_black fb g : mode_ok fb ->
  (forall a, backbuffer g <= a < backbuffer g + _pitch fb * _height fb -> mem g !! a = Some 0) ->
  shows fb g (fun _ _ => replicate (length (pixel_bytes fb 0)) 0).
Proof.
  intros Hm Hz x y Hx Hy. rewrite length_replicate. split; [done|].
  destruct (pixel_place fb (backbuffer g) x y Hm Hx Hy) as (H0 & H1 & _).
  apply bytes_lookup. intros i b Hb. apply lookup_replicate in Hb as [-> Hi]. apply Hz. unfold pixel_address. lia.
Qed.

(** A screen of 20 by 20 pixels of four bytes at address 1000, and a double
    buffer at 5000. *)
Definition demo_fb : Framebuffer := mkFB 1000 20 20 32 80 8 16 8 8 8 0 RGB_FBMM.
Definition demo_block (p n b : Z) (m : memory) : memory := foldr (fun a m => <[a := b]> m) m (seqZ p n).
Definition demo_graphics : graphics :=
  mkG (demo_block 5000 1600 0 (demo_block 1000 1600 0 ∅)) (Some demo_fb) 5000 true [(1000, 1600)].
Definition demo_malloc (n : Z) : K memory Z := fun m => Done (5000, demo_block 5000 n 170 m).
Definition black : picture := fun _ _ => [0; 0; 0; 0].

Lemma demo_mode : mode_ok demo_fb.
Proof. split; vm_compute; (split; congruence) || congruence. Qed.

Lemma demo_block_in p n b m a : p <= a < p + n -> demo_block p n b m !! a = Some b.
Proof.
  intros Ha. unfold demo_block. assert (Hin : a ∈ seqZ p n) by (apply elem_of_seqZ; lia).
  induction (seqZ p n) as [|c l IH]; [by apply not_elem_of_nil in Hin|]. cbn.
  destruct (decide (c = a)) as [->|Hne]; [apply lookup_insert_eq|]. rewrite lookup_insert_ne by done.
  apply IH. apply elem_of_cons in Hin as [->|]; done.
Qed.

Lemma demo_block_out p n b m a : ~ p <= a < p + n -> demo_block p n b m !! a = m !! a.
Proof.
  intros Ha. unfold demo_block. assert (Hin : a ∉ seqZ p n) by (rewrite elem_of_seqZ; lia).
  induction (seqZ p n) as [|c l IH]; [done|]. cbn. apply not_elem_of_cons in Hin as [Hne Hin].
  rewrite lookup_insert_ne by done. by apply IH.
Qed.

Lemma demo_ready : ready demo_fb demo_graphics.
Proof.
  split; [done|done|exact demo_mode|]. intros a Ha. exists 0. unfold demo_graphics. cbn [mem].
  apply demo_block_in. exact Ha.
Qed.

Lemma demo_shows : shows demo_fb demo_graphics black.
Proof.
  apply (zeros_show_black demo_fb demo_graphics demo_mode). intros a Ha. unfold demo_graphics. cbn [mem].
  apply demo_block_in. exact Ha.
Qed.

Lemma pixel_correct_witness :
  exists g', pixel 3 2 0xFF8001 demo_graphics = Done (tt, g') /\
    painted demo_fb demo_graphics (repaint black 3 2 [1; 128; 255; 0]) g'.
Proof.
  apply (pixel_correct demo_fb demo_graphics black 3 2 0xFF8001 demo_ready demo_shows);
    vm_compute; congruence.
Defined.

Lemma Draw_correct_witness :
  exists g', Font.Draw 65 1 1 0xFFFFFF 0x0000AA demo_graphics = Done (tt, g') /\
    painted demo_fb demo_graphics (draw_character demo_fb black 65 1 1 0xFFFFFF 0x0000AA) g'.
Proof.
  apply (Draw_correct demo_fb demo_graphics black); [exact demo_ready|exact demo_shows|lia|..];
    vm_compute; repeat split; congruence.
Defined.

Lemma double_buffering_witness :
  exists g1, init demo_malloc (Some demo_fb) (mkG (demo_block 1000 1600 7 ∅) None 0 false []) = Done (tt, g1) /\
    ready demo_fb g1 /\ mem g1 !! 5000 = Some 7.
Proof.
  destruct (double_buffering demo_malloc demo_fb (mkG (demo_block 1000 1600 7 ∅) None 0 false []) 5000
    (demo_block 5000 1600 170 (demo_block 1000 1600 7 ∅))) as (g1 & E & Hr & _ & _ & Hc & _ & _).
  - exact demo_mode.
  - done.
  - vm_compute. congruence.
  - intros a Ha. exists 7. apply demo_block_in. exact Ha.
  - reflexivity.
  - intros a Ha. exists 170. apply demo_block_in. exact Ha.
  - intros a Ha. apply demo_block_out. intros Hin. cbn [mem] in Ha. rewrite demo_block_out in Ha; [by destruct Ha|lia].
  - right. vm_compute. congruence.
  - exists g1. split; [exact E|]. split; [exact Hr|]. specialize (Hc 0 ltac:(vm_compute; split; congruence)).
    rewrite Z.add_0_r in Hc. rewrite Hc. cbn [mem]. apply demo_block_in. vm_compute. split; congruence.
Defined.
