(* ===== verification/Console.v ===== *)
(** * The console (Devices/Graphics/console.cpp)

    The escape sequence machine of [putchar] and the functions that write
    through it, over any display that offers drawing, blanking and swapping
    (the class [Screen]); Display.v provides one.  What a sequence of terminal
    operations means, and that writing their escape sequences does it. *)
From S2P Require Import Prelude Words KString Printf Display.
From Stdlib Require Import ZArith Lia Bool.
From stdpp Require Import base strings numbers functions gmap list.
#[local] Open Scope Z_scope.

(** What the console needs of the display and of the logger. *)
Class Screen (G : Type) := {
  screen_draw : Z -> Z -> Z -> Z -> Z -> K G unit;
  screen_reset : K G unit;
  screen_swap : K G unit;
  screen_debug : string -> K G unit
}.

Definition ESC : Z := 27.
Definition TAB_WIDTH : Z := 4.
Definition VGA_Black : Z := 0x000000.
Definition VGA_White : Z := 0xFFFFFF.

(** [ansiVGATable]. *)
Definition ansiVGATable : list Z := [
  0x000000; 0xAA0000; 0x00AA00; 0xAA5500; 0x0000AA; 0xAA00AA; 0x00AAAA; 0xAAAAAA; 0x555555; 0xFF5555;
  0x55FF55; 0xFFFF55; 0x5555FF; 0xFF55FF; 0x55FFFF; 0xFFFFFF ].

(** The codes of [ansiColor]. *)
Definition Background : Z := 10.
Definition Black : Z := 30.
Definition White : Z := 37.
Definition BrightBlack : Z := 90.
Definition BrightWhite : Z := 97.

Inductive ansiStateType := Normal | Esc | Bracket | Value.
#[export] Instance ansiStateType_eq_dec : EqDecision ansiStateType.
Proof. solve_decision. Defined.

(** The static variables of the file, in groups. *)
Record cursor := mkCursor { cursorX : Z; cursorY : Z }.
Record colors := mkColors { colorBack : Z; colorFore : Z; resetBack : Z; resetFore : Z }.
Record ansi := mkAnsi { ansiVal : Z; ansiValuesIdx : Z; ansiValues : list Z; ansiState : ansiStateType }.
Record tty := mkTty { at_ : cursor; paint : colors; esc : ansi; saved : cursor; locked : bool }.

Definition initial_tty : tty :=
  mkTty (mkCursor 0 0) (mkColors VGA_Black VGA_White VGA_Black VGA_White)
    (mkAnsi 0 0 (replicate 8 0) Normal) (mkCursor 0 0) false.

Definition set_cursor (c : cursor) (t : tty) : tty := mkTty c (paint t) (esc t) (saved t) (locked t).
Definition set_colors (p : colors) (t : tty) : tty := mkTty (at_ t) p (esc t) (saved t) (locked t).
Definition set_ansi (a : ansi) (t : tty) : tty := mkTty (at_ t) (paint t) a (saved t) (locked t).
Definition set_saved (c : cursor) (t : tty) : tty := mkTty (at_ t) (paint t) (esc t) c (locked t).
Definition set_locked (b : bool) (t : tty) : tty := mkTty (at_ t) (paint t) (esc t) (saved t) b.
Definition set_val (v : Z) (a : ansi) : ansi := mkAnsi v (ansiValuesIdx a) (ansiValues a) (ansiState a).
Definition set_idx (i : Z) (a : ansi) : ansi := mkAnsi (ansiVal a) i (ansiValues a) (ansiState a).
Definition set_state (st : ansiStateType) (a : ansi) : ansi := mkAnsi (ansiVal a) (ansiValuesIdx a) (ansiValues a) st.

(** [PUSH_VAL] and [POP_VAL]: an index out of the eight values is undefined. *)
Definition value_at (i : Z) (vals : list Z) : option Z := if i <? 8 then vals !! Z.to_nat i else None.
Definition PUSH_VAL (v : Z) (a : ansi) : outcome ansi :=
  match value_at (ansiValuesIdx a) (ansiValues a) with
  | Some _ => Done (mkAnsi (ansiVal a) (u32 (ansiValuesIdx a + 1)) (<[Z.to_nat (ansiValuesIdx a) := v]> (ansiValues a)) (ansiState a))
  | None => Fault
  end.
Definition POP_VAL (a : ansi) : outcome (Z * ansi) :=
  let i := u32 (ansiValuesIdx a - 1) in
  match value_at i (ansiValues a) with
  | Some v => Done (v, set_idx i a)
  | None => Fault
  end.

(** The effect of one code of [ESC[...m]. *)
Definition table_color (n : Z) : Z := nth (Z.to_nat n) ansiVGATable 0.
Definition set_attribute (v : Z) (p : colors) : colors :=
  if v =? 0 then mkColors (resetBack p) (resetFore p) (resetBack p) (resetFore p)
  else if (Black <=? v) && (v <=? White) then
    mkColors (colorBack p) (table_color (v - Black)) (resetBack p) (resetFore p)
  else if (Black + Background <=? v) && (v <=? White + Background) then
    mkColors (table_color (v - (Black + Background))) (colorFore p) (resetBack p) (resetFore p)
  else if (BrightBlack <=? v) && (v <=? BrightWhite) then
    mkColors (colorBack p) (table_color (v - BrightBlack + 8)) (resetBack p) (resetFore p)
  else if (BrightBlack + Background <=? v) && (v <=? BrightWhite + Background) then
    mkColors (table_color (v - (BrightBlack + Background) + 8)) (colorFore p) (resetBack p) (resetFore p)
  else p.

(** [while (ansiValuesIdx > 0)], [fuel] being the index. *)
Fixpoint attributes (fuel : nat) (t : tty) : outcome tty :=
  match fuel with
  | O => Done t
  | S fuel' =>
      '(v, a) ← POP_VAL (esc t) ;
      attributes fuel' (set_colors (set_attribute v (paint t)) (set_ansi (set_val v a) t))
  end.

(** How the machine leaves its switch: [break], or [goto] one of the labels. *)
Inductive exit := Break | End_ | Normal_ | Error_.

Definition is_digit_char (c : Z) : bool := (48 <=? c) && (c <=? 57).

Section console.
Context {G : Type} `{Screen G}.

Definition tget {A} (f : tty -> A) : K (tty * G) A := kgets (fun s => f s.1).
Definition tmodify (f : tty -> tty) : K (tty * G) unit := kmodify (fun s => (f s.1, s.2)).
Definition tread (f : tty -> outcome tty) : K (tty * G) unit := fun s =>
  match f s.1 with
  | Done t => Done (tt, (t, s.2))
  | Panic msg => Panic msg
  | Fault => Fault
  | Stuck => Stuck
  end.
Definition screen {A} (m : K G A) : K (tty * G) A := kzoom snd (fun g s => (s.1, g)) m.
Definition on_ansi (f : ansi -> ansi) : K (tty * G) unit := tmodify (fun t => set_ansi (f (esc t)) t).
Definition push (v : Z) : K (tty * G) unit :=
  tread (fun t => a ← PUSH_VAL v (esc t) ; Done (set_ansi a t)).
Definition pop : K (tty * G) Z := fun s =>
  match POP_VAL (esc s.1) with
  | Done (v, a) => Done (v, (set_ansi a s.1, s.2))
  | Panic msg => Panic msg
  | Fault => Fault
  | Stuck => Stuck
  end.

(** [case Value]. *)
Definition in_value (c : Z) : K (tty * G) exit :=
  v ← tget (fun t => ansiVal (esc t)) ;
  if c =? 59 (* ; *) then
    push v ;; on_ansi (fun a => set_val 0 (set_state Bracket a)) ;; mret End_
  else if c =? 109 (* m *) then
    push v ;; tread (fun t => attributes (Z.to_nat (ansiValuesIdx (esc t))) t) ;; mret Normal_
  else if (c =? 72) || (c =? 102) (* H, f *) then
    push v ;;
    idx ← tget (fun t => ansiValuesIdx (esc t)) ;
    if idx >? 2 then mret Error_ else
    x ← pop ;
    tmodify (fun t => set_cursor (mkCursor (u8 x) (cursorY (at_ t))) t) ;;
    y ← pop ;
    tmodify (fun t => set_cursor (mkCursor (cursorX (at_ t)) (u8 y)) t) ;;
    mret Normal_
  else if c =? 74 (* J *) then
    if negb (v =? 2) then mret Error_ else
    screen (screen_debug "Clearing screen") ;; screen screen_reset ;; screen screen_swap ;; mret End_
  else if is_digit_char c then
    on_ansi (set_val (u16 (v * 10 + u16 (c - 48)))) ;; mret End_
  else mret Break.

(** The switch on [ansiState]. *)
Definition machine (c : Z) : K (tty * G) exit :=
  st ← tget (fun t => ansiState (esc t)) ;
  match (st : ansiStateType) with
  | Normal => if negb (c =? ESC) then mret Break else on_ansi (set_state Esc) ;; mret End_
  | Esc => if negb (c =? 91) then mret Break else on_ansi (set_state Bracket) ;; mret End_
  | Bracket =>
      if is_digit_char c then on_ansi (fun a => set_state Value (set_val (u16 (c - 48)) a)) ;; mret End_
      else if c =? 115 (* s *) then tmodify (fun t => set_saved (at_ t) t) ;; mret Normal_
      else if c =? 117 (* u *) then
        tmodify (fun t => set_cursor (mkCursor (u8 (cursorX (saved t))) (u8 (cursorY (saved t)))) t) ;; mret Normal_
      else mret Break
  | Value => in_value c
  end.

(** [while (++cursorX % TAB_WIDTH);]: at most four rounds, in a [uint8_t]. *)
Fixpoint tab_loop (fuel : nat) (x : Z) : Z :=
  let x := u8 (x + 1) in
  if x mod TAB_WIDTH =? 0 then x else match fuel with O => x | S fuel' => tab_loop fuel' x end.

(** The switch on the character. *)
Definition print_char (c : Z) : K (tty * G) unit :=
  p ← tget at_ ;
  if c =? 8 then kwhen (cursorX p >? 0) (tmodify (set_cursor (mkCursor (u8 (cursorX p - 1)) (cursorY p))))
  else if c =? 10 then tmodify (set_cursor (mkCursor 0 (u8 (cursorY p + 1))))
  else if c =? 9 then tmodify (set_cursor (mkCursor (tab_loop 3 (cursorX p)) (cursorY p)))
  else if c =? 13 then tmodify (set_cursor (mkCursor 0 (cursorY p)))
  else
    k ← tget paint ;
    tmodify (set_cursor (mkCursor (u8 (cursorX p + 1)) (cursorY p))) ;;
    screen (screen_draw c (cursorX p) (cursorY p) (colorFore k) (colorBack k)).

(** The two corrections of the cursor. *)
Definition wrap_line : K (tty * G) unit :=
  p ← tget at_ ;
  kwhen (cursorX p >=? 80)
    (screen (screen_debug "Move to the next line") ;;
     tmodify (set_cursor (mkCursor 0 (u8 (cursorY p + 1))))).
Definition last_line : K (tty * G) unit :=
  p ← tget at_ ;
  kwhen (cursorY p >=? 25)
    (screen (screen_debug "Shift up the screen") ;;
     tmodify (set_cursor (mkCursor 0 (25 - 1)))).

Definition putchar (c : Z) : K (tty * G) Z :=
  e ← machine c ;
  match (e : exit) with
  | Break => on_ansi (set_state Normal) ;; print_char c ;; wrap_line ;; last_line ;; mret 0
  | Error_ => on_ansi (fun a => set_val 0 (set_state Normal (set_idx 0 a))) ;; mret (-1)
  | Normal_ => on_ansi (fun a => set_val 0 (set_state Normal a)) ;; mret 0
  | End_ => mret 0
  end.

(** A caller that finds the lock taken waits (Locking.v has the mutex itself). *)
Definition Lock : K (tty * G) unit :=
  b ← tget locked ; if (b : bool) then kstuck else tmodify (set_locked true).
Definition Unlock : K (tty * G) unit := tmodify (set_locked false).

Definition write_char (c : Z) : K (tty * G) unit := Lock ;; putchar (u32 (s8 c)) ;; Unlock.

(** [while (str[i]) putchar(str[i++], NULL);] *)
Fixpoint write_loop (fuel : nat) (p : Z) (m : memory) : K (tty * G) unit :=
  c ← kread (fun _ => load p m) ;
  if c =? 0 then mret tt else
  match fuel with
  | O => kstuck
  | S fuel' => putchar (u32 (s8 c)) ;; write_loop fuel' (p + 1) m
  end.
Definition write (str : Z) (m : memory) : K (tty * G) unit := Lock ;; write_loop (size m) str m ;; Unlock.

(** [putchar] as the callback of [printf_helper]. *)
Definition putchar_callback (c : Z) : K (memory * (tty * G)) unit :=
  kzoom snd (fun x s => (s.1, x)) (putchar c ;; mret tt).
Definition vprintf (fmt : Z) (args : list Z) : K (memory * (tty * G)) Z :=
  kzoom snd (fun x s => (s.1, x)) Lock ;;
  retval ← printf_helper putchar_callback fmt args ;
  kzoom snd (fun x s => (s.1, x)) Unlock ;;
  mret retval.
Definition printf (fmt : Z) (args : list Z) : K (memory * (tty * G)) Z :=
  ret_val ← vprintf fmt args ;
  kzoom snd (fun x s => (s.1, x)) (screen screen_swap) ;;
  mret ret_val.

Definition reset_to (fore back : Z) : K (tty * G) unit :=
  tmodify (fun t => set_colors (mkColors back fore back fore) (set_cursor (mkCursor 0 0) t)).
Definition reset : K (tty * G) unit :=
  tmodify (fun t => set_colors (mkColors (resetBack (paint t)) (resetFore (paint t)) (resetBack (paint t)) (resetFore (paint t)))
    (set_cursor (mkCursor 0 0) t)).

End console.

(** ** Terminal operations

    What a program that writes to a terminal means, and the text it writes.
    Numbers are strings of digits, and count modulo 2^16. *)
Inductive op :=
  | Put (c : Z)                        (* a visible character *)
  | Newline | Tab | Return | Backspace
  | Attributes (codes : list (list Z)) (* ESC [ n ; ... ; n m *)
  | MoveTo (final : Z) (line column : list Z) (* ESC [ line ; column H or f *)
  | Save | Restore.

Fixpoint separated (l : list (list Z)) : list Z :=
  match l with
  | [] => []
  | [ds] => ds
  | ds :: l' => ds ++ 59 :: separated l'
  end.

Definition op_text (o : op) : list Z :=
  match o with
  | Put c => [c]
  | Newline => [10] | Tab => [9] | Return => [13] | Backspace => [8]
  | Attributes codes => [ESC; 91] ++ separated codes ++ [109]
  | MoveTo final line column => [ESC; 91] ++ separated [line; column] ++ [final]
  | Save => [ESC; 91; 115]
  | Restore => [ESC; 91; 117]
  end.

Definition number (ds : list Z) : Prop := ds <> [] /\ Forall is_digit ds.
Definition op_ok (o : op) : Prop :=
  match o with
  | Put c => 0 < c < 128 /\ c ∉ [8; 9; 10; 13; ESC]
  | Attributes codes => (1 <= length codes <= 8)%nat /\ Forall number codes
  | MoveTo final line column => (final = 72 \/ final = 102) /\ number line /\ number column
  | _ => True
  end.

(** The screen the operations act on: position, colours, saved position. *)
Record terminal := mkTerminal { position : cursor; palette : colors; mark : cursor }.

(** The last column continues on the next line, and text below the last line
    goes on in the last line. *)
Definition settle (p : cursor) : cursor :=
  let p := if cursorX p >=? 80 then mkCursor 0 (u8 (cursorY p + 1)) else p in
  if cursorY p >=? 25 then mkCursor 0 24 else p.
Definition go_to (p : cursor) (t : terminal) : terminal := mkTerminal (settle p) (palette t) (mark t).

(** A number as a [uint16_t]. *)
Definition value (ds : list Z) : Z := u16 (decimal ds).

(** What an operation does to the terminal. *)
Definition layout (o : op) (t : terminal) : terminal :=
  let x := cursorX (position t) in
  let y := cursorY (position t) in
  match o with
  | Put c => go_to (mkCursor (u8 (x + 1)) y) t
  | Newline => go_to (mkCursor 0 (u8 (y + 1))) t
  | Tab => go_to (mkCursor (u8 (4 * (x / 4) + 4)) y) t
  | Return => go_to (mkCursor 0 y) t
  | Backspace => go_to (if x >? 0 then mkCursor (u8 (x - 1)) y else position t) t
  | Attributes codes => mkTerminal (position t) (foldr (fun ds => set_attribute (value ds)) (palette t) codes) (mark t)
  | MoveTo _ line column => mkTerminal (mkCursor (u8 (value column)) (u8 (value line))) (palette t) (mark t)
  | Save => mkTerminal (position t) (palette t) (position t)
  | Restore => mkTerminal (mkCursor (u8 (cursorX (mark t))) (u8 (cursorY (mark t)))) (palette t) (mark t)
  end.

Section operations.
Context {G : Type} `{Screen G}.

(** A visible character is drawn; nothing else touches the display. *)
Definition do_op (o : op) (t : terminal) : K G terminal :=
  match o with
  | Put c => screen_draw c (cursorX (position t)) (cursorY (position t)) (colorFore (palette t)) (colorBack (palette t))
  | _ => mret tt
  end ;;
  mret (layout o t).
Fixpoint do_ops (l : list op) (t : terminal) : K G terminal :=
  match l with [] => mret t | o :: l' => t ← do_op o t ; do_ops l' t end.

(** The characters of a text, one [putchar] each. *)
Fixpoint feed (l : list Z) : K (tty * G) unit :=
  match l with [] => mret tt | c :: l' => putchar c ;; feed l' end.

(** The machine waits for the next character with no value stored. *)
Record at_rest (t : tty) : Prop := {
  rest_state : ansiState (esc t) = Normal;
  rest_idx : ansiValuesIdx (esc t) = 0;
  rest_values : length (ansiValues (esc t)) = 8%nat
}.
Definition view (t : tty) : terminal := mkTerminal (at_ t) (paint t) (saved t).
(** [t'] shows [v], otherwise unchanged. *)
Record becomes (t t' : tty) (v : terminal) : Prop := {
  becomes_view : view t' = v;
  becomes_rest : at_rest t';
  becomes_locked : locked t' = locked t
}.

Lemma feed_app l1 l2 s s1 : feed l1 s = Done (tt, s1) -> feed (l1 ++ l2) s = feed l2 s1.
Proof.
  revert s. induction l1 as [|c l1 IH]; intros s E; cbn [feed app] in *; [by injection E as ->|].
  rewrite !run_bind in *. destruct (putchar c s) as [[r s']| | |]; try discriminate E. by apply IH.
Qed.

Lemma feed_cons c l s r s1 : putchar c s = Done (r, s1) -> feed (c :: l) s = feed l s1.
Proof. intros E. cbn [feed]. by rewrite (run_bind_done _ _ _ _ _ E). Qed.

(** A tab stops at the next multiple of four. *)
Lemma tab_stop x : 0 <= x < 256 -> tab_loop 3 x = u8 (4 * (x / 4) + 4).
Proof.
  intros Hx. unfold tab_loop, TAB_WIDTH, u8, wrap. change (2 ^ 8) with 256.
  repeat (match goal with |- context [?a =? 0] => destruct (Z.eqb_spec a 0) end);
    Z.to_euclidean_division_equations; lia.
Qed.

(** ** Escape sequences, one piece at a time *)

Definition with_ansi (v i : Z) (vals : list Z) (st : ansiStateType) (t : tty) : tty :=
  set_ansi (mkAnsi v i vals st) t.

(** Run the machine on a character in a known state. *)
Ltac crun :=
  cbv [putchar machine in_value tget tread tmodify kgets kmodify mbind K_bind mret K_ret push on_ansi
       outcome_bind with_ansi set_ansi set_val set_state set_idx esc ansiState ansiVal ansiValuesIdx ansiValues fst snd].

Lemma feed_escape t g : at_rest t ->
  feed [ESC; 91] (t, g) = Done (tt, (with_ansi (ansiVal (esc t)) 0 (ansiValues (esc t)) Bracket t, g)).
Proof. destruct t as [c p [v i vals st] sv lk]. intros [Est Ei _]. cbn in *. by subst. Qed.

Lemma digit_char d : is_digit d -> is_digit_char d = true.
Proof. unfold is_digit, is_digit_char, ch_0. intros Hd. by decide_ranges. Qed.

Lemma digit_not d c : is_digit d -> c < 48 \/ 57 < c -> (d =? c) = false.
Proof. unfold is_digit, ch_0. intros Hd Hc. apply Z.eqb_neq. lia. Qed.

Lemma first_digit v i vals t g d : is_digit d ->
  putchar d (with_ansi v i vals Bracket t, g) = Done (0, (with_ansi (u16 (d - 48)) i vals Value t, g)).
Proof.
  intros Hd. crun. by rewrite digit_char.
Qed.

Lemma next_digit v i vals t g d : is_digit d ->
  putchar d (with_ansi v i vals Value t, g) = Done (0, (with_ansi (u16 (v * 10 + (d - 48))) i vals Value t, g)).
Proof.
  intros Hd. crun. rewrite !(digit_not d) by (done || lia). cbn [orb]. rewrite digit_char by done.
  assert (E : u16 (v * 10 + u16 (d - 48)) = u16 (v * 10 + (d - 48))) by (unfold u16, wrap; apply Zplus_mod_idemp_r).
  by rewrite E.
Qed.

Lemma digits_fed ds i vals t g : forall ds0, Forall is_digit ds ->
  feed ds (with_ansi (value ds0) i vals Value t, g) =
  Done (tt, (with_ansi (value (ds0 ++ ds)) i vals Value t, g)).
Proof.
  induction ds as [|d ds IH]; intros ds0 Hd; [by rewrite app_nil_r|]. inversion_clear Hd as [|? ? Hd1 Hd2].
  rewrite (feed_cons _ _ _ _ _ (next_digit _ _ _ _ _ _ Hd1)).
  assert (E : u16 (value ds0 * 10 + (d - 48)) = value (ds0 ++ [d])).
  { unfold value. rewrite decimal_snoc. unfold u16, wrap, ch_0. rewrite <- Zplus_mod_idemp_l, Zmult_mod_idemp_l, Zplus_mod_idemp_l.
    f_equal. lia. }
  rewrite E, IH by done. by rewrite <- app_assoc.
Qed.

Lemma number_fed ds v i vals t g : number ds ->
  feed ds (with_ansi v i vals Bracket t, g) = Done (tt, (with_ansi (value ds) i vals Value t, g)).
Proof.
  intros [Hne Hd]. destruct ds as [|d ds]; [done|]. inversion_clear Hd as [|? ? Hd1 Hd2].
  rewrite (feed_cons _ _ _ _ _ (first_digit _ _ _ _ _ _ Hd1)).
  change (u16 (d - 48)) with (value [d]). by rewrite digits_fed.
Qed.

(** The stack of values below the index. *)
Definition stacked (i : Z) (vals st : list Z) : Prop :=
  i = Z.of_nat (length st) /\ take (length st) vals = st /\ length vals = 8%nat.

Lemma push_stacked i vals st v : stacked i vals st -> (length st < 8)%nat ->
  exists vals', (forall w cs, PUSH_VAL v (mkAnsi w i vals cs) = Done (mkAnsi w (i + 1) vals' cs)) /\
    stacked (i + 1) vals' (st ++ [v]).
Proof.
  intros (Hi & Ht & Hl) Hlt. exists (<[length st := v]> vals). split.
  - intros w cs. unfold PUSH_VAL. cbn [ansiValues ansiValuesIdx ansiVal ansiState]. rewrite Hi. unfold value_at.
    destruct (Z.ltb_spec (Z.of_nat (length st)) 8); [|lia]. rewrite Nat2Z.id.
    destruct (lookup_lt_is_Some_2 vals (length st)) as [b ->]; [lia|]. by rewrite u32_small by (unfold in_u32; lia).
  - split; [rewrite length_app; cbn; lia|]. split; [|by rewrite length_insert].
    rewrite length_app. cbn [length]. rewrite Nat.add_1_r.
    rewrite (take_S_r _ _ v) by (apply list_lookup_insert_eq; lia). f_equal.
    by rewrite take_insert_ge, Ht by lia.
Qed.

Lemma separator_fed v i vals st t g : stacked i vals st -> (length st < 8)%nat ->
  exists vals', putchar 59 (with_ansi v i vals Value t, g) = Done (0, (with_ansi 0 (i + 1) vals' Bracket t, g)) /\
    stacked (i + 1) vals' (st ++ [v]).
Proof.
  intros Hs Hlt. destruct (push_stacked i vals st v Hs Hlt) as (vals' & E & Hs'). exists vals'. split; [|done].
  crun. cbn [Z.eqb Pos.eqb]. crun. by rewrite E.
Qed.

Lemma separated_fed l : forall v i vals st t g, stacked i vals st -> (length st + length l <= 8)%nat ->
  l <> [] -> Forall number l ->
  exists i' vals' w, feed (separated l) (with_ansi v i vals Bracket t, g) =
      Done (tt, (with_ansi w i' vals' Value t, g)) /\
    exists st', stacked i' vals' st' /\ (length st' < 8)%nat /\ st' ++ [w] = st ++ (value <$> l).
Proof.
  induction l as [|ds l IH]; intros v i vals st t g Hs Hlen Hne Hok; [done|].
  inversion_clear Hok as [|? ? Hds Hok']. destruct l as [|ds' l].
  - cbn [separated]. exists i, vals, (value ds). split; [by apply number_fed|]. exists st. split; [done|].
    cbn in Hlen. split; [lia|done].
  - destruct (separator_fed (value ds) i vals st t g Hs) as (vals' & E & Hs'); [cbn in Hlen; lia|].
    destruct (IH 0 (i + 1) vals' (st ++ [value ds]) t g Hs') as (i'' & vals'' & w & E2 & st'' & Hs'' & Hl & Est);
      [rewrite length_app; cbn in *; lia|done|done|].
    exists i'', vals'', w. split.
    + change (separated (ds :: ds' :: l)) with (ds ++ 59 :: separated (ds' :: l)).
      rewrite (feed_app _ _ _ _ (number_fed ds v i vals t g Hds)). by rewrite (feed_cons _ _ _ _ _ E).
    + exists st''. split; [done|]. split; [done|]. by rewrite Est, <- app_assoc.
Qed.

Lemma attributes_run st : forall t v i vals cs, esc t = mkAnsi v i vals cs -> stacked i vals st ->
  exists v', attributes (length st) t =
    Done (set_colors (foldr set_attribute (paint t) st) (with_ansi v' 0 vals cs t)).
Proof.
  induction st as [|x st IH] using rev_ind; intros t v i vals cs Et (Hi & Ht & Hl).
  - exists v. cbn in Hi. cbn. subst i. destruct t as [? ? ? ? ?]. cbn in *. by rewrite Et.
  - rewrite length_app in *. cbn [length] in *. rewrite Nat.add_1_r in *. cbn [attributes].
    assert (Elk : vals !! length st = Some x).
    { assert (E : take (S (length st)) vals !! length st = Some x).
      { rewrite Ht, lookup_app_r, Nat.sub_diag by lia. done. }
      by rewrite lookup_take_lt in E by lia. }
    pose proof (lookup_lt_Some _ _ _ Elk). unfold POP_VAL. rewrite Et. cbn [ansiValues ansiValuesIdx]. rewrite Hi.
    replace (Z.of_nat (S (length st)) - 1) with (Z.of_nat (length st)) by lia.
    rewrite u32_small by (unfold in_u32; lia). unfold value_at.
    destruct (Z.ltb_spec (Z.of_nat (length st)) 8); [|lia]. rewrite Nat2Z.id, Elk. cbn [mbind outcome_bind].
    destruct (IH (set_colors (set_attribute x (paint t)) (set_ansi (set_val x (set_idx (Z.of_nat (length st)) (mkAnsi v (Z.of_nat (S (length st))) vals cs))) t))
      x (Z.of_nat (length st)) vals cs) as (v' & E).
    + done.
    + split; [done|]. split; [|done]. pose proof (take_S_r _ _ _ Elk) as Ex. rewrite Ht in Ex.
      by apply app_inj_tail in Ex as [Ex _].
    + exists v'. rewrite E. cbn. rewrite foldr_app. done.
Qed.

(** ** Operations *)

(** Logging leaves the display alone. *)
Context (Hdebug : forall msg g, screen_debug msg g = Done (tt, g)).

Lemma corrections_run t g :
  (wrap_line ;; last_line ;; mret 0) (t, g) = Done (0, (set_cursor (settle (at_ t)) t, g)).
Proof.
  destruct t as [[x y] p e sv lk].
  cbv [wrap_line last_line tget kgets tmodify kmodify kwhen screen kzoom mbind K_bind mret K_ret settle at_
       set_cursor fst snd cursorX cursorY paint esc saved locked].
  destruct (x >=? 80); rewrite ?Hdebug; [destruct (u8 (y + 1) >=? 25)|destruct (y >=? 25)]; rewrite ?Hdebug; done.
Qed.

(** A character that is not part of an escape sequence. *)
Lemma plain_run c t g t1 g1 : at_rest t -> c <> ESC -> print_char c (t, g) = Done (tt, (t1, g1)) ->
  putchar c (t, g) = Done (0, (set_cursor (settle (at_ t1)) t1, g1)).
Proof.
  intros [Est _ _] Hc Ep. unfold putchar. rewrite (run_bind_done _ _ _ Break (t, g)).
  2: { unfold machine. rewrite (run_bind_done _ _ _ Normal (t, g)) by (unfold tget, kgets; cbn; by rewrite Est).
       destruct (Z.eqb_spec c ESC); done. }
  rewrite (run_bind_done _ _ _ tt (t, g)).
  2: { unfold on_ansi, tmodify, kmodify. cbn. destruct t as [? ? [? ? ? ?] ? ?]. cbn in *. by rewrite Est. }
  rewrite (run_bind_done _ _ _ _ _ Ep). apply corrections_run.
Qed.

(** The commands that end a sequence of values. *)
Lemma attributes_command w i vals st t g : stacked i vals st -> (length st < 8)%nat ->
  exists vals', putchar 109 (with_ansi w i vals Value t, g) =
    Done (0, (set_colors (foldr set_attribute (paint t) (st ++ [w])) (with_ansi 0 0 vals' Normal t), g)) /\
    length vals' = 8%nat.
Proof.
  intros Hs Hlt. destruct (push_stacked i vals st w Hs Hlt) as (vals' & E & Hs'). exists vals'.
  pose proof Hs' as (Hi' & _ & Hl').
  destruct (attributes_run (st ++ [w]) (with_ansi w (i + 1) vals' Value t) w (i + 1) vals' Value eq_refl Hs') as (v' & E2).
  split; [|done]. crun. cbn [Z.eqb Pos.eqb]. crun. rewrite E. crun. rewrite Hi', Nat2Z.id.
  rewrite <- Hi'. cbv [with_ansi set_ansi] in E2. cbn [at_ paint saved locked] in E2 |- *. rewrite E2. done.
Qed.

Lemma move_command final y x i vals t g : final = 72 \/ final = 102 -> stacked i vals [y] ->
  exists vals', putchar final (with_ansi x i vals Value t, g) =
    Done (0, (set_cursor (mkCursor (u8 x) (u8 y)) (with_ansi 0 0 vals' Normal t), g)) /\ length vals' = 8%nat.
Proof.
  intros Hf Hs. destruct (push_stacked i vals [y] x Hs ltac:(cbn; lia)) as (vals' & E & Hi' & Ht & Hl). exists vals'.
  split; [|done]. destruct vals' as [|a [|b vals']]; [done..|]. cbn in Ht. injection Ht as -> ->.
  destruct Hf as [-> | ->]; crun; cbn [Z.eqb Pos.eqb orb]; crun; rewrite E; crun; rewrite Hi'; reflexivity.
Qed.

Lemma becomes_rest_of t v vals c : at_rest t -> length vals = 8%nat ->
  at_rest (set_cursor c (with_ansi v 0 vals Normal t)).
Proof. intros _ Hl. by split. Qed.

(** Writing the text of an operation performs it. *)
Lemma op_run o t g v' g' : op_ok o -> at_rest t -> 0 <= cursorX (at_ t) < 256 ->
  do_op o (view t) g = Done (v', g') ->
  exists t', feed (op_text o) (t, g) = Done (tt, (t', g')) /\ becomes t t' v'.
Proof.
  intros Ho Hr Hx E. pose proof Hr as [Est Ei El].
  assert (Hplain : forall c t1, c <> ESC -> print_char c (t, g) = Done (tt, (t1, g')) ->
    exists t', feed [c] (t, g) = Done (tt, (t', g')) /\ t' = set_cursor (settle (at_ t1)) t1).
  { intros c t1 Hc Ep. eexists. split; [|reflexivity]. cbn [feed].
    by rewrite (run_bind_done _ _ _ _ _ (plain_run c t g t1 g' Hr Hc Ep)). }
  unfold do_op in E. rewrite run_bind in E. destruct o; cbn [op_text] in *.
  - destruct Ho as [Hc Hnot]. rewrite !not_elem_of_cons in Hnot. destruct Hnot as (H1 & H2 & H3 & H4 & H5 & _).
    cbn [view position palette] in E.
    destruct (screen_draw c _ _ _ _ g) as [[[] g1]| | |] eqn:Ed; try discriminate E. injection E as <- <-.
    destruct (Hplain c (set_cursor (mkCursor (u8 (cursorX (at_ t) + 1)) (cursorY (at_ t))) t) H5) as (t' & Ef & ->).
    { unfold print_char. rewrite (run_bind_done _ _ _ (at_ t) (t, g)) by done.
      rewrite !(proj2 (Z.eqb_neq _ _)) by done. rewrite (run_bind_done _ _ _ (paint t) (t, g)) by done.
      unfold tmodify. erewrite run_bind_done; [|reflexivity]. unfold screen, kzoom. cbn [fst snd]. by rewrite Ed. }
    eexists. split; [exact Ef|]. done.
  - injection E as <- <-. destruct (Hplain 10 (set_cursor (mkCursor 0 (u8 (cursorY (at_ t) + 1))) t)) as (t' & Ef & ->);
      [done|done|]. eexists. split; [exact Ef|]. done.
  - injection E as <- <-. destruct (Hplain 9 (set_cursor (mkCursor (tab_loop 3 (cursorX (at_ t))) (cursorY (at_ t))) t)) as (t' & Ef & ->);
      [done|done|]. eexists. split; [exact Ef|]. rewrite tab_stop by done. done.
  - injection E as <- <-. destruct (Hplain 13 (set_cursor (mkCursor 0 (cursorY (at_ t))) t)) as (t' & Ef & ->);
      [done|done|]. eexists. split; [exact Ef|]. done.
  - injection E as <- <-. cbn [view position].
    destruct (Hplain 8 (set_cursor (if cursorX (at_ t) >? 0 then mkCursor (u8 (cursorX (at_ t) - 1)) (cursorY (at_ t)) else at_ t) t))
      as (t' & Ef & ->); [done| |].
    { unfold print_char. rewrite (run_bind_done _ _ _ (at_ t) (t, g)) by done. cbn [Z.eqb Pos.eqb].
      destruct (cursorX (at_ t) >? 0); [done|]. by destruct t. }
    eexists. split; [exact Ef|]. done.
  - injection E as <- <-. destruct Ho as [Hlen Hok]. rewrite (feed_app [ESC; 91] _ _ _ (feed_escape t g Hr)).
    destruct (separated_fed codes (ansiVal (esc t)) 0 (ansiValues (esc t)) [] t g) as (i & vals & w & Ef & st & Hs & Hl & Est');
      [by split|cbn; lia|intros ->; cbn in Hlen; lia|done|].
    rewrite (feed_app _ _ _ _ Ef). destruct (attributes_command w i vals st t g Hs Hl) as (vals' & Em & Hl').
    rewrite (feed_cons _ _ _ _ _ Em). eexists. split; [reflexivity|]. rewrite Est'. cbn [app]. split; try done.
    unfold view. cbn. f_equal. clear. induction codes as [|ds codes IH]; [done|]. cbn. by rewrite IH.
  - injection E as <- <-. destruct Ho as [Hfinal [Hy Hxx]]. rewrite (feed_app [ESC; 91] _ _ _ (feed_escape t g Hr)).
    destruct (separated_fed [line; column] (ansiVal (esc t)) 0 (ansiValues (esc t)) [] t g) as (i & vals & w & Ef & st & Hs & Hl & Est');
      [by split|cbn; lia|done|by rewrite !Forall_cons, Forall_nil|].
    rewrite (feed_app _ _ _ _ Ef). cbn in Est'. destruct st as [|y [|? [|]]]; try discriminate Est'. injection Est' as -> ->.
    destruct (move_command final _ (value column) i vals t g Hfinal Hs) as (vals' & Em & Hl').
    rewrite (feed_cons _ _ _ _ _ Em). eexists. split; [reflexivity|]. done.
  - injection E as <- <-. change [ESC; 91; 115] with ([ESC; 91] ++ [115]).
    rewrite (feed_app _ _ _ _ (feed_escape t g Hr)). eexists. split; [reflexivity|]. done.
  - injection E as <- <-. change [ESC; 91; 117] with ([ESC; 91] ++ [117]).
    rewrite (feed_app _ _ _ _ (feed_escape t g Hr)). eexists. split; [reflexivity|]. done.
Qed.

(** The cursor and the saved position fit their types. *)
Definition in_bytes (v : terminal) : Prop := 0 <= cursorX (position v) < 256 /\ 0 <= cursorX (mark v) < 256.

Lemma settle_byte p : 0 <= cursorX p < 256 -> 0 <= cursorX (settle p) < 256.
Proof.
  intros Hp. unfold settle. destruct (cursorX p >=? 80); cbn.
  - destruct (_ >=? 25); cbn; lia.
  - destruct (_ >=? 25); cbn; lia.
Qed.

Lemma layout_bytes o v : in_bytes v -> in_bytes (layout o v).
Proof.
  intros [Hp Hm]. destruct o; unfold in_bytes; cbn [layout go_to position mark]; split; try done;
    try apply settle_byte; cbn [cursorX]; try apply u8_range; try done; try lia.
  destruct (cursorX (position v) >? 0); cbn [cursorX]; [apply u8_range|done].
Qed.

Lemma do_op_layout o v g v1 g1 : do_op o v g = Done (v1, g1) -> v1 = layout o v.
Proof.
  unfold do_op. rewrite run_bind. intros E. case_match; try discriminate E. by destruct a as [[] ?]; injection E as <- _.
Qed.

Lemma ops_run l : forall t g v' g', Forall op_ok l -> at_rest t -> in_bytes (view t) ->
  do_ops l (view t) g = Done (v', g') ->
  exists t', feed (l ≫= op_text) (t, g) = Done (tt, (t', g')) /\ becomes t t' v'.
Proof.
  induction l as [|o l IH]; intros t g v' g' Hok Hr Hb E; cbn [do_ops] in E.
  - injection E as <- <-. by exists t.
  - inversion_clear Hok as [|? ? Ho Hok']. rewrite run_bind in E.
    destruct (do_op o (view t) g) as [[v1 g1]| | |] eqn:E1; try discriminate E.
    destruct (op_run o t g v1 g1 Ho Hr (proj1 Hb) E1) as (t1 & F1 & [Hv Hr1 Hlk]).
    destruct (IH t1 g1 v' g') as (t' & F2 & [Hv' Hr' Hlk']); [done|done| |by rewrite Hv|].
    { rewrite Hv. rewrite (do_op_layout _ _ _ _ _ E1). by apply layout_bytes. }
    exists t'. split; [|split; [done|done|congruence]].
    change ((o :: l) ≫= op_text) with (op_text o ++ (l ≫= op_text)). by rewrite (feed_app _ _ _ _ F1).
Qed.

(** ** Writing strings *)

Lemma write_loop_run l : forall fuel p m s, cstr m p l -> Forall (fun c => c < 128) l -> (length l <= fuel)%nat ->
  write_loop fuel p m s = feed l s.
Proof.
  induction l as [|c l IH]; intros fuel p m s Hc Hl Hf.
  - apply cstr_nil in Hc. destruct fuel; cbn [write_loop]; rewrite run_bind; unfold kread; by rewrite (load_run _ _ _ Hc).
  - apply cstr_cons in Hc as (Hc & Hch & Hc'). inversion_clear Hl as [|? ? H1 H2]. unfold is_char in Hch.
    destruct fuel as [|fuel]; [cbn in Hf; lia|]. cbn [write_loop feed]. rewrite run_bind. unfold kread. rewrite (load_run _ _ _ Hc).
    destruct (Z.eqb_spec c 0); [lia|].
    assert (E : u32 (s8 c) = c).
    { unfold s8, swrap. change (2 ^ 8) with 256. change (2 ^ (8 - 1)) with 128. rewrite Z.mod_small by lia. cbv zeta.
      destruct (Z.ltb_spec c 128); [|lia]. apply u32_small. unfold in_u32. lia. }
    rewrite E, !run_bind. destruct (putchar c s) as [[r s']| | |]; try done. apply IH; [done|done|cbn in Hf; lia].
Qed.

Lemma separated_ascii l : Forall number l -> Forall (fun c => c < 128) (separated l).
Proof.
  induction l as [|ds l IH]; intros Hl; [constructor|]. inversion_clear Hl as [|? ? [_ Hd] Hl'].
  assert (H1 : Forall (fun c => c < 128) ds) by (eapply Forall_impl; [exact Hd|]; unfold is_digit, ch_0; lia).
  destruct l as [|ds' l]; [done|]. change (separated (ds :: ds' :: l)) with (ds ++ 59 :: separated (ds' :: l)).
  apply Forall_app. split; [done|]. constructor; [lia|]. by apply IH.
Qed.

Lemma op_text_ascii o : op_ok o -> Forall (fun c => c < 128) (op_text o).
Proof.
  intros Ho. destruct o; cbn [op_text op_ok] in *; rewrite ?Forall_app; unfold ESC; 
    repeat split; rewrite ?Forall_cons, ?Forall_nil; try tauto; try lia.
  - apply separated_ascii. tauto.
  - apply separated_ascii. rewrite !Forall_cons, Forall_nil. tauto.
Qed.

Lemma ops_text_ascii l : Forall op_ok l -> Forall (fun c => c < 128) (l ≫= op_text).
Proof.
  induction 1 as [|o l Ho _ IH]; [constructor|]. change ((o :: l) ≫= op_text) with (op_text o ++ (l ≫= op_text)).
  apply Forall_app. split; [by apply op_text_ascii|done].
Qed.

Lemma write_ops_run ops p m t g v' g' : Forall op_ok ops -> at_rest t -> in_bytes (view t) -> locked t = false ->
  cstr m p (ops ≫= op_text) -> do_ops ops (view t) g = Done (v', g') ->
  exists t', write p m (t, g) = Done (tt, (t', g')) /\ becomes t t' v'.
Proof.
  intros Hok Hr Hb Hlk Hc E. destruct (ops_run ops (set_locked true t) g v' g') as (t' & F & [Hv Hr' Hl']); [done|by destruct Hr|done|done|].
  exists (set_locked false t'). split; [|by split; [|destruct Hr'|]].
  unfold write, Lock. rewrite run_bind_assoc, (run_bind_done _ _ _ false (t, g)) by (unfold tget, kgets; cbn; by rewrite Hlk).
  unfold tmodify. rewrite (run_bind_done _ _ _ tt (set_locked true t, g)) by done.
  pose proof (cstr_size _ _ _ Hc). rewrite (run_bind_done _ _ _ tt (t', g')); [done|].
  rewrite (write_loop_run (ops ≫= op_text)); [done|done|by apply ops_text_ascii|lia].
Qed.

(** [feed] as calls of the callback. *)
Lemma feed_emits l m x x' : feed l x = Done (tt, x') -> emits putchar_callback (fun m' => m' = m) l (m, x) (m, x').
Proof.
  revert x. induction l as [|c l IH]; intros x E; cbn [feed emits] in *; [by injection E as ->|].
  rewrite run_bind in E. destruct (putchar c x) as [[r x1]| | |] eqn:Ec; try discriminate E.
  exists (m, x1). split; [|split; [done|by apply IH]].
  unfold putchar_callback, kzoom. rewrite run_bind. cbn [snd fst]. by rewrite Ec.
Qed.

Lemma vprintf_ops_run ops fmt its args strs rest m t g v' g' :
  Forall item_ok its -> cstr m fmt (print_format its) ->
  (forall a l, strs a = Some l -> Z.of_nat (length l) <= INT_MAX /\ cstr m a l) ->
  format_out strs its args = Some (ops ≫= op_text, rest) -> Z.of_nat (length (ops ≫= op_text)) <= INT_MAX ->
  Forall op_ok ops -> at_rest t -> in_bytes (view t) -> locked t = false ->
  do_ops ops (view t) g = Done (v', g') ->
  exists t', vprintf fmt args (m, (t, g)) = Done (Z.of_nat (length (ops ≫= op_text)), (m, (t', g'))) /\ becomes t t' v'.
Proof.
  intros Hits Hf Hstrs Ho Hlen Hok Hr Hb Hlk E.
  destruct (ops_run ops (set_locked true t) g v' g') as (t' & F & [Hv Hr' Hl']); [done|by destruct Hr|done|done|].
  exists (set_locked false t'). split; [|by split; [|destruct Hr'|]].
  unfold vprintf. rewrite (run_bind_done _ _ _ tt (m, (set_locked true t, g))).
  2: { unfold kzoom, Lock. cbn [snd fst]. rewrite (run_bind_done _ _ _ false (t, g)) by (unfold tget, kgets; cbn; by rewrite Hlk). done. }
  rewrite (run_bind_done _ _ _ (Z.of_nat (length (ops ≫= op_text))) (m, (t', g'))); [done|].
  eapply (printf_helper_prints putchar_callback (fun m' => m' = m) strs) with (its := its) (rest := rest); try done.
  - intros a l Ha. destruct (Hstrs a l Ha) as [H1 H2]. split; [done|]. by intros m' ->.
  - by intros m' ->.
  - by apply feed_emits.
Qed.
End operations.

(** ** The console on the framebuffer *)

(** Display.v as a screen; log messages go to the serial line. *)
#[export] Instance display_screen : Screen graphics := {|
  screen_draw := Font.Draw;
  screen_reset := resetDoubleBuffer;
  screen_swap := swap;
  screen_debug := fun _ => mret tt
|}.

Lemma display_debug msg (g : graphics) : screen_debug msg g = Done (tt, g).
Proof. done. Qed.

(** What an operation paints. *)
Definition paint_op (fb : Framebuffer) (o : op) (v : terminal) (f : picture) : picture :=
  match o with
  | Put c => draw_character fb f c (cursorX (position v)) (cursorY (position v)) (colorFore (palette v)) (colorBack (palette v))
  | _ => f
  end.
Fixpoint paint_ops (fb : Framebuffer) (l : list op) (v : terminal) (f : picture) : terminal * picture :=
  match l with
  | [] => (v, f)
  | o :: l' => paint_ops fb l' (layout o v) (paint_op fb o v f)
  end.

(** The 80 columns and 25 lines of the console. *)
Definition in_grid (p : cursor) : Prop := 0 <= cursorX p < 80 /\ 0 <= cursorY p < 25.
Definition on_screen (v : terminal) : Prop := in_grid (position v) /\ in_grid (mark v).
Definition op_on_screen (o : op) : Prop :=
  match o with
  | MoveTo _ line column => in_grid (mkCursor (u8 (value column)) (u8 (value line)))
  | _ => True
  end.

Lemma settle_in_grid p : 0 <= cursorX p <= 80 -> 0 <= cursorY p <= 25 -> in_grid (settle p).
Proof.
  intros Hx Hy. unfold settle, in_grid. cbv zeta. rewrite !Z.geb_leb.
  destruct (Z.leb_spec 80 (cursorX p)); cbn [cursorX cursorY].
  - rewrite u8_small by lia. destruct (Z.leb_spec 25 (cursorY p + 1)); cbn [cursorX cursorY]; lia.
  - destruct (Z.leb_spec 25 (cursorY p)); cbn [cursorX cursorY]; lia.
Qed.

Lemma layout_on_screen o v : op_on_screen o -> on_screen v -> on_screen (layout o v).
Proof.
  intros Ho [Hp Hm]. pose proof Hp as [Hx Hy]. pose proof Hm as [Hmx Hmy].
  destruct o; split; cbn [layout go_to position mark]; try done; try apply settle_in_grid; cbn [cursorX cursorY];
    try (destruct (Z.gtb_spec (cursorX (position v)) 0)); cbn [cursorX cursorY];
    rewrite ?u8_small; try lia; try (Z.to_euclidean_division_equations; lia).
  all: by split.
Qed.

Lemma painted_trans fb g f g1 f' g2 : painted fb g f g1 -> painted fb g1 f' g2 -> painted fb g f' g2.
Proof.
  intros [E1 _ M1 F1] [E2 S2 M2 F2]. assert (Eb : backbuffer g1 = backbuffer g) by by rewrite E1. split.
  - rewrite E2, E1. done.
  - done.
  - intros a Ha. by apply M2, M1.
  - intros a Ha. rewrite F2 by (by rewrite Eb). by apply F1.
Qed.

(** A mode that is large enough for the grid. *)
Definition grid_fits (fb : Framebuffer) : Prop := 641 <= _width fb < 2 ^ 32 /\ 201 <= _height fb < 2 ^ 32.

Lemma do_ops_paint fb l : forall v f g, grid_fits fb -> ready fb g -> shows fb g f -> on_screen v ->
  Forall op_ok l -> Forall op_on_screen l ->
  exists g', do_ops l v g = Done ((paint_ops fb l v f).1, g') /\ painted fb g (paint_ops fb l v f).2 g' /\
    on_screen (paint_ops fb l v f).1.
Proof.
  induction l as [|o l IH]; intros v f g Hfit Hr Hs Hv Hok Hon; cbn [do_ops paint_ops].
  - exists g. split; [done|]. split; [by apply painted_refl|done].
  - inversion_clear Hok as [|? ? Ho Hok']. inversion_clear Hon as [|? ? Hn Hon'].
    assert (Hstep : exists g1, do_op o v g = Done (layout o v, g1) /\ painted fb g (paint_op fb o v f) g1).
    { destruct o; try (exists g; split; [reflexivity|by apply painted_refl]).
      destruct Ho as [Hc _]. destruct Hv as [[Hx Hy] _]. destruct Hfit as [Hw Hh].
      destruct (Draw_correct fb g f c (cursorX (position v)) (cursorY (position v)) (colorFore (palette v)) (colorBack (palette v)))
        as (g1 & E & Hp); [done|done|lia|lia|lia|].
      exists g1. split; [|done]. unfold do_op. cbn [screen_draw display_screen]. by rewrite (run_bind_done _ _ _ _ _ E). }
    destruct Hstep as (g1 & E & Hp). rewrite (run_bind_done _ _ _ _ _ E).
    destruct (IH (layout o v) (paint_op fb o v f) g1) as (g' & E' & Hp' & Hv'); [done|by eapply painted_ready|by destruct Hp|by apply layout_on_screen|done|done|].
    exists g'. split; [done|]. split; [by eapply painted_trans|done].
Qed.

(** ** The properties *)

(** C36. Writing text performs the terminal operations the text stands for:
    visible characters, control characters, colours, cursor movements, saving
    and restoring, in any sequence, whether the text is written as a string or
    is what a format of [printf] prints; the escape sequence machine ends at
    rest and the lock free, for any display that logging leaves alone. *)
Theorem console_performs_operations {G} `{Screen G} ops m t g v' g' :
  (forall msg g, screen_debug msg g = Done (tt, g)) ->
  Forall op_ok ops -> at_rest t -> in_bytes (view t) -> locked t = false ->
  do_ops ops (view t) g = Done (v', g') ->
  (forall p, cstr m p (ops ≫= op_text) ->
     exists t', write p m (t, g) = Done (tt, (t', g')) /\ becomes t t' v') /\
  (forall fmt its args strs rest,
     Forall item_ok its -> cstr m fmt (print_format its) ->
     (forall a l, strs a = Some l -> Z.of_nat (length l) <= INT_MAX /\ cstr m a l) ->
     format_out strs its args = Some (ops ≫= op_text, rest) -> Z.of_nat (length (ops ≫= op_text)) <= INT_MAX ->
     exists t', vprintf fmt args (m, (t, g)) = Done (Z.of_nat (length (ops ≫= op_text)), (m, (t', g'))) /\ becomes t t' v').
Proof.
  intros Hdebug Hok Hr Hb Hlk E. split.
  - intros p Hc. by apply (write_ops_run Hdebug ops).
  - intros fmt its args strs rest Hits Hf Hstrs Ho Hlen. by apply (vprintf_ops_run Hdebug ops fmt its args strs rest).
Qed.


(** A display that records the characters drawn on it. *)
#[local] Instance record_screen : Screen (list (Z * Z * Z * Z)) := {|
  screen_draw := fun c x y fore _ => kmodify (fun l => l ++ [(c, x, y, fore)]);
  screen_reset := kmodify (fun _ => []);
  screen_swap := mret tt;
  screen_debug := fun _ => mret tt
|}.
Definition chars (s : string) : list Z := ch <$> String.list_ascii_of_string s.

(** [ESC[5H] gives the line only; the column is popped off an empty stack. *)
Example one_coordinate_faults :
  feed ([ESC; 91] ++ chars "5H") (initial_tty, []) = Fault.
Proof. vm_compute. reflexivity. Qed.

(** A ninth value does not fit. *)
Example nine_values_fault :
  feed ([ESC; 91] ++ chars "1;2;3;4;5;6;7;8;9m") (initial_tty, []) = Fault.
Proof. vm_compute. reflexivity. Qed.

(** After [ESC[2J] the machine still expects digits: the 7 is swallowed. *)
Example clear_swallows_digits :
  feed ([ESC; 91] ++ chars "2J" ++ chars "7a") (initial_tty, []) =
  Done (tt, (mkTty (mkCursor 1 0) (paint initial_tty) (mkAnsi 27 0 (replicate 8 0) Normal) (mkCursor 0 0) false,
             [(97, 0, 0, VGA_White)])).
Proof. vm_compute. reflexivity. Qed.

(** A sequence that is given up leaves its values for the next one. *)
Example stale_values_spoil_next :
  fst <$> (putchar 72 (mkTty (mkCursor 0 0) (paint initial_tty) (mkAnsi 4 2 (replicate 8 1) Value) (mkCursor 0 0) false, [])) = Done (-1) /\
  ansiValuesIdx <$> ((fun s => esc s.2.1) <$> feed ([ESC; 91] ++ chars "1;2z") (initial_tty, [])) = Done 1.
Proof. split; vm_compute; reflexivity. Qed.

Definition demo_ops : list op :=
  [Attributes [chars "91"; chars "44"]; Put 65; Save; MoveTo 72 (chars "3") (chars "7"); Put 66; Restore; Put 67; Newline; Tab; Put 68].
Definition demo_text : memory := list_to_map ((fun p => (Z.of_nat p.1, p.2)) <$> imap pair ((demo_ops ≫= op_text) ++ [0])).

Lemma demo_ops_ok : Forall op_ok demo_ops.
Proof.
  repeat apply Forall_cons_2; try apply Forall_nil_2; cbn -[chars]; try exact I; try (split; [lia|]; rewrite !not_elem_of_cons; repeat split; try done; by apply not_elem_of_nil).
  - split; [lia|]. repeat apply Forall_cons_2; try apply Forall_nil_2; (split; [done|]);
      repeat apply Forall_cons_2; try apply Forall_nil_2; vm_compute; split; congruence.
  - split; [by left|]. split; (split; [done|]); repeat apply Forall_cons_2; try apply Forall_nil_2; vm_compute; split; congruence.
Qed.

Lemma cstr_at m l : forallb (fun p => bool_decide (m !! Z.of_nat p.1 = Some p.2)) (imap pair (l ++ [0])) = true ->
  forallb (fun c => (0 <? c) && (c <? 256)) l = true -> cstr m 0 l.
Proof.
  intros H1 H2. rewrite forallb_forall in H1, H2. split.
  - apply bytes_lookup. intros i b Hb. rewrite Z.add_0_l. eapply bool_decide_eq_true_1, (H1 (i, b)).
    apply list_elem_of_In, list_elem_of_lookup. exists i. by rewrite list_lookup_imap, Hb.
  - apply Forall_forall. intros c Hc. specialize (H2 c (proj1 (list_elem_of_In _ _) Hc)).
    apply andb_prop in H2 as [Ha Hb]. unfold is_char. apply Z.ltb_lt in Ha, Hb. lia.
Qed.

Lemma demo_text_at : cstr demo_text 0 (demo_ops ≫= op_text).
Proof. apply cstr_at; vm_compute; reflexivity. Qed.

Lemma console_performs_operations_witness :
  exists t', write 0 demo_text (initial_tty, []) =
      Done (tt, (t', [(65, 0, 0, 0xFF5555); (66, 7, 3, 0xFF5555); (67, 1, 0, 0xFF5555); (68, 4, 1, 0xFF5555)])) /\
    at_ t' = mkCursor 5 1.
Proof.
  destruct (console_performs_operations demo_ops demo_text initial_tty []
    (mkTerminal (mkCursor 5 1) (mkColors 0x0000AA 0xFF5555 VGA_Black VGA_White) (mkCursor 1 0))
    [(65, 0, 0, 0xFF5555); (66, 7, 3, 0xFF5555); (67, 1, 0, 0xFF5555); (68, 4, 1, 0xFF5555)]) as [Hw _].
  - done.
  - exact demo_ops_ok.
  - split; vm_compute; reflexivity.
  - split; split; vm_compute; congruence.
  - reflexivity.
  - vm_compute. reflexivity.
  - destruct (Hw 0 demo_text_at) as (t' & E & [Ev _ _]). exists t'. split; [exact E|].
    exact (f_equal position Ev).
Defined.

(** A screen of 648 by 208 pixels of four bytes. *)
Definition console_fb : Framebuffer := mkFB 0x1000000 648 208 32 2592 8 16 8 8 8 0 RGB_FBMM.
Definition console_graphics : graphics := mkG (demo_block 0 539136 0 ∅) (Some console_fb) 0 true [].

