(* ===== verification/ConsoleTypes.v ===== *)
(** * The console on any input (Devices/Graphics/console.cpp)

    The types of the console's variables, that [putchar] keeps them on every
    character, and the exact places where it leaves the language instead: the
    machine reads its input from programs, so nothing is assumed of the text. *)
From S2P Require Import Prelude Words KString Printf Display Console.
From Stdlib Require Import ZArith Lia Bool.
From stdpp Require Import base strings numbers functions gmap list.
#[local] Open Scope Z_scope.

(** ** The types *)

Definition byte (x : Z) : Prop := 0 <= x < 2 ^ 8.
Definition half (x : Z) : Prop := 0 <= x < 2 ^ 16.
Definition rgb (x : Z) : Prop := 0 <= x < 2 ^ 24.
Definition cursor_typed (c : cursor) : Prop := byte (cursorX c) /\ byte (cursorY c).
Definition colors_typed (p : colors) : Prop :=
  (rgb (colorBack p) /\ rgb (colorFore p)) /\ rgb (resetBack p) /\ rgb (resetFore p).
(** Eight values of 16 bits, of which the first [ansiValuesIdx] are in use. *)
Definition ansi_typed (a : ansi) : Prop :=
  half (ansiVal a) /\ 0 <= ansiValuesIdx a <= 8 /\ length (ansiValues a) = 8%nat /\ Forall half (ansiValues a).
Record well_typed (t : tty) : Prop := {
  wt_at : cursor_typed (at_ t);
  wt_saved : cursor_typed (saved t);
  wt_paint : colors_typed (paint t);
  wt_esc : ansi_typed (esc t);
}.

(** The inputs on which [putchar] leaves the stack of values: a ninth value,
    and a cursor command with a single one. *)
Definition is_command (c : Z) : bool := (c =? 72) || (c =? 102).
Definition out_of_stack (t : tty) (c : Z) : bool :=
  bool_decide (ansiState (esc t) = Value) &&
  ((((c =? 59) || (c =? 109) || is_command c) && (ansiValuesIdx (esc t) =? 8)) ||
   (is_command c && (ansiValuesIdx (esc t) =? 0))).

(** ** The parts *)

Lemma table_rgb n : rgb (table_color n).
Proof.
  assert (Ht : Forall rgb ansiVGATable) by (repeat constructor; vm_compute; congruence).
  unfold table_color. destruct (nth_in_or_default (Z.to_nat n) ansiVGATable 0) as [Hi| ->]; [|done].
  rewrite Forall_forall in Ht. by apply Ht, list_elem_of_In.
Qed.
Lemma set_attribute_typed v p : colors_typed p -> colors_typed (set_attribute v p).
Proof.
  intros [[H1 H2] [H3 H4]]. unfold set_attribute.
  repeat match goal with |- context [if ?b then _ else _] => destruct b end; repeat split; cbn; try apply table_rgb; apply H1 || apply H2 || apply H3 || apply H4.
Qed.

Lemma PUSH_VAL_typed v a : ansi_typed a -> half v ->
  if ansiValuesIdx a =? 8 then PUSH_VAL v a = Fault
  else exists a', PUSH_VAL v a = Done a' /\ ansi_typed a' /\ ansiValuesIdx a' = ansiValuesIdx a + 1 /\
    ansiState a' = ansiState a.
Proof.
  destruct a as [w i vals st]. intros (Hw & Hi & Hl & Hv) Hh. cbn in *. unfold PUSH_VAL, value_at. cbn.
  destruct (Z.eqb_spec i 8) as [->|Hne]; [done|]. destruct (Z.ltb_spec i 8); [|lia].
  destruct (lookup_lt_is_Some_2 vals (Z.to_nat i)) as [x ->]; [lia|]. rewrite u32_small by (unfold in_u32; lia).
  eexists. split; [reflexivity|]. split; [|done]. split; [done|]. cbn. split; [lia|]. split; [by rewrite length_insert|].
  apply Forall_insert; done.
Qed.
Lemma POP_VAL_typed a : ansi_typed a ->
  if ansiValuesIdx a =? 0 then POP_VAL a = Fault
  else exists v a', POP_VAL a = Done (v, a') /\ ansi_typed a' /\ half v /\ ansiValuesIdx a' = ansiValuesIdx a - 1 /\
    ansiState a' = ansiState a.
Proof.
  destruct a as [w i vals st]. intros (Hw & Hi & Hl & Hv). cbn in *. unfold POP_VAL, value_at. cbn.
  destruct (Z.eqb_spec i 0) as [->|Hne]; [reflexivity|]. rewrite u32_small by (unfold in_u32; lia).
  destruct (Z.ltb_spec (i - 1) 8); [|lia].
  destruct (lookup_lt_is_Some_2 vals (Z.to_nat (i - 1))) as [x Hx]; [lia|]. rewrite Hx.
  eexists _, _. split; [reflexivity|]. split; [split; [done|]; cbn; split; [lia|done]|].
  split; [|done]. by eapply (Forall_lookup_1 _ _ _ _ Hv).
Qed.

Lemma attributes_typed n : forall t, well_typed t -> ansiValuesIdx (esc t) = Z.of_nat n ->
  exists t', attributes n t = Done t' /\ well_typed t'.
Proof.
  induction n as [|n IH]; intros t Ht Hn; cbn [attributes]; [by exists t|].
  pose proof (POP_VAL_typed (esc t) (wt_esc _ Ht)) as Hp. destruct (Z.eqb_spec (ansiValuesIdx (esc t)) 0); [lia|].
  destruct Hp as (v & a' & -> & Ha & Hv & Hi & _). cbn [mbind outcome_bind].
  apply IH; [|cbn; lia]. destruct Ht as [H1 H2 H3 H4]. destruct Ha as (A1 & A2 & A3 & A4).
  split; cbn; [done|done|by apply set_attribute_typed|exact (conj Hv (conj A2 (conj A3 A4)))].
Qed.

(** ** [putchar] *)
Section putchar.
Context {G : Type} `{Screen G}.
(** The screen keeps [J] and can draw the characters of its font. *)
Context (J : G -> Prop).
Record screen_ok : Prop := {
  so_draw : forall c x y fore back g, J g -> 0 <= c < 128 -> exists g', screen_draw c x y fore back g = Done (tt, g') /\ J g';
  so_reset : forall g, J g -> exists g', screen_reset g = Done (tt, g') /\ J g';
  so_swap : forall g, J g -> exists g', screen_swap g = Done (tt, g') /\ J g';
  so_debug : forall msg g, J g -> exists g', screen_debug msg g = Done (tt, g') /\ J g';
}.
Hypothesis Hscreen : screen_ok.

(** What a step may come to: a well typed state of the same screen. *)
Definition keeps {A} (o : outcome (A * (tty * G))) : Prop :=
  exists a t g, o = Done (a, (t, g)) /\ well_typed t /\ J g.

Lemma holds_bind {A B} (m : K (tty * G) A) (f : A -> K (tty * G) B) s :
  keeps (m s) -> (forall a t g, well_typed t -> J g -> keeps (f a (t, g))) -> keeps ((m ≫= f) s).
Proof. intros (a & t & g & E & Ht & Hg) Hf. rewrite (run_bind_done _ _ _ _ _ E). by apply Hf. Qed.
Lemma holds_ret {A} (a : A) t g : well_typed t -> J g -> keeps ((mret a : K (tty * G) A) (t, g)).
Proof. intros Ht Hg. by exists a, t, g. Qed.
Lemma keeps_modify f t g : well_typed (f t) -> J g -> keeps (tmodify f (t, g)).
Proof. intros Ht Hg. by exists tt, (f t), g. Qed.
Lemma keeps_get {A B} (f : tty -> A) (k : A -> K (tty * G) B) t g : keeps (k (f t) (t, g)) -> keeps ((tget f ≫= k) (t, g)).
Proof. done. Qed.
Lemma keeps_when b m t g : well_typed t -> J g -> keeps (m (t, g)) -> keeps (kwhen b m (t, g)).
Proof. intros Ht Hg Hm. destruct b; [done|by apply holds_ret]. Qed.
Lemma keeps_screen (m : K G unit) t g : well_typed t -> (exists g', m g = Done (tt, g') /\ J g') -> keeps (screen m (t, g)).
Proof. intros Ht (g' & E & Hg). exists tt, t, g'. unfold screen, kzoom. cbn. by rewrite E. Qed.

Lemma cursor_set t c : well_typed t -> cursor_typed c -> well_typed (set_cursor c t).
Proof. intros [H1 H2 H3 H4] Hc. by split. Qed.
Lemma u8_byte x : byte (u8 x).
Proof. apply u8_range. Qed.
Lemma u16_half x : half (u16 x).
Proof. apply Z.mod_pos_bound. lia. Qed.
Lemma tab_byte n x : byte (tab_loop n x).
Proof. revert x. induction n as [|n IH]; intros x; cbn [tab_loop]; destruct (_ =? 0); try apply u8_byte. apply IH. Qed.
#[local] Hint Resolve u8_byte u16_half tab_byte : typed.

Lemma print_char_keeps c t g : 0 <= c < 128 -> well_typed t -> J g -> keeps (print_char c (t, g)).
Proof.
  intros Hc Ht Hg. pose proof (wt_at _ Ht) as [Hx Hy]. assert (H0 : byte 0) by (unfold byte; lia).
  unfold print_char. apply keeps_get.
  repeat match goal with |- keeps ((if ?b then _ else _) _) => destruct b end.
  - apply keeps_when; try done. apply keeps_modify; [apply cursor_set|]; auto with typed. by split; [apply u8_byte|].
  - apply keeps_modify; [apply cursor_set|]; auto. by split; [|apply u8_byte].
  - apply keeps_modify; [apply cursor_set|]; auto. by split; [apply tab_byte|].
  - apply keeps_modify; [apply cursor_set|]; auto. by split.
  - apply keeps_get. apply holds_bind.
    + apply keeps_modify; [apply cursor_set|]; auto. by split; [apply u8_byte|].
    + intros _ t' g' Ht' Hg'. apply keeps_screen; [done|]. by apply so_draw.
Qed.

Lemma corrections_keep t g : well_typed t -> J g -> keeps ((wrap_line ;; last_line ;; mret 0 : K (tty * G) Z) (t, g)).
Proof.
  intros Ht Hg. assert (H0 : byte 0 /\ byte 24) by (unfold byte; lia). apply holds_bind.
  - unfold wrap_line. apply keeps_get, keeps_when; try done. apply holds_bind; [apply keeps_screen, so_debug; done|].
    intros _ t' g' Ht' Hg'. apply keeps_modify; [apply cursor_set|]; auto. by split; [|apply u8_byte].
  - intros _ t1 g1 Ht1 Hg1. apply holds_bind; [|by intros; apply holds_ret].
    unfold last_line. apply keeps_get, keeps_when; try done. apply holds_bind; [apply keeps_screen, so_debug; done|].
    intros _ t' g' Ht' Hg'. apply keeps_modify; [apply cursor_set|]; auto.
Qed.

(** A step of the machine that only changes its own variables. *)
Lemma on_ansi_keeps f t g : ansi_typed (f (esc t)) -> well_typed t -> J g -> keeps (on_ansi f (t, g)).
Proof. intros Hf [H1 H2 H3 H4] Hg. apply keeps_modify; [by split|done]. Qed.

Lemma tget_bind {A B} (f : tty -> A) (k : A -> K (tty * G) B) t g : (tget f ≫= k) (t, g) = k (f t) (t, g).
Proof. reflexivity. Qed.

(** Pushing the number that was read, and taking one back. *)
Lemma push_typed t g : well_typed t -> J g -> let v := ansiVal (esc t) in
  if ansiValuesIdx (esc t) =? 8 then push v (t, g) = Fault
  else exists t', push v (t, g) = Done (tt, (t', g)) /\ well_typed t' /\ ansiValuesIdx (esc t') = ansiValuesIdx (esc t) + 1.
Proof.
  intros Ht Hg v. pose proof (PUSH_VAL_typed v (esc t) (wt_esc _ Ht) (proj1 (wt_esc _ Ht))) as Hp.
  unfold push, tread. cbn [fst snd]. destruct (ansiValuesIdx (esc t) =? 8); [by rewrite Hp|].
  destruct Hp as (a' & -> & Ha & Hi' & _). eexists. split; [reflexivity|]. split; [|done].
  destruct Ht as [H1 H2 H3 H4]. by split.
Qed.
Lemma pop_typed t g : well_typed t -> J g ->
  if ansiValuesIdx (esc t) =? 0 then pop (t, g) = Fault
  else exists v t', pop (t, g) = Done (v, (t', g)) /\ well_typed t' /\ ansiValuesIdx (esc t') = ansiValuesIdx (esc t) - 1.
Proof.
  intros Ht Hg. pose proof (POP_VAL_typed (esc t) (wt_esc _ Ht)) as Hp.
  unfold pop. cbn [fst snd]. destruct (ansiValuesIdx (esc t) =? 0); [by rewrite Hp|].
  destruct Hp as (v & a' & -> & Ha & _ & Hi' & _). eexists _, _. split; [reflexivity|]. split; [|done].
  destruct Ht as [H1 H2 H3 H4]. by split.
Qed.

(** [ESC [ line ; column H]: two values are taken from the stack. *)
Definition move : K (tty * G) exit :=
  idx ← tget (fun t => ansiValuesIdx (esc t)) ;
  if idx >? 2 then mret Error_ else
  x ← pop ;
  tmodify (fun t => set_cursor (mkCursor (u8 x) (cursorY (at_ t))) t) ;;
  y ← pop ;
  tmodify (fun t => set_cursor (mkCursor (cursorX (at_ t)) (u8 y)) t) ;;
  mret Normal_.
Lemma move_typed t g : well_typed t -> J g -> 0 < ansiValuesIdx (esc t) ->
  if ansiValuesIdx (esc t) =? 1 then move (t, g) = Fault else keeps (move (t, g)).
Proof.
  intros Ht Hg Hi. unfold move. rewrite tget_bind.
  pose proof (pop_typed t g Ht Hg) as Hp. destruct (Z.eqb_spec (ansiValuesIdx (esc t)) 0); [lia|].
  destruct Hp as (x & t1 & E1 & Ht1 & Hi1).
  set (t2 := set_cursor (mkCursor (u8 x) (cursorY (at_ t1))) t1).
  assert (Ht2 : well_typed t2) by (apply cursor_set; [done|]; split; [apply u8_byte|apply (wt_at _ Ht1)]).
  pose proof (pop_typed t2 g Ht2 Hg) as Hp2.
  replace (ansiValuesIdx (esc t2)) with (ansiValuesIdx (esc t) - 1) in Hp2 by done.
  destruct (Z.eqb_spec (ansiValuesIdx (esc t)) 1) as [E|E].
  - rewrite E in *. cbn [Z.gtb Z.compare Pos.compare Pos.compare_cont Z.sub Z.add Z.opp Z.pos_sub Z.eqb] in *.
    rewrite (run_bind_done _ _ _ _ _ E1). unfold tmodify, kmodify. rewrite !run_bind. cbn [fst snd]. fold t2. by rewrite Hp2.
  - destruct (ansiValuesIdx (esc t) >? 2); [by apply holds_ret|]. destruct (Z.eqb_spec (ansiValuesIdx (esc t) - 1) 0); [lia|].
    destruct Hp2 as (y & t3 & E3 & Ht3 & _).
    rewrite (run_bind_done _ _ _ _ _ E1), (run_bind_done _ _ (t1, g) tt (t2, g) eq_refl), (run_bind_done _ _ _ _ _ E3).
    apply holds_bind; [|by intros; apply holds_ret].
    apply keeps_modify; [apply cursor_set|]; auto. split; [apply (wt_at _ Ht3)|apply u8_byte].
Qed.

(** The machine ends in one of its exits, or outside of the stack. *)
Lemma in_value_typed c t g : ansiState (esc t) = Value -> well_typed t -> J g ->
  if out_of_stack t c then in_value c (t, g) = Fault else keeps (in_value c (t, g)).
Proof.
  intros Hst Ht Hg. pose proof (wt_esc _ Ht) as (Hv & Hi & Hl & Hvs). assert (H0 : half 0) by (unfold half; lia).
  unfold out_of_stack. rewrite bool_decide_true by done. cbn [andb]. unfold in_value, is_command. rewrite tget_bind.
  pose proof (push_typed t g Ht Hg) as Hp. cbv zeta in Hp.
  assert (Hset : forall w st t', well_typed t' -> half w -> well_typed (set_ansi (set_val w (set_state st (esc t'))) t')).
  { intros w st t' [T1 T2 T3 (T4 & T5 & T6 & T7)] Hw. split; [done..|]. exact (conj Hw (conj T5 (conj T6 T7))). }
  destruct (Z.eqb_spec c 59) as [->|]; [|destruct (Z.eqb_spec c 109) as [->|]; [|destruct ((c =? 72) || (c =? 102)); [|]]]; cbn [orb andb].
  - rewrite orb_false_r. destruct (ansiValuesIdx (esc t) =? 8); [by rewrite run_bind, Hp|].
    destruct Hp as (t1 & E1 & Ht1 & Hi1). rewrite (run_bind_done _ _ _ _ _ E1).
    apply holds_bind; [|by intros; apply holds_ret]. apply keeps_modify; [by apply Hset|done].
  - rewrite orb_false_r. destruct (ansiValuesIdx (esc t) =? 8); [by rewrite run_bind, Hp|].
    destruct Hp as (t1 & E1 & Ht1 & Hi1). rewrite (run_bind_done _ _ _ _ _ E1).
    destruct (attributes_typed (Z.to_nat (ansiValuesIdx (esc t1))) t1 Ht1) as (t2 & E2 & Ht2); [lia|].
    apply holds_bind; [|by intros; apply holds_ret]. exists tt, t2, g. unfold tread. cbn [fst snd]. by rewrite E2.
  - destruct (Z.eqb_spec (ansiValuesIdx (esc t)) 8); cbn [orb]; [by rewrite run_bind, Hp|].
    destruct Hp as (t1 & E1 & Ht1 & Hi1). rewrite (run_bind_done _ _ _ _ _ E1).
    pose proof (move_typed t1 g Ht1 Hg ltac:(lia)) as Hm. rewrite Hi1 in Hm.
    destruct (Z.eqb_spec (ansiValuesIdx (esc t)) 0), (Z.eqb_spec (ansiValuesIdx (esc t) + 1) 1); (lia || exact Hm).
  - destruct (c =? 74); [|destruct (is_digit_char c)].
    + destruct (negb _); [by apply holds_ret|].
      apply holds_bind; [by apply keeps_screen, so_debug|]. intros _ t1 g1 Ht1 Hg1.
      apply holds_bind; [by apply keeps_screen, so_reset|]. intros _ t2 g2 Ht2 Hg2.
      apply holds_bind; [by apply keeps_screen, so_swap|]. intros. by apply holds_ret.
    + apply holds_bind; [|by intros; apply holds_ret]. apply on_ansi_keeps; [|done|done].
      exact (conj (u16_half _) (conj Hi (conj Hl Hvs))).
    + by apply holds_ret.
Qed.

Lemma machine_typed c t g : well_typed t -> J g ->
  if out_of_stack t c then machine c (t, g) = Fault else keeps (machine c (t, g)).
Proof.
  intros Ht Hg. pose proof (wt_esc _ Ht) as (Hv & Hi & Hl & Hvs). unfold machine. rewrite tget_bind.
  destruct (ansiState (esc t)) eqn:Hst; [| | |by apply in_value_typed].
  all: unfold out_of_stack; rewrite Hst, bool_decide_false by done; cbn [andb].
  - destruct (negb _); [by apply holds_ret|]. apply holds_bind; [by apply on_ansi_keeps|]. intros. by apply holds_ret.
  - destruct (negb _); [by apply holds_ret|]. apply holds_bind; [by apply on_ansi_keeps|]. intros. by apply holds_ret.
  - repeat match goal with |- keeps ((if ?b then _ else _) _) => destruct b end; [| | |by apply holds_ret];
      (apply holds_bind; [|by intros; apply holds_ret]).
    + apply on_ansi_keeps; [|done|done]. exact (conj (u16_half _) (conj Hi (conj Hl Hvs))).
    + apply keeps_modify; [|done]. destruct Ht as [H1 H2 H3 H4]. by split.
    + apply keeps_modify; [|done]. apply cursor_set; [done|]. split; apply u8_byte.
Qed.

Lemma putchar_typed c t g : 0 <= c < 128 -> well_typed t -> J g ->
  if out_of_stack t c then putchar c (t, g) = Fault else keeps (putchar c (t, g)).
Proof.
  intros Hc Ht Hg. pose proof (machine_typed c t g Ht Hg) as Hm. unfold putchar.
  destruct (out_of_stack t c); [by rewrite run_bind, Hm|]. apply holds_bind; [exact Hm|].
  intros e t1 g1 Ht1 Hg1. pose proof (wt_esc _ Ht1) as (Hv & Hi & Hl & Hvs).
  assert (H0 : half 0) by (unfold half; lia). assert (H8 : 0 <= 0 <= 8) by lia. destruct e.
  - apply holds_bind; [by apply on_ansi_keeps|]. intros _ t2 g2 Ht2 Hg2.
    apply holds_bind; [by apply print_char_keeps|]. intros _ t3 g3 Ht3 Hg3. by apply corrections_keep.
  - by apply holds_ret.
  - apply holds_bind; [|by intros; apply holds_ret]. apply on_ansi_keeps; [|done|done]. exact (conj H0 (conj Hi (conj Hl Hvs))).
  - apply holds_bind; [|by intros; apply holds_ret]. apply on_ansi_keeps; [|done|done]. exact (conj H0 (conj H8 (conj Hl Hvs))).
Qed.
(** A text, character by character. *)
Lemma feed_typed l : forall t g, Forall (fun c => 0 <= c < 128) l -> well_typed t -> J g ->
  match feed l (t, g) with
  | Done (_, (t', g')) => well_typed t' /\ J g'
  | Fault => exists pre c post t1 g1, l = pre ++ c :: post /\ feed pre (t, g) = Done (tt, (t1, g1)) /\
      well_typed t1 /\ out_of_stack t1 c = true
  | _ => False
  end.
Proof.
  induction l as [|c l IH]; intros t g Hl Ht Hg; [done|]. apply Forall_cons in Hl as [Hc Hl].
  pose proof (putchar_typed c t g Hc Ht Hg) as Hp. cbn [feed]. destruct (out_of_stack t c) eqn:Ho.
  - rewrite run_bind, Hp. exists [], c, l, t, g. done.
  - destruct Hp as (r & t1 & g1 & E & Ht1 & Hg1). rewrite (run_bind_done _ _ _ _ _ E).
    specialize (IH t1 g1 Hl Ht1 Hg1). destruct (feed l (t1, g1)) as [[? [t' g']]| | |]; try done.
    destruct IH as (pre & c' & post & t2 & g2 & -> & E2 & Ht2 & Ho2). exists (c :: pre), c', post, t2, g2.
    split; [done|]. split; [by rewrite (feed_cons _ _ _ _ _ E)|done].
Qed.

End putchar.

Lemma initial_typed : well_typed initial_tty.
Proof.
  assert (H0 : half 0) by (unfold half; lia).
  split; [unfold cursor_typed, byte; cbn; lia..|unfold colors_typed, rgb; cbn; unfold VGA_Black, VGA_White; lia|].
  split; [exact H0|]. split; [cbn; lia|]. split; [done|]. by apply Forall_replicate.
Qed.

(** ** The property *)

(** C39. The console is type safe, up to its stack of values.  Whatever ASCII
    text it is given, on a screen that can draw its characters, every variable
    stays within its C type (the cursor in bytes, the colours in 24 bits, at
    most eight values of 16 bits) and no call waits or panics; [putchar] leaves
    the program exactly in two cases, a ninth value of an escape sequence and a
    cursor command with a single value, and a text that does so has a first
    character where it happens, before which all was well. *)
Theorem console_type_safe {G} `{Screen G} (J : G -> Prop) t g : screen_ok J -> well_typed t -> J g ->
  (forall c, 0 <= c < 128 ->
     if out_of_stack t c then putchar c (t, g) = Fault
     else exists r t' g', putchar c (t, g) = Done (r, (t', g')) /\ well_typed t' /\ J g') /\
  forall text, Forall (fun c => 0 <= c < 128) text ->
    match feed text (t, g) with
    | Done (_, (t', g')) => well_typed t' /\ J g'
    | Fault => exists pre c post t1 g1, text = pre ++ c :: post /\ feed pre (t, g) = Done (tt, (t1, g1)) /\
        well_typed t1 /\ out_of_stack t1 c = true
    | _ => False
    end.
Proof.
  intros Hs Ht Hg. split; [intros c Hc; by apply putchar_typed|intros text Hl; by apply feed_typed].
Qed.

#[local] Existing Instance record_screen.
Lemma record_ok : screen_ok (G := list (Z * Z * Z * Z)) (fun _ => True).
Proof. split; intros; eexists; (split; [reflexivity|exact I]). Qed.

Definition nine_values : list Z := [ESC; 91] ++ chars "1;2;3;4;5;6;7;8;9m" ++ chars "A".

(** The ninth value is pushed by the [m]. *)
Lemma console_type_safe_witness :
  out_of_stack initial_tty 65 = false /\ well_typed initial_tty /\
  exists pre post, nine_values = pre ++ 109 :: post /\ feed (G := list (Z * Z * Z * Z)) nine_values (initial_tty, []) = Fault.
Proof.
  destruct (console_type_safe (fun _ : list (Z * Z * Z * Z) => True) initial_tty [] record_ok initial_typed I) as [_ Ht].
  assert (Ha : Forall (fun c => 0 <= c < 128) nine_values) by (by apply (bool_decide_unpack _); vm_compute).
  specialize (Ht nine_values Ha). split; [reflexivity|]. split; [exact initial_typed|].
  assert (Ef : feed (G := list (Z * Z * Z * Z)) nine_values (initial_tty, []) = Fault) by (vm_compute; reflexivity).
  rewrite Ef in Ht. destruct Ht as (pre & c & post & _).
  exists ([ESC; 91] ++ chars "1;2;3;4;5;6;7;8;9"), (chars "A"). split; [vm_compute; reflexivity|exact Ef].
Defined.
