(* ===== verification/Primes.v ===== *)
(** * The prime sieve (Applications/primes.cpp)

    The two tasks: [find_primes], which sieves a bitmap that starts with every
    bit set, and [show_primes], which reports its progress and then counts.
    They are proved against the [Bitmap] interface of Bitmaps.v, for any bound
    in place of PRIME_MAX_SQRT whose square fits a [size_t]. *)
From S2P Require Import Prelude Words Bitmaps.
From Stdlib Require Import ZArith Lia Bool Znumtheory.
From stdpp Require Import base list numbers.
#[local] Open Scope Z_scope.

Definition PRIME_MAX_SQRT : Z := 4000.
Definition PRIME_MAX : Z := PRIME_MAX_SQRT * PRIME_MAX_SQRT.

#[export] Instance prime_decision n : Decision (prime n) := prime_dec n.

Section sieve.
Context {B : Type} `{Bitmap B}.
(** PRIME_MAX_SQRT and PRIME_MAX. *)
Context (max_sqrt : Z).
Abbreviation max := (max_sqrt * max_sqrt).

(** The bitmap and [prime_current]. *)
Definition state : Type := B * Z.
Definition on_map {A} (m : K B A) : K state A := kzoom fst (fun b s => (b, s.2)) m.
Definition set_current (p : Z) : K state unit := kmodify (fun s => (s.1, p)).

(** [for (; j < PRIME_MAX; j += prime_current) map.Clear(j);] *)
Fixpoint clear_multiples (fuel : nat) (p j : Z) : K state unit :=
  if j <? max then
    match fuel with
    | O => kstuck
    | S fuel' => on_map (bm_Clear j) ;; clear_multiples fuel' p (u32 (j + p))
    end
  else mret tt.

(** The outer loop, with [prime_current] as its variable. *)
Fixpoint sieve_loop (fuel : nat) (inner : nat) : K state unit :=
  p ← kgets snd ;
  if p <? max_sqrt then
    match fuel with
    | O => kstuck
    | S fuel' =>
        t ← kread (fun s => bm_Test s.1 p) ;
        kwhen t (clear_multiples inner p (u32 (p * p))) ;;
        set_current (u32 (p + 1)) ;;
        sieve_loop fuel' inner
    end
  else mret tt.
Definition find_primes (fuel inner : nat) : K state unit := set_current 2 ;; sieve_loop fuel inner.

(** What [show_primes] prints. *)
Inductive report := Computing (pct : Z) | Found (count : Z) (upto : Z).

(** [count += map.Test(i)] for [n] values from [i] on. *)
Fixpoint count_set (n : nat) (i count : Z) (b : B) : outcome Z :=
  match n with
  | O => Done count
  | S n' => t ← bm_Test b i ; count_set n' (i + 1) (u32 (count + Z.b2z t)) b
  end.
(** The do loop, [seen] being the states found after each sleep of a second. *)
Fixpoint show_primes (seen : list state) : outcome (list report) :=
  match seen with
  | [] => Stuck
  | (b, current) :: seen' =>
      let pct := u32 (current * 100) / max_sqrt in
      if current <? max_sqrt then
        l ← show_primes seen' ; Done (Computing pct :: l)
      else
        count ← count_set (Z.to_nat (max - 2)) 2 0 b ;
        Done [Computing pct; Found count max]
  end.

(** ** Prime numbers *)

Lemma prime_divisor n : 2 <= n -> exists q, prime q /\ (q | n) /\ q <= n.
Proof.
  intros Hn. assert (H0 : 0 <= n) by lia. revert Hn. pattern n. apply Z_lt_induction; [|done].
  clear n H0. intros n IH Hn. destruct (prime_dec n) as [Hp|Hp].
  - exists n. split; [done|]. split; [exists 1; lia|lia].
  - destruct (not_prime_divide n) as (m & Hm & Hd); [lia|done|].
    destruct (IH m) as (q & Hq & Hqm & Hle); [lia|lia|]. exists q. split; [done|]. split; [by etransitivity|lia].
Qed.

(** A number is prime unless a prime divides it whose square is not above it. *)
Lemma prime_by_square n : 2 <= n ->
  prime n <-> forall q, prime q -> q * q <= n -> ~ (q | n).
Proof.
  intros Hn. split.
  - intros Hp q Hq Hsq Hd. pose proof (prime_ge_2 q Hq). destruct (prime_divisors n Hp q Hd) as [E|[E|[E|E]]]; nia.
  - intros Hall. destruct (prime_dec n) as [|Hnp]; [done|]. exfalso.
    destruct (not_prime_divide n ltac:(lia) Hnp) as (a & Ha & [b Hb]).
    assert (Hb1 : 1 < b) by nia. pose (c := Z.min a b).
    destruct (prime_divisor c) as (q & Hq & Hqc & Hle); [lia|].
    apply (Hall q Hq); [pose proof (prime_ge_2 q Hq); unfold c in *; nia|].
    etransitivity; [exact Hqc|]. unfold c. destruct (Z.min_spec a b) as [[_ ->]|[_ ->]]; [by exists b|exists a; lia].
Qed.

(** ** The loops *)

Context (Hmax : 2 <= max_sqrt < 2 ^ 16) (Hsize : bm_size = max).

(** Bit [i] after clearing the multiples of [p] from [p * p] up to below [j]. *)
Lemma clear_run fuel : forall p j b cur, bm_ok b -> 2 <= p < max_sqrt -> (p | j) -> 0 <= j < max + p ->
  (Z.to_nat (max - j) <= fuel)%nat ->
  exists b', clear_multiples fuel p j (b, cur) = Done (tt, (b', cur)) /\ bm_ok b' /\
    forall i, 0 <= i < max -> bm_bit b' i = true <-> bm_bit b i = true /\ ~ (j <= i /\ (p | i)).
Proof.
  induction fuel as [|fuel IH]; intros p j b cur Hb Hp Hj Hr Hf; cbn [clear_multiples];
    destruct (Z.ltb_spec j max) as [Hlt|Hge].
  - lia.
  - exists b. split; [done|]. split; [done|]. intros i Hi. split; [|tauto]. intros Hbit. split; [done|lia].
  - destruct (bm_Clear_spec b j Hb) as (b1 & E1 & Hb1 & Hbit1); [lia|].
    rewrite (run_bind_done _ _ _ tt (b1, cur)) by (unfold on_map, kzoom; cbn; by rewrite E1).
    rewrite u32_small by (unfold in_u32; nia).
    destruct (IH p (j + p) b1 cur Hb1 Hp) as (b2 & E2 & Hb2 & Hbit2); [apply Z.divide_add_r; [done|reflexivity]|lia|lia|].
    exists b2. split; [done|]. split; [done|]. intros i Hi. rewrite Hbit2, Hbit1 by lia.
    rewrite andb_true_iff, negb_true_iff, Z.eqb_neq. split.
    + intros [[Hne Hbi] Hno]. split; [done|]. intros [Hji Hpi]. apply Hno. split; [|done].
      destruct Hj as [x Hx], Hpi as [y Hy]. subst. assert (x < y) by nia. nia.
    + intros [Hbi Hno]. split; [split; [|done]|].
      * intros ->. apply Hno. split; [lia|done].
      * intros [Hji Hpi]. apply Hno. split; [lia|done].
  - exists b. split; [done|]. split; [done|]. intros i Hi. split; [|tauto]. intros Hbit. split; [done|lia].
Qed.

(** All primes below [p] have been sieved. *)
Definition sieved (p : Z) (b : B) : Prop := forall i, 2 <= i < max ->
  bm_bit b i = true <-> forall q, prime q -> q < p -> q * q <= i -> ~ (q | i).

Lemma sieve_run fuel inner : forall p b, bm_ok b -> 2 <= p <= max_sqrt -> sieved p b ->
  (Z.to_nat (max_sqrt - p) <= fuel)%nat -> (Z.to_nat max <= inner)%nat ->
  exists b', sieve_loop fuel inner (b, p) = Done (tt, (b', max_sqrt)) /\ bm_ok b' /\ sieved max_sqrt b'.
Proof.
  induction fuel as [|fuel IH]; intros p b Hb Hp Hs Hf Hin; cbn [sieve_loop];
    rewrite (run_bind_done _ _ (b, p) p (b, p)) by done; destruct (Z.ltb_spec p max_sqrt) as [Hlt|Hge].
  - lia.
  - assert (p = max_sqrt) as -> by lia. by exists b.
  - assert (Hpm : 2 <= p < max) by nia.
    rewrite (run_bind_done _ _ (b, p) (bm_bit b p) (b, p)) by (unfold kread; cbn; rewrite bm_Test_spec by (done || lia); done).
    assert (Hprime : bm_bit b p = true <-> prime p).
    { rewrite (Hs p Hpm), prime_by_square by lia. split; intros Hall q Hq; [|intros _]; intros Hsq.
      - apply Hall; [done| |done]. pose proof (prime_ge_2 q Hq). nia.
      - by apply Hall. }
    assert (Hround : exists b1, kwhen (bm_bit b p) (clear_multiples inner p (u32 (p * p))) (b, p) = Done (tt, (b1, p)) /\
      bm_ok b1 /\ sieved (p + 1) b1).
    { destruct (bm_bit b p) eqn:Ebit; cbn [kwhen].
      - assert (Hpp : prime p) by by apply Hprime. rewrite u32_small by (unfold in_u32; nia).
        destruct (clear_run inner p (p * p) b p Hb) as (b1 & E1 & Hb1 & Hbit1); [lia|by exists p|nia|lia|].
        exists b1. split; [done|]. split; [done|]. intros i Hi. rewrite Hbit1, (Hs i Hi) by lia. split.
        + intros [Hall Hno] q Hq Hqp Hsq Hd. destruct (decide (q = p)) as [->|Hne]; [by apply Hno|].
          apply (Hall q Hq); [lia|done|done].
        + intros Hall. split; [intros q Hq Hqp; apply Hall; [done|lia]|]. intros [Hsq Hd]. by apply (Hall p); [|lia|..].
      - exists b. split; [done|]. split; [done|]. intros i Hi. rewrite (Hs i Hi). split.
        + intros Hall q Hq Hqp. apply Hall; [done|]. destruct (decide (q = p)) as [->|]; [|lia].
          exfalso. by apply Hprime in Hq.
        + intros Hall q Hq Hqp. apply Hall; [done|lia]. }
    destruct Hround as (b1 & E1 & Hb1 & Hs1). rewrite (run_bind_done _ _ _ _ _ E1).
    rewrite u32_small by (unfold in_u32; lia).
    rewrite (run_bind_done _ _ _ tt (b1, p + 1)) by done. apply IH; [done|lia|done|lia|done].
  - assert (p = max_sqrt) as -> by lia. by exists b.
Qed.

(** The bitmap holds the primes. *)
Lemma sieved_primes b : sieved max_sqrt b -> forall i, 2 <= i < max -> bm_bit b i = true <-> prime i.
Proof.
  intros Hs i Hi. rewrite (Hs i Hi), prime_by_square by lia. split; intros Hall q Hq.
  - intros Hsq. apply Hall; [done| |done]. nia.
  - intros _. by apply Hall.
Qed.

Lemma count_run n : forall i c b, bm_ok b -> 0 <= i -> i + Z.of_nat n <= max -> 0 <= c <= i ->
  count_set n i c b = Done (c + count_true (fun k => bm_bit b (i + k)) n).
Proof.
  induction n as [|n IH]; intros i c b Hb Hi Hn Hc; cbn [count_set]; [by rewrite Z.add_0_r|].
  rewrite bm_Test_spec by (done || lia). cbn [mbind outcome_bind].
  rewrite u32_small by (unfold in_u32; destruct (bm_bit b i); cbn; nia).
  rewrite IH; [|done|lia|lia|destruct (bm_bit b i); cbn; lia]. f_equal.
  assert (E : forall m, Z.b2z (bm_bit b i) + count_true (fun k => bm_bit b (i + 1 + k)) m = count_true (fun k => bm_bit b (i + k)) (S m)).
  { clear. induction m as [|m IH]; cbn [count_true] in *; [change (Z.of_nat 0) with 0; rewrite !Z.add_0_r; lia|].
    replace (i + Z.of_nat (S m)) with (i + 1 + Z.of_nat m) by lia. lia. }
  rewrite <- E. lia.
Qed.

(** The number of primes from 2 on among [n] numbers. *)
Definition primes_from_2 (n : nat) : Z := count_true (fun k => bool_decide (prime (2 + k))) n.

Lemma show_run seen b : bm_ok b -> sieved max_sqrt b ->
  Forall (fun s : state => 0 <= s.2 < max_sqrt) seen ->
  show_primes (seen ++ [(b, max_sqrt)]) =
  Done (((fun s => Computing (s.2 * 100 / max_sqrt)) <$> seen) ++ [Computing 100; Found (primes_from_2 (Z.to_nat (max - 2))) max]).
Proof.
  intros Hb Hs Hseen. induction Hseen as [|[b0 cur] seen Hcur _ IH]; cbn [show_primes app fmap list_fmap].
  - destruct (Z.ltb_spec max_sqrt max_sqrt); [lia|]. rewrite count_run by (done || lia). cbn [mbind outcome_bind].
    rewrite u32_small, (Z.mul_comm max_sqrt 100), Z.div_mul by (unfold in_u32; lia). do 4 f_equal. unfold primes_from_2.
    rewrite Z.add_0_l. apply count_true_ext. intros k Hk. apply eq_true_iff_eq.
    rewrite bool_decide_eq_true. apply sieved_primes; [done|lia].
  - cbn [snd] in *. destruct (Z.ltb_spec cur max_sqrt); [|lia]. rewrite IH. cbn [mbind outcome_bind].
    by rewrite u32_small by (unfold in_u32; lia).
Qed.
End sieve.


(** C38. The sieve is right: from a bitmap with every bit set, [find_primes]
    ends with [prime_current] at its bound and the bits from 2 on that are set
    are exactly the primes; and [show_primes], whatever progress it sees
    before, then reports 100 per cent and the number of primes. *)
Theorem find_primes_correct {B} `{Bitmap B} max_sqrt (b : B) current fuel inner seen :
  2 <= max_sqrt < 2 ^ 16 -> bm_size = max_sqrt * max_sqrt -> bm_ok b ->
  (forall i, 0 <= i < bm_size -> bm_bit b i = true) ->
  (Z.to_nat max_sqrt <= fuel)%nat -> (Z.to_nat (max_sqrt * max_sqrt) <= inner)%nat ->
  Forall (fun s : state => 0 <= s.2 < max_sqrt) seen ->
  exists b', find_primes max_sqrt fuel inner (b, current) = Done (tt, (b', max_sqrt)) /\
    (forall i, 2 <= i < max_sqrt * max_sqrt -> bm_bit b' i = true <-> prime i) /\
    show_primes max_sqrt (seen ++ [(b', max_sqrt)]) =
      Done (((fun s => Computing (s.2 * 100 / max_sqrt)) <$> seen) ++
            [Computing 100; Found (primes_from_2 (Z.to_nat (max_sqrt * max_sqrt - 2))) (max_sqrt * max_sqrt)]).
Proof.
  intros Hm Hsz Hb Hall Hf Hin Hseen.
  destruct (sieve_run max_sqrt Hm Hsz fuel inner 2 b Hb) as (b' & E & Hb' & Hs); [lia| |lia|done|].
  { intros i Hi. rewrite Hall by lia. split; [|done]. intros _ q Hq Hlt. pose proof (prime_ge_2 q Hq). lia. }
  exists b'. split; [|split].
  - unfold find_primes. by rewrite (run_bind_done _ _ (b, current) tt (b, 2)).
  - by apply sieved_primes.
  - by apply show_run.
Qed.

(** The kernel's constants are within the bounds of the theorem. *)
Lemma kernel_bounds : 2 <= PRIME_MAX_SQRT < 2 ^ 16 /\ 32 <= PRIME_MAX < 2 ^ 32 /\ PRIME_MAX mod 32 = 0.
Proof. repeat split; vm_compute; congruence. Qed.

Lemma demo_range : 32 <= 64 < 2 ^ 32.
Proof. split; vm_compute; congruence. Qed.
#[local] Instance demo_bitmap : Bitmap (Bitset.Bitset 64) := bitset_bitmap 64 demo_range.
Definition demo_map : Bitset.Bitset 64 := Bitset.Bitset_init true 0.

Lemma find_primes_correct_witness :
  exists b', find_primes 8 8 64 (demo_map, 0) = Done (tt, (b', 8)) /\ (bm_bit b' 61 = true <-> prime 61).
Proof.
  destruct (find_primes_correct 8 demo_map 0 8 64 []) as (b' & E & Hp & _).
  - split; vm_compute; congruence.
  - reflexivity.
  - apply Bitset.wf_init; [exact demo_range|reflexivity|split; vm_compute; congruence].
  - intros i Hi. apply Bitset.bit_init; [exact Hi|reflexivity].
  - lia.
  - lia.
  - apply Forall_nil_2.
  - exists b'. split; [exact E|]. apply Hp. split; vm_compute; congruence.
Defined.

(** Sieving up to 64 finds eighteen primes. *)
Example demo_sieve :
  show_primes 8 [(demo_map, 3)] = Stuck /\
  (s ← find_primes 8 8 64 (demo_map, 0) ; show_primes 8 [(demo_map, 3); s.2]) =
    Done [Computing 37; Computing 100; Found 18 64].
Proof. split; vm_compute; reflexivity. Qed.
