(* ===== verification/Interrupts.v ===== *)
(** * Descriptor tables, interrupts and simple devices

    The global descriptor table (gdt.cpp), the interrupt descriptor table
    (idt.cpp), the handlers of interrupts (isr.cpp), and the devices that are
    programmed through ports: interval timer (timer.cpp), PC speaker
    (spkr.cpp) and the interrupt of the real time clock (rtc.cpp).  What the
    processor makes of the tables is stated from its manual. *)
From S2P Require Import Prelude Words PageTypes.
From Stdlib Require Import ZArith Lia Bool.
From stdpp Require Import base strings list numbers.
#[local] Open Scope Z_scope.

(** ** The global descriptor table *)
Module GDT.

Definition ARCH_GDT_MAX_ENTRIES : Z := 5.

(** The parts of a limit and of a base; the bit-fields cut them off. *)
Definition limit_low_of (value : Z) : Z := value mod 2 ^ 16.
Definition limit_high_of (value : Z) : Z := value / 2 ^ 16 mod 2 ^ 4.
Definition base_low_of (value : Z) : Z := value mod 2 ^ 24.
Definition base_high_of (value : Z) : Z := value / 2 ^ 24 mod 2 ^ 8.

Record Entry := mkEntry {
  limit_low : Z; base_low : Z; accessed : Z; rw : Z; dc : Z; executable : Z; system : Z; privilege : Z; present : Z;
  limit_high : Z; reserved : Z; longMode : Z; size : Z; granulatity : Z; base_high : Z
}.
Definition Entry_widths : list Z := [16; 24; 1; 1; 1; 1; 1; 2; 1; 4; 1; 1; 1; 1; 8].
(** The eight bytes of an entry as a number. *)
Definition Entry_word (e : Entry) : Z := pack Entry_widths
  [limit_low e; base_low e; accessed e; rw e; dc e; executable e; system e; privilege e; present e;
   limit_high e; reserved e; longMode e; size e; granulatity e; base_high e].

(** The initializers of [init]: they differ in these values only. *)
Definition entry (limit base rw executable system privilege present size granulatity : Z) : Entry :=
  mkEntry (limit_low_of limit) (base_low_of base) 0 rw 0 executable system privilege present
    (limit_high_of limit) 0 0 size granulatity (base_high_of base).

(** [init]: the table, and what is loaded into the GDT register. *)
Definition gdt : list Entry := [
  entry 0 0 0 0 0 0 0 0 0;
  entry 0x000FFFFF 0 1 1 1 0 1 1 1;
  entry 0x000FFFFF 0 1 0 1 0 1 1 1;
  entry 0x000FFFFF 0 1 1 1 3 1 1 1;
  entry 0x000FFFFF 0 1 0 1 3 1 1 1 ].
Record GDTR := mkGDTR { gdtr_size : Z; gdtr_base : Z }.
Definition gdtr (address : Z) : GDTR := mkGDTR (u16 (8 * ARCH_GDT_MAX_ENTRIES - 1)) (u32 address).

End GDT.

(** ** The interrupt descriptor table *)
Module IDT.

Definition ARCH_IDT_MAX_ENTRIES : Z := 256.
Definition INTERRUPT_GATE_32_BIT : Z := 0xE.

Record Segment := mkSegment { s_privilege : Z; s_table : Z; s_index : Z }.
Record Gate := mkGate {
  offset_low : Z; selector : Segment; g_reserved : Z; g_type : Z; g_offset : Z; g_privilege : Z; g_present : Z; offset_high : Z
}.
Definition Gate_widths : list Z := [16; 2; 1; 13; 8; 4; 1; 2; 1; 16].
Definition Gate_word (g : Gate) : Z := pack Gate_widths
  [offset_low g; s_privilege (selector g); s_table (selector g); s_index (selector g); g_reserved g;
   g_type g; g_offset g; g_privilege g; g_present g; offset_high g].

(** Static storage is zero. *)
Definition zero_gate : Gate := mkGate 0 (mkSegment 0 0 0) 0 0 0 0 0 0.

Definition new_gate (handler_addr : Z) : Gate :=
  mkGate (handler_addr mod 2 ^ 16) (mkSegment 0 0 1) 0 INTERRUPT_GATE_32_BIT 0 0 1 (handler_addr / 2 ^ 16 mod 2 ^ 16).

Record IDTR := mkIDTR { idtr_size : Z; idtr_base : Z }.
Definition idtr (address : Z) : IDTR := mkIDTR (u16 (8 * ARCH_IDT_MAX_ENTRIES - 1)) (u32 address).

End IDT.

(** ** The platform

    The tables in memory, the registered handlers, and the bytes written to
    ports, the last one first; [reads] counts the bytes read. *)
Record platform := mkPlatform {
  idt : list IDT.Gate; loaded : option IDT.IDTR; interruptHandlers : list (option Z); ports : list (Z * Z); reads : nat
}.
Definition boot_platform : platform :=
  mkPlatform (replicate 256 IDT.zero_gate) None (replicate 256 None) [] 0.

Definition writeByte (port value : Z) : K platform unit := kmodify (fun s =>
  mkPlatform (idt s) (loaded s) (interruptHandlers s) ((port, u8 value) :: ports s) (reads s)).
Fixpoint writeBytes (l : list (Z * Z)) : K platform unit :=
  match l with [] => mret tt | (p, v) :: l' => writeByte p v ;; writeBytes l' end.

(** [IDT::setGate]. *)
Definition setGate (n handler_addr : Z) : K platform unit := fun s =>
  if (0 <=? n) && (n <? IDT.ARCH_IDT_MAX_ENTRIES)
  then Done (tt, mkPlatform (<[Z.to_nat n := IDT.new_gate (u32 handler_addr)]> (idt s)) (loaded s) (interruptHandlers s) (ports s) (reads s))
  else Fault.

(** [IDT::init]. *)
Definition load_idt (address : Z) : K platform unit := kmodify (fun s =>
  mkPlatform (idt s) (Some (IDT.idtr address)) (interruptHandlers s) (ports s) (reads s)).

Module Interrupts.

Definition ARCH_EXCEPTION_NUM : Z := 32.
Definition ARCH_INTERRUPT_NUM : Z := 16.
Definition INTERRUPT_0 : Z := 0x20.
Definition INTERRUPT_8 : Z := 0x28.

(** The remapping of the two interrupt controllers. *)
Definition remap : list (Z * Z) :=
  [(0x20, 0x11); (0xA0, 0x11); (0x21, 0x20); (0xA1, 0x28); (0x21, 0x04); (0xA1, 0x02);
   (0x21, 0x01); (0xA1, 0x01); (0x21, 0x0); (0xA1, 0x0)].

Section stubs.
(** The addresses of the assembly stubs, and of the table. *)
Context (exceptionHandlerStubs interruptHandlerStubs : Z -> Z) (idt_address : Z).

Definition init : K platform unit :=
  kfor 32 0 1 (fun exception => setGate exception (exceptionHandlerStubs exception)) ;;
  writeBytes remap ;;
  kfor 16 0 1 (fun interrupt => setGate (32 + interrupt) (interruptHandlerStubs interrupt)) ;;
  load_idt idt_address.
End stubs.

(** The index is a [uint8_t], and the table has 256 places. *)
Definition registerHandler (interrupt handler : Z) : K platform unit := kmodify (fun s =>
  mkPlatform (idt s) (loaded s) (<[Z.to_nat (u8 interrupt) := Some handler]> (interruptHandlers s)) (ports s) (reads s)).

(** The function the stubs call, with the number they push: end of interrupt,
    and the handler that is called, if there is one. *)
Definition interruptHandler (int_num : Z) : K platform (option Z) :=
  kwhen (0x28 <=? int_num) (writeByte 0xA0 0x20) ;;
  writeByte 0x20 0x20 ;;
  kread (fun s => match interruptHandlers s !! Z.to_nat int_num with Some h => Done h | None => Fault end).

Definition exceptionHandler : K platform unit := kpanic "exception".

End Interrupts.

(** ** Interval timer, speaker and clock interrupt *)

Definition PIT_RATE : Z := 1193180.
Definition TIMER_COMMAND_PORT : Z := 0x43.
Definition TIMER_DATA_PORT : Z := 0x40.

Section devices.
(** The byte that the [n]-th read finds at a port; the addresses of the two
    callbacks. *)
Context (port_in : nat -> Z -> Z) (timer_callback rtc_callback : Z).

Definition readByte (port : Z) : K platform Z := fun s =>
  Done (u8 (port_in (reads s) port), mkPlatform (idt s) (loaded s) (interruptHandlers s) (ports s) (S (reads s))).

Definition quotient (freq : Z) : outcome Z := if freq =? 0 then Fault else Done (PIT_RATE / freq).

Definition timer_init (freq : Z) : K platform unit :=
  Interrupts.registerHandler Interrupts.INTERRUPT_0 timer_callback ;;
  divisor ← kread (fun _ => quotient freq) ;
  let low := u8 (Z.land divisor 0xFF) in
  let high := u8 (Z.land (Z.shiftr divisor 8) 0xFF) in
  writeByte TIMER_COMMAND_PORT 0x36 ;;
  writeByte TIMER_DATA_PORT low ;;
  writeByte TIMER_DATA_PORT high.

Definition spkr_tone (freq : Z) : K platform unit :=
  div ← kread (fun _ => quotient freq) ;
  writeByte 0x43 0xb6 ;;
  writeByte 0x42 (u8 div) ;;
  writeByte 0x42 (u8 (Z.shiftr div 8)) ;;
  tmp ← readByte 0x61 ;
  kwhen (negb (tmp =? Z.lor tmp 3)) (writeByte 0x61 (Z.lor tmp 3)).

Definition spkr_stop : K platform unit :=
  v ← readByte 0x61 ;
  writeByte 0x61 (Z.land v 0xFC).

(** [while (timer_tick < final);], on the values the loop finds. *)
Fixpoint sleep_loop (final : Z) (ticks : list Z) : outcome (list Z) :=
  match ticks with
  | [] => Stuck
  | t :: ticks' => if t <? final then sleep_loop final ticks' else Done ticks'
  end.
Definition sleep (ms : Z) (ticks : list Z) : outcome (list Z) :=
  match ticks with
  | [] => Stuck
  | start :: ticks' => sleep_loop (u32 (start + ms)) ticks'
  end.

Definition spkr_beep (freq ms : Z) (ticks : list Z) : K platform unit :=
  spkr_tone freq ;;
  kread (fun _ => sleep ms ticks) ;;
  spkr_stop.

(** [RTC::init]. *)
Definition rtc_init : K platform unit :=
  writeByte 0x70 0x8A ;;
  writeByte 0x71 0x20 ;;
  writeByte 0x70 0x8B ;;
  prev ← readByte 0x71 ;
  writeByte 0x70 0x8B ;;
  writeByte 0x71 (Z.lor prev 0x40) ;;
  Interrupts.registerHandler Interrupts.INTERRUPT_8 rtc_callback.

End devices.

(** ** What the processor makes of the tables *)
Module CPU.

(** A code or data segment, as the descriptor formats of the manual say. *)
Record segment := mkSegment { base : Z; last : Z; code : bool; writable : bool; dpl : Z; bits32 : bool }.
Definition field (lo n w : Z) : Z := Z.land (Z.shiftr w lo) (Z.ones n).
Definition decode_segment (w : Z) : option segment :=
  if Z.testbit w 47 && Z.testbit w 44 then
    let limit := Z.lor (field 0 16 w) (Z.shiftl (field 48 4 w) 16) in
    Some (mkSegment (Z.lor (field 16 24 w) (Z.shiftl (field 56 8 w) 24))
            (if Z.testbit w 55 then Z.lor (Z.shiftl limit 12) 0xFFF else limit)
            (Z.testbit w 43) (Z.testbit w 41) (field 45 2 w) (Z.testbit w 54))
  else None.

(** A gate: the code it leads to, by selector and offset. *)
Record target := mkTarget { to_selector : Z; to_offset : Z; to_type : Z; to_dpl : Z }.
Definition decode_gate (w : Z) : option target :=
  if Z.testbit w 47
  then Some (mkTarget (field 16 16 w) (Z.lor (field 0 16 w) (Z.shiftl (field 48 16 w) 16)) (field 40 4 w) (field 45 2 w))
  else None.

(** The segment a selector names in the global table. *)
Definition select (table : list Z) (sel : Z) : option segment :=
  if Z.testbit sel 2 then None else table !! Z.to_nat (sel / 8) ≫= decode_segment.

(** An interrupt through a present 32-bit interrupt gate into a flat code
    segment of ring 0: the address where execution goes on. *)
Definition deliver (gdt idt : list Z) (vector : Z) : option Z :=
  t ← idt !! Z.to_nat vector ≫= decode_gate ;
  s ← select gdt (to_selector t) ;
  if code s && (dpl s =? 0) && bits32 s && (to_type t =? 0xE) && (to_offset t <=? last s)
  then Some (base s + to_offset t) else None.

End CPU.

(** ** Gates *)

Lemma lor_parts a b n : 0 <= n -> 0 <= a < 2 ^ n -> 0 <= b -> Z.lor a (Z.shiftl b n) = a + b * 2 ^ n.
Proof.
  intros Hn Ha Hb. assert (E : Z.land a (Z.shiftl b n) = 0).
  { apply Z.bits_inj'. intros i Hi. rewrite Z.land_spec, Z.testbit_0_l. destruct (decide (i < n)).
    - rewrite Z.shiftl_spec_low by lia. apply andb_false_r.
    - by rewrite (testbit_above n) by lia. }
  rewrite <- Z.lxor_lor, <- Z.add_nocarry_lxor, Z.shiftl_mul_pow2 by done. done.
Qed.

Lemma field_div lo n w : 0 <= lo -> 0 <= n -> CPU.field lo n w = w / 2 ^ lo mod 2 ^ n.
Proof. intros Hl Hn. unfold CPU.field. by rewrite Z.land_ones, Z.shiftr_div_pow2 by done. Qed.

Lemma gate_word h : 0 <= h < 2 ^ 32 ->
  IDT.Gate_word (IDT.new_gate h) = h mod 65536 + 65536 * 8 + 2 ^ 40 * 14 + 2 ^ 47 + 2 ^ 48 * (h / 65536).
Proof.
  intros Hh. unfold IDT.Gate_word, IDT.new_gate, IDT.Gate_widths.
  cbn [pack IDT.offset_low IDT.selector IDT.g_reserved IDT.g_type IDT.g_offset IDT.g_privilege IDT.g_present IDT.offset_high
       IDT.s_privilege IDT.s_table IDT.s_index].
  change (2 ^ 16) with 65536. rewrite !Zmod_mod. rewrite (Z.mod_small (h / 65536)) by (Z.to_euclidean_division_equations; lia).
  change (0 mod 2 ^ 2) with 0. change (0 mod 2 ^ 1) with 0. change (1 mod 2 ^ 13) with 1. change (0 mod 2 ^ 8) with 0.
  change (IDT.INTERRUPT_GATE_32_BIT mod 2 ^ 4) with 14. change (1 mod 2 ^ 1) with 1. lia.
Qed.

(** The processor finds the handler of a gate, in ring 0, by selector 8. *)
Lemma gate_decoded h : 0 <= h < 2 ^ 32 ->
  CPU.decode_gate (IDT.Gate_word (IDT.new_gate h)) = Some (CPU.mkTarget 8 h 0xE 0).
Proof.
  intros Hh. rewrite gate_word by done.
  assert (Hl : 0 <= h mod 65536 < 65536) by (apply Z.mod_pos_bound; lia).
  assert (Hu : 0 <= h / 65536 < 65536) by (Z.to_euclidean_division_equations; lia).
  assert (Eh : h = h mod 65536 + h / 65536 * 65536) by (rewrite Z.mul_comm, Z.add_comm; by apply Z.div_mod).
  remember (h mod 65536) as a eqn:Ea. remember (h / 65536) as b eqn:Eb. clear Ea Eb.
  change (2 ^ 40) with 1099511627776. change (2 ^ 47) with 140737488355328. change (2 ^ 48) with 281474976710656.
  unfold CPU.decode_gate. rewrite Z.testbit_eqb, !field_div by lia.
  change (2 ^ 47) with 140737488355328. change (2 ^ 16) with 65536. change (2 ^ 0) with 1. change (2 ^ 48) with 281474976710656.
  change (2 ^ 40) with 1099511627776. change (2 ^ 45) with 35184372088832. change (2 ^ 4) with 16. change (2 ^ 2) with 4.
  set (w := a + 65536 * 8 + 1099511627776 * 14 + 140737488355328 + 281474976710656 * b).
  assert (E47 : w / 140737488355328 = 1 + 2 * b) by (unfold w; Z.to_euclidean_division_equations; lia).
  assert (E48 : w / 281474976710656 = b) by (unfold w; Z.to_euclidean_division_equations; lia).
  assert (E45 : w / 35184372088832 = 4 + 8 * b) by (unfold w; Z.to_euclidean_division_equations; lia).
  assert (E40 : w / 1099511627776 = 14 + 16 * (8 + 16 * b)) by (unfold w; Z.to_euclidean_division_equations; lia).
  assert (E16 : w / 65536 mod 65536 = 8) by (unfold w; clear - Hl Hu; Z.to_euclidean_division_equations; lia).
  assert (E0 : w / 1 mod 65536 = a) by (unfold w; rewrite Z.div_1_r; clear - Hl Hu; Z.to_euclidean_division_equations; lia).
  rewrite E47, E48, E45, E40, E16, E0. replace ((1 + 2 * b) mod 2 =? 1) with true
    by (symmetry; apply Z.eqb_eq; Z.to_euclidean_division_equations; lia).
  rewrite (Z.mod_small b), lor_parts by lia. f_equal. f_equal; [|Z.to_euclidean_division_equations; lia..].
  by rewrite Eh.
Qed.

(** The segments of the table: all start at 0 and end at the last byte. *)
Lemma gdt_segments r : 0 <= r < 4 ->
  let table := GDT.Entry_word <$> GDT.gdt in
  let flat c d := Some (CPU.mkSegment 0 0xFFFFFFFF c true d true) in
  CPU.select table (0x00 + r) = None /\
  CPU.select table (0x08 + r) = flat true 0 /\ CPU.select table (0x10 + r) = flat false 0 /\
  CPU.select table (0x18 + r) = flat true 3 /\ CPU.select table (0x20 + r) = flat false 3.
Proof. intros Hr. assert (E : r = 0 \/ r = 1 \/ r = 2 \/ r = 3) by lia. destruct_or! E; subst; vm_compute; done. Qed.

Lemma setGate_run n h s : 0 <= n < 256 -> 0 <= h < 2 ^ 32 ->
  setGate n h s = Done (tt, mkPlatform (<[Z.to_nat n := IDT.new_gate h]> (idt s)) (loaded s) (interruptHandlers s) (ports s) (reads s)).
Proof.
  intros Hn Hh. unfold setGate, IDT.ARCH_IDT_MAX_ENTRIES. destruct (Z.leb_spec 0 n), (Z.ltb_spec n 256); try lia.
  cbn [andb]. by rewrite u32_small.
Qed.

(** A run of gates from [from] on. *)
Lemma gates_run stubs from n s : 0 <= from -> from + Z.of_nat n <= 256 -> length (idt s) = 256%nat ->
  (forall i, 0 <= i < Z.of_nat n -> 0 <= stubs i < 2 ^ 32) ->
  exists l, kfor n 0 1 (fun i => setGate (from + i) (stubs i)) s =
      Done (tt, mkPlatform l (loaded s) (interruptHandlers s) (ports s) (reads s)) /\ length l = 256%nat /\
    forall v, 0 <= v < 256 -> l !! Z.to_nat v =
      if (from <=? v) && (v <? from + Z.of_nat n) then Some (IDT.new_gate (stubs (v - from))) else idt s !! Z.to_nat v.
Proof.
  intros Hf Hn Hl Hst.
  destruct (kfor_inv (fun i s' => exists l, s' = mkPlatform l (loaded s) (interruptHandlers s) (ports s) (reads s) /\
      length l = 256%nat /\ forall v, 0 <= v < 256 -> l !! Z.to_nat v =
        if (from <=? v) && (v <? from + i) then Some (IDT.new_gate (stubs (v - from))) else idt s !! Z.to_nat v)
    n 0 1 (fun i => setGate (from + i) (stubs i)) s) as (s' & E & l & -> & Hlen & Hlk).
  - exists (idt s). split; [by destruct s|]. split; [done|]. intros v Hv.
    destruct (Z.leb_spec from v), (Z.ltb_spec v (from + 0)); try lia; done.
  - intros k s' Hk (l & -> & Hlen & Hlk). replace (0 + k * 1) with k in * by lia. replace (0 + (k + 1) * 1) with (k + 1) by lia.
    eexists. split; [apply setGate_run; [lia|by apply Hst]|]. eexists. split; [reflexivity|].
    split; [by rewrite length_insert|]. intros v Hv. destruct (decide (v = from + k)) as [->|Hne].
    + rewrite list_lookup_insert_eq by (cbn [idt]; lia). destruct (Z.leb_spec from (from + k)), (Z.ltb_spec (from + k) (from + (k + 1))); try lia.
      cbn [andb]. by replace (from + k - from) with k by lia.
    + rewrite list_lookup_insert_ne by lia. cbn [idt]. rewrite Hlk by done.
      destruct (Z.leb_spec from v), (Z.ltb_spec v (from + k)), (Z.ltb_spec v (from + (k + 1))); try lia; done.
  - exists l. split; [done|]. split; [done|]. intros v Hv. rewrite Hlk by done. by replace (0 + Z.of_nat n * 1) with (Z.of_nat n) by lia.
Qed.

Lemma writeBytes_run l s : writeBytes l s =
  Done (tt, mkPlatform (idt s) (loaded s) (interruptHandlers s) (rev ((fun pv => (pv.1, u8 pv.2)) <$> l) ++ ports s) (reads s)).
Proof.
  revert s. induction l as [|[p v] l IH]; intros s; cbn [writeBytes]; [by destruct s|].
  unfold writeByte. rewrite (run_bind_done _ _ _ tt _ eq_refl), IH. cbn. by rewrite <- app_assoc.
Qed.

(** Every exception and interrupt is delivered to its stub. *)
Lemma vectors_run exc int address s :
  length (idt s) = 256%nat -> (forall i, 0 <= exc i < 2 ^ 32) -> (forall i, 0 <= int i < 2 ^ 32) -> 0 <= address < 2 ^ 32 ->
  let table := GDT.Entry_word <$> GDT.gdt in
  exists s', Interrupts.init exc int address s = Done (tt, s') /\
    (forall v, 0 <= v < 32 -> CPU.deliver table (IDT.Gate_word <$> idt s') v = Some (exc v)) /\
    (forall v, 32 <= v < 48 -> CPU.deliver table (IDT.Gate_word <$> idt s') v = Some (int (v - 32))) /\
    (forall v, 48 <= v < 256 -> idt s' !! Z.to_nat v = idt s !! Z.to_nat v) /\
    loaded s' = Some (IDT.mkIDTR 2047 address) /\
    ports s' = rev Interrupts.remap ++ ports s /\ interruptHandlers s' = interruptHandlers s.
Proof.
  intros Hl He Hi Ha table.
  destruct (gates_run exc 0 32 s) as (l1 & E1 & Hl1 & Hk1); [lia|lia|done|by intros; apply He|].
  destruct (gates_run int 32 16 (mkPlatform l1 (loaded s) (interruptHandlers s) (rev Interrupts.remap ++ ports s) (reads s)))
    as (l2 & E2 & Hl2 & Hk2); [lia|lia|done|by intros; apply Hi|]. cbn [idt] in Hk2.
  exists (mkPlatform l2 (Some (IDT.mkIDTR 2047 address)) (interruptHandlers s) (rev Interrupts.remap ++ ports s) (reads s)).
  assert (Hdeliver : forall v h, 0 <= h < 2 ^ 32 -> l2 !! Z.to_nat v = Some (IDT.new_gate h) ->
    CPU.deliver table (IDT.Gate_word <$> l2) v = Some h).
  { intros v h Hh Elk. unfold CPU.deliver. rewrite list_lookup_fmap, Elk. cbn [fmap option_fmap option_map mbind option_bind].
    rewrite gate_decoded by done. cbn [mbind option_bind CPU.to_selector].
    destruct (gdt_segments 0) as (_ & H1 & _); [lia|]. assert (H8 : CPU.select table 8 = Some (CPU.mkSegment 0 0xFFFFFFFF true true 0 true)) by exact H1.
    rewrite H8. cbn [mbind option_bind CPU.code CPU.dpl CPU.bits32 CPU.to_type CPU.to_offset CPU.last CPU.base Z.eqb Pos.eqb andb].
    destruct (Z.leb_spec h 0xFFFFFFFF); [done|lia]. }
  split; [|split; [|split; [|split; [|done]]]].
  - unfold Interrupts.init. rewrite (run_bind_done _ _ _ _ _ E1). rewrite (run_bind_done _ _ _ _ _ (writeBytes_run _ _)).
    change ((fun pv => (pv.1, u8 pv.2)) <$> Interrupts.remap) with Interrupts.remap. cbn [idt loaded interruptHandlers ports reads].
    rewrite (run_bind_done _ _ _ _ _ E2). unfold load_idt, kmodify, IDT.idtr. cbn [idt loaded interruptHandlers ports reads].
    by rewrite (u32_small address).
  - intros v Hv. apply Hdeliver; [apply He|]. rewrite Hk2, Hk1 by lia.
    destruct (Z.leb_spec 32 v), (Z.leb_spec 0 v), (Z.ltb_spec v (0 + Z.of_nat 32)); try lia; cbn [andb]. by rewrite Z.sub_0_r.
  - intros v Hv. apply Hdeliver; [apply Hi|]. rewrite Hk2 by lia.
    destruct (Z.leb_spec 32 v), (Z.ltb_spec v (32 + Z.of_nat 16)); try lia. done.
  - intros v Hv. cbn [idt]. rewrite Hk2, Hk1 by lia.
    destruct (Z.ltb_spec v (32 + Z.of_nat 16)), (Z.ltb_spec v (0 + Z.of_nat 32)); try lia. by rewrite !andb_false_r.
Qed.

(** ** The properties *)

(** After [GDT::init] and [Interrupts::init] the processor, which decodes
    the bytes of the tables as its manual says, finds code and data segments
    for rings 0 and 3 that span the whole address space, and takes every
    exception and every interrupt of the two controllers, which are remapped to
    the vectors from 32 on, to the stub of its number in ring 0; the other
    gates stay as they were. *)
Theorem interrupts_reach_stubs exc int address s :
  length (idt s) = 256%nat -> (forall i, 0 <= exc i < 2 ^ 32) -> (forall i, 0 <= int i < 2 ^ 32) -> 0 <= address < 2 ^ 32 ->
  let table := GDT.Entry_word <$> GDT.gdt in
  let flat c d := Some (CPU.mkSegment 0 0xFFFFFFFF c true d true) in
  (CPU.select table 0x08 = flat true 0 /\ CPU.select table 0x10 = flat false 0 /\
   CPU.select table 0x1B = flat true 3 /\ CPU.select table 0x23 = flat false 3) /\
  exists s', Interrupts.init exc int address s = Done (tt, s') /\
    (forall v, 0 <= v < 32 -> CPU.deliver table (IDT.Gate_word <$> idt s') v = Some (exc v)) /\
    (forall v, 32 <= v < 48 -> CPU.deliver table (IDT.Gate_word <$> idt s') v = Some (int (v - 32))) /\
    (forall v, 48 <= v < 256 -> idt s' !! Z.to_nat v = idt s !! Z.to_nat v) /\
    loaded s' = Some (IDT.mkIDTR 2047 address) /\
    ports s' = rev Interrupts.remap ++ ports s /\ interruptHandlers s' = interruptHandlers s.
Proof.
  intros Hl He Hi Ha table flat. split.
  { destruct (gdt_segments 0) as (_ & H1 & H2 & _); [lia|]. destruct (gdt_segments 3) as (_ & _ & _ & H3 & H4); [lia|].
    repeat split; assumption. }
  by apply vectors_run.
Qed.

Lemma interrupt_run v s : 0 <= v < 256 -> length (interruptHandlers s) = 256%nat ->
  Interrupts.interruptHandler v s =
  Done (nth (Z.to_nat v) (interruptHandlers s) None,
        mkPlatform (idt s) (loaded s) (interruptHandlers s)
          ((0x20, 0x20) :: (if 0x28 <=? v then [(0xA0, 0x20)] else []) ++ ports s) (reads s)).
Proof.
  intros Hv Hl. destruct (lookup_lt_is_Some_2 (interruptHandlers s) (Z.to_nat v)) as [h Eh]; [lia|].
  unfold Interrupts.interruptHandler, writeByte, kmodify, kwhen, kread. rewrite (nth_lookup_Some _ _ None _ Eh).
  destruct (0x28 <=? v); krun; cbn [interruptHandlers]; by rewrite Eh.
Qed.

(** The timer is programmed with the divisor of the frequency. *)
Lemma timer_init_run callback freq s : 19 <= freq <= PIT_RATE -> exists low high,
  timer_init callback freq s = Done (tt, mkPlatform (idt s) (loaded s) (<[32%nat := Some callback]> (interruptHandlers s))
    ((TIMER_DATA_PORT, high) :: (TIMER_DATA_PORT, low) :: (TIMER_COMMAND_PORT, 0x36) :: ports s) (reads s)) /\
  0 <= low < 256 /\ 0 <= high < 256 /\ low + 256 * high = PIT_RATE / freq.
Proof.
  intros Hf. assert (Hd : 1 <= PIT_RATE / freq < 2 ^ 16) by (unfold PIT_RATE in *; Z.to_euclidean_division_equations; nia).
  exists ((PIT_RATE / freq) mod 256), (PIT_RATE / freq / 256).
  assert (Hlow : 0 <= (PIT_RATE / freq) mod 256 < 256) by (apply Z.mod_pos_bound; lia).
  assert (Hhigh : 0 <= PIT_RATE / freq / 256 < 256) by (set (q := PIT_RATE / freq) in *; clearbody q; Z.to_euclidean_division_equations; lia).
  assert (Elow : u8 (Z.land (PIT_RATE / freq) 0xFF) = (PIT_RATE / freq) mod 256).
  { change 0xFF with (Z.ones 8). rewrite Z.land_ones by lia. apply u8_small. apply Z.mod_pos_bound. lia. }
  assert (Ehigh : u8 (Z.land (Z.shiftr (PIT_RATE / freq) 8) 0xFF) = PIT_RATE / freq / 256).
  { change 0xFF with (Z.ones 8). rewrite Z.land_ones, Z.shiftr_div_pow2 by lia. change (2 ^ 8) with 256.
    rewrite Z.mod_small by (Z.to_euclidean_division_equations; lia). apply u8_small. Z.to_euclidean_division_equations; lia. }
  split; [|split; [done|split; [done|]]].
  2: { set (q := PIT_RATE / freq) in *. clearbody q. pose proof (Z.div_mod q 256). lia. }
  unfold timer_init, quotient. rewrite (run_bind_done _ _ _ tt _ eq_refl). destruct (Z.eqb_spec freq 0); [lia|].
  krun. rewrite Elow, Ehigh. unfold writeByte. krun. cbn [ports idt loaded interruptHandlers reads].
  by rewrite (u8_small (_ / 256)), (u8_small (_ mod 256)).
Qed.

(** Interrupts are dispatched: after [registerHandler] the interrupt of
    that number, and no other, calls the new handler; each interrupt is ended
    at the first controller, and those of the second controller, and only
    those, also there.  [timer_init] registers its callback for the first of
    them and programs the timer with the divisor of the frequency, for every
    frequency from 19 Hz on; a frequency of 0 is a division by zero. *)
Theorem interrupts_are_dispatched i h v s callback freq :
  length (interruptHandlers s) = 256%nat -> 0 <= v < 256 ->
  (exists s1, Interrupts.registerHandler i h s = Done (tt, s1) /\
     exists s2, Interrupts.interruptHandler v s1 =
         Done (if v =? u8 i then Some h else nth (Z.to_nat v) (interruptHandlers s) None, s2) /\
       ports s2 = (0x20, 0x20) :: (if 0x28 <=? v then [(0xA0, 0x20)] else []) ++ ports s /\
       idt s2 = idt s /\ loaded s2 = loaded s) /\
  timer_init callback 0 s = Fault /\
  (19 <= freq <= PIT_RATE -> exists low high s1, timer_init callback freq s = Done (tt, s1) /\
     ports s1 = (TIMER_DATA_PORT, high) :: (TIMER_DATA_PORT, low) :: (TIMER_COMMAND_PORT, 0x36) :: ports s /\
     0 <= low < 256 /\ 0 <= high < 256 /\ low + 256 * high = PIT_RATE / freq /\
     nth 0x20 (interruptHandlers s1) None = Some callback).
Proof.
  intros Hl Hv. split; [|split].
  - assert (En : nth (Z.to_nat v) (<[Z.to_nat (u8 i) := Some h]> (interruptHandlers s)) None =
      if v =? u8 i then Some h else nth (Z.to_nat v) (interruptHandlers s) None).
    { pose proof (u8_range i). destruct (Z.eqb_spec v (u8 i)) as [->|Hne].
      - apply nth_lookup_Some. apply list_lookup_insert_eq. lia.
      - rewrite !nth_lookup. by rewrite list_lookup_insert_ne by lia. }
    eexists. split; [reflexivity|]. eexists. rewrite interrupt_run; [|done|cbn [interruptHandlers]; by rewrite length_insert].
    cbn [idt loaded interruptHandlers ports reads]. rewrite En. split; [reflexivity|done].
  - reflexivity.
  - intros Hf. destruct (timer_init_run callback freq s Hf) as (low & high & E & Hlow & Hhigh & Hd).
    exists low, high. eexists. split; [exact E|]. do 4 (split; [done|]). cbn [interruptHandlers].
    apply nth_lookup_Some. apply list_lookup_insert_eq. rewrite Hl. vm_compute. lia.
Qed.

(** A sleep that would end after the counter wraps ends at once. *)
Theorem sleep_wraps start ms t ticks : in_u32 start -> 2 ^ 32 <= start + ms < 2 ^ 33 -> start <= t -> ms < 2 ^ 32 ->
  sleep ms (start :: t :: ticks) = Done ticks.
Proof.
  unfold in_u32. intros Hs Hm Ht Hms. unfold sleep. cbn [sleep_loop].
  assert (E : u32 (start + ms) = start + ms - 2 ^ 32).
  { unfold u32, wrap. symmetry. apply Z.mod_unique with 1; lia. }
  rewrite E. destruct (Z.ltb_spec t (start + ms - 2 ^ 32)); [lia|done].
Qed.

(** Vector 0x35, which the enumeration gives for interrupt 5, has no gate. *)
Example interrupt_5_has_no_gate :
  (fun r => IDT.g_present (nth 0x35 (idt r.2) IDT.zero_gate)) <$>
    Interrupts.init (fun i => i) (fun i => 4096 + i) 0 boot_platform = Done 0.
Proof. vm_compute. reflexivity. Qed.

Lemma interrupts_reach_stubs_witness :
  exists s', Interrupts.init (fun i => 0x100000 + 16 * (i mod 256)) (fun i => 0xC0200000 + 16 * (i mod 256)) 0x3000 boot_platform = Done (tt, s') /\
    CPU.deliver (GDT.Entry_word <$> GDT.gdt) (IDT.Gate_word <$> idt s') 33 = Some 0xC0200010.
Proof.
  destruct (interrupts_reach_stubs (fun i => 0x100000 + 16 * (i mod 256)) (fun i => 0xC0200000 + 16 * (i mod 256)) 0x3000 boot_platform)
    as (_ & s' & E & _ & H & _).
  - reflexivity.
  - intros i. pose proof (Z.mod_pos_bound i 256 ltac:(lia)). lia.
  - intros i. pose proof (Z.mod_pos_bound i 256 ltac:(lia)). lia.
  - lia.
  - exists s'. split; [exact E|]. rewrite H by lia. reflexivity.
Defined.

Lemma interrupts_are_dispatched_witness :
  exists s1, Interrupts.registerHandler 0x28 77 boot_platform = Done (tt, s1) /\
    exists s2, Interrupts.interruptHandler 0x28 s1 = Done (Some 77, s2) /\ ports s2 = [(0x20, 0x20); (0xA0, 0x20)].
Proof.
  destruct (interrupts_are_dispatched 0x28 77 0x28 boot_platform 5 1000) as [(s1 & E1 & s2 & E2 & Hp & _) _].
  - reflexivity.
  - lia.
  - exists s1. split; [exact E1|]. exists s2. split; [exact E2|exact Hp].
Defined.
