(* ===== verification/KernelMap.v ===== *)
(** * The kernel's page directory (Memory::init of Memory/paging.cpp)

    What [init] makes of the page directory and the page tables, and what the
    processor's walk through them finds once paging is on. *)
From S2P Require Import Prelude Words Bitmaps PageTypes Physical Paging.
From Stdlib Require Import ZArith Lia Bool.
From stdpp Require Import base strings numbers functions list.
#[local] Open Scope Z_scope.

(** ** The page directory *)

(** What linker.ld says of the addresses.  The page directory and the page
    tables are the last part of the image, so its end is the end of a page. *)
Record linked (HK : KernelImage) : Prop := {
  ln_base : KERNEL_BASE = 0xC0000000;
  ln_early : EARLY_MEM_START = 0 /\ EARLY_KERNEL_START = 0x100000;
  ln_start : 0xC0100000 <= KERNEL_START < KERNEL_END;
  ln_end : KERNEL_END mod 4096 = 0 /\ KERNEL_END <= 0xFFC00000;
  ln_size : KERNEL_SIZE = KERNEL_END - KERNEL_START;
  ln_directory : addr_pageDirectory mod 4096 = 0 /\ KERNEL_START <= addr_pageDirectory < KERNEL_END;
  ln_tables : addr_pageTables mod 4096 = 0 /\ KERNEL_START <= addr_pageTables /\ addr_pageTables + 1024 * 4096 <= KERNEL_END;
}.

Section directory.
Context {B : Type} {HB : Bitmap B} {HK : KernelImage}.
Hypothesis Hlink : linked HK.
Hypothesis Hsize : bm_size = MEM_BITMAP_SIZE.
Implicit Type p : paging (B := B).

(** The frame of [pageTables[0]]. *)
Definition first_table : Z := (addr_pageTables - KERNEL_BASE) / 4096.

(** The processor's walk: the control register must lead to the page directory,
    and the directory's entry to one of the page tables; other frames hold no
    tables. *)
Definition walk p (a : Z) : option Z :=
  if negb (paging_on p) then Some a else
  if negb (cr3 p =? KADDR_TO_PHYS addr_pageDirectory) then None else
  let d := pageDirectory p (a / 2 ^ 22) in
  let table := d_tableAddr d - first_table in
  if (d_present d =? 0) || negb ((0 <=? table) && (table <? 1024)) then None else
  let e := entries p (table * 1024 + a / 4096 mod 1024) in
  if present e =? 0 then None else Some (pageAddr e * 4096 + a mod 4096).

(** The directory leads to the page tables in order, but for the last entry. *)
Record directory_ok p : Prop := {
  do_entry : forall i, 0 <= i < 1023 -> pageDirectory p i = mkDirectoryEntry 1 1 0 0 0 0 0 0 0 (first_table + i);
  do_last : d_present (pageDirectory p 1023) = 0;
}.

Lemma tables_at i : 0 <= i < 1024 ->
  Z.shiftr (KADDR_TO_PHYS (table_address i)) ARCH_PAGE_TABLE_ENTRY_SHIFT mod 2 ^ 20 = first_table + i /\
  addr_pageTables - KERNEL_BASE = first_table * 4096.
Proof.
  intros Hi. destruct Hlink as [Hb He Hs [He1 He2] _ _ (Ht & Ht1 & Ht2)].
  unfold table_address, KADDR_TO_PHYS, first_table, ARCH_PAGE_TABLE_ENTRY_SHIFT. rewrite Hb in *.
  assert (E : addr_pageTables - 0xC0000000 = (addr_pageTables - 0xC0000000) / 4096 * 4096).
  { pose proof (Z.div_mod (addr_pageTables - 0xC0000000) 4096). 
    replace ((addr_pageTables - 0xC0000000) mod 4096) with 0 in H; [lia|].
    rewrite Zminus_mod, Ht. done. }
  set (t := (addr_pageTables - 0xC0000000) / 4096) in *. split; [|done].
  rewrite (u32_small (addr_pageTables + _)) by (unfold in_u32; lia). rewrite u32_small by (unfold in_u32; lia).
  replace (addr_pageTables + i * 4096 - 0xC0000000) with ((t + i) * 4096) by lia.
  rewrite Z.shiftr_div_pow2 by lia. change (2 ^ 12) with 4096. rewrite Z.div_mul by lia. apply Z.mod_small. lia.
Qed.

(** The loops of [initDirectory] set the first 1023 entries of the directory and
    clear their tables. *)
Lemma initDirectory_spec p : exists p', initDirectory p = Done (tt, p') /\
  pagingLock p' = pagingLock p /\ virtualMemoryBitset p' = virtualMemoryBitset p /\ physical p' = physical p /\
  cr3 p' = cr3 p /\ cr0 p' = cr0 p /\
  (forall i, 0 <= i < 1023 -> pageDirectory p' i = mkDirectoryEntry 1 1 0 0 0 0 0 0 0 (first_table + i)) /\
  pageDirectory p' 1023 = pageDirectory p 1023 /\
  (forall j, 0 <= j < 1023 * 1024 -> entries p' j = zero_entry) /\
  (forall j, 1023 * 1024 <= j -> entries p' j = entries p j).
Proof.
  set (I := fun (n m : Z) p' =>
    (pagingLock p' = pagingLock p /\ virtualMemoryBitset p' = virtualMemoryBitset p /\ physical p' = physical p /\
     cr3 p' = cr3 p /\ cr0 p' = cr0 p) /\
    (forall i, 0 <= i < n -> pageDirectory p' i = mkDirectoryEntry 1 1 0 0 0 0 0 0 0 (first_table + i)) /\
    pageDirectory p' 1023 = pageDirectory p 1023 /\
    (forall j, 0 <= j < m -> entries p' j = zero_entry) /\ (forall j, 1023 * 1024 <= j -> entries p' j = entries p j)).
  unfold initDirectory.
  set (body := fun i => mapKernelPageTable i (table_address i) ;; _).
  destruct (kfor_inv (fun i => I i (i * 1024)) (Z.to_nat (ARCH_PAGE_DIR_ENTRIES - 1)) 0 1 body p)
    as (p' & E & HI).
  - split; [done|]. split; [intros; lia|]. split; [done|]. split; [intros; lia|done].
  - intros i p1 Hi (H1 & H2 & H3 & H4 & H5). change (Z.of_nat _) with 1023 in Hi.
    replace (0 + i * 1) with i in * by lia. replace (0 + (i + 1) * 1) with (i + 1) by lia. unfold body.
    unfold mapKernelPageTable. rewrite (proj1 (tables_at i ltac:(lia))).
    rewrite run_bind. cbn [kmodify]. set (p2 := set_directory i _ p1).
    destruct (kfor_inv (fun j => I (i + 1) (i * 1024 + j)) (Z.to_nat ARCH_PAGE_TABLE_ENTRIES) 0 1
      (fun j => kmodify (set_entry (i * ARCH_PAGE_TABLE_ENTRIES + j) zero_entry)) p2) as (p3 & E3 & I3).
    + split; [done|]. cbn. split; [|split; [by rewrite fn_lookup_insert_ne by lia|split; [|done]]].
      * intros k Hk. destruct (decide (k = i)) as [->|]; [by rewrite fn_lookup_insert|].
        rewrite fn_lookup_insert_ne by done. apply H2. lia.
      * intros j Hj. apply H4. lia.
    + intros j p4 Hj (G1 & G2 & G3 & G4 & G5). change (Z.of_nat _) with 1024 in Hj.
      replace (0 + j * 1) with j in * by lia. eexists. split; [done|]. split; [done|]. split; [done|]. split; [done|].
      unfold ARCH_PAGE_TABLE_ENTRIES. cbn. split.
      * intros k Hk. destruct (decide (k = i * 1024 + j)) as [->|]; [by rewrite fn_lookup_insert|].
        rewrite fn_lookup_insert_ne by done. apply G4. lia.
      * intros k Hk. rewrite fn_lookup_insert_ne by lia. by apply G5.
    + exists p3. split; [exact E3|]. change (0 + Z.of_nat (Z.to_nat ARCH_PAGE_TABLE_ENTRIES) * 1) with 1024 in I3.
      by replace ((i + 1) * 1024) with (i * 1024 + 1024) by lia.
  - change (0 + _ * 1) with 1023 in HI. destruct HI as (H1 & H2 & H3 & H4 & H5).
    exists p'. split; [exact E|]. destruct H1 as (? & ? & ? & ? & ?). repeat (split; [assumption|]). assumption.
Qed.

(** The objects of paging.cpp before [init]: static storage is zero.  What the
    first 1023 tables hold does not matter. *)
Record untouched p : Prop := {
  untouched_virtual : bm_ok (virtualMemoryBitset p);
  untouched_physical : bm_ok (physical p);
  untouched_bits : forall i, vpage i -> bm_bit (virtualMemoryBitset p) i = false;
  untouched_table : forall i, 1023 * 1024 <= i < 1024 * 1024 -> present (entries p i) = 0;
  untouched_directory : d_present (pageDirectory p 1023) = 0;
}.

(** The first and the last but one page of the image. *)
Definition kernel_page (k : Z) : Prop := KERNEL_START / 4096 <= k < KERNEL_END / 4096.

Lemma sections_linked :
  whole_pages (Section_untyped EARLY_MEM_START (u32 (EARLY_KERNEL_START - EARLY_MEM_START))) 0 256 /\
  whole_pages (Section_untyped (pageAlign KERNEL_START) (pageAlignUp KERNEL_SIZE)) (KERNEL_START / 4096)
    (KERNEL_END / 4096 - KERNEL_START / 4096) /\
  KERNEL_BASE = 0xC0000 * 4096 /\ 0xC0100 <= KERNEL_START / 4096 < KERNEL_END / 4096 /\ KERNEL_END / 4096 <= 1023 * 1024.
Proof.
  destruct Hlink as [Hb [He1 He2] Hs [Hk1 Hk2] Hsz _ _].
  pose proof (Z.div_mod KERNEL_END 4096 ltac:(lia)) as Hend. rewrite Hk1 in Hend.
  pose proof (Z.div_mod KERNEL_START 4096 ltac:(lia)) as Hst. pose proof (Z.mod_pos_bound KERNEL_START 4096 ltac:(lia)).
  unfold whole_pages, base, Physical.size, Section_untyped. cbn. rewrite size_eq.
  split; [by rewrite He1, He2|]. split; [|lia].
  rewrite pageAlign_eq, pageAlignUp_eq by (unfold in_u32; lia). rewrite u32_small by (unfold in_u32; lia).
  split; [done|]. split; [|lia]. f_equal. rewrite Hsz.
  replace (KERNEL_END - KERNEL_START + 4095) with
    ((KERNEL_END / 4096 - KERNEL_START / 4096) * 4096 + (4095 - KERNEL_START mod 4096)) by lia.
  rewrite Z.div_add_l by lia. rewrite (Z.div_small (4095 - _)) by lia. lia.
Qed.

Lemma unmapped p k : present (entries p k) = 0 -> ~ mapped p k.
Proof. intros E Hm. exact (Hm E). Qed.

(** [init] maps the first megabyte to itself and the image to the frames
    [KERNEL_BASE] lower, and loads the page directory. *)
Lemma init_spec p : untouched p -> exists p', init p = Done (tt, p') /\ inv p' /\ pagingLock p' = pagingLock p /\
  directory_ok p' /\ cr3 p' = KADDR_TO_PHYS addr_pageDirectory /\ paging_on p' = true /\
  (forall k, 0 <= k < 256 -> entries p' k = mkTableEntry 1 1 0 0 0 0 0 0 0 0 k) /\
  (forall k, kernel_page k -> entries p' k = mkTableEntry 1 1 0 0 0 0 0 0 0 0 (k - 0xC0000)) /\
  (forall k, vpage k -> 256 <= k -> ~ kernel_page k -> present (entries p' k) = 0) /\
  (forall f, 0 <= f < bm_size -> bm_bit (physical p') f = true <->
     bm_bit (physical p) f = true \/ f < 256 \/ kernel_page (f + 0xC0000)).
Proof.
  intros Hf. destruct sections_linked as (W1 & W2 & Hbase & Hk & Hend).
  destruct (initDirectory_spec p) as (p1 & E1 & L1 & V1 & P1 & _ & _ & D1 & D1' & Z1 & Z1').
  assert (Hnone : forall k, vpage k -> present (entries p1 k) = 0).
  { intros k Hv. unfold vpage in Hv. rewrite size_eq in Hv. destruct (decide (k < 1023 * 1024)).
    - by rewrite Z1 by lia.
    - rewrite Z1' by lia. apply (untouched_table _ Hf). lia. }
  assert (Hp1 : inv p1).
  { split; rewrite ?V1, ?P1; [apply (untouched_virtual _ Hf)|apply (untouched_physical _ Hf)|..]; unfold mapped.
    - intros k Hv. rewrite (untouched_bits _ Hf k Hv), (Hnone k Hv). split; [discriminate|intros Hx; destruct Hx; reflexivity].
    - intros k Hv Hm. exfalso. apply Hm, (Hnone k Hv).
    - intros k Hv Hm. exfalso. apply Hm, (Hnone k Hv). }
  destruct (mapKernelRange_spec Hsize p1 _ 0 256 Hp1 W1) as [(p2 & E2 & Hp2 & S2 & F2 & M2) _].
  { intros k Hk'. apply unmapped, Hnone. unfold vpage. rewrite size_eq. lia. }
  destruct S2 as (S2a & S2b & S2c & S2d & S2e).
  destruct (mapKernelRange_spec Hsize p2 _ _ _ Hp2 W2) as [_ H3].
  { intros k Hk'. apply unmapped. rewrite S2e by lia. apply Hnone. unfold vpage. rewrite size_eq. lia. }
  destruct (H3 0xC0000 Hbase ltac:(lia)) as (p3 & E3 & Hp3 & (S3a & S3b & S3c & S3d & S3e) & F3 & M3).
  set (n := KERNEL_END / 4096 - KERNEL_START / 4096) in *.
  unfold init, mapEarlyMem, mapKernel.
  eexists. split.
  { etransitivity; [exact (run_bind_done _ _ _ _ _ E1)|].
    etransitivity; [exact (run_bind_done _ _ _ _ _ E2)|].
    etransitivity; [exact (run_bind_done _ _ _ _ _ E3)|].
    etransitivity; [exact (run_bind_done _ _ _ tt _ eq_refl)|]. apply pagingEnable_run. }
  split; [by destruct Hp3; split|]. split; [cbn; congruence|].
  unfold kernel_page. split; [split; cbn|split; [|split; [apply paging_switched|split; [|split; [|split]]]]]; cbn.
  - intros i Hi. rewrite S3d, S2d. by apply D1.
  - rewrite S3d, S2d, D1'. apply (untouched_directory _ Hf).
  - destruct Hlink as [Hb _ Hs [_ He] _ [Hd Hd'] _]. rewrite pageAlign_eq by apply u32_range.
    unfold KADDR_TO_PHYS. rewrite Hb, u32_small by (unfold in_u32; lia).
    pose proof (Z.div_mod (addr_pageDirectory - 0xC0000000) 4096 ltac:(lia)) as Hdm.
    replace ((addr_pageDirectory - 0xC0000000) mod 4096) with 0 in Hdm by (rewrite Zminus_mod, Hd; done). lia.
  - intros k Hk'. rewrite S3e by lia. apply M2. lia.
  - intros k Hk'. apply M3. lia.
  - intros k Hv Hge Hn. rewrite S3e, S2e by lia. by apply Hnone.
  - intros f Hfr. rewrite (F3 f Hfr), (F2 f Hfr), P1. clear -Hk Hfr. subst n. split.
    + intros [[?|(k & ? & ->)]|(k & ? & ->)]; [by left|right; left; lia|right; right; lia].
    + intros [?|[?|?]]; [by left; left|left; right; exists f; lia|right; exists (f + 0xC0000); lia].
Qed.

(** *** The walk *)

(** Through such a directory the walk sees the tables, below the last 4 MiB. *)
Lemma walk_translate p a : directory_ok p -> paging_on p = true -> cr3 p = KADDR_TO_PHYS addr_pageDirectory -> inv p ->
  in_u32 a -> walk p a = if a <? 0xFFC00000 then translate p a else None.
Proof.
  intros [Hd Hl] Hon Hcr Hp Ha. unfold walk. rewrite Hon, Hcr, Z.eqb_refl. cbn [negb]. change (2 ^ 22) with 4194304.
  destruct (page_index a Ha) as (_ & _ & _ & Hv).
  unfold in_u32 in Ha. pose proof (Z.div_mod a 4194304 ltac:(lia)). pose proof (Z.mod_pos_bound a 4194304 ltac:(lia)).
  destruct (Z.ltb_spec a 0xFFC00000) as [Hlt|Hge].
  - rewrite Hd by lia. cbn [d_tableAddr d_present Z.eqb orb].
    replace (first_table + a / 4194304 - first_table) with (a / 4194304) by lia.
    destruct (Z.leb_spec 0 (a / 4194304)); [|lia]. destruct (Z.ltb_spec (a / 4194304) 1024); [|lia]. cbn [andb negb].
    assert (Hi : a / 4194304 * 1024 + a / 4096 mod 1024 = a / 4096).
    { change 4194304 with (4096 * 1024). rewrite <- Z.div_div by lia. pose proof (Z.div_mod (a / 4096) 1024). lia. }
    rewrite Hi. unfold translate. destruct (Z.eqb_spec (present (entries p (a / 4096))) 0) as [|Hm]; [done|].
    pose proof (inv_frame _ Hp _ Hv Hm) as Hfr. rewrite size_eq in Hfr. unfold frame in Hfr.
    unfold getPhysicalAddress, ARCH_PAGE_SIZE. by rewrite u32_small by (unfold in_u32; lia).
  - replace (a / 4194304) with 1023 by lia. by rewrite Hl.
Qed.

(** The kernel's map, as one function of the address. *)
Definition kernel_map (a : Z) : option Z :=
  if a <? EARLY_KERNEL_START then Some a
  else if (pageAlign KERNEL_START <=? a) && (a <? KERNEL_END) then Some (a - KERNEL_BASE) else None.

Lemma translate_entry p a f : entries p (a / 4096) = mkTableEntry 1 1 0 0 0 0 0 0 0 0 f -> 0 <= f < 1048576 ->
  translate p a = Some (f * 4096 + a mod 4096).
Proof.
  intros E Hf. unfold translate. rewrite E. cbn [present pageAddr Z.eqb]. unfold getPhysicalAddress, ARCH_PAGE_SIZE. cbn [pageAddr].
  by rewrite u32_small by (unfold in_u32; lia).
Qed.

Lemma translate_init p' a : in_u32 a ->
  (forall k, 0 <= k < 256 -> entries p' k = mkTableEntry 1 1 0 0 0 0 0 0 0 0 k) ->
  (forall k, kernel_page k -> entries p' k = mkTableEntry 1 1 0 0 0 0 0 0 0 0 (k - 0xC0000)) ->
  (forall k, vpage k -> 256 <= k -> ~ kernel_page k -> present (entries p' k) = 0) ->
  translate p' a = kernel_map a.
Proof.
  intros Ha Hlow Hker Hnone. destruct sections_linked as (_ & _ & Hbase & Hk & Hend).
  destruct Hlink as [_ [_ He2] Hs [Hk1 Hk2] _ _ _].
  pose proof (Z.div_mod KERNEL_END 4096 ltac:(lia)) as Hend'. rewrite Hk1 in Hend'.
  destruct (page_index a Ha) as (_ & _ & _ & Hv). unfold kernel_map. rewrite He2, Hbase, pageAlign_eq by (unfold in_u32; lia).
  pose proof (Z.div_mod a 4096 ltac:(lia)) as Hd. pose proof (Z.mod_pos_bound a 4096 ltac:(lia)) as Hm.
  unfold in_u32 in Ha. unfold kernel_page in *.
  destruct (Z.ltb_spec a 0x100000) as [Hl|Hl].
  - rewrite (translate_entry p' a (a / 4096)) by (apply Hlow || idtac; lia). f_equal. lia.
  - destruct (Z.leb_spec (KERNEL_START / 4096 * 4096) a), (Z.ltb_spec a KERNEL_END); cbn [andb].
    1: { rewrite (translate_entry p' a (a / 4096 - 0xC0000)) by (apply Hker || idtac; lia). f_equal. lia. }
    all: unfold translate; rewrite Hnone by (done || lia); done.
Qed.

Lemma init_map p : untouched p -> exists p', init p = Done (tt, p') /\ inv p' /\ pagingLock p' = pagingLock p /\
  directory_ok p' /\ cr3 p' = KADDR_TO_PHYS addr_pageDirectory /\ paging_on p' = true /\ mapped p' 0 /\
  (forall a, in_u32 a -> walk p' a = kernel_map a) /\
  forall f, 0 <= f < bm_size -> frame_free p' f <-> frame_free p f /\ 256 <= f /\ ~ kernel_page (f + 0xC0000).
Proof.
  intros Hf. destruct (init_spec p Hf) as (p' & E & Hp' & L & D & C & O & M1 & M2 & M3 & F).
  exists p'. do 6 (split; [done|]). split; [unfold mapped; rewrite M1 by lia; cbn; lia|]. split.
  - intros a Ha. rewrite walk_translate, translate_init by done. destruct (Z.ltb_spec a 0xFFC00000); [done|].
    unfold kernel_map. destruct Hlink as [_ [_ He2] _ [_ Hk2] _ _ _]. rewrite He2.
    destruct (Z.ltb_spec a 0x100000); [lia|]. destruct (Z.ltb_spec a KERNEL_END); [lia|]. by rewrite andb_false_r.
  - intros f Hb. unfold frame_free. rewrite <- !not_true_iff_false, (F f Hb). clear. split.
    + intros Hn. split; [intros ?; apply Hn; by left|]. split; [|intros ?; apply Hn; by right; right].
      destruct (Z.le_gt_cases 256 f); [done|]. destruct Hn. right. by left.
    + intros (H1 & H2 & H3) [?|[?|?]]; [by apply H1|lia|by apply H3].
Qed.

(** *** Allocation *)

(** The pages that [newPage] hands out, as the walk sees them. *)
Lemma allocated_walk p p' n r : directory_ok p -> paging_on p = true -> cr3 p = KADDR_TO_PHYS addr_pageDirectory ->
  inv p -> inv p' -> mapped p 0 -> 0 < n -> allocated n p r p' -> r <> 0 ->
  (forall a, in_u32 a -> ~ (r <= a < r + n * 4096) -> walk p' a = walk p a) /\
  forall a, r <= a < r + n * 4096 -> in_u32 a /\ walk p a = None /\
    (a < 0xFFC00000 -> exists f, frame_free p f /\ walk p' a = Some (f * 4096 + a mod 4096)) /\
    (0xFFC00000 <= a -> walk p' a = None).
Proof.
  intros Hd Hon Hcr Hp Hp' H0 Hn Ha Hr. destruct Ha as [i p' Hi Hend (S1 & S2 & S3 & S4 & S5) [F1 F2 F3] Hfree _|p' _ _|p' _]; [|done|done].
  assert (Hd' : directory_ok p') by (destruct Hd as [D1 D2]; split; by rewrite S4).
  assert (Hon' : paging_on p' = true) by (unfold paging_on in *; congruence).
  assert (W : forall a, in_u32 a -> walk p' a = if a <? 0xFFC00000 then translate p' a else None).
  { intros a Hu. apply walk_translate; congruence || done. }
  assert (W0 : forall a, in_u32 a -> walk p a = if a <? 0xFFC00000 then translate p a else None).
  { intros a Hu. by apply walk_translate. }
  rewrite size_eq in Hend. split.
  - intros a Hu Hout. rewrite W, W0 by done. destruct (a <? 0xFFC00000); [|done]. unfold translate.
    pose proof (Z.div_mod a 4096 ltac:(lia)). pose proof (Z.mod_pos_bound a 4096 ltac:(lia)). by rewrite S5 by lia.
  - intros a Hin. pose proof (Z.div_mod a 4096 ltac:(lia)). pose proof (Z.mod_pos_bound a 4096 ltac:(lia)).
    assert (Hu : in_u32 a) by (unfold in_u32; lia). assert (Hk : i <= a / 4096 < i + n) by lia. split; [done|].
    rewrite W, W0 by done. split; [|split; intros Hb; destruct (Z.ltb_spec a 0xFFC00000); try lia].
    + destruct (a <? 0xFFC00000); [|done]. unfold translate. pose proof (Hfree _ Hk) as Hm. unfold mapped in Hm.
      destruct (Z.eqb_spec (present (entries p (a / 4096))) 0); [done|lia].
    + exists (frame p' (a / 4096)). split; [by apply F2|]. apply translate_entry; [by apply F1|].
      change 1048576 with MEM_BITMAP_SIZE. apply (inv_frame _ Hp'); [unfold vpage; rewrite size_eq; lia|].
      unfold mapped. rewrite (F1 _ Hk). cbn. lia.
    + done.
Qed.

End directory.

(** C17. [Memory::init] and the allocation after it, as the processor sees them.
    From static storage that is zero [init] returns; with paging on the walk
    through the page directory takes the first megabyte to itself and the
    kernel's image to the frames [KERNEL_BASE] lower, and nothing else, and
    these frames are marked as used.  After that [newPage] of fewer than 32
    pages returns; the addresses it hands out led nowhere before and lead to
    frames that were free, and all others lead where they did; except that from
    0xFFC00000 on, where the directory has no entry, an address that is handed
    out leads nowhere. *)
Theorem kernel_map_correct {B} {HB : Bitmap B} {HK : KernelImage} (p : paging (B := B)) :
  bm_size = MEM_BITMAP_SIZE -> linked HK -> untouched p -> pagingLock p = false ->
  exists p', init p = Done (tt, p') /\ inv p' /\
    (forall a, in_u32 a -> walk p' a = kernel_map a) /\
    (forall f, 0 <= f < bm_size -> frame_free p' f <-> frame_free p f /\ 256 <= f /\ ~ kernel_page (f + 0xC0000)) /\
    forall sz, 0 <= sz -> PAGE_COUNT sz < 32 -> exists r p'', newPage sz p' = Done (r, p'') /\ inv p'' /\ (r <> 0 ->
      (forall a, in_u32 a -> ~ (r <= a < r + PAGE_COUNT sz * 4096) -> walk p'' a = walk p' a) /\
      forall a, r <= a < r + PAGE_COUNT sz * 4096 -> in_u32 a /\ walk p' a = None /\
        (a < 0xFFC00000 -> exists f, frame_free p' f /\ walk p'' a = Some (f * 4096 + a mod 4096)) /\
        (0xFFC00000 <= a -> walk p'' a = None)).
Proof.
  intros Hsz Hlink Hf Hl. destruct (init_map Hlink Hsz p Hf) as (p' & E & Hp' & L & D & C & O & H0 & W & F).
  exists p'. do 4 (split; [done|]). intros sz Hs Hn.
  destruct (newPage_spec Hsz sz p' Hp' ltac:(congruence) Hs Hn) as (r & p'' & En & Hp'' & _ & Ha).
  exists r, p''. split; [exact En|]. split; [exact Hp''|]. intros Hr.
  assert (Hpos : 0 < PAGE_COUNT sz) by (unfold PAGE_COUNT, ARCH_PAGE_SIZE; pose proof (Z.div_pos sz 4096); lia).
  exact (allocated_walk p' p'' _ r D O C Hp' Hp'' H0 Hpos Ha Hr).
Qed.

(** ** A concrete image *)

#[local] Existing Instance Manager.frame_bitmap.
Definition demo_linked_image : KernelImage := {|
  KERNEL_BASE := 0xC0000000; KERNEL_START := 0xC0109800; KERNEL_END := 0xC0600000; KERNEL_SIZE := 0x4F6800;
  EARLY_MEM_START := 0; EARLY_KERNEL_START := 0x100000;
  addr_pageDirectory := 0xC01FF000; addr_pageTables := 0xC0200000 |}.
Lemma demo_linked : linked demo_linked_image.
Proof. split; cbn; repeat split; lia. Qed.

Lemma demo_fresh : untouched demo_paging.
Proof.
  split; [apply (inv_virtual_ok _ demo_paging_inv)|apply (inv_physical_ok _ demo_paging_inv)|..]; try reflexivity.
  intros i Hi. cbn. unfold empty_bitmap. by rewrite Bitset.bit_default.
Qed.

Lemma kernel_map_correct_witness : exists p' r p'', init (HK := demo_linked_image) demo_paging = Done (tt, p') /\
  walk (HK := demo_linked_image) p' 0xC0123ABC = Some 0x123ABC /\ walk (HK := demo_linked_image) p' 0xFFC00000 = None /\
  newPage 5000 p' = Done (r, p'').
Proof.
  destruct (kernel_map_correct (HK := demo_linked_image) demo_paging Manager.frame_size demo_linked demo_fresh eq_refl)
    as (p' & E & _ & Hw & _ & Hn).
  destruct (Hn 5000) as (r & p'' & En & _); [lia|reflexivity|].
  exists p', r, p''. split; [exact E|]. rewrite !Hw by (unfold in_u32; lia). split; [reflexivity|]. split; [reflexivity|exact En].
Defined.
