(* ===== verification/Handoff.v ===== *)
(** * From the boot loader to the kernel (Bootloader/Handoff.cpp, Arguments.cpp)

    The walk over the list of tags that the boot loader leaves in memory, and
    what the kernel keeps of it: the memory map, the framebuffer and the command
    line, which is searched for registered arguments.  The layout of the tags
    belongs to the boot protocol; a tag is modelled by what it says. *)
From S2P Require Import Prelude Words Bitmaps PageTypes Physical KString Display.
From Stdlib Require Import ZArith Lia Bool.
From stdpp Require Import base strings numbers gmap list.
#[local] Open Scope Z_scope.

(** ** Command line arguments *)

(** An argument of the section [.arguments]: the address of its string, and its
    callback. *)
Record argument := mkArgument { arg : Z; callback : Z }.

(** The callbacks that are called, in order. *)
Fixpoint parseCommandLine (args : list argument) (cmdline : Z) (m : memory) : outcome (list Z) :=
  match args with
  | [] => Done []
  | a :: args' =>
      hit ← strstr cmdline (arg a) m ;
      l ← parseCommandLine args' cmdline m ;
      Done (match hit with Some _ => callback a :: l | None => l end)
  end.

(** ** Tags of the boot protocol *)

Inductive mmap_type :=
  | STIVALE2_MMAP_USABLE | STIVALE2_MMAP_RESERVED | STIVALE2_MMAP_ACPI_RECLAIMABLE | STIVALE2_MMAP_ACPI_NVS
  | STIVALE2_MMAP_BAD_MEMORY | STIVALE2_MMAP_BOOTLOADER_RECLAIMABLE | STIVALE2_MMAP_KERNEL_AND_MODULES
  | STIVALE2_MMAP_OTHER.
#[export] Instance mmap_type_eq_dec : EqDecision mmap_type.
Proof. solve_decision. Defined.

(** Base and length have 64 bits. *)
Record mmap_entry := mkEntry { e_base : Z; e_length : Z; e_type : mmap_type }.

Record framebuffer_tag := mkFramebufferTag {
  framebuffer_addr : Z; framebuffer_width : Z; framebuffer_height : Z; framebuffer_pitch : Z; framebuffer_bpp : Z;
  memory_model : Z; red_mask_size : Z; red_mask_shift : Z; green_mask_size : Z; green_mask_shift : Z;
  blue_mask_size : Z; blue_mask_shift : Z
}.
Inductive tag_body :=
  | MEMMAP (memmap : list mmap_entry)
  | CMDLINE (cmdline : Z)
  | FRAMEBUFFER (fb : framebuffer_tag)
  | OTHER_TAG.
Record tag := mkTag { body : tag_body; next : Z }.

(** ** The handoff *)

(** The only boot protocol; [m_bootType] is set to it before the tags are read. *)
Inductive HandoffBootloaderType := Stivale2.

Record Handoff := mkHandoff {
  m_handle : Z; m_cmdline : Z; m_magic : Z; m_framebuffer : Framebuffer; m_bootType : HandoffBootloaderType;
  m_memoryMap : MemoryMap
}.
Definition set_map (mm : MemoryMap) (h : Handoff) : Handoff :=
  mkHandoff (m_handle h) (m_cmdline h) (m_magic h) (m_framebuffer h) (m_bootType h) mm.
Definition set_cmdline (p : Z) (h : Handoff) : Handoff :=
  mkHandoff (m_handle h) p (m_magic h) (m_framebuffer h) (m_bootType h) (m_memoryMap h).
Definition set_framebuffer (fb : Framebuffer) (h : Handoff) : Handoff :=
  mkHandoff (m_handle h) (m_cmdline h) (m_magic h) fb (m_bootType h) (m_memoryMap h).

(** The switch on the type of an entry. *)
Definition section_type (t : mmap_type) : Type_ :=
  match t with
  | STIVALE2_MMAP_USABLE => Available
  | STIVALE2_MMAP_RESERVED => Reserved
  | STIVALE2_MMAP_ACPI_RECLAIMABLE => ACPI
  | STIVALE2_MMAP_ACPI_NVS => NVS
  | STIVALE2_MMAP_BAD_MEMORY => Bad
  | STIVALE2_MMAP_BOOTLOADER_RECLAIMABLE => Bootloader
  | STIVALE2_MMAP_KERNEL_AND_MODULES => Kernel
  | STIVALE2_MMAP_OTHER => Unknown
  end.

(** [Memory::Section(entry.base, entry.length)]: the parameters have 32 bits. *)
Definition section_of (e : mmap_entry) : Section_ := Section_untyped (u32 (e_base e)) (u32 (e_length e)).

(** The loop over the entries. *)
Fixpoint add_entries (i : Z) (l : list mmap_entry) : K MemoryMap unit :=
  match l with
  | [] => mret tt
  | e :: l' =>
      Put i (section_of e) ;;
      s ← kread (fun mm => Get mm i) ;
      Put i (setType (section_type (e_type e)) s) ;;
      add_entries (i + 1) l'
  end.

(** [static_cast<FramebufferMemoryModel>]: other values have no meaning. *)
Definition model_of (n : Z) : outcome FramebufferMemoryModel :=
  if n =? 0 then Done Undefined_FBMM else if n =? 1 then Done RGB_FBMM else Fault.

Definition framebuffer_of (t : framebuffer_tag) (model : FramebufferMemoryModel) : Framebuffer :=
  mkFB (u32 (framebuffer_addr t)) (u32 (framebuffer_width t)) (u32 (framebuffer_height t)) (u16 (framebuffer_bpp t))
    (u32 (framebuffer_pitch t)) (u8 (red_mask_size t)) (u8 (red_mask_shift t)) (u8 (green_mask_size t))
    (u8 (green_mask_shift t)) (u8 (blue_mask_size t)) (u8 (blue_mask_shift t)) model.

Section parse.
(** The tags in memory, the strings in memory, the registered arguments. *)
Context (tags : gmap Z tag) (m : memory) (arguments : list argument).

(** The switch on the identifier; the callbacks called so far are in the state. *)
Definition parse_tag (b : tag_body) : K (Handoff * list Z) unit :=
  match b with
  | MEMMAP l =>
      count ← kgets (fun s => MapCount (m_memoryMap s.1)) ;
      if Z.of_nat (length l) >? count then kpanic "Not enough space to add all memory map entries!" else
      kzoom (fun s => m_memoryMap s.1) (fun mm s => (set_map mm s.1, s.2)) (add_entries 0 l)
  | CMDLINE p =>
      kmodify (fun s => (set_cmdline p s.1, s.2)) ;;
      called ← kread (fun _ => parseCommandLine arguments p m) ;
      kmodify (fun s => (s.1, s.2 ++ called))
  | FRAMEBUFFER t =>
      model ← kread (fun _ => model_of (memory_model t)) ;
      kmodify (fun s => (set_framebuffer (framebuffer_of t model) s.1, s.2))
  | OTHER_TAG => mret tt
  end.

(** [while (tag)]; a list that runs in a circle is never done. *)
Fixpoint parseStivale2 (fuel : nat) (p : Z) : K (Handoff * list Z) unit :=
  if p =? 0 then mret tt else
  match tags !! p with
  | None => kfault
  | Some t =>
      match fuel with
      | O => kstuck
      | S fuel' => parse_tag (body t) ;; parseStivale2 fuel' (u32 (next t))
      end
  end.

Definition STIVALE2_MAGIC : Z := 0x73747632.

(** The constructor; [first] is what [fixed->tags] says.  Members that are not
    initialised are left as they were in [garbage]. *)
Definition Handoff_new (fuel : nat) (handoff first magic garbage : Z) : outcome (Handoff * list Z) :=
  let h := mkHandoff handoff garbage magic (mkFB 0 0 0 0 0 0 0 0 0 0 0 Undefined_FBMM) Stivale2 MemoryMap_default in
  if magic =? STIVALE2_MAGIC then
    match parseStivale2 fuel (u32 first) (h, []) with
    | Done (_, r) => Done r
    | Panic msg => Panic msg
    | Fault => Fault
    | Stuck => Stuck
    end
  else Panic "Invalid bootloader magic!".

End parse.

(** ** The memory that is handed out *)

Lemma Put_run i s mm : 0 <= i < Z.of_nat (length (m_sections mm)) ->
  Put i s mm = Done (tt, mkMap (<[Z.to_nat i := s]> (m_sections mm))).
Proof.
  intros Hi. unfold Put. destruct (Z.ltb_spec i 0); [lia|].
  destruct (lookup_lt_is_Some_2 (m_sections mm) (Z.to_nat i)) as [s0 ->]; [lia|done].
Qed.

Definition converted (e : mmap_entry) : Section_ := setType (section_type (e_type e)) (section_of e).

Lemma add_entries_run l : forall i mm, 0 <= i -> i + Z.of_nat (length l) <= Z.of_nat (length (m_sections mm)) ->
  add_entries i l mm = Done (tt, mkMap (take (Z.to_nat i) (m_sections mm) ++ (converted <$> l) ++
                                        drop (Z.to_nat i + length l) (m_sections mm))).
Proof.
  induction l as [|e l IH]; intros i mm Hi Hl; cbn [add_entries fmap list_fmap length].
  - rewrite Nat.add_0_r, app_nil_l, take_drop. by destruct mm.
  - cbn [length] in Hl. rewrite (run_bind_done _ _ _ _ _ (Put_run i (section_of e) mm ltac:(lia))).
    set (mm1 := mkMap _). assert (Eg : Get mm1 i = Done (section_of e)).
    { unfold Get, mm1. cbn [m_sections]. destruct (Z.ltb_spec i 0); [lia|]. by rewrite list_lookup_insert_eq by lia. }
    rewrite (run_bind_done _ _ _ (section_of e) mm1) by (unfold kread; by rewrite Eg).
    rewrite (run_bind_done _ _ _ _ _ (Put_run i _ mm1 ltac:(unfold mm1; cbn [m_sections]; rewrite length_insert; lia))).
    unfold mm1. cbn [m_sections]. rewrite list_insert_insert_eq.
    rewrite IH; cbn [m_sections]; [|lia|rewrite length_insert; lia].
    do 3 f_equal. replace (Z.to_nat (i + 1)) with (S (Z.to_nat i)) by lia.
    rewrite (take_S_r _ _ (converted e)) by (apply list_lookup_insert_eq; lia).
    rewrite take_insert_ge by lia. rewrite <- app_assoc. cbn [app]. do 3 f_equal.
    rewrite drop_insert_lt by lia. f_equal. lia.
Qed.

(** ** What the tags say *)

(** The list of tags from [p] on. *)
Fixpoint tag_path (tags : gmap Z tag) (p : Z) (l : list tag_body) : Prop :=
  match l with
  | [] => p = 0
  | b :: l' => p <> 0 /\ exists t, tags !! p = Some t /\ body t = b /\ tag_path tags (u32 (next t)) l'
  end.

Section parsing.
(** [name] and [line] are the strings of the arguments and of command lines. *)
Context (tags : gmap Z tag) (m : memory) (arguments : list argument).
Context (name : argument -> list Z) (line : Z -> list Z).
Hypothesis Hnames : forall a, a ∈ arguments -> cstr m (arg a) (name a).

(** The arguments a command line ends with: [strstr] finds nothing else. *)
Definition recognised (hs : list Z) (args : list argument) : list argument :=
  filter (fun a => name a <> [] /\ name a `suffix_of` hs) args.

Lemma strstr_suffix h n hs ns : cstr m h hs -> cstr m n ns ->
  exists r, strstr h n m = Done r /\ (is_Some r <-> ns <> [] /\ ns `suffix_of` hs).
Proof.
  intros Hh Hn. destruct (strstr_finds_suffixes m h n hs ns Hh Hn) as (r & E & Hr). exists r. split; [done|].
  destruct r as [a|]; (split; [intros His|]).
  - destruct Hr as (i & _ & Hi & <- & _). split; [intros Hnil; apply (f_equal length) in Hnil; rewrite length_drop in Hnil; cbn in Hnil; lia|].
    exists (take i hs). by rewrite take_drop.
  - by eexists.
  - by destruct His.
  - intros [Hne [k ->]]. exfalso. apply (Hr (length k)); [|apply drop_app_length].
    rewrite length_app. destruct ns; [done|cbn; lia].
Qed.

Lemma parseCommandLine_spec p hs args : cstr m p hs -> (forall a, a ∈ args -> cstr m (arg a) (name a)) ->
  parseCommandLine args p m = Done (callback <$> recognised hs args).
Proof.
  intros Hp. induction args as [|a args IH]; intros Ha; [done|]. cbn [parseCommandLine].
  destruct (strstr_suffix p (arg a) hs (name a) Hp (Ha a ltac:(by left))) as (r & -> & Hr).
  cbn [mbind outcome_bind]. rewrite IH by (intros a' ?; apply Ha; by right). cbn [mbind outcome_bind].
  unfold recognised. rewrite filter_cons. destruct (decide _) as [Hd|Hd]; cbv beta in Hd; rewrite <- Hr in Hd.
  - by destruct Hd as [? ->].
  - destruct r; [|done]. destruct Hd. by eexists.
Qed.

(** A tag that is no error, and what becomes of the handoff. *)
Definition tag_ok (b : tag_body) : Prop :=
  match b with
  | MEMMAP es => (length es <= 32)%nat
  | CMDLINE p => cstr m p (line p)
  | FRAMEBUFFER t => memory_model t = 0 \/ memory_model t = 1
  | OTHER_TAG => True
  end.
Definition screen_of (t : framebuffer_tag) : Framebuffer :=
  framebuffer_of t (if memory_model t =? 0 then Undefined_FBMM else RGB_FBMM).
Definition called_by (b : tag_body) : list Z :=
  match b with CMDLINE p => callback <$> recognised (line p) arguments | _ => [] end.
Definition said (s : Handoff * list Z) (b : tag_body) : Handoff * list Z :=
  (match b with
   | MEMMAP es => set_map (mkMap ((converted <$> es) ++ drop (length es) (m_sections (m_memoryMap s.1)))) s.1
   | CMDLINE p => set_cmdline p s.1
   | FRAMEBUFFER t => set_framebuffer (screen_of t) s.1
   | OTHER_TAG => s.1
   end, s.2 ++ called_by b).

(** A handoff while it is filled in: the map has its 32 places. *)
Definition fits (s : Handoff * list Z) : Prop := length (m_sections (m_memoryMap s.1)) = 32%nat.

Lemma said_fits b s : tag_ok b -> fits s -> fits (said s b).
Proof.
  unfold fits. intros Hb Hs. destruct b as [es|p|t|]; cbn; [|done..]. cbn in Hb.
  rewrite length_app, length_fmap, length_drop. lia.
Qed.

Lemma parse_tag_said b s : tag_ok b -> fits s -> parse_tag m arguments b s = Done (tt, said s b).
Proof.
  intros Hb Hs. destruct s as [h called]. unfold said.
  destruct b as [es|p|t|]; cbn [parse_tag tag_ok called_by fst snd] in *; try rewrite app_nil_r.
  - rewrite (run_bind_done _ _ _ 32 (h, called)) by done.
    destruct (Z.gtb_spec (Z.of_nat (length es)) 32); [lia|]. unfold kzoom. unfold fits in Hs. cbn in Hs. cbn [fst].
    rewrite add_entries_run by (rewrite ?Hs; lia). done.
  - rewrite (run_bind_done _ _ _ _ _ eq_refl). cbn [fst snd].
    rewrite (run_bind_done _ _ _ (callback <$> recognised (line p) arguments) (set_cmdline p h, called)); [done|].
    unfold kread. by rewrite (parseCommandLine_spec p (line p) arguments Hb Hnames).
  - rewrite (run_bind_done _ _ _ (if memory_model t =? 0 then Undefined_FBMM else RGB_FBMM) (h, called)); [done|].
    unfold kread, model_of. by destruct Hb as [-> | ->].
  - done.
Qed.

Lemma parse_run l : forall fuel p s rest, Forall tag_ok l -> tag_path tags p (l ++ rest) -> fits s ->
  exists p', tag_path tags p' rest /\ fits (foldl said s l) /\
    parseStivale2 tags m arguments (length l + fuel) p s = parseStivale2 tags m arguments fuel p' (foldl said s l).
Proof.
  induction l as [|b l IH]; intros fuel p s rest Hl Hp Hs; [by exists p|].
  inversion_clear Hl as [|? ? Hb Hl']. destruct Hp as (Hp0 & t & Et & Eb & Hp').
  destruct (IH fuel (u32 (next t)) (said s b) rest Hl' Hp' (said_fits b s Hb Hs)) as (p' & Hp2 & Hf & E).
  exists p'. split; [done|]. split; [done|]. cbn [foldl length Nat.add parseStivale2].
  destruct (Z.eqb_spec p 0); [done|]. by rewrite Et, Eb, (run_bind_done _ _ _ _ _ (parse_tag_said b s Hb Hs)).
Qed.

Lemma parse_end fuel s : parseStivale2 tags m arguments fuel 0 s = Done (tt, s).
Proof. by destruct fuel. Qed.

Lemma parse_said l fuel p s : Forall tag_ok l -> tag_path tags p l -> fits s -> (length l <= fuel)%nat ->
  parseStivale2 tags m arguments fuel p s = Done (tt, foldl said s l).
Proof.
  intros Hl Hp Hs Hf. rewrite <- (app_nil_r l) in Hp.
  destruct (parse_run l (fuel - length l) p s [] Hl Hp Hs) as (p' & Hp' & _ & E).
  replace (length l + (fuel - length l))%nat with fuel in E by lia. rewrite E. cbn in Hp'. subst. apply parse_end.
Qed.

Lemma parse_too_many l es rest fuel p s : Forall tag_ok l -> tag_path tags p (l ++ MEMMAP es :: rest) -> fits s ->
  (length l < fuel)%nat -> (32 < length es)%nat ->
  parseStivale2 tags m arguments fuel p s = Panic "Not enough space to add all memory map entries!".
Proof.
  intros Hl Hp Hs Hf He. destruct (parse_run l (fuel - length l) p s _ Hl Hp Hs) as (p' & (Hp0 & t & Et & Eb & _) & _ & E).
  replace (length l + (fuel - length l))%nat with fuel in E by lia. rewrite E.
  destruct (fuel - length l)%nat as [|f] eqn:Ef; [lia|]. cbn [parseStivale2]. destruct (Z.eqb_spec p' 0); [done|].
  rewrite Et, Eb. cbn [parse_tag]. rewrite run_bind, run_bind. unfold kgets.
  change (MapCount _) with 32. destruct (Z.gtb_spec (Z.of_nat (length es)) 32); [done|lia].
Qed.

(** *** The result, part by part *)

Lemma said_called l : forall s, (foldl said s l).2 = s.2 ++ (l ≫= called_by).
Proof.
  induction l as [|b l IH]; intros s; cbn [foldl mbind list_bind]; [by rewrite app_nil_r|].
  rewrite IH. cbn [said snd]. by rewrite <- app_assoc.
Qed.

Definition is_map (b : tag_body) : Prop := match b with MEMMAP _ => True | _ => False end.
Definition is_screen (b : tag_body) : Prop := match b with FRAMEBUFFER _ => True | _ => False end.

Lemma said_no_map l : forall s, Forall (fun b => ~ is_map b) l -> m_memoryMap (foldl said s l).1 = m_memoryMap s.1.
Proof.
  induction l as [|b l IH]; intros s Hl; [done|]. inversion_clear Hl as [|? ? Hb Hl']. cbn [foldl].
  rewrite IH by done. by destruct b; [destruct Hb|..].
Qed.
Lemma said_no_screen l : forall s, Forall (fun b => ~ is_screen b) l -> m_framebuffer (foldl said s l).1 = m_framebuffer s.1.
Proof.
  induction l as [|b l IH]; intros s Hl; [done|]. inversion_clear Hl as [|? ? Hb Hl']. cbn [foldl].
  rewrite IH by done. by destruct b as [| | |]; [..|destruct Hb|]; try done; destruct Hb.
Qed.

Lemma said_map pre es post s : Forall (fun b => ~ is_map b) pre -> Forall (fun b => ~ is_map b) post ->
  m_memoryMap s.1 = MemoryMap_default ->
  m_sections (m_memoryMap (foldl said s (pre ++ MEMMAP es :: post)).1) =
    (converted <$> es) ++ replicate (32 - length es) Section_default.
Proof.
  intros Hpre Hpost Hs. rewrite foldl_app. cbn [foldl]. rewrite said_no_map by done. cbn [said fst m_memoryMap set_map m_sections].
  rewrite said_no_map, Hs by done. cbn [m_sections MemoryMap_default]. by rewrite drop_replicate.
Qed.
Lemma said_screen pre t post s : Forall (fun b => ~ is_screen b) post ->
  m_framebuffer (foldl said s (pre ++ FRAMEBUFFER t :: post)).1 = screen_of t.
Proof. intros Hpost. rewrite foldl_app. cbn [foldl]. by rewrite said_no_screen. Qed.
End parsing.

(** ** The frames that are handed out *)

(** An entry of the memory map below 4 GiB. *)
Definition entry_low (e : mmap_entry) : Prop :=
  0 <= e_base e /\ 0 <= e_length e < 2 ^ 32 /\ e_base e < 2 ^ 32 /\ e_base e + e_length e <= 2 ^ 32.

(** The frames of usable memory; an entry at address 0 is taken for a missing one. *)
Definition usable_frame (es : list mmap_entry) (j : Z) : Prop :=
  exists e, e ∈ es /\ e_type e = STIVALE2_MMAP_USABLE /\ e_base e <> 0 /\ e_length e <> 0 /\
    e_base e / 4096 <= j < e_base e / 4096 + e_length e / 4096.

Lemma converted_low e : entry_low e -> converted e = mkSection (e_base e) (e_length e) (section_type (e_type e)).
Proof.
  intros (? & ? & ? & ?). unfold converted, section_of, setType, Section_untyped. cbn [m_base m_size].
  by rewrite !u32_small by (unfold in_u32; lia).
Qed.

Lemma converted_usable es n j : Forall entry_low es ->
  (exists s : Section_, s ∈ (converted <$> es) ++ replicate n Section_default /\ Physical.initialized s = true /\
     type s = Available /\ Manager.frames s j) <-> usable_frame es j.
Proof.
  intros Hes. rewrite Forall_forall in Hes. split.
  - intros (s & Hs & Hi & Ht & Hf). rewrite elem_of_app, elem_of_replicate in Hs.
    destruct Hs as [Hs|[-> _]]; [|done]. apply list_elem_of_fmap in Hs as (e & -> & He). exists e.
    rewrite (converted_low e (Hes e He)) in *. 
    apply andb_true_iff in Hi as [Hb%negb_true_iff%Z.eqb_neq Hl%negb_true_iff%Z.eqb_neq]. cbn in Hb, Hl, Ht.
    split; [done|]. split; [by destruct (e_type e)|]. done.
  - intros (e & He & Ht & Hb & Hl & Hf). exists (converted e). split; [apply elem_of_app; left; by apply list_elem_of_fmap_2|].
    rewrite (converted_low e (Hes e He)), Ht. split; [|done].
    apply andb_true_iff. split; by apply negb_true_iff, Z.eqb_neq.
Qed.

Lemma converted_sections_ok es n s : Forall entry_low es ->
  s ∈ (converted <$> es) ++ replicate n Section_default -> Manager.section_ok s.
Proof.
  intros Hes. rewrite Forall_forall in Hes. rewrite elem_of_app, elem_of_replicate. intros [Hs|[-> _]].
  - apply list_elem_of_fmap in Hs as (e & -> & He). rewrite (converted_low e (Hes e He)).
    destruct (Hes e He) as (? & ? & ? & ?). unfold Manager.section_ok, in_u32. cbn. lia.
  - unfold Manager.section_ok, in_u32. cbn. lia.
Qed.

Lemma initialize_from_entries {B} `{Bitmap B} (b : B) mm es n : bm_size = MEM_BITMAP_SIZE -> bm_ok b ->
  (forall j, 0 <= j < bm_size -> ~ Manager.free b j) -> m_sections mm = (converted <$> es) ++ replicate n Section_default ->
  (length es + n = 32)%nat -> Forall entry_low es ->
  exists b', Manager.initialize mm b = Done (tt, b') /\ bm_ok b' /\
    forall j, 0 <= j < bm_size -> Manager.free b' j <-> usable_frame es j.
Proof.
  intros Hsz Hb Hall Hm Hn Hes.
  assert (Hlen : length (m_sections mm) = 32%nat) by (rewrite Hm, length_app, length_fmap, length_replicate; lia).
  destruct (Manager.initialize_spec Hsz b mm Hb Hlen) as (b' & E & Hb' & Hf).
  { intros s. rewrite Hm. by apply converted_sections_ok. }
  exists b'. do 2 (split; [done|]). intros j Hj. rewrite Hf, Manager.usable_all, Hm, converted_usable by done.
  specialize (Hall j Hj). tauto.
Qed.

(** What the constructor keeps of a list of tags that fits. *)
Lemma Handoff_new_spec (tags : gmap Z tag) (m : memory) (arguments : list argument) name line
    (fuel : nat) handoff first garbage (l : list tag_body) :
  (forall a, a ∈ arguments -> cstr m (arg a) (name a)) ->
  tag_path tags (u32 first) l -> (length l <= fuel)%nat -> Forall (tag_ok m line) l ->
  exists h called, Handoff_new tags m arguments fuel handoff first STIVALE2_MAGIC garbage = Done (h, called) /\
    called = (l ≫= called_by arguments name line) /\
    (forall pre t post, l = pre ++ FRAMEBUFFER t :: post -> Forall (fun b => ~ is_screen b) post ->
       m_framebuffer h = screen_of t) /\
    (forall pre es post, l = pre ++ MEMMAP es :: post -> Forall (fun b => ~ is_map b) pre ->
       Forall (fun b => ~ is_map b) post -> Forall entry_low es ->
       forall (B : Type) `(Bitmap B) (b : B), bm_size = MEM_BITMAP_SIZE -> bm_ok b ->
         (forall j, 0 <= j < bm_size -> ~ Manager.free b j) ->
         exists b', Manager.initialize (m_memoryMap h) b = Done (tt, b') /\ bm_ok b' /\
           forall j, 0 <= j < bm_size -> Manager.free b' j <-> usable_frame es j).
Proof.
  intros Hnames Hp Hf Hl. unfold Handoff_new.
  rewrite Z.eqb_refl. set (s0 := (mkHandoff _ _ _ _ _ _, [])).
  rewrite (parse_said tags m arguments name line Hnames l) by done.
  destruct (foldl _ s0 l) as [h called] eqn:E. exists h, called. split; [done|].
  assert (Eh : h = (foldl (said arguments name line) s0 l).1) by (by rewrite E).
  split; [|split].
  - change called with (h, called).2. rewrite <- E. by rewrite said_called.
  - intros pre t post -> Hpost. rewrite Eh. by apply said_screen.
  - intros pre es post -> Hpre Hpost Hes B ? b Hsz Hb Hall. apply (initialize_from_entries b _ es (32 - length es)); try done.
    + rewrite Eh. by apply said_map.
    + apply Forall_app in Hl as [_ Hl]. inversion_clear Hl as [|? ? Hle _]. cbn in Hle. lia.
Qed.

(** ** Theorems *)


(** Bases and lengths are cut to 32 bits: usable memory above 4 GiB is taken for
    low memory, here for the megabyte of the kernel. *)
Lemma high_memory_aliases_low : forall es, es = [mkEntry 0x100100000 0x1000 STIVALE2_MMAP_USABLE] ->
  exists h, Handoff_new {[ 0x1000 := mkTag (MEMMAP es) 0 ]} ∅ [] 1 0 0x1000 STIVALE2_MAGIC 0 = Done (h, []) /\
    Get (m_memoryMap h) 0 = Done (mkSection 0x100000 0x1000 Available).
Proof. intros es ->. eexists. split; vm_compute; reflexivity. Qed.

(** An argument in the middle of the command line is not found. *)
Definition demo_strings : memory := list_to_map (zip (seqZ 0 40)
  ([97; 98; 32; 99; 0] ++ [97; 98; 0] ++ [99; 0])).
Lemma argument_in_front_is_missed :
  parseCommandLine [mkArgument 5 111; mkArgument 8 222] 0 demo_strings = Done [222].
Proof. vm_compute. reflexivity. Qed.

Definition demo_tags : gmap Z tag :=
  <[0x1000 := mkTag (MEMMAP [mkEntry 0x100000 0x2000 STIVALE2_MMAP_USABLE; mkEntry 0x200000 0x1000 STIVALE2_MMAP_RESERVED]) 0x2000]>
  {[ 0x2000 := mkTag (CMDLINE 0) 0 ]}.
Definition demo_names (a : argument) : list Z := if arg a =? 5 then [97; 98] else [99].

#[local] Existing Instance Manager.frame_bitmap.
