(* ===== verification/Logging.v ===== *)
(** * The logger (Logger.cpp, Logger.hpp) and scoped locks (Locking/RAII.hpp)

    Messages of a level that is switched on are given a heading in a shared
    buffer, and the buffer is handed as a format, with the arguments of the
    caller, to every registered writer.  Writers are function pointers: what a
    call of one does is a parameter, as is where the string literals are. *)
From S2P Require Import Prelude Words KString Printf.
From Stdlib Require Import ZArith Lia Bool Ascii.
From stdpp Require Import base strings numbers gmap list.
#[local] Open Scope Z_scope.

Definition codes (s : string) : list Z := ch <$> String.list_ascii_of_string s.

(** ** Scoped locks

    The body of [lockedRegion] runs between the constructor and the destructor
    of a [RAIIMutex].  A caller that finds the mutex taken waits for another
    task (Locking.v has the mutex itself). *)
Section raii.
Context {S : Type} (m_isLocked : S -> bool) (set_isLocked : bool -> S -> S).

Definition RAIIMutex_ctor : K S unit :=
  b ← kgets m_isLocked ; if (b : bool) then kstuck else kmodify (set_isLocked true).
Definition RAIIMutex_dtor : K S unit := kmodify (set_isLocked false).
Definition lockedRegion (lockedWork : K S unit) : K S unit :=
  RAIIMutex_ctor ;; lockedWork ;; RAIIMutex_dtor.
End raii.

Module Logger.

Inductive LogLevel := lTRACE | lDEBUG | lVERBOSE | lINFO | lWARNING | lERROR | lNone.
Definition LogLevel_code (lvl : LogLevel) : Z :=
  match lvl with
  | lTRACE => 0 | lDEBUG => 1 | lVERBOSE => 2 | lINFO => 3 | lWARNING => 4 | lERROR => 5 | lNone => 6
  end.

Definition m_maxWriterCount : Z := 2.
Definition m_maxBufferSize : Z := 1024.

(** The object; a writer is an address, 0 is [nullptr], and [m_logBuffer] is
    where the buffer is. *)
Record Logger := mkLogger {
  m_logBufferMutex : bool; m_writersIdx : Z; m_logLevel : LogLevel; m_writers : list Z; m_logBuffer : Z
}.
Definition set_mutex b (l : Logger) := mkLogger b (m_writersIdx l) (m_logLevel l) (m_writers l) (m_logBuffer l).
Definition set_writers n w (l : Logger) := mkLogger (m_logBufferMutex l) n (m_logLevel l) w (m_logBuffer l).
Definition set_level v (l : Logger) := mkLogger (m_logBufferMutex l) (m_writersIdx l) v (m_writers l) (m_logBuffer l).

(** The level depends on the build; static storage is zero before. *)
Inductive build := RELEASE | DEBUG | NEITHER.
Definition Logger_new (b : build) (buffer : Z) : Logger :=
  mkLogger false 0 (match b with RELEASE => lINFO | DEBUG => lDEBUG | NEITHER => lTRACE end) [0; 0] buffer.

Definition esc (s : string) : string := String "027"%char s.
Definition newline : string := String "010"%char EmptyString.
Definition levelToString (lvl : LogLevel) : string :=
  match lvl with
  | lTRACE => esc ("[36mTRACE" ++ esc "[0m")
  | lDEBUG => esc ("[96mDEBUG" ++ esc "[0m")
  | lVERBOSE => esc ("[92mVERBOSE" ++ esc "[0m")
  | lINFO => esc ("[94mINFO" ++ esc "[0m")
  | lWARNING => esc ("[93mWARNING" ++ esc "[0m")
  | lERROR => esc ("[91mERROR" ++ esc "[0m")
  | lNone => "UNKNOWN"
  end%string.
Definition heading_format : string := ("[%-16s] %-22s %s" ++ newline)%string.

(** ** Writers *)

(** [m_writers[idx]], and the assignment to it. *)
Definition get_writer (idx : Z) : K Logger Z :=
  kread (fun l => match m_writers l !! Z.to_nat idx with Some w => Done w | None => Fault end).
Definition put_writer (idx writer : Z) : K Logger unit := fun l =>
  match m_writers l !! Z.to_nat idx with
  | Some _ => Done (tt, set_writers (m_writersIdx l) (<[Z.to_nat idx := writer]> (m_writers l)) l)
  | None => Fault
  end.

Definition addWriter (writer : Z) : K Logger bool :=
  n ← kgets m_writersIdx ;
  if n <? m_maxWriterCount then
    put_writer n writer ;;
    kmodify (fun l => set_writers (u32 (m_writersIdx l + 1)) (m_writers l) l) ;;
    mret true
  else mret false.

(** The loop of [removeWriter], from [idx] on. *)
Fixpoint remove_loop (n : nat) (idx : Z) (writer : Z) : K Logger bool :=
  match n with
  | O => mret false
  | S n' =>
      w ← get_writer idx ;
      if w =? writer then put_writer idx 0 ;; mret true
      else remove_loop n' (idx + 1) writer
  end.
Definition removeWriter (writer : Z) : K Logger bool :=
  n ← kgets m_writersIdx ; remove_loop (Z.to_nat n) 0 writer.

Definition setLevel (level : LogLevel) : K Logger unit := kmodify (set_level level).
Definition getLevel (l : Logger) : LogLevel := m_logLevel l.

(** ** Messages *)
Section messages.
Context {X : Type}.
(** The state is the logger, memory, and what the writers work on. *)
Definition world : Type := Logger * (memory * X).
Context (call : Z -> Z -> list Z -> K (memory * X) Z) (literal : string -> Z).

Definition onlog {A} : K Logger A -> K world A := kzoom fst (fun l s => (l, s.2)).
Definition onmem {A} : K memory A -> K world A := kzoom (fun s => s.2.1) (fun m s => (s.1, (m, s.2.2))).
Definition onrest {A} : K (memory * X) A -> K world A := kzoom snd (fun r s => (s.1, r)).

Definition LogHelperPrint (fmt : Z) (ap : list Z) : K world unit :=
  n ← onlog (kgets m_writersIdx) ;
  kfor (Z.to_nat n) 0 1 (fun i =>
    w ← onlog (get_writer i) ;
    if w =? 0 then mret tt else onrest (call w fmt ap) ;; mret tt).

(** [RAIIMutex(the().m_logBufferMutex);] is an expression: the object is
    destroyed at the semicolon. *)
Definition LogHelper (tag : Z) (lvl : LogLevel) (fmt : Z) (ap : list Z) : K world unit :=
  onlog (RAIIMutex_ctor m_logBufferMutex set_mutex ;; RAIIMutex_dtor set_mutex) ;;
  buffer ← onlog (kgets m_logBuffer) ;
  onmem (ksprintf buffer (literal heading_format) [literal (levelToString lvl); tag; fmt]) ;;
  LogHelperPrint buffer ap.

Definition message (lvl : LogLevel) (tag fmt : Z) (ap : list Z) : K world unit :=
  level ← onlog (kgets getLevel) ;
  kwhen (LogLevel_code lvl >=? LogLevel_code level) (LogHelper tag lvl fmt ap).
Definition Trace := message lTRACE.
Definition Verbose := message lVERBOSE.
Definition Debug := message lDEBUG.
Definition Info := message lINFO.
Definition Warning := message lWARNING.
Definition Error := message lERROR.
Definition Print (fmt : Z) (ap : list Z) : K world unit := LogHelperPrint fmt ap.

(** *** The writers that are called *)

(** Calls of the writers of a list, in order; empty places are skipped. *)
Fixpoint called (ws : list Z) (fmt : Z) (ap : list Z) (s s' : memory * X) : Prop :=
  match ws with
  | [] => s' = s
  | w :: ws' =>
      if w =? 0 then called ws' fmt ap s s'
      else exists r s1, call w fmt ap s = Done (r, s1) /\ called ws' fmt ap s1 s'
  end.

Lemma get_writer_run l i w : m_writers l !! Z.to_nat i = Some w -> get_writer i l = Done (w, l).
Proof. intros E. unfold get_writer, kread. by rewrite E. Qed.

Lemma print_loop_run fmt ap l ws : forall i s s', 0 <= i ->
  (forall k w, ws !! k = Some w -> m_writers l !! (Z.to_nat i + k)%nat = Some w) -> called ws fmt ap s s' ->
  kfor (length ws) i 1 (fun i =>
    w ← onlog (get_writer i) ; if w =? 0 then mret tt else onrest (call w fmt ap) ;; mret tt) (l, s) = Done (tt, (l, s')).
Proof.
  induction ws as [|w ws IH]; intros i s s' Hi Hws Hc; cbn [length kfor called] in *; [by subst|].
  assert (Ew : m_writers l !! Z.to_nat i = Some w) by (rewrite <- (Hws 0%nat w eq_refl); f_equal; lia).
  assert (Eg : onlog (get_writer i) (l, s) = Done (w, (l, s))) by (unfold onlog, kzoom; cbn [fst]; by rewrite (get_writer_run _ _ _ Ew)).
  assert (Hnext : forall k w', ws !! k = Some w' -> m_writers l !! (Z.to_nat (i + 1) + k)%nat = Some w').
  { intros k w' Hk. rewrite <- (Hws (Datatypes.S k) w' Hk). f_equal. lia. }
  destruct (Z.eqb_spec w 0) as [->|Hw].
  - rewrite (run_bind_done _ _ _ tt (l, s)) by by rewrite (run_bind_done _ _ _ _ _ Eg). apply IH; [lia|done|done].
  - destruct Hc as (r & s1 & E1 & Hc). rewrite (run_bind_done _ _ _ tt (l, s1)); [apply IH; [lia|done|done]|].
    rewrite (run_bind_done _ _ _ _ _ Eg). destruct (Z.eqb_spec w 0); [done|].
    rewrite (run_bind_done _ _ _ r (l, s1)); [done|]. unfold onrest, kzoom. cbn [snd]. by rewrite E1.
Qed.

Lemma LogHelperPrint_run fmt ap l s s' : 0 <= m_writersIdx l <= Z.of_nat (length (m_writers l)) ->
  called (take (Z.to_nat (m_writersIdx l)) (m_writers l)) fmt ap s s' ->
  LogHelperPrint fmt ap (l, s) = Done (tt, (l, s')).
Proof.
  intros Hn Hc. unfold LogHelperPrint. rewrite (run_bind_done _ _ _ (m_writersIdx l) (l, s)) by done.
  set (ws := take _ _) in *. replace (Z.to_nat (m_writersIdx l)) with (length ws) by (unfold ws; rewrite length_take; lia).
  apply print_loop_run; [lia| |done]. intros k w Hk. unfold ws in Hk. by apply lookup_take_Some in Hk as [? _].
Qed.

(** *** The heading *)

(** [l] in at least [n] places. *)
Definition left_in (n : nat) (l : list Z) : list Z := l ++ replicate (n - length l) (ch " ").
Definition heading (lvl : LogLevel) (tag : list Z) : list Z :=
  [ch "["] ++ left_in 16 (codes (levelToString lvl)) ++ codes "] " ++ left_in 22 tag ++ [ch " "].

Definition heading_items : list item :=
  [Text (ch "["); Conv true false (codes "16") [] (ch "s"); Text (ch "]"); Text (ch " ");
   Conv true false (codes "22") [] (ch "s"); Text (ch " "); Conv false false [] [] (ch "s"); Text 10].

Lemma heading_items_text : print_format heading_items = codes heading_format.
Proof. reflexivity. Qed.
Lemma heading_items_ok : Forall item_ok heading_items.
Proof.
  unfold heading_items. repeat (apply Forall_cons; split); try done;
    (split; [by repeat constructor|]; split; [done|]; split; [by constructor|]; by apply (bool_decide_unpack _); vm_compute).
Qed.

(** "%s" with a width, to the left. *)
Lemma string_out strs (lj : bool) wd a rest s : strs a = Some s -> u32 (decimal wd) = Z.of_nat (if lj then Z.to_nat (decimal wd) else 0) ->
  item_out strs (Conv lj false wd [] (ch "s")) (a :: rest) = Some (left_in (if lj then Z.to_nat (decimal wd) else 0) s, rest).
Proof.
  intros Es Hw. cbn [item_out]. change (ch "s" =? ch "c") with false. change (ch "s" =? ch "s") with true. cbv iota.
  rewrite Es. cbn [mbind option_bind]. rewrite Hw. unfold field, justified, left_in. cbn [opt andb negb app].
  destruct lj; cbn [app].
  - replace (Z.to_nat _) with (Z.to_nat (decimal wd) - length s)%nat by lia. done.
  - replace (Z.to_nat _) with O by lia. cbn [replicate Nat.sub]. done.
Qed.

Lemma heading_out strs la ta fa lvl tag text : strs la = Some (codes (levelToString lvl)) -> strs ta = Some tag ->
  strs fa = Some text ->
  format_out strs heading_items [la; ta; fa] = Some (heading lvl tag ++ text ++ [10], []).
Proof.
  intros El Et Ef. unfold heading_items, heading.
  replace (([ch "["] ++ left_in 16 (codes (levelToString lvl)) ++ codes "] " ++ left_in 22 tag ++ [ch " "]) ++ text ++ [10])
    with ([ch "["] ++ left_in 16 (codes (levelToString lvl)) ++ [ch "]"] ++ [ch " "] ++ left_in 22 tag ++ [ch " "] ++
          left_in 0 text ++ [10] ++ []) by (unfold left_in; rewrite <- ?app_assoc; cbn [Nat.sub replicate]; rewrite ?app_nil_l; done).
  repeat (eapply format_out_cons; [first [reflexivity|by apply (string_out strs true (codes "16"))
    |by apply (string_out strs true (codes "22"))|by apply (string_out strs false [])]|]).
  reflexivity.
Qed.

(** *** Building the message *)

Lemma cstr_inj m p s1 s2 : cstr m p s1 -> cstr m p s2 -> s1 = s2.
Proof.
  revert p s2. induction s1 as [|c s1 IH]; intros p [|d s2] H1 H2; [done| | |].
  - apply cstr_nil in H1. apply cstr_cons in H2 as (E & Hd & _). unfold is_char in Hd. assert (d = 0) by congruence. lia.
  - apply cstr_nil in H2. apply cstr_cons in H1 as (E & Hd & _). unfold is_char in Hd. assert (c = 0) by congruence. lia.
  - apply cstr_cons in H1 as (E1 & _ & H1), H2 as (E2 & _ & H2). f_equal; [congruence|]. by eapply IH.
Qed.

Lemma byte_chars l : Forall is_char l -> u8 <$> l = l.
Proof.
  induction 1 as [|c l Hc Hl IH]; [done|]. cbn. rewrite IH. f_equal. apply u8_small. unfold is_char in Hc. lia.
Qed.

Lemma levels_plain lvl : Forall (fun c => is_char c /\ c <> ch "%" /\ c < 128) (codes (levelToString lvl)).
Proof. apply Forall_forall. destruct lvl; apply Forall_forall; vm_compute; repeat constructor; discriminate. Qed.

Lemma heading_chars lvl tag (P : Z -> Prop) : (forall c, In c (codes "[] ") -> P c) ->
  Forall P (codes (levelToString lvl)) -> Forall P tag -> Forall P (heading lvl tag).
Proof.
  intros Hp Hl Ht. assert (Hsp : P (ch " ")) by (apply Hp; cbn; auto).
  unfold heading, left_in. rewrite !Forall_app. repeat split; try done;
    try (apply Forall_replicate; done); repeat constructor; apply Hp; cbn; auto.
Qed.

(** Strings outside of a buffer of [n] bytes. *)
Definition string_outside (m : memory) (buf n p : Z) (s : list Z) : Prop :=
  cstr m p s /\ Z.of_nat (length s) <= INT_MAX /\ (p + Z.of_nat (length s) < buf \/ buf + n <= p).

Lemma heading_run lvl tag fmt t text l m x : m_logBufferMutex l = false ->
  let buf := m_logBuffer l in
  let out := heading lvl t ++ text ++ [10] in
  mapped m buf m_maxBufferSize -> Z.of_nat (length out) < m_maxBufferSize ->
  string_outside m buf m_maxBufferSize (literal heading_format) (codes heading_format) ->
  string_outside m buf m_maxBufferSize (literal (levelToString lvl)) (codes (levelToString lvl)) ->
  string_outside m buf m_maxBufferSize tag t -> string_outside m buf m_maxBufferSize fmt text ->
  exists m', cstr m' buf out /\ (forall a, ~ buf <= a < buf + m_maxBufferSize -> m' !! a = m !! a) /\
    forall ap, LogHelper tag lvl fmt ap (l, (m, x)) = LogHelperPrint buf ap (l, (m', x)).
Proof.
  intros Hlk buf out Hm Hlen (Hh & _ & Hh3) (Hl & Hl2 & Hl3) (Ht & Ht2 & Ht3) (Hf & Hf2 & Hf3).
  set (strs := fun a => if a =? literal (levelToString lvl) then Some (codes (levelToString lvl)) else
    if a =? tag then Some t else if a =? fmt then Some text else None).
  assert (Hout : Forall is_char out).
  { unfold out. rewrite !Forall_app. split; [|split; [apply Hf|by repeat constructor]].
    apply heading_chars; [intros c Hc; unfold is_char; cbn in Hc; repeat (destruct Hc as [<-|Hc]; [done|]); done| |apply Ht].
    eapply Forall_impl; [apply levels_plain|]. by intros c (? & _). }
  unfold m_maxBufferSize in *.
  destruct (kvsprintf_spec m strs buf (literal heading_format) heading_items [literal (levelToString lvl); tag; fmt] out [])
    as (m' & E & Hb & Hk).
  - apply heading_items_ok.
  - rewrite heading_items_text. exact Hh.
  - apply heading_out; unfold strs.
    + by rewrite Z.eqb_refl.
    + destruct (Z.eqb_spec tag (literal (levelToString lvl))) as [Et|_]; [|by rewrite Z.eqb_refl].
      f_equal. rewrite <- Et in Hl. by eapply cstr_inj.
    + destruct (Z.eqb_spec fmt (literal (levelToString lvl))) as [Et|_].
      { f_equal. rewrite <- Et in Hl. by eapply cstr_inj. }
      destruct (Z.eqb_spec fmt tag) as [->|_]; [|by rewrite Z.eqb_refl]. f_equal. by eapply cstr_inj.
  - unfold INT_MAX. lia.
  - intros a Ha. apply Hm. lia.
  - rewrite heading_items_text. lia.
  - intros a s0. unfold strs. destruct (Z.eqb_spec a (literal (levelToString lvl))) as [->|_]; [intros [= <-]; split; [done|split; [done|lia]]|].
    destruct (Z.eqb_spec a tag) as [->|_]; [intros [= <-]; split; [done|split; [done|lia]]|].
    destruct (Z.eqb_spec a fmt) as [->|_]; [intros [= <-]; split; [done|split; [done|lia]]|done].
  - rewrite byte_chars in Hb by done. exists m'. split; [by split|]. split; [intros a Ha; apply Hk; lia|].
    intros ap. unfold LogHelper. rewrite (run_bind_done _ _ _ tt (l, (m, x))).
    2: { unfold onlog, kzoom, RAIIMutex_ctor. cbn [fst]. rewrite run_bind, run_bind. unfold kgets. rewrite Hlk. destruct l. cbn in Hlk. by subst. }
    rewrite (run_bind_done _ _ _ buf (l, (m, x))) by done.
    rewrite (run_bind_done _ _ _ (Z.of_nat (length out)) (l, (m', x))); [done|].
    unfold onmem, kzoom, ksprintf. cbn [fst snd]. by rewrite E.
Qed.
End messages.
Arguments world X : clear implicits.

(** The lock of [LogHelper] is free again before the buffer is touched. *)
Lemma log_lock_is_released_at_once l : m_logBufferMutex l = false ->
  (RAIIMutex_ctor m_logBufferMutex set_mutex ;; RAIIMutex_dtor set_mutex) l = Done (tt, l).
Proof.
  intros Hl. unfold RAIIMutex_ctor, RAIIMutex_dtor. rewrite run_bind, run_bind. unfold kgets. rewrite Hl.
  destruct l. cbn in Hl. by subst.
Qed.

(** The place of a writer that is removed cannot be used again. *)
Lemma removed_place_is_lost b buf w1 w2 w3 :
  exists l, (addWriter w1 ;; addWriter w2 ;; removeWriter w1 ;; addWriter w3) (Logger_new b buf) = Done (false, l) /\
    m_writers l = [0; w2].
Proof.
  exists (set_writers 2 [0; w2] (Logger_new b buf)). split; [|done].
  set (l0 := Logger_new b buf). rewrite (run_bind_done _ _ _ true (set_writers 1 [w1; 0] l0)) by reflexivity.
  rewrite (run_bind_done _ _ _ true (set_writers 2 [w1; w2] l0)) by reflexivity.
  rewrite (run_bind_done _ _ _ true (set_writers 2 [0; w2] l0)); [reflexivity|].
  unfold removeWriter. rewrite run_bind. cbn [remove_loop kgets]. change (Z.to_nat _) with 2%nat. cbn [remove_loop].
  rewrite (run_bind_done _ _ _ w1 (set_writers 2 [w1; w2] l0)) by reflexivity. by rewrite Z.eqb_refl.
Qed.

End Logger.
