(* ===== verification/Serial.v ===== *)
(** * The serial line (Devices/Serial/rs232.cpp)

    Output through a port that is polled until it is ready, formatted output on
    it, and input by interrupt into a ring buffer; and what a log message looks
    like on the line. *)
From S2P Require Import Prelude Words RingBuffers KString Printf Interrupts Logging.
From Stdlib Require Import ZArith Lia Bool Ascii.
From stdpp Require Import base strings numbers gmap list.
#[local] Open Scope Z_scope.

Module RS232.

Definition RS_232_COM1_IRQ : Z := 0x04.
Definition RS_232_COM2_IRQ : Z := 0x03.
Definition RS_232_DATA_REG : Z := 0x0.
Definition RS_232_INTERRUPT_ENABLE_REG : Z := 0x1.
Definition RS_232_INTERRUPT_IDENTIFICATION_REG : Z := 0x2.
Definition RS_232_LINE_CONTROL_REG : Z := 0x3.
Definition RS_232_MODEM_CONTROL_REG : Z := 0x4.
Definition RS_232_LINE_STATUS_REG : Z := 0x5.
Definition RS_232_COM1 : Z := 0x3F8.

(** The static variables, and the ports. *)
Record serial := mkSerial {
  plat : platform; rs_232_port_base : Z; ring : RingBuffer.RingBuffer (T := Z); mutex_rs232 : bool
}.
Definition set_plat p (s : serial) := mkSerial p (rs_232_port_base s) (ring s) (mutex_rs232 s).
Definition set_base b (s : serial) := mkSerial (plat s) b (ring s) (mutex_rs232 s).
Definition set_ring r (s : serial) := mkSerial (plat s) (rs_232_port_base s) r (mutex_rs232 s).
Definition set_lock b (s : serial) := mkSerial (plat s) (rs_232_port_base s) (ring s) b.

Definition onplat {A} : K platform A -> K serial A := kzoom plat set_plat.
Definition onring {A} : K (RingBuffer.RingBuffer (T := Z)) A -> K serial A := kzoom ring set_ring.

Definition ring_size : Z := 1024.

Import Logger.

Section rs232.
(** What the [n]-th read of a port finds; the rounds a wait is given; the
    address of the literal "%c"; and the addresses of the interrupt callback
    and of [vprintf]. *)
Context (port_in : nat -> Z -> Z) (patience : nat) (percent_c : Z) (callback_addr vprintf_addr : Z).

Definition in_reg (reg : Z) : K serial Z :=
  base ← kgets rs_232_port_base ; onplat (readByte port_in (u16 (base + reg))).
Definition out_reg (reg value : Z) : K serial unit :=
  base ← kgets rs_232_port_base ; onplat (writeByte (u16 (base + reg)) value).

Definition received : K serial Z := v ← in_reg RS_232_LINE_STATUS_REG ; mret (Z.land v 1).
Definition is_transmit_empty : K serial Z := v ← in_reg RS_232_LINE_STATUS_REG ; mret (Z.land v 0x20).

(** [while (flag() == 0);] *)
Fixpoint wait_for (fuel : nat) (flag : K serial Z) : K serial unit :=
  v ← flag ;
  if v =? 0 then match fuel with O => kstuck | S fuel' => wait_for fuel' flag end else mret tt.

(** A [char], as the byte that it is. *)
Definition read_byte : K serial Z :=
  lockedRegion mutex_rs232 set_lock (wait_for patience received) ;;
  in_reg RS_232_DATA_REG.

(** [write] of the bytes that [byte] gives. *)
Definition write_with (byte : Z -> outcome Z) (count : Z) : K serial Z :=
  wait_for patience is_transmit_empty ;;
  kfor (Z.to_nat count) 0 1 (fun idx => c ← kread (fun _ => byte idx) ; out_reg RS_232_DATA_REG c) ;;
  mret count.
Definition write (buf count : Z) : K (memory * serial) Z := fun s =>
  kzoom snd (fun x s => (s.1, x)) (write_with (fun idx => load (buf + idx) s.1) count) s.

(** The address of the local variable [buf] is passed to [write]. *)
Definition vprintf_helper (c : Z) : K (memory * serial) unit :=
  kzoom snd (fun x s => (s.1, x)) (write_with (fun _ => Done (u8 c)) 1) ;; mret tt.
Definition vprintf (fmt : Z) (args : list Z) : K (memory * serial) Z := printf_helper vprintf_helper fmt args.
Definition printf (format : Z) (args : list Z) : K (memory * serial) Z := vprintf format args.

Definition callback : K (memory * serial) unit :=
  in_ ← kzoom snd (fun x s => (s.1, x)) read_byte ;
  let in_ := if in_ =? 13 then 10 else in_ in
  printf percent_c [u32 (s8 in_)] ;;
  kzoom snd (fun x s => (s.1, x)) (onring (RingBuffer.Enqueue ring_size in_)) ;;
  mret tt.

(** The registers that are written, in order. *)
Definition activation : list (Z * Z) :=
  [(RS_232_INTERRUPT_ENABLE_REG, 0x00); (RS_232_LINE_CONTROL_REG, 0x80); (RS_232_DATA_REG, 0x03);
   (RS_232_INTERRUPT_ENABLE_REG, 0x00); (RS_232_LINE_CONTROL_REG, 0x03);
   (RS_232_INTERRUPT_IDENTIFICATION_REG, 0xC7); (RS_232_MODEM_CONTROL_REG, 0x0B);
   (RS_232_LINE_CONTROL_REG, 0x00); (RS_232_INTERRUPT_ENABLE_REG, 0x01)].
Fixpoint out_regs (l : list (Z * Z)) : K serial unit :=
  match l with [] => mret tt | (reg, v) :: l' => out_reg reg v ;; out_regs l' end.

Definition activate (com_id : Z) : K serial unit :=
  kmodify (set_base com_id) ;;
  onplat (Interrupts.registerHandler (u8 (0x20 + (if com_id =? RS_232_COM1 then RS_232_COM1_IRQ else RS_232_COM2_IRQ)))
            callback_addr) ;;
  out_regs activation.

(** A writer of the logger: this driver is the only one. *)
Definition call_writer (w fmt : Z) (args : list Z) : K (memory * serial) Z :=
  if w =? vprintf_addr then vprintf fmt args else kfault.

(** [init], with the address of its greeting. *)
Definition init (greeting com_id : Z) : K (world serial) unit :=
  onrest (kzoom snd (fun x s => (s.1, x)) (activate com_id)) ;;
  onlog (addWriter vprintf_addr) ;;
  Print call_writer greeting [].

Fixpoint read_loop (n : nat) (buf idx : Z) : K (memory * serial) Z :=
  match n with
  | O => mret idx
  | S n' =>
      empty ← kgets (fun s => RingBuffer.IsEmpty (ring s.2)) ;
      if empty : bool then mret idx else
      c ← kzoom snd (fun x s => (s.1, x)) (onring (RingBuffer.Dequeue 0 ring_size)) ;
      kzoom fst (fun m s => (m, s.2)) (store (buf + idx) c) ;;
      read_loop n' buf (idx + 1)
  end.
Definition read (buf count : Z) : K (memory * serial) Z :=
  kzoom snd (fun x s => (s.1, x)) (RAIIMutex_ctor mutex_rs232 set_lock) ;;
  bytes ← read_loop (Z.to_nat count) buf 0 ;
  kzoom snd (fun x s => (s.1, x)) (RAIIMutex_dtor set_lock) ;;
  mret bytes.

Definition close : Z := 0.

(** ** Output *)

(** The bytes [l] have been sent, and nothing else has happened but reads. *)
Definition data_port (s : serial) : Z := u16 (rs_232_port_base s + RS_232_DATA_REG).
Definition status_port (s : serial) : Z := u16 (rs_232_port_base s + RS_232_LINE_STATUS_REG).
Definition after_sending (l : list Z) (k : nat) (s : serial) : serial :=
  set_plat (mkPlatform (idt (plat s)) (loaded (plat s)) (interruptHandlers (plat s))
    (rev (pair (data_port s) <$> l) ++ ports (plat s)) (reads (plat s) + k)%nat) s.
Definition sends (l : list Z) (s s' : serial) : Prop := exists k, s' = after_sending l k s.

Lemma after_sending_0 s : after_sending [] 0 s = s.
Proof. destruct s as [[] ? ? ?]. unfold after_sending, set_plat. cbn. by rewrite Nat.add_0_r. Qed.
Lemma sends_app l1 l2 s s1 s2 : sends l1 s s1 -> sends l2 s1 s2 -> sends (l1 ++ l2) s s2.
Proof.
  intros [k1 ->] [k2 ->]. exists (k1 + k2)%nat. unfold after_sending, set_plat, data_port. cbn.
  by rewrite fmap_app, rev_app_distr, <- app_assoc, Nat.add_assoc.
Qed.

(** The bit of the status register that a wait polls comes within [patience]
    reads. *)
Definition comes (bit : Z) (port : Z) : Prop := forall n, exists k, (k <= patience)%nat /\
  Z.land (u8 (port_in (n + k)%nat port)) (2 ^ bit) <> 0.

Lemma in_reg_run reg s : in_reg reg s =
  Done (u8 (port_in (reads (plat s)) (u16 (rs_232_port_base s + reg))), after_sending [] 1 s).
Proof. unfold in_reg, kgets. rewrite run_bind. unfold onplat, kzoom, readByte, after_sending. by rewrite Nat.add_1_r. Qed.

Definition poll (bit : Z) : K serial Z := v ← in_reg RS_232_LINE_STATUS_REG ; mret (Z.land v (2 ^ bit)).
Lemma poll_run bit n s : poll bit (after_sending [] n s) =
  Done (Z.land (u8 (port_in (reads (plat s) + n)%nat (status_port s))) (2 ^ bit), after_sending [] (n + 1) s).
Proof.
  unfold poll. rewrite (run_bind_done _ _ _ _ _ (in_reg_run _ _)).
  unfold after_sending, set_plat, mret, K_ret. cbn [plat rs_232_port_base ring mutex_rs232 idt loaded interruptHandlers ports reads fmap list_fmap rev app].
  by rewrite Nat.add_assoc.
Qed.

Lemma serial_wait_run bit s fuel : forall n,
  (exists k, (k <= fuel)%nat /\ Z.land (u8 (port_in (reads (plat s) + n + k)%nat (status_port s))) (2 ^ bit) <> 0) ->
  exists j, wait_for fuel (poll bit) (after_sending [] n s) = Done (tt, after_sending [] j s).
Proof.
  induction fuel as [|fuel IH]; intros n (k & Hk & Hbit); cbn [wait_for];
    rewrite (run_bind_done _ _ _ _ _ (poll_run bit n s));
    destruct (Z.eqb_spec (Z.land (u8 (port_in (reads (plat s) + n)%nat (status_port s))) (2 ^ bit)) 0) as [E|_];
    try (by exists (n + 1)%nat).
  - destruct Hbit. by replace (reads (plat s) + n + k)%nat with (reads (plat s) + n)%nat by lia.
  - destruct k as [|k]; [by rewrite Nat.add_0_r in Hbit|]. apply IH. exists k. split; [lia|].
    by replace (reads (plat s) + (n + 1) + k)%nat with (reads (plat s) + n + S k)%nat by lia.
Qed.

Lemma wait_done bit s : comes bit (status_port s) ->
  exists s', wait_for patience (poll bit) s = Done (tt, s') /\ sends [] s s'.
Proof.
  intros Hc. destruct (serial_wait_run bit s patience 0) as [j E]; [rewrite Nat.add_0_r; apply Hc|].
  rewrite after_sending_0 in E. exists (after_sending [] j s). split; [done|by exists j].
Qed.

Lemma out_data_run v s : out_reg RS_232_DATA_REG v s = Done (tt, after_sending [u8 v] 0 s).
Proof. unfold after_sending, set_plat. cbn. by rewrite Nat.add_0_r. Qed.

(** [write] sends the bytes. *)
Lemma send_loop byte l : forall i s, (forall k b, l !! k = Some b -> byte (i + Z.of_nat k) = Done b) ->
  kfor (length l) i 1 (fun idx => c ← kread (fun _ => byte idx) ; out_reg RS_232_DATA_REG c) s =
  Done (tt, after_sending (u8 <$> l) 0 s).
Proof.
  induction l as [|b l IH]; intros i s Hb; cbn [kfor length]; [by rewrite after_sending_0|].
  rewrite (run_bind_done _ _ _ tt (after_sending [u8 b] 0 s)).
  2: { rewrite (run_bind_done _ _ _ b s); [apply out_data_run|]. unfold kread. specialize (Hb 0%nat b eq_refl). by rewrite Z.add_0_r in Hb; rewrite Hb. }
  rewrite IH.
  - unfold after_sending, set_plat, data_port. cbn. by rewrite <- app_assoc, !Nat.add_0_r.
  - intros k c Hk. rewrite <- (Hb (S k) c Hk). f_equal. lia.
Qed.

Lemma write_with_run byte l s : comes 5 (status_port s) -> (forall k b, l !! k = Some b -> byte (Z.of_nat k) = Done b) ->
  exists s', write_with byte (Z.of_nat (length l)) s = Done (Z.of_nat (length l), s') /\ sends (u8 <$> l) s s'.
Proof.
  intros Hc Hb. destruct (wait_done 5 s Hc) as (s1 & E1 & H1). exists (after_sending (u8 <$> l) 0 s1).
  split; [|by apply (sends_app [] _ s s1); [|exists 0%nat]].
  unfold write_with. rewrite (run_bind_done _ _ _ _ _ E1). rewrite Nat2Z.id.
  by rewrite (run_bind_done _ _ _ _ _ (send_loop byte l 0 s1 Hb)).
Qed.

Lemma status_port_sends l s s' : sends l s s' -> status_port s' = status_port s.
Proof. by intros [k ->]. Qed.

Lemma vprintf_emits O : forall m s, comes 5 (status_port s) ->
  exists s', emits vprintf_helper (fun m' => m' = m) O (m, s) (m, s') /\ sends (u8 <$> O) s s'.
Proof.
  induction O as [|c O IH]; intros m s Hc.
  - exists s. split; [done|]. exists 0%nat. by rewrite after_sending_0.
  - destruct (write_with_run (fun _ => Done (u8 c)) [u8 c] s Hc) as (s1 & E1 & H1).
    { intros k b Hk. destruct k as [|[]]; cbn in Hk; congruence. }
    destruct (IH m s1) as (s' & E & H); [by rewrite (status_port_sends _ _ _ H1)|].
    exists s'. split.
    + exists (m, s1). split; [|done]. unfold vprintf_helper. rewrite (run_bind_done _ _ _ 1 (m, s1)); [done|].
      unfold kzoom. cbn [snd]. change 1 with (Z.of_nat (length [u8 c])). by rewrite E1.
    + cbn. apply (sends_app [u8 c] _ s s1); [|done]. cbn in H1. by rewrite (u8_small (u8 c)) in H1 by apply u8_range.
Qed.

(** Formatted output sends what the format means. *)
Lemma vprintf_run m s fmt its args strs O rest : comes 5 (status_port s) -> Forall item_ok its ->
  cstr m fmt (print_format its) -> (forall a l, strs a = Some l -> Z.of_nat (length l) <= INT_MAX /\ cstr m a l) ->
  format_out strs its args = Some (O, rest) -> Z.of_nat (length O) <= INT_MAX ->
  exists s', vprintf fmt args (m, s) = Done (Z.of_nat (length O), (m, s')) /\ sends (u8 <$> O) s s'.
Proof.
  intros Hc Hok Hf Hs Ho Hlen. destruct (vprintf_emits O m s Hc) as (s' & E & H). exists s'. split; [|done].
  apply (printf_helper_prints vprintf_helper (fun m' => m' = m) strs) with (its := its) (rest := rest); try done.
  - intros a l Ha. destruct (Hs a l Ha) as [H1 H2]. split; [done|]. by intros m' ->.
  - by intros m' ->.
Qed.

(** ** Log messages *)

Lemma text_byte c : is_char c -> u8 (u32 (s8 c)) = c.
Proof.
  unfold is_char, u8, u32, s8, wrap, swrap. intros Hc. change (2 ^ (8 - 1)) with 128. change (2 ^ 8) with 256. change (2 ^ 32) with 4294967296.
  rewrite (Z.mod_small c) by lia. destruct (Z.ltb_spec c 128).
  - by rewrite (Z.mod_small c 4294967296), Z.mod_small by lia.
  - Z.to_euclidean_division_equations; lia.
Qed.

Lemma text_bytes l : Forall is_char l -> u8 <$> ((fun c => u32 (s8 c)) <$> l) = l.
Proof. induction 1 as [|c l Hc Hl IH]; [done|]. cbn. by rewrite IH, text_byte. Qed.

Lemma heading_plain lvl t : Forall (fun c => is_char c /\ c <> ch "%") t ->
  Forall (fun c => is_char c /\ c <> ch "%") (heading lvl t).
Proof.
  intros Ht. apply heading_chars; [|eapply Forall_impl; [apply levels_plain|by intros c (? & ? & _)]|done].
  intros c Hc. cbn in Hc. unfold is_char. repeat (destruct Hc as [<-|Hc]; [done|]). done.
Qed.

Lemma log_printed literal l m s lvl tag t fmt its args strs O rest :
  m_logBufferMutex l = false -> 0 <= m_writersIdx l <= Z.of_nat (length (m_writers l)) ->
  take (Z.to_nat (m_writersIdx l)) (m_writers l) = [vprintf_addr] -> vprintf_addr <> 0 ->
  comes 5 (status_port s) -> Forall item_ok its -> Forall (fun c => c <> ch "%") t ->
  let outside p str := string_outside m (m_logBuffer l) m_maxBufferSize p str in
  mapped m (m_logBuffer l) m_maxBufferSize ->
  Z.of_nat (length (heading lvl t ++ print_format its ++ [10])) < m_maxBufferSize ->
  outside (literal heading_format) (codes heading_format) -> outside (literal (levelToString lvl)) (codes (levelToString lvl)) ->
  outside tag t -> outside fmt (print_format its) -> (forall a str, strs a = Some str -> outside a str) ->
  format_out strs its args = Some (O, rest) -> Z.of_nat (length (heading lvl t)) + Z.of_nat (length O) < INT_MAX ->
  exists m' s', LogHelper call_writer literal tag lvl fmt args (l, (m, s)) = Done (tt, (l, (m', s'))) /\
    sends (heading lvl t ++ (u8 <$> O) ++ [10]) s s' /\
    forall a, ~ m_logBuffer l <= a < m_logBuffer l + m_maxBufferSize -> m' !! a = m !! a.
Proof.
  intros Hlk Hidx Hw Hv Hc Hok Ht outside Hm Hlen Hh Hl Htag Hfmt Hs Ho Hmax.
  destruct (heading_run call_writer literal lvl tag fmt t (print_format its) l m s Hlk Hm Hlen Hh Hl Htag Hfmt) as (m' & Hb & Hk & E).
  assert (Hplain : Forall (fun c => is_char c /\ c <> ch "%") (heading lvl t)).
  { apply heading_plain. apply Forall_and. split; [apply Htag|done]. }
  set (all := (Text <$> heading lvl t) ++ its ++ [Text 10]).
  destruct (vprintf_run m' s (m_logBuffer l) all args strs
    (((fun c => u32 (s8 c)) <$> heading lvl t) ++ O ++ [10]) rest Hc) as (s' & Ev & Hsent).
  - unfold all. rewrite !Forall_app. split; [apply Forall_fmap; exact Hplain|]. split; [done|]. by repeat constructor.
  - unfold all, print_format. rewrite !bind_app. change (?f ≫= print_item) with (print_format f) in *.
    rewrite (print_format_text (heading lvl t)). exact Hb.
  - intros a str Ha. destruct (Hs a str Ha) as (H1 & H2 & H3). split; [done|]. by apply (cstr_kept m (m_logBuffer l) m_maxBufferSize m').
  - eapply format_out_app; [apply format_out_text|]. eapply format_out_app; [exact Ho|reflexivity].
  - rewrite !length_app, length_fmap. cbn [length]. lia.
  - exists m', s'. split; [|split; [|done]].
    + rewrite E. apply LogHelperPrint_run; [done|]. rewrite Hw. cbn [called]. destruct (Z.eqb_spec vprintf_addr 0); [done|].
      eexists _, _. split; [|reflexivity]. unfold call_writer. rewrite Z.eqb_refl. exact Ev.
    + rewrite !fmap_app, text_bytes in Hsent; [exact Hsent|]. eapply Forall_impl; [exact Hplain|by intros c [? _]].
Qed.

(** *** Initialisation *)

Lemma out_regs_run l : forall s, out_regs l s = Done (tt,
  set_plat (mkPlatform (idt (plat s)) (loaded (plat s)) (interruptHandlers (plat s))
    (rev ((fun rv => (u16 (rs_232_port_base s + rv.1), u8 rv.2)) <$> l) ++ ports (plat s)) (reads (plat s))) s).
Proof.
  induction l as [|[reg v] l IH]; intros s; cbn [out_regs]; [by destruct s as [[] ? ? ?]|].
  rewrite (run_bind_done _ _ _ tt _ eq_refl), IH. unfold set_plat. cbn. by rewrite <- app_assoc.
Qed.

Definition irq (com_id : Z) : Z := if com_id =? RS_232_COM1 then 0x24 else 0x23.

Lemma activate_run com s : 0 <= com < 2 ^ 15 -> length (interruptHandlers (plat s)) = 256%nat ->
  exists s1, activate com s = Done (tt, s1) /\ rs_232_port_base s1 = com /\ ring s1 = ring s /\ mutex_rs232 s1 = mutex_rs232 s /\
    ports (plat s1) = rev ((fun rv => (com + rv.1, rv.2)) <$> activation) ++ ports (plat s) /\
    nth (Z.to_nat (irq com)) (interruptHandlers (plat s1)) None = Some callback_addr /\
    idt (plat s1) = idt (plat s) /\ loaded (plat s1) = loaded (plat s) /\
    interruptHandlers (plat s1) = <[Z.to_nat (irq com) := Some callback_addr]> (interruptHandlers (plat s)).
Proof.
  intros Hcom Hl. eexists. split.
  { unfold activate. rewrite (run_bind_done _ _ _ tt _ eq_refl), (run_bind_done _ _ _ tt _ eq_refl). apply out_regs_run. }
  cbn [rs_232_port_base set_plat set_base ring mutex_rs232 plat ports interruptHandlers]. do 3 (split; [done|]). split.
  - f_equal. f_equal. apply list_fmap_ext. intros k rv Hk. apply list_elem_of_lookup_2 in Hk.
    assert (Hs : Forall (fun rv => 0 <= rv.1 < 8 /\ 0 <= rv.2 < 256) activation) by by apply (bool_decide_unpack _); vm_compute.
    rewrite Forall_forall in Hs. destruct (Hs rv Hk) as [H1 H2].
    rewrite u8_small by done. f_equal. apply Z.mod_small. lia.
  - cbn [idt loaded]. split; [|split; [done|split; [done|unfold irq, RS_232_COM1_IRQ, RS_232_COM2_IRQ; by destruct (com =? RS_232_COM1)]]].
    apply nth_lookup_Some. unfold irq, RS_232_COM1_IRQ, RS_232_COM2_IRQ.
    destruct (com =? RS_232_COM1); apply list_lookup_insert_eq; rewrite Hl; vm_compute; lia.
Qed.

Lemma init_run greeting com l m s its strs G rest : vprintf_addr <> 0 -> m_writersIdx l = 0 -> m_writers l = [0; 0] ->
  0 <= com < 2 ^ 15 -> length (interruptHandlers (plat s)) = 256%nat -> comes 5 (u16 (com + RS_232_LINE_STATUS_REG)) ->
  Forall item_ok its -> cstr m greeting (print_format its) ->
  (forall a str, strs a = Some str -> Z.of_nat (length str) <= INT_MAX /\ cstr m a str) ->
  format_out strs its [] = Some (G, rest) -> Z.of_nat (length G) <= INT_MAX ->
  exists s1 s2, init greeting com (l, (m, s)) = Done (tt, (set_writers 1 [vprintf_addr; 0] l, (m, s2))) /\
    activate com s = Done (tt, s1) /\ sends (u8 <$> G) s1 s2.
Proof.
  intros Hv Hi Hw Hcom Hl Hc Hok Hg Hs Ho Hlen. destruct (activate_run com s Hcom Hl) as (s1 & E1 & Hb & _).
  assert (Hc1 : comes 5 (status_port s1)) by (unfold status_port; by rewrite Hb).
  destruct (vprintf_run m s1 greeting its [] strs G rest Hc1 Hok Hg Hs Ho Hlen) as (s2 & Ev & Hsent).
  exists s1, s2. split; [|done]. unfold init. rewrite (run_bind_done _ _ _ tt (l, (m, s1))).
  2: { unfold onrest, kzoom. cbn [fst snd]. by rewrite E1. }
  set (l1 := set_writers 1 [vprintf_addr; 0] l). rewrite (run_bind_done _ _ _ true (l1, (m, s1))).
  2: { unfold onlog, kzoom, addWriter, put_writer. cbn [fst snd]. rewrite run_bind. unfold kgets. rewrite Hi. cbn.
       rewrite run_bind, Hw. cbn. by rewrite Hi. }
  apply LogHelperPrint_run; [cbn; lia|]. cbn [called l1 m_writersIdx m_writers set_writers].
  change (take _ _) with [vprintf_addr]. cbn [called]. destruct (Z.eqb_spec vprintf_addr 0); [done|].
  eexists _, _. split; [|reflexivity]. unfold call_writer. by rewrite Z.eqb_refl.
Qed.

(** ** Input *)

(** What the terminal shows of a byte: nothing of a NUL. *)
Definition echo (c : Z) : list Z := if c =? 0 then [] else [c].
Definition typed (b : Z) : Z := if b =? 13 then 10 else b.

Lemma read_byte_run b s : comes 0 (status_port s) -> (forall n, u8 (port_in n (data_port s)) = b) -> mutex_rs232 s = false ->
  exists s', read_byte s = Done (b, s') /\ sends [] s s'.
Proof.
  intros Hc Hb Hl. destruct (wait_done 0 (set_lock true s) Hc) as (s1 & E1 & k & ->).
  assert (E : set_lock false (after_sending [] k (set_lock true s)) = after_sending [] k s).
  { destruct s as [? ? ? lk]. cbn in Hl. by subst. }
  exists (after_sending [] (k + 1) s). split; [|by eexists].
  unfold read_byte, lockedRegion, RAIIMutex_ctor, RAIIMutex_dtor. rewrite (run_bind_done _ _ _ tt (after_sending [] k s)).
  - rewrite in_reg_run. change (u16 _) with (data_port s). rewrite Hb. f_equal. f_equal.
    unfold after_sending, set_plat. cbn. by rewrite Nat.add_assoc.
  - rewrite (run_bind_done _ _ _ tt (set_lock true s)).
    2: { rewrite run_bind. unfold kgets. by rewrite Hl. }
    rewrite (run_bind_done _ _ _ tt (after_sending [] k (set_lock true s))) by exact E1. unfold kmodify. by rewrite E.
Qed.

Lemma byte_word c : 0 <= c < 256 -> u8 (u32 (s8 c)) = c.
Proof. intros Hc. destruct (decide (c = 0)) as [->|]; [done|]. apply text_byte. unfold is_char. lia. Qed.

(** A byte that arrives is shown, and stored if there is room. *)
Lemma callback_run m s b q e : cstr m percent_c (codes "%c") -> comes 0 (status_port s) -> comes 5 (status_port s) ->
  0 <= b < 256 -> (forall n, u8 (port_in n (data_port s)) = b) -> mutex_rs232 s = false ->
  RingBuffer.repr ring_size (ring s) (q, e) ->
  exists s1 r, callback (m, s) = Done (tt, (m, set_ring r s1)) /\ sends (echo (typed b)) s s1 /\
    RingBuffer.repr ring_size r (if Z.of_nat (length q) =? ring_size then (q, -3) else (q ++ [typed b], e)).
Proof.
  intros Hp Hr Ht Hb Hd Hl Hq. destruct (read_byte_run b s Hr Hd Hl) as (s1 & E1 & H1).
  assert (Hty : 0 <= typed b < 256) by (unfold typed; destruct (b =? 13); lia).
  assert (Ht1 : comes 5 (status_port s1)) by by rewrite (status_port_sends _ _ _ H1).
  destruct (vprintf_run m s1 percent_c [Conv false false [] [] (ch "c")] [u32 (s8 (typed b))] (fun _ => None) (echo (typed b)) [] Ht1)
    as (s2 & E2 & H2); [|exact Hp|done| | |].
  - apply Forall_singleton. split; [done|]. split; [done|]. split; [done|]. by apply (bool_decide_unpack _); vm_compute.
  - cbn [format_out item_out]. change (ch "c" =? ch "c") with true. cbv iota. rewrite byte_word by done.
    unfold echo. destruct (typed b =? 0); reflexivity.
  - unfold echo. destruct (typed b =? 0); cbn; unfold INT_MAX; lia.
  - assert (E3 : u8 <$> echo (typed b) = echo (typed b)).
    { unfold echo. destruct (typed b =? 0); [done|]. cbn. by rewrite u8_small. }
    rewrite E3 in H2. pose proof (sends_app _ _ _ _ _ H1 H2) as H. cbn [app] in H.
    assert (Hq2 : RingBuffer.repr ring_size (ring s2) (q, e)) by (destruct H as [k ->]; exact Hq).
    destruct (RingBuffer.ring_enqueue 0 ring_size ltac:(unfold ring_size; lia) (ring s2) q e (typed b) Hq2) as (z & r & Er & Hr').
    exists s2, r. split; [|done]. unfold callback. rewrite (run_bind_done _ _ _ b (m, s1)).
    2: { unfold kzoom. cbn [snd]. by rewrite E1. }
    change (if b =? 13 then 10 else b) with (typed b). unfold printf. rewrite (run_bind_done _ _ _ _ _ E2).
    rewrite (run_bind_done _ _ _ z (m, set_ring r s2)); [done|]. unfold kzoom, onring. cbn [snd]. unfold kzoom. by rewrite Er.
Qed.

Lemma read_loop_run n : forall buf idx m s q e, RingBuffer.repr ring_size (ring s) (q, e) -> mapped m (buf + idx) (Z.of_nat n) ->
  let got := take n q in
  exists m' r, read_loop n buf idx (m, s) = Done (idx + Z.of_nat (length got), (m', set_ring r s)) /\
    bytes m' (buf + idx) got /\ (forall a, ~ buf + idx <= a < buf + idx + Z.of_nat (length got) -> m' !! a = m !! a) /\
    RingBuffer.repr ring_size r (drop n q, e).
Proof.
  assert (Hself : forall s, set_ring (ring s) s = s) by by intros [].
  induction n as [|n IH]; intros buf idx m s q e Hq Hm; cbn [read_loop].
  - exists m, (ring s). cbn. rewrite Z.add_0_r, Hself, drop_0. by do 3 (split; [done|]).
  - rewrite (run_bind_done _ _ (m, s) (RingBuffer.IsEmpty (ring s)) (m, s)) by done. destruct q as [|c q].
    + rewrite (RingBuffer.isempty_nil ring_size _ e Hq). exists m, (ring s). cbn. rewrite Z.add_0_r, Hself. by do 3 (split; [done|]).
    + rewrite (RingBuffer.isempty_cons ring_size _ _ _ e Hq).
      destruct (RingBuffer.ring_dequeue 0 ring_size ltac:(unfold ring_size; lia) _ _ _ _ Hq) as (r1 & Er & Hr1).
      rewrite (run_bind_done _ _ _ c (m, set_ring r1 s)).
      2: { unfold kzoom, onring. cbn [snd]. unfold kzoom. by rewrite Er. }
      rewrite (run_bind_done _ _ _ tt (<[buf + idx := c]> m, set_ring r1 s)).
      2: { unfold kzoom. cbn [fst]. rewrite store_run by (apply Hm; lia). done. }
      destruct (IH buf (idx + 1) (<[buf + idx := c]> m) (set_ring r1 s) q e Hr1) as (m' & r & E & Hb & Hk & Hr).
      { intros a Ha. destruct (decide (a = buf + idx)) as [->|]; [rewrite lookup_insert_eq; by eexists|].
        rewrite lookup_insert_ne by done. apply Hm. lia. }
      cbn [take length drop] in *. exists m', r. rewrite E. split; [|split; [|split; [|done]]].
      * f_equal. f_equal. lia.
      * cbn [bytes]. replace (buf + (idx + 1)) with (buf + idx + 1) in * by lia. split; [|done].
        rewrite Hk by lia. apply lookup_insert_eq.
      * intros a Ha. rewrite Hk by lia. by rewrite lookup_insert_ne by lia.
Qed.

Lemma serial_read_run buf count m s q e : mutex_rs232 s = false -> 0 <= count ->
  RingBuffer.repr ring_size (ring s) (q, e) -> mapped m buf count ->
  let got := take (Z.to_nat count) q in
  exists m' s', read buf count (m, s) = Done (Z.of_nat (length got), (m', s')) /\
    bytes m' buf got /\ (forall a, ~ buf <= a < buf + Z.of_nat (length got) -> m' !! a = m !! a) /\
    RingBuffer.repr ring_size (ring s') (drop (Z.to_nat count) q, e) /\ mutex_rs232 s' = false /\ plat s' = plat s.
Proof.
  intros Hl Hc Hq Hm got.
  destruct (read_loop_run (Z.to_nat count) buf 0 m (set_lock true s) q e Hq) as (m' & r & E & Hb & Hk & Hr).
  { intros a Ha. apply Hm. lia. }
  rewrite Z.add_0_r, Z.add_0_l in *. exists m', (set_lock false (set_ring r (set_lock true s))). split; [|done].
  unfold read. rewrite (run_bind_done _ _ _ tt (m, set_lock true s)).
  2: { unfold kzoom, RAIIMutex_ctor, kgets. cbn [snd]. rewrite run_bind. by rewrite Hl. }
  by rewrite (run_bind_done _ _ _ _ _ E).
Qed.
End rs232.

(** Bytes that arrive one after the other, each with an interrupt; a device
    [dev] answers the reads of its interrupt. *)
Fixpoint interrupts (patience : nat) (percent_c : Z) (devs : list (nat -> Z -> Z)) : K (memory * serial) unit :=
  match devs with
  | [] => mret tt
  | dev :: devs' => callback dev patience percent_c ;; interrupts patience percent_c devs'
  end.

(** The device has the byte [b], and the line is ready in time. *)
Definition holds (patience : nat) (s : serial) (dev : nat -> Z -> Z) (b : Z) : Prop :=
  comes dev patience 0 (status_port s) /\ comes dev patience 5 (status_port s) /\ 0 <= b < 256 /\
  forall n, u8 (dev n (data_port s)) = b.

Lemma take_fill (q : list Z) c l : Z.of_nat (length q) <= ring_size ->
  take 1024 ((if Z.of_nat (length q) =? ring_size then q else q ++ [c]) ++ l) = take 1024 (q ++ c :: l).
Proof.
  unfold ring_size. intros Hq. destruct (Z.eqb_spec (Z.of_nat (length q)) 1024).
  - rewrite !take_app_le by lia. done.
  - by rewrite <- app_assoc.
Qed.

Lemma interrupts_run patience percent_c devs : forall bs m s q e, cstr m percent_c (codes "%c") ->
  Forall2 (holds patience s) devs bs -> mutex_rs232 s = false -> RingBuffer.repr ring_size (ring s) (q, e) ->
  exists k r e', interrupts patience percent_c devs (m, s) =
      Done (tt, (m, set_ring r (after_sending ((typed <$> bs) ≫= echo) k s))) /\
    RingBuffer.repr ring_size r (take 1024 (q ++ (typed <$> bs)), e').
Proof.
  induction devs as [|dev devs IH]; intros bs m s q e Hp Hd Hl Hq;
    pose proof (RingBuffer.repr_cap _ _ _ Hq) as Hcap; pose proof (RingBuffer.repr_len _ _ _ Hq) as Hlen; cbn [fst] in Hlen.
  - apply Forall2_nil_inv_l in Hd as ->. exists 0%nat, (ring s), e. cbn [fmap list_fmap]. rewrite app_nil_r, take_ge by (unfold ring_size in *; lia).
    split; [|done]. change (([] : list Z) ≫= echo) with ([] : list Z). rewrite after_sending_0. by destruct s.
  - apply Forall2_cons_inv_l in Hd as (b & bs' & (Hr & Ht & Hb & Hdev) & Hd & ->).
    destruct (callback_run dev patience percent_c m s b q e Hp Hr Ht Hb Hdev Hl Hq) as (s1 & r1 & E1 & [k1 ->] & Hr1).
    set (s2 := set_ring r1 _) in *.
    assert (Hq2 : exists e2, RingBuffer.repr ring_size (ring s2) (if Z.of_nat (length q) =? ring_size then q else q ++ [typed b], e2))
      by (destruct (Z.of_nat (length q) =? ring_size); by eexists).
    destruct Hq2 as [e2 Hq2]. destruct (IH bs' m s2 _ e2 Hp Hd Hl Hq2) as (k & r & e' & E & Hr').
    exists (k1 + k)%nat, r, e'. cbn [interrupts fmap list_fmap]. rewrite (run_bind_done _ _ _ _ _ E1), E. split.
    + f_equal. f_equal. f_equal. unfold s2, after_sending, set_plat, set_ring, data_port. cbn.
      by rewrite fmap_app, rev_app_distr, <- app_assoc, Nat.add_assoc.
    + rewrite take_fill in Hr' by lia. exact Hr'.
Qed.

(** ** Theorems *)

(** C12. Log messages on the serial line.  After [init] of a port the interrupt
    of the port has the driver's callback, the port is programmed and the
    greeting is sent.  From then on a message below the level of the logger
    changes nothing, and every other one puts exactly its heading (level and
    tag in their columns), the text that its format means and a newline on the
    line, and writes nothing but the log buffer; if the tag has no "%" and the
    heading and the format fit into the buffer. *)
Theorem log_messages_on_serial port_in patience callback_addr vprintf_addr literal b buf com m s
    greeting gits gstrs G grest :
  vprintf_addr <> 0 -> 0 <= com < 2 ^ 15 -> length (interruptHandlers (plat s)) = 256%nat ->
  comes port_in patience 5 (u16 (com + RS_232_LINE_STATUS_REG)) ->
  Forall item_ok gits -> cstr m greeting (print_format gits) ->
  (forall a str, gstrs a = Some str -> Z.of_nat (length str) <= INT_MAX /\ cstr m a str) ->
  format_out gstrs gits [] = Some (G, grest) -> Z.of_nat (length G) <= INT_MAX ->
  let l := set_writers 1 [vprintf_addr; 0] (Logger_new b buf) in
  exists s1, init port_in patience callback_addr vprintf_addr greeting com (Logger_new b buf, (m, s)) = Done (tt, (l, (m, s1))) /\
    ports (plat s1) = rev (pair (u16 com) <$> (u8 <$> G)) ++ rev ((fun rv => (com + rv.1, rv.2)) <$> activation) ++ ports (plat s) /\
    nth (Z.to_nat (irq com)) (interruptHandlers (plat s1)) None = Some callback_addr /\
    forall lvl tag t fmt its args strs O rest,
      let log := message (call_writer port_in patience vprintf_addr) literal lvl tag fmt args (l, (m, s1)) in
      let outside p str := string_outside m buf m_maxBufferSize p str in
      (LogLevel_code lvl < LogLevel_code (getLevel l) -> log = Done (tt, (l, (m, s1)))) /\
      (LogLevel_code lvl >= LogLevel_code (getLevel l) -> Forall item_ok its -> Forall (fun c => c <> ch "%") t ->
       mapped m buf m_maxBufferSize -> Z.of_nat (length (heading lvl t ++ print_format its ++ [10])) < m_maxBufferSize ->
       outside (literal heading_format) (codes heading_format) -> outside (literal (levelToString lvl)) (codes (levelToString lvl)) ->
       outside tag t -> outside fmt (print_format its) -> (forall a str, strs a = Some str -> outside a str) ->
       format_out strs its args = Some (O, rest) -> Z.of_nat (length (heading lvl t)) + Z.of_nat (length O) < INT_MAX ->
       exists m' s2, log = Done (tt, (l, (m', s2))) /\ sends (heading lvl t ++ (u8 <$> O) ++ [10]) s1 s2 /\
         forall a, ~ buf <= a < buf + m_maxBufferSize -> m' !! a = m !! a).
Proof.
  intros Hv Hcom Hh Hc Hg1 Hg2 Hg3 Hg4 Hg5 l.
  destruct (activate_run callback_addr com s Hcom Hh) as (s0 & E0 & Hb0 & _ & _ & Hp0 & Hi0 & _).
  destruct (init_run port_in patience callback_addr vprintf_addr greeting com (Logger_new b buf) m s gits gstrs G grest)
    as (s0' & s1 & E1 & E0' & k & Hs); [done..|]. rewrite E0 in E0'. injection E0' as <-.
  exists s1. split; [exact E1|]. subst s1. split; [|split].
  - cbn [after_sending set_plat plat ports]. rewrite Hp0. unfold data_port, RS_232_DATA_REG. by rewrite Hb0, Z.add_0_r.
  - exact Hi0.
  - intros lvl tag t fmt its args strs O rest log outside. unfold log, message. split.
    + intros Hlow. rewrite run_bind. unfold onlog, kzoom, kgets. cbn [fst snd].
      destruct (Z.geb_spec (LogLevel_code lvl) (LogLevel_code (getLevel l))); [lia|done].
    + intros Hhigh. rewrite run_bind. unfold onlog, kzoom, kgets. cbn [fst snd].
      destruct (Z.geb_spec (LogLevel_code lvl) (LogLevel_code (getLevel l))); [|lia].
      cbn [kwhen]. intros. apply log_printed with (its := its) (t := t) (strs := strs) (rest := rest); try done.
      unfold status_port. cbn [after_sending set_plat rs_232_port_base]. by rewrite Hb0.
Qed.

(** C28. Serial input.  Bytes that arrive with interrupts are shown on the
    line, a carriage return as a newline, and up to 1024 of them are kept, the
    first ones; [read] then copies the oldest of them, at most as many as it is
    asked for, in order into the caller's buffer, returns their number and
    leaves the rest. *)
Theorem serial_input_in_order patience percent_c devs bs m s q e :
  cstr m percent_c (codes "%c") -> Forall2 (holds patience s) devs bs -> mutex_rs232 s = false ->
  RingBuffer.repr ring_size (ring s) (q, e) ->
  exists s1, interrupts patience percent_c devs (m, s) = Done (tt, (m, s1)) /\
    ports (plat s1) = rev (pair (data_port s) <$> ((typed <$> bs) ≫= echo)) ++ ports (plat s) /\
    forall buf count, 0 <= count -> mapped m buf count ->
      let kept := take 1024 (q ++ (typed <$> bs)) in
      let got := take (Z.to_nat count) kept in
      exists m' s2 e', read buf count (m, s1) = Done (Z.of_nat (length got), (m', s2)) /\ bytes m' buf got /\
        (forall a, ~ buf <= a < buf + Z.of_nat (length got) -> m' !! a = m !! a) /\
        RingBuffer.repr ring_size (ring s2) (drop (Z.to_nat count) kept, e').
Proof.
  intros Hp Hd Hl Hq. destruct (interrupts_run patience percent_c devs bs m s q e Hp Hd Hl Hq) as (k & r & e' & E & Hr).
  eexists. split; [exact E|]. split; [done|]. intros buf count Hc Hm kept got.
  destruct (serial_read_run buf count m (set_ring r (after_sending ((typed <$> bs) ≫= echo) k s)) kept e') as (m' & s2 & E2 & H1 & H2 & H3 & _);
    [done|done|exact Hr|done|]. by exists m', s2, e'.
Qed.

(** An interrupt that comes while a task is in [read] waits, in the handler,
    for the task that it has interrupted. *)
Lemma interrupt_while_reading_blocks port_in patience percent_c m s : mutex_rs232 s = true ->
  callback port_in patience percent_c (m, s) = Stuck.
Proof.
  intros Hl. unfold callback, read_byte, lockedRegion, RAIIMutex_ctor. rewrite run_bind. unfold kzoom. cbn [snd].
  rewrite run_bind, run_bind, run_bind. unfold kgets. by rewrite Hl.
Qed.

(** ** A ready line, and some strings *)
Definition boot_serial : serial := mkSerial boot_platform 0 (RingBuffer.RingBuffer_init (replicate 1024 0)) false.
Definition demo_literal (s : string) : Z := if bool_decide (s = heading_format) then 1000 else 1100.
Definition demo_strings : memory := blank 2000 1024 (memory_with
  [(1000, heading_format); (1100, levelToString lINFO); (1200, "tag"%string); (1300, "%d items"%string);
   (1400, "hello"%string); (1500, "%c"%string)]).

Lemma log_messages_on_serial_witness : exists l s1 m' s2,
  init (fun _ _ => 0x20) 0 77 88 1400 RS_232_COM1 (Logger_new DEBUG 2000, (demo_strings, boot_serial)) = Done (tt, (l, (demo_strings, s1))) /\
  Info (call_writer (fun _ _ => 0x20) 0 88) demo_literal 1200 1300 [7] (l, (demo_strings, s1)) = Done (tt, (l, (m', s2))) /\
  sends (heading lINFO (codes "tag") ++ codes "7 items" ++ [10]) s1 s2.
Proof.
  assert (Hc : comes (fun _ _ => 0x20) 0 5 (u16 (RS_232_COM1 + RS_232_LINE_STATUS_REG))) by (intros n; exists 0%nat; split; [lia|done]).
  destruct (log_messages_on_serial (fun _ _ => 0x20) 0 77 88 demo_literal DEBUG 2000 RS_232_COM1 demo_strings boot_serial
    1400 (Text <$> codes "hello") (fun _ => None) (codes "hello") []) as (s1 & E1 & _ & _ & H).
  - done.
  - unfold RS_232_COM1. lia.
  - reflexivity.
  - exact Hc.
  - by repeat constructor.
  - apply cstr_test. vm_compute. reflexivity.
  - done.
  - reflexivity.
  - vm_compute. discriminate.
  - set (l := set_writers 1 [88; 0] (Logger_new DEBUG 2000)) in *.
    destruct (H lINFO 1200 (codes "tag") 1300 ([Conv false false [] [] (ch "d")] ++ (Text <$> codes " items")) [7] (fun _ => None)
      (codes "7 items") []) as [_ Hhigh].
    destruct Hhigh as (m' & s2 & E2 & Hs & _).
    + vm_compute. discriminate.
    + apply Forall_app. split; [|by repeat constructor]. apply Forall_singleton. split; [done|]. split; [done|].
      split; [done|]. by apply (bool_decide_unpack _); vm_compute.
    + by apply (bool_decide_unpack _); vm_compute.
    + apply mapped_by_test. vm_compute. reflexivity.
    + reflexivity.
    + split; [apply cstr_test; vm_compute; reflexivity|split; [vm_compute; discriminate|left; reflexivity]].
    + split; [apply cstr_test; vm_compute; reflexivity|split; [vm_compute; discriminate|left; reflexivity]].
    + split; [apply cstr_test; vm_compute; reflexivity|split; [vm_compute; discriminate|left; reflexivity]].
    + split; [apply cstr_test; vm_compute; reflexivity|split; [vm_compute; discriminate|left; reflexivity]].
    + done.
    + reflexivity.
    + reflexivity.
    + exists l, s1, m', s2. split; [exact E1|]. split; [exact E2|exact Hs].
Defined.

Lemma serial_input_in_order_witness : exists s1 m' s2,
  interrupts 0 1500 [(fun _ port => if port =? 0 then 65 else 0x21); (fun _ port => if port =? 0 then 13 else 0x21)] (demo_strings, boot_serial)
    = Done (tt, (demo_strings, s1)) /\
  read 2000 10 (demo_strings, s1) = Done (2, (m', s2)) /\ bytes m' 2000 [65; 10].
Proof.
  destruct (serial_input_in_order 0 1500 [(fun _ port => if port =? 0 then 65 else 0x21); (fun _ port => if port =? 0 then 13 else 0x21)]
    [65; 13] demo_strings boot_serial [] 0) as (s1 & E1 & _ & H).
  - apply cstr_test. vm_compute. reflexivity.
  - repeat constructor; try lia; intros n; exists 0%nat; split; (lia || (vm_compute; discriminate)).
  - reflexivity.
  - apply RingBuffer.repr_init; [unfold ring_size; lia|reflexivity].
  - destruct (H 2000 10) as (m' & s2 & e' & E2 & Hb & _); [lia|apply mapped_by_test; vm_compute; reflexivity|].
    exists s1, m', s2. split; [exact E1|]. split; [exact E2|exact Hb].
Defined.
End RS232.
