(* ===== verification/Entry.v ===== *)
(** * Entering the kernel (Entry.cpp, Arch/i686/Arch.cpp, Arch/Arch.hpp)

    The processor's interrupt flag and identification, critical regions, and the
    first half of [kernelEntry]: processor, serial line, clock, handoff and
    memory, composed from their components over one state. *)
From S2P Require Import Prelude Words Bitmaps RingBuffers PageTypes Physical Paging.
From S2P Require Import KernelMap KString Printf Interrupts Handoff Logging Serial.
From Stdlib Require Import ZArith Lia Bool.
From stdpp Require Import base strings numbers gmap list.
#[local] Open Scope Z_scope.
Import RS232.

(** ** Identification of the processor *)
Module CpuId.

(** What [cpuid] leaves in eax, ebx, ecx and edx. *)
Record answer := mkAnswer { eax : Z; ebx : Z; ecx : Z; edx : Z }.
Definition words (a : answer) : list Z := [eax a; ebx a; ecx a; edx a].
(** The bytes of an [int]. *)
Definition int_bytes (w : Z) : list Z := [w mod 2 ^ 8; w / 2 ^ 8 mod 2 ^ 8; w / 2 ^ 16 mod 2 ^ 8; w / 2 ^ 24 mod 2 ^ 8].

Section cpuid.
Context (cpuid : Z -> answer).

(** The static arrays, as the bytes that the returned pointer leads to. *)
Definition vendor : list Z := words (cpuid 0) ≫= int_bytes.
Definition model : list Z :=
  (words (cpuid 0x80000002) ++ words (cpuid 0x80000003) ++ words (cpuid 0x80000004)) ≫= int_bytes.

(** The vendor's name is in ebx, edx and ecx, in this order; [vendor] begins
    with the highest leaf instead, exchanges the other two words, and nothing
    ends it. *)
Lemma vendor_is_garbled name : name = ([ebx (cpuid 0); edx (cpuid 0); ecx (cpuid 0)] ≫= int_bytes) ->
  vendor = int_bytes (eax (cpuid 0)) ++ take 4 name ++ drop 8 name ++ take 4 (drop 4 name).
Proof. intros ->. reflexivity. Qed.
End cpuid.

End CpuId.

(** ** The state of the kernel *)
Record kernel {B : Type} := mkKernel {
  IF : bool;                          (* the processor takes interrupts *)
  gdt_register : option GDT.GDTR;
  world : Logger.world serial;        (* logger, memory, serial line and platform *)
  memory_state : paging (B := B);
}.
Arguments kernel : clear implicits.

Definition set_platform (p : platform) (w : Logger.world serial) : Logger.world serial :=
  (w.1, (w.2.1, set_plat p w.2.2)).

Section entry.
Context {B : Type} {HB : Bitmap B} {HK : KernelImage}.

Definition set_if v (k : kernel B) : kernel B := mkKernel B v (gdt_register k) (world k) (memory_state k).
Definition set_gdt v (k : kernel B) : kernel B := mkKernel B (IF k) v (world k) (memory_state k).
Definition set_world v (k : kernel B) : kernel B := mkKernel B (IF k) (gdt_register k) v (memory_state k).
Definition set_memory v (k : kernel B) : kernel B := mkKernel B (IF k) (gdt_register k) (world k) v.

Definition onworld {A} (m : K (Logger.world serial) A) : K (kernel B) A := kzoom world set_world m.
Definition onplatform {A} (m : K platform A) : K (kernel B) A :=
  onworld (kzoom (fun w => plat w.2.2) set_platform m).
Definition onpaging {A} (m : K (paging (B := B)) A) : K (kernel B) A := kzoom memory_state set_memory m.

(** ** Arch::CPU *)

Definition interruptsDisable : K (kernel B) unit := kmodify (set_if false).
Definition interruptsEnable : K (kernel B) unit := kmodify (set_if true).
Definition criticalRegion (critWork : K (kernel B) unit) : K (kernel B) unit :=
  interruptsDisable ;; critWork ;; interruptsEnable.

(** The addresses of the stubs of [isr.cpp], of the tables, of the callbacks and
    of a literal; what reads of ports find; what the boot loader has left. *)
Context (exceptionHandlerStubs interruptHandlerStubs : Z -> Z) (gdt_address idt_address : Z)
  (timer_callback rtc_callback serial_callback pageFaultCallback vprintf_address greeting : Z)
  (port_in : nat -> Z -> Z) (patience : nat)
  (tags : gmap Z tag) (arguments : list argument) (fuel : nat) (garbage : Z).

(** The table is [GDT.gdt]; loading its register also reloads the segments. *)
Definition GDT_init : K (kernel B) unit := kmodify (set_gdt (Some (GDT.gdtr gdt_address))).

Definition CPU_init : K (kernel B) unit :=
  criticalRegion (
    GDT_init ;;
    onplatform (Interrupts.init exceptionHandlerStubs interruptHandlerStubs idt_address) ;;
    onplatform (timer_init timer_callback 1000)).

(** ** Entry.cpp *)

Definition devInit : K (kernel B) unit :=
  onworld (RS232.init port_in patience serial_callback vprintf_address greeting RS_232_COM1) ;;
  onplatform (rtc_init port_in rtc_callback).

(** [Memory::init]. *)
Definition Memory_init : K (kernel B) unit :=
  onplatform (Interrupts.registerHandler 0x0E pageFaultCallback) ;;
  onpaging Paging.init.

(** The constructor of [Handoff]; the callback of the one argument that is
    registered is empty.  [first] is the address of the first tag. *)
Definition handoff (info first magic : Z) : K (kernel B) Handoff :=
  kread (fun k =>
    r ← Handoff_new tags (world k).2.1 arguments fuel info first magic garbage ;
    Done r.1).

(** [kernelEntry] up to [Memory::init]. *)
Definition kernelEntry_begin (info first magic : Z) : K (kernel B) Handoff :=
  CPU_init ;;
  criticalRegion devInit ;;
  h ← handoff info first magic ;
  onpaging (onphys (Manager.initialize (m_memoryMap h))) ;;
  Memory_init ;;
  mret h.

(** ** The runs of the parts *)

Lemma onworld_run {A} (m : K (Logger.world serial) A) k a w : m (world k) = Done (a, w) ->
  onworld m k = Done (a, set_world w k).
Proof. intros E. unfold onworld, kzoom. by rewrite E. Qed.
Lemma onplatform_run {A} (m : K platform A) k a s : m (plat (world k).2.2) = Done (a, s) ->
  onplatform m k = Done (a, set_world (set_platform s (world k)) k).
Proof. intros E. apply onworld_run. unfold kzoom. by rewrite E. Qed.
Lemma onpaging_run {A} (m : K (paging (B := B)) A) k a p : m (memory_state k) = Done (a, p) ->
  onpaging m k = Done (a, set_memory p k).
Proof. intros E. unfold onpaging, kzoom. by rewrite E. Qed.

(** Interrupts are on after a critical region, whatever they were before. *)
Lemma criticalRegion_run m k k' : m (set_if false k) = Done (tt, k') -> criticalRegion m k = Done (tt, set_if true k').
Proof. intros E. unfold criticalRegion, interruptsDisable, interruptsEnable. krun. by rewrite E. Qed.

(** A region within a region ends with interrupts on: the rest of the outer one
    can be interrupted. *)
Lemma nested_region_is_interruptible a b k k1 : a (set_if false (set_if false k)) = Done (tt, k1) ->
  criticalRegion (criticalRegion a ;; b) k = (b ;; interruptsEnable) (set_if true k1).
Proof.
  intros E. unfold criticalRegion at 1, interruptsDisable. krun. by rewrite (criticalRegion_run a (set_if false k) k1 E).
Qed.

(** What the bring-up does to the interrupts, seen from the platform. *)
Definition vectors_ok (s : platform) : Prop :=
  let table := GDT.Entry_word <$> GDT.gdt in
  (forall v, 0 <= v < 32 -> CPU.deliver table (IDT.Gate_word <$> idt s) v = Some (exceptionHandlerStubs v)) /\
  (forall v, 32 <= v < 48 -> CPU.deliver table (IDT.Gate_word <$> idt s) v = Some (interruptHandlerStubs (v - 32))) /\
  loaded s = Some (IDT.mkIDTR 2047 idt_address).

(** The same state with other handlers, up to ports. *)
Definition registers_only (hs : list (option Z)) (s s' : platform) : Prop :=
  idt s' = idt s /\ loaded s' = loaded s /\ interruptHandlers s' = hs.

Hypothesis Hstubs : (forall i, 0 <= exceptionHandlerStubs i < 2 ^ 32) /\ (forall i, 0 <= interruptHandlerStubs i < 2 ^ 32) /\
  0 <= idt_address < 2 ^ 32.

Lemma CPU_init_run k : length (idt (plat (world k).2.2)) = 256%nat -> exists s',
  CPU_init k = Done (tt, mkKernel B true (Some (GDT.gdtr gdt_address)) (set_platform s' (world k)) (memory_state k)) /\
  vectors_ok s' /\ interruptHandlers s' = <[32%nat := Some timer_callback]> (interruptHandlers (plat (world k).2.2)).
Proof.
  destruct Hstubs as (He & Hi & Ha). intros Hl.
  destruct (vectors_run exceptionHandlerStubs interruptHandlerStubs idt_address (plat (world k).2.2) Hl He Hi Ha)
    as (s1 & E1 & V1 & V2 & _ & Hld & _ & Hh).
  destruct (timer_init_run timer_callback 1000 s1) as (low & high & E2 & _); [unfold PIT_RATE; lia|].
  eexists. split.
  { eapply eq_trans; [apply (criticalRegion_run _ k); unfold GDT_init|].
    - set (k1 := set_gdt (Some (GDT.gdtr gdt_address)) (set_if false k)).
      etransitivity; [exact (run_bind_done _ _ _ tt k1 eq_refl)|].
      etransitivity; [exact (run_bind_done _ _ _ tt _ (onplatform_run _ k1 tt s1 E1))|].
      exact (onplatform_run _ (set_world (set_platform s1 (world k)) k1) tt _ E2).
    - reflexivity. }
  split; [done|]. cbn. by rewrite Hh.
Qed.

Lemma writeByte_run p v s : writeByte p v s =
  Done (tt, mkPlatform (idt s) (loaded s) (interruptHandlers s) ((p, u8 v) :: ports s) (reads s)).
Proof. reflexivity. Qed.
Lemma readByte_run p s : readByte port_in p s =
  Done (u8 (port_in (reads s) p), mkPlatform (idt s) (loaded s) (interruptHandlers s) (ports s) (S (reads s))).
Proof. reflexivity. Qed.

Lemma rtc_init_run s : exists s', rtc_init port_in rtc_callback s = Done (tt, s') /\
  registers_only (<[40%nat := Some rtc_callback]> (interruptHandlers s)) s s'.
Proof.
  eexists. split.
  - unfold rtc_init. do 3 rewrite (run_bind_done _ _ _ _ _ (writeByte_run _ _ _)).
    rewrite (run_bind_done _ _ _ _ _ (readByte_run _ _)).
    do 2 rewrite (run_bind_done _ _ _ _ _ (writeByte_run _ _ _)).
    unfold Interrupts.registerHandler, kmodify, Interrupts.INTERRUPT_8. cbn [idt loaded interruptHandlers ports reads].
    change (Z.to_nat (u8 0x28)) with 40%nat. reflexivity.
  - by repeat split.
Qed.

(** The greeting goes out on the first serial line. *)
Context (its : list item) (strs : Z -> option (list Z)) (G rest : list Z).

Record serial_ready (w : Logger.world serial) : Prop := {
  sr_writers : Logger.m_writersIdx w.1 = 0 /\ Logger.m_writers w.1 = [0; 0];
  sr_handlers : length (interruptHandlers (plat w.2.2)) = 256%nat;
  sr_greeting : Forall item_ok its /\ cstr w.2.1 greeting (print_format its) /\ format_out strs its [] = Some (G, rest) /\
    Z.of_nat (length G) <= INT_MAX;
  sr_strings : forall a str, strs a = Some str -> Z.of_nat (length str) <= INT_MAX /\ cstr w.2.1 a str;
}.
Hypothesis Hvprintf : vprintf_address <> 0.
Hypothesis Hport : comes port_in patience 5 (u16 (RS_232_COM1 + RS_232_LINE_STATUS_REG)).

Lemma devInit_run k : serial_ready (world k) -> exists w', devInit k = Done (tt, set_world w' k) /\
  w'.2.1 = (world k).2.1 /\ Logger.m_writers w'.1 = [vprintf_address; 0] /\
  registers_only (<[40%nat := Some rtc_callback]> (<[36%nat := Some serial_callback]> (interruptHandlers (plat (world k).2.2))))
    (plat (world k).2.2) (plat w'.2.2).
Proof.
  destruct (world k) as [l [m s]] eqn:Ek. intros [[W1 W2] Hh (G1 & G2 & G3 & G4) Hs]. cbn [fst snd] in *.
  destruct (init_run port_in patience serial_callback vprintf_address greeting RS_232_COM1 l m s its strs G rest)
    as (s1 & s2 & E & Ea & j & ->); try done.
  destruct (activate_run serial_callback RS_232_COM1 s ltac:(done) Hh) as (s1' & Ea' & _ & _ & _ & _ & _ & I1 & I2 & I3).
  rewrite Ea in Ea'. injection Ea' as <-.
  destruct (rtc_init_run (plat (after_sending (u8 <$> G) j s1))) as (s3 & Er & R1 & R2 & R3).
  set (w1 := (Logger.set_writers 1 [vprintf_address; 0] l, (m, after_sending (u8 <$> G) j s1))) in *.
  exists (set_platform s3 w1). split; [|split; [|split]].
  - unfold devInit. rewrite <- Ek in E.
    etransitivity; [exact (run_bind_done _ _ _ tt _ (onworld_run _ k tt w1 E))|].
    exact (onplatform_run _ (set_world w1 k) tt s3 Er).
  - done.
  - done.
  - cbn. split; [by rewrite R1|]. split; [by rewrite R2|]. rewrite R3. cbn. by rewrite I3.
Qed.

(** What the boot loader has left: a list of tags with one memory map, whose
    entries are [es]; and page tables and frames as static storage has them. *)
Context (name : argument -> list Z) (line : Z -> list Z) (l : list tag_body) (es : list mmap_entry).

Record loaded_by_stivale (first : Z) (k : kernel B) : Prop := {
  lo_idt : length (idt (plat (world k).2.2)) = 256%nat;
  lo_names : forall a, a ∈ arguments -> cstr (world k).2.1 (arg a) (name a);
  lo_path : tag_path tags (u32 first) l /\ (length l <= fuel)%nat /\ Forall (tag_ok (world k).2.1 line) l;
  lo_map : exists pre post, l = pre ++ MEMMAP es :: post /\ Forall (fun b => ~ is_map b) pre /\ Forall (fun b => ~ is_map b) post;
  lo_entries : Forall entry_low es;
  lo_pages : untouched (memory_state k) /\ pagingLock (memory_state k) = false;
  lo_frames : forall f, 0 <= f < bm_size -> ~ frame_free (memory_state k) f;
}.

Definition handler_of (hs : list (option Z)) (v : Z) : option Z := nth (Z.to_nat v) hs None.

Lemma handler_insert (i : nat) h hs v : length hs = 256%nat -> (i < 256)%nat -> 0 <= v < 256 ->
  handler_of (<[i := Some h]> hs) v = if v =? Z.of_nat i then Some h else handler_of hs v.
Proof.
  intros Hl Hi Hv. unfold handler_of. rewrite !nth_lookup. destruct (Z.eqb_spec v (Z.of_nat i)) as [->|Hne].
  - by rewrite Nat2Z.id, list_lookup_insert_eq by lia.
  - by rewrite list_lookup_insert_ne by lia.
Qed.

(** The handlers after the bring-up. *)
Definition registered (hs : list (option Z)) (v : Z) : option Z :=
  if v =? 0x20 then Some timer_callback else if v =? 0x24 then Some serial_callback
  else if v =? 0x28 then Some rtc_callback else if v =? 0x0E then Some pageFaultCallback else handler_of hs v.

Lemma memory_run k h (b : B) : bm_size = MEM_BITMAP_SIZE -> linked HK -> untouched (memory_state k) ->
  Manager.initialize (m_memoryMap h) (physical (memory_state k)) = Done (tt, b) -> bm_ok b ->
  exists s' p', (onpaging (onphys (Manager.initialize (m_memoryMap h))) ;; Memory_init ;; mret h) k =
      Done (h, set_memory p' (set_world (set_platform s' (world k)) k)) /\
    registers_only (<[14%nat := Some pageFaultCallback]> (interruptHandlers (plat (world k).2.2))) (plat (world k).2.2) s' /\
    inv p' /\ pagingLock p' = pagingLock (memory_state k) /\ (forall a, in_u32 a -> walk p' a = kernel_map a) /\
    forall f, 0 <= f < bm_size -> frame_free p' f <-> Manager.free b f /\ 256 <= f /\ ~ kernel_page (f + 0xC0000).
Proof.
  intros Hsz Hlink Hf Ei Hb. set (p0 := set_physical b (memory_state k)).
  assert (Hf0 : untouched p0) by (destruct Hf; by split).
  destruct (init_map Hlink Hsz p0 Hf0) as (p' & E & Hp' & L & _ & _ & _ & _ & W & F).
  set (s := plat (world k).2.2).
  exists (mkPlatform (idt s) (loaded s) (<[14%nat := Some pageFaultCallback]> (interruptHandlers s)) (ports s) (reads s)), p'.
  split; [|split; [split; [|split]; reflexivity|split; [exact Hp'|split; [exact L|split; [exact W|exact F]]]]].
  assert (E0 : onphys (Manager.initialize (m_memoryMap h)) (memory_state k) = Done (tt, p0)) by by apply onphys_run.
  set (k1 := set_memory p0 k). set (s' := mkPlatform _ _ _ _ _).
  assert (Em : Memory_init k1 = Done (tt, set_memory p' (set_world (set_platform s' (world k)) k))).
  { etransitivity; [exact (run_bind_done _ _ k1 tt _ (onplatform_run _ k1 tt s' eq_refl))|].
    exact (onpaging_run _ (set_world (set_platform s' (world k)) k1) tt p' E). }
  etransitivity; [exact (run_bind_done _ _ _ tt _ (onpaging_run _ k tt p0 E0))|].
  exact (run_bind_done _ _ _ tt _ Em).
Qed.

(** C40. The first half of [kernelEntry].  From static storage that is zero and
    what the boot loader leaves, it returns with interrupts enabled; every
    exception and every interrupt reaches its stub; the function that the stubs
    of interrupts call ends the interrupt at its controllers and finds, for the
    numbers of the timer, the first serial line and the clock, the callbacks
    that their drivers have registered, and for the others, except for the page
    fault that [Memory::init] registers, what was there before; the serial line
    is the logger's one writer; the processor walks the kernel's map, and the
    frames that are free are exactly the usable ones of the boot loader's
    memory map that lie neither in the first megabyte nor in the image. *)
Theorem kernelEntry_brings_up k info first :
  bm_size = MEM_BITMAP_SIZE -> linked HK -> serial_ready (world k) -> loaded_by_stivale first k ->
  exists h k', kernelEntry_begin info first STIVALE2_MAGIC k = Done (h, k') /\
    IF k' = true /\ gdt_register k' = Some (GDT.gdtr gdt_address) /\ vectors_ok (plat (world k').2.2) /\
    (forall v, 0 <= v < 256 -> exists s', let s := plat (world k').2.2 in
       Interrupts.interruptHandler v s = Done (registered (interruptHandlers (plat (world k).2.2)) v, s') /\
       ports s' = (0x20, 0x20) :: (if 0x28 <=? v then [(0xA0, 0x20)] else []) ++ ports s /\ idt s' = idt s) /\
    Logger.m_writers (world k').1 = [vprintf_address; 0] /\ (world k').2.1 = (world k).2.1 /\
    inv (memory_state k') /\ pagingLock (memory_state k') = false /\
    (forall a, in_u32 a -> walk (memory_state k') a = kernel_map a) /\
    forall f, 0 <= f < bm_size ->
      frame_free (memory_state k') f <-> usable_frame es f /\ 256 <= f /\ ~ kernel_page (f + 0xC0000).
Proof.
  intros Hsz Hlink Hser [Hidt Hnames (Hpath & Hfuel & Htags) (pre & post & Hl & Hpre & Hpost) Hes (Hfresh & Hlock) Hres].
  destruct (CPU_init_run k Hidt) as (s1 & E1 & (V1 & V2 & V3) & Hh1).
  set (k1 := mkKernel _ _ _ _ _) in E1.
  assert (Hser1 : serial_ready (world (set_if false k1))).
  { destruct Hser as [H1 H2 H3 H4]. split; [done| |done|done]. cbn. by rewrite Hh1, length_insert. }
  destruct (devInit_run _ Hser1) as (w2 & E2 & Hm2 & Hw2 & R1 & R2 & R3). apply criticalRegion_run in E2.
  set (k2 := set_if true _) in E2.
  destruct (Handoff_new_spec tags (world k).2.1 arguments name line fuel info first garbage l Hnames Hpath Hfuel Htags)
    as (h & called & Eh & _ & _ & Hmap).
  destruct (Hmap pre es post Hl Hpre Hpost Hes B HB (physical (memory_state k)) Hsz (untouched_physical _ Hfresh) Hres)
    as (b & Ei & Hb & Hfree).
  assert (E3 : handoff info first STIVALE2_MAGIC k2 = Done (h, k2)).
  { unfold handoff, kread. cbn [k2 world set_if set_world]. rewrite Hm2. cbn [world set_if k1 set_platform fst snd]. by rewrite Eh. }
  destruct (memory_run k2 h b Hsz Hlink Hfresh Ei Hb) as (s4 & p4 & E4 & (R4 & R5 & R6) & Hp4 & Hl4 & Hw4 & Hf4).
  exists h. eexists. split.
  { unfold kernelEntry_begin. rewrite (run_bind_done _ _ _ _ _ E1), (run_bind_done _ _ _ _ _ E2), (run_bind_done _ _ _ _ _ E3).
    exact E4. }
  unfold set_memory, set_world, set_platform. cbn [IF gdt_register world memory_state fst snd plat set_plat].
  split; [done|]. split; [done|]. cbn in R1, R2, R3, R4, R5, R6. split; [|split; [|split; [|split; [|split; [|split; [|split]]]]]].
  - unfold vectors_ok. rewrite R4, R5, R1, R2. exact (conj V1 (conj V2 V3)).
  - intros v Hv. pose proof (sr_handlers _ Hser) as Hh0. eexists. cbv zeta.
    rewrite interrupt_run; [|exact Hv|rewrite R6, R3, Hh1, !length_insert; exact Hh0].
    split; [apply f_equal; apply (f_equal2 pair); [|reflexivity]|split; reflexivity].
    change (handler_of (interruptHandlers s4) v = registered (interruptHandlers (plat (world k).2.2)) v).
    rewrite R6, R3, Hh1. unfold registered.
    rewrite !handler_insert by (rewrite ?length_insert; first [exact Hv|exact Hh0|lia]).
    destruct (Z.eqb_spec v (Z.of_nat 14)), (Z.eqb_spec v (Z.of_nat 40)), (Z.eqb_spec v (Z.of_nat 36)), (Z.eqb_spec v (Z.of_nat 32)),
      (Z.eqb_spec v 0x20), (Z.eqb_spec v 0x24), (Z.eqb_spec v 0x28), (Z.eqb_spec v 0x0E); (reflexivity || lia).
  - exact Hw2.
  - exact Hm2.
  - exact Hp4.
  - rewrite Hl4. exact Hlock.
  - exact Hw4.
  - intros f Hfr. by rewrite Hf4, Hfree.
Qed.

End entry.

(** ** A concrete machine *)

#[local] Existing Instance Manager.frame_bitmap.
#[local] Existing Instance demo_linked_image.

Definition demo_entries : list mmap_entry := [mkEntry 0x100000 0x700000 STIVALE2_MMAP_USABLE; mkEntry 0xF0000000 0x1000 STIVALE2_MMAP_RESERVED].
Definition demo_loader_tags : gmap Z tag := {[ 0x1000 := mkTag (MEMMAP demo_entries) 0 ]}.
Definition demo_stub (base i : Z) : Z := base + 16 * (i mod 256).
(** Nothing is mapped, and every frame is reserved. *)
Definition demo_static : paging (B := Bitset.Bitset MEM_BITMAP_SIZE) :=
  Paging.set_physical Manager.Manager demo_paging.
Definition demo_kernel : kernel (Bitset.Bitset MEM_BITMAP_SIZE) :=
  mkKernel _ false None (Logger.Logger_new Logger.DEBUG 2000, (RS232.demo_strings, RS232.boot_serial)) demo_static.
Definition demo_begin : K (kernel (Bitset.Bitset MEM_BITMAP_SIZE)) Handoff :=
  kernelEntry_begin (demo_stub 0x100000) (demo_stub 0xC0200000) 0x2000 0x3000 51 52 77 54 88 1400 (fun _ _ => 0x20) 0
    demo_loader_tags [] 1 0 0 0x1000 STIVALE2_MAGIC.

Lemma kernelEntry_brings_up_witness : exists h k', demo_begin demo_kernel = Done (h, k') /\ IF k' = true /\
  CPU.deliver (GDT.Entry_word <$> GDT.gdt) (IDT.Gate_word <$> idt (plat (world k').2.2)) 0x24 = Some 0xC0200040 /\
  walk (memory_state k') 0xC0123ABC = Some 0x123ABC /\
  frame_free (memory_state k') 0x700 /\ ~ frame_free (memory_state k') 0x123.
Proof.
  assert (Hsz : bm_size = 1048576) by (rewrite Manager.frame_size; reflexivity).
  assert (Hst : forall b, 0 <= b < 0xF0000000 -> forall i, 0 <= demo_stub b i < 2 ^ 32).
  { intros b Hb i. unfold demo_stub. pose proof (Z.mod_pos_bound i 256 ltac:(lia)). lia. }
  destruct (kernelEntry_brings_up (demo_stub 0x100000) (demo_stub 0xC0200000) 0x2000 0x3000 51 52 77 54 88 1400 (fun _ _ => 0x20) 0
    demo_loader_tags [] 1 0) with (its := Text <$> codes "hello") (strs := fun _ : Z => @None (list Z)) (G := codes "hello") (rest := @nil Z)
    (name := fun _ : argument => @nil Z) (line := fun _ : Z => @nil Z) (l := [MEMMAP demo_entries]) (es := demo_entries)
    (k := demo_kernel) (info := 0) (first := 0x1000) as (h & k' & E & Hif & _ & (_ & V & _) & _ & _ & _ & _ & _ & W & F).
  - split; [apply Hst; lia|]. split; [apply Hst; lia|lia].
  - discriminate.
  - intros n. exists 0%nat. split; [lia|done].
  - exact Manager.frame_size.
  - exact demo_linked.
  - split; [by split|reflexivity| |done].
    split; [by repeat constructor|]. split; [apply cstr_test; vm_compute; reflexivity|]. split; [reflexivity|vm_compute; discriminate].
  - split; [reflexivity|by intros a ?%elem_of_nil| | | | |].
    + split; [split; [done|]; eexists; split; [reflexivity|]; split; reflexivity|]. split; [done|]. apply Forall_singleton. cbn. lia.
    + exists [], []. split; [reflexivity|]. split; constructor.
    + by apply (bool_decide_unpack _); vm_compute.
    + split; [|reflexivity]. destruct demo_fresh. split; try done. exact Manager.Manager_ok.
    + intros f Hf. apply Manager.Manager_reserved. rewrite <- Manager.frame_size. exact Hf.
  - exists h, k'. split; [exact E|]. split; [exact Hif|]. split; [rewrite V by lia; reflexivity|].
    split; [rewrite W by (unfold in_u32; lia); reflexivity|]. rewrite !F by lia. split.
    + split; [|split; [lia|]]. 
      * exists (mkEntry 0x100000 0x700000 STIVALE2_MMAP_USABLE). split; [by left|]. repeat split; vm_compute; congruence.
      * unfold kernel_page. intros [_ H]. vm_compute in H. discriminate H.
    + intros (_ & _ & H). apply H. unfold kernel_page. split; vm_compute; congruence.
Defined.
