(* ===== verification/Start.v ===== *)
(** * Starting the tasks (Entry.cpp, Scheduler/tasks.cpp, Memory/paging.cpp)

    [tasks_init] and the three calls of [tasks_new] in [kernelEntry], with the
    stacks that the memory manager gives them: the scheduler's theorems begin
    with a system that was started like this. *)
From S2P Require Import Prelude Words Bitmaps PageTypes Physical Paging KernelMap.
From S2P Require Import TaskLists Tasks TasksRefinement Queueing Scheduling Switching SchedulerTheorems.
From Stdlib Require Import ZArith Lia Bool.
From stdpp Require Import base strings numbers functions gmap list.
#[local] Open Scope Z_scope.

(** ** One page of memory *)
Section stack_pages.
Context {B : Type} {HB : Bitmap B}.
Hypothesis Hsize : bm_size = MEM_BITMAP_SIZE.
Implicit Type p : paging (B := B).

(** The kernel's memory can give [n] more pages. *)
Record room (n : nat) p : Prop := {
  room_inv : Paging.inv p;
  room_lock : pagingLock p = false;
  room_null : mapped p 0;
  room_frames : exists l, NoDup l /\ length l = n /\ Forall (fun f => 0 <= f < bm_size /\ frame_free p f) l;
  room_pages : exists l, NoDup l /\ length l = n /\ Forall (fun k => 0 <= k < MEM_BITMAP_SIZE - 1 /\ ~ mapped p k) l;
}.

(** Of [S n] distinct things [n] are left when one of them is taken. *)
Lemma all_but_one {A} `{EqDecision A} (P Q : A -> Prop) (x : A) n :
  (exists l, NoDup l /\ length l = S n /\ Forall P l) -> (forall y, P y -> y <> x -> Q y) ->
  exists l, NoDup l /\ length l = n /\ Forall Q l.
Proof.
  intros (l & Hn & Hl & Hp) Hq. destruct (decide (x ∈ l)) as [Hx|Hx].
  - apply elem_of_Permutation in Hx as [l' E]. rewrite E in Hn, Hl, Hp.
    apply NoDup_cons in Hn as [Hx Hn]. apply Forall_cons in Hp as [_ Hp]. exists l'. split; [done|]. split; [cbn in Hl; lia|].
    apply Forall_forall. intros y Hy. rewrite Forall_forall in Hp. apply Hq; [by apply Hp|]. by intros ->.
  - destruct l as [|y l]; [done|]. apply NoDup_cons in Hn as [_ Hn]. apply not_elem_of_cons in Hx as [_ Hx].
    apply Forall_cons in Hp as [_ Hp]. exists l. split; [done|]. split; [cbn in Hl; lia|].
    apply Forall_forall. intros z Hz. rewrite Forall_forall in Hp. apply Hq; [by apply Hp|]. by intros ->.
Qed.

Lemma newPage_one p n : room (S n) p ->
  exists i p', newPage 1 p = Done (i * 4096, p') /\ 0 < i < MEM_BITMAP_SIZE - 1 /\ ~ mapped p i /\
    (forall k, vpage k -> mapped p' k <-> mapped p k \/ k = i) /\ room n p'.
Proof.
  intros [Hp Hl H0 Hfr Hpg]. pose proof (bm_size_eq Hsize) as Hsz.
  unfold newPage. change (PAGE_COUNT 1) with 1. cbv zeta.
  set (p0 := Paging.set_lock true p). assert (Hp0 : Paging.inv p0) by by apply inv_set_lock.
  assert (El : Paging.lock p = Done (tt, p0)) by (unfold Paging.lock; by rewrite Hl).
  destruct (bm_FindFirstRange_clear_spec (virtualMemoryBitset p0) 1 (inv_virtual_ok _ Hp0)) as (i & Ei & Hi); [lia|].
  assert (Hbit : forall k, 0 <= k < 1048576 -> bm_bit (virtualMemoryBitset p0) k = true <-> mapped p k).
  { intros k Hk. apply (inv_bit _ Hp0). unfold vpage. by rewrite size_eq. }
  pose proof Hpg as (lp & Hlp1 & Hlp2 & Hlp3). destruct lp as [|k0 lp]; [done|].
  assert (Hk0 : 0 <= k0 < 1048575 /\ ~ mapped p k0).
  { apply Forall_cons in Hlp3 as [[H1 H2] _]. rewrite size_eq in H1. split; [lia|done]. }
  destruct Hi as [(Hir & Hfree & Hfirst)|(-> & Hnone)].
  2: { exfalso. destruct (Hnone k0) as (k & Hk & Hb); [lia|]. assert (k = k0) as -> by lia. apply Hbit in Hb; [|lia]. by destruct Hk0. }
  destruct (bm_FindFirstBit_spec (physical p0) false (inv_physical_ok _ Hp0)) as (f & Ef & Hf).
  destruct Hf as [(Hfr' & Hfbit & _)|(-> & Hall)].
  2: { exfalso. destruct Hfr as ([|f0 lf] & _ & Hlen & Hlf); [done|]. apply Forall_cons in Hlf as [[Hf1 Hf2] _].
       unfold frame_free in Hf2. change (physical p0) with (physical p) in Hall. rewrite Hall in Hf2 by done. done. }
  assert (Hni : ~ mapped p i).
  { intros Hm. apply Hbit in Hm; [|lia]. rewrite Hfree in Hm by lia. done. }
  destruct (map_new Hsize p0 i f Hp0) as (p1 & E1 & Hp1 & (S1 & S2 & S3 & S4 & S5) & Hent & Hph & _);
    [unfold vpage; rewrite size_eq; lia|unfold vpage; rewrite size_eq; lia|exact Hni|].
  assert (Hm1 : forall k, vpage k -> mapped p1 k <-> mapped p k \/ k = i).
  { intros k Hk. unfold mapped. destruct (decide (k = i)) as [->|Hne]; [rewrite Hent; cbn; split; [by right|lia]|].
    rewrite S5 by done. split; [by left|by intros [?|?]]. }
  assert (Hi0 : i <> 0) by (intros ->; done).
  exists i, (Paging.set_lock false p1). split; [|split; [rewrite size_eq; lia|split; [done|split; [exact Hm1|]]]].
  - rewrite (run_bind_done _ _ _ _ _ El).
    assert (Eff : findNextFreeVirtualAddress 1 p0 = Done (i, p0)).
    { unfold findNextFreeVirtualAddress, onvirt, kzoom, kread. by rewrite Ei. }
    rewrite (run_bind_done _ _ _ _ _ Eff). destruct (Z.eqb_spec i SIZE_MAX) as [->|_]; [unfold SIZE_MAX in Hir; lia|].
    change (Z.to_nat 1) with 1%nat. cbn [map_frames].
    assert (Eph : onphys (kread Manager.findNextFreePhysicalAddress) p0 = Done (f, p0)).
    { unfold onphys, kzoom, kread, Manager.findNextFreePhysicalAddress. by rewrite Ef. }
    rewrite !run_bind_assoc. rewrite (run_bind_done _ _ _ _ _ Eph). unfold Manager.npos.
    destruct (Z.eqb_spec f SIZE_MAX) as [->|_]; [unfold SIZE_MAX in Hfr'; lia|]. unfold ARCH_PAGE_SIZE.
    rewrite (u32_small (i * 4096)), (u32_small (f * 4096)) by (unfold in_u32; lia).
    rewrite !run_bind_assoc. by rewrite (run_bind_done _ _ _ _ _ E1).
  - split; [by apply inv_set_lock|done| | |].
    + apply (Hm1 0); [unfold vpage; rewrite size_eq; lia|by left].
    + apply (all_but_one _ _ f n Hfr). intros g [Hg1 Hg2] Hne. split; [done|]. unfold frame_free in *. cbn.
      rewrite Hph by done. change (physical p0) with (physical p). rewrite Hg2. by destruct (Z.eqb_spec g f).
    + apply (all_but_one _ _ i n Hpg). intros k [Hk1 Hk2] Hne. split; [done|]. intros Hm.
      apply (Hm1 k) in Hm as [?|?]; [done|done|]. unfold vpage. rewrite size_eq in *. lia.
Qed.

(** There is room after [Memory::init] if enough frames were free. *)
Lemma room_after_init {HK : KernelImage} p n : linked HK -> untouched p -> pagingLock p = false -> (n <= 4096)%nat ->
  (exists l, NoDup l /\ length l = n /\
    Forall (fun f => 0 <= f < bm_size /\ frame_free p f /\ 256 <= f /\ ~ kernel_page (f + 0xC0000)) l) ->
  exists p', Paging.init p = Done (tt, p') /\ room n p'.
Proof.
  intros Hlink Hf Hl Hn (l & H1 & H2 & H3).
  destruct (init_map Hlink Hsize p Hf) as (p' & E & Hp' & L & _ & _ & _ & H0 & _ & F).
  destruct (init_spec Hlink Hsize p Hf) as (q & Eq & _ & _ & _ & _ & _ & _ & _ & M & _).
  assert (q = p') as -> by (rewrite E in Eq; by injection Eq).
  exists p'. split; [exact E|]. split; [exact Hp'|by rewrite L|exact H0| |].
  - exists l. split; [exact H1|]. split; [exact H2|]. eapply Forall_impl; [exact H3|]. intros f (Hf1 & Hf2).
    split; [exact Hf1|]. by apply F.
  - exists ((fun k => 256 + Z.of_nat k) <$> seq 0 n). split; [|split].
    + assert (Inj eq eq (fun k => 256 + Z.of_nat k)) by (intros x y; lia). apply (NoDup_fmap_2 _), NoDup_seq.
    + by rewrite length_fmap, length_seq.
    + apply Forall_fmap, Forall_forall. intros k Hk%elem_of_seq. cbn [compose]. rewrite size_eq. split; [lia|].
      intros Hm. apply Hm, M; [unfold vpage; rewrite size_eq; lia|lia|]. unfold kernel_page.
      pose proof (Z.div_le_mono 0xC0100000 KERNEL_START 4096 ltac:(lia)) as Hd. destruct Hlink as [_ _ [Hs _] _ _ _ _].
      specialize (Hd Hs). change (0xC0100000 / 4096) with 0xC0100 in Hd. lia.
Qed.
End stack_pages.

(** ** [kernelEntry] from [tasks_init] on *)
Record machine {B X : Type} := mkMachine { pages : paging (B := B); tasks : sched X }.
Arguments machine : clear implicits.
Arguments mkMachine : clear implicits.

Section start.
Context {B : Type} {HB : Bitmap B} {X : Type} `{TaskQueues X} `{KernelText}.

Definition onpages {A} (m : K (paging (B := B)) A) : K (machine B X) A :=
  kzoom pages (fun p s => mkMachine B X p (tasks s)) m.
Definition ontasks {A} (m : K (sched X) A) : K (machine B X) A :=
  kzoom tasks (fun t s => mkMachine B X (pages s) t) m.

(** [tasks_new] with the page that it gets for the stack. *)
Definition spawn (entry : Z) (storage : tid) (st : task_state) (nm : string) : K (machine B X) tid :=
  page ← onpages (newPage 1) ;
  ontasks (tasks_new None page entry (Some storage) st nm).

(** [tasks_init]; the cleaner's stack is allocated in its middle. *)
Definition tasks_init : K (machine B X) unit :=
  ontasks _discover_cpu_speed ;;
  ontasks (onq (tq_new addr_first_task (mkTcb 0 page_dir_phys_addr TASK_RUNNING 0 0 "[main]" ALLOC_STATIC))) ;;
  _ ← spawn addr_cleaner_task_impl addr_cleaner_task TASK_PAUSED "[cleaner]" ;
  ontasks (
    onq (tq_modify addr_cleaner_task (set_state TASK_PAUSED)) ;;
    t ← _get_cpu_time_ns ;
    emod (set_last_time t) ;;
    emod (fun e => set_last_timer (_last_time e) e) ;;
    emod (set_slice TIME_SLICE_SIZE) ;;
    emod (set_current (Some addr_first_task)) ;;
    timer_register_callback CbOnTimer).

(** The entry points of the tasks, and their structures on the stack of
    [kernelEntry]. *)
Context (find_primes show_primes spinner_entry : Z) (compute status spinner : tid).

Definition create_tasks : K (machine B X) unit :=
  tasks_init ;;
  _ ← spawn find_primes compute TASK_READY "prime_compute" ;
  _ ← spawn show_primes status TASK_READY "prime_display" ;
  _ ← spawn spinner_entry spinner TASK_READY "spinner" ;
  mret tt.
(** [kernelEntry] from here to its last call, without what it prints and the
    tones.  The panic behind that call is reached only if somebody unblocks the
    task of [kernelEntry]. *)
Definition kernelEntry_tasks : K (machine B X) unit :=
  create_tasks ;; ontasks (tasks_block_current TASK_PAUSED).

(** Allocation and scheduling work on different parts of the state. *)
Lemma ontasks_run {A} (m : K (sched X) A) p s :
  ontasks m (mkMachine B X p s) = (m s ≫= fun r => Done (r.1, mkMachine B X p r.2)).
Proof. unfold ontasks, kzoom. cbn. by destruct (m s) as [[a s']| | |]. Qed.
Lemma ontasks_bind {A C} (m : K (sched X) A) (f : A -> K (machine B X) C) p s :
  (ontasks m ≫= f) (mkMachine B X p s) = (m s ≫= fun r => f r.1 (mkMachine B X p r.2)).
Proof. rewrite run_bind, ontasks_run. by destruct (m s) as [[a s']| | |]. Qed.
Lemma onpages_bind {A C} (m : K (paging (B := B)) A) (f : A -> K (machine B X) C) p s a p' : m p = Done (a, p') ->
  (onpages m ≫= f) (mkMachine B X p s) = f a (mkMachine B X p' s).
Proof. intros E. rewrite run_bind. unfold onpages, kzoom. cbn. by rewrite E. Qed.

End start.

(** ** The scheduler is started *)
Section scheduler.
Context `{KernelText}.
Implicit Type s : sched Fifo.queues.

(** The next interrupt of the timer ends the measurement of the speed. *)
Lemma wait_tick_run n rest : forall k s, irqs (ev s) = replicate n IrqOther ++ IrqTimer :: rest ->
  _callbacks (ev s) = [] -> (n < k)%nat ->
  exists s', wait_tick (u32 (timer_tick (ev s) + 1)) k s = Done (tt, s') /\ tsc (ev s') = tsc (ev s).
Proof.
  induction n as [|n IH]; intros k s Hi Hc Hk; (destruct k as [|k]; [lia|]); cbn [wait_tick]; unfold eget at 1, kgets at 1.
  all: assert (Hne : timer_tick (ev s) <> u32 (timer_tick (ev s) + 1)) by
    (unfold u32, wrap; intros E; pose proof (Z.div_mod (timer_tick (ev s) + 1) (2 ^ 32) ltac:(lia)); lia).
  all: rewrite run_bind; destruct (Z.eqb_spec (timer_tick (ev s)) (u32 (timer_tick (ev s) + 1))); [done|].
  - unfold hlt, eget, interrupt, timer_callback_with, cli, sti, cmod, emod. krun. cbn. rewrite Hi. cbn. rewrite Hc. cbn.
    destruct k as [|k]; cbn [wait_tick]; unfold eget; krun; cbn; rewrite Z.eqb_refl; eexists; (split; [reflexivity|done]).
  - assert (E : hlt _schedule s = Done (tt, mkSched (qs s) (set_irqs (replicate n IrqOther ++ IrqTimer :: rest) (ev s)))).
    { unfold hlt, eget, emod. krun. cbn. by rewrite Hi. }
    rewrite (run_bind_done _ _ _ _ _ E).
    exact (IH k (mkSched (qs s) (set_irqs (replicate n IrqOther ++ IrqTimer :: rest) (ev s))) eq_refl Hc ltac:(lia)).
Qed.

Lemma rdtsc_run r l s : tsc (ev s) = r :: l -> __rdtsc s = Done (u64 r, mkSched (qs s) (set_tsc l (ev s))).
Proof. intros E. unfold __rdtsc. rewrite eget_bind, E. reflexivity. Qed.

Lemma discover_run n rest r1 r2 tl s : blank s -> irqs (ev s) = replicate n IrqOther ++ IrqTimer :: rest ->
  tsc (ev s) = r1 :: r2 :: tl ->
  exists s', _discover_cpu_speed s = Done (tt, s') /\ blank s' /\ 0 < _instr_per_ns (ev s') /\ tsc (ev s') = tl.
Proof.
  intros Hb Hi Ht. pose proof (T_cpu_speed s Hb) as HT. cbv beta in HT.
  assert (E : exists s', _discover_cpu_speed s = Done (tt, s') /\ tsc (ev s') = tl).
  { unfold _discover_cpu_speed. rewrite eget_bind. cbv beta. rewrite (run_bind_done _ _ _ _ _ (rdtsc_run _ _ s Ht)).
    set (s1 := mkSched (qs s) (set_tsc (r2 :: tl) (ev s))). rewrite eget_bind. cbv beta.
    destruct (wait_tick_run n rest (length (irqs (ev s1))) s1) as (s2 & E2 & T2); [exact Hi|apply Hb| |].
    { cbn. rewrite Hi, length_app, length_replicate. cbn. lia. }
    rewrite (run_bind_done _ _ _ _ _ E2), (run_bind_done _ _ _ _ _ (rdtsc_run r2 tl s2 T2)).
    unfold emod, eget. krun. cbn. destruct (_ =? 0); eexists; (split; [reflexivity|done]). }
  destruct E as (s' & E & Htl). rewrite E in HT. exists s'. by destruct HT.
Qed.

(** The system after the start, with the tasks [l] waiting to run. *)
Record started (l : list tid) s : Prop := {
  st_reachable : reachable s;
  st_current : current_task (ev s) = Some addr_first_task;
  st_callbacks : _callbacks (ev s) = [CbOnTimer];
  st_ready : Fifo.queue (qs s) QReady = l;
  st_known : forall u, is_Some (Fifo.tcbs (qs s) !! u) -> u = addr_first_task \/ u = addr_cleaner_task \/ u ∈ l;
}.

Lemma init_started n rest r1 r2 r3 tl page s : addr_first_task <> addr_cleaner_task -> page <> 0 -> blank s ->
  irqs (ev s) = replicate n IrqOther ++ IrqTimer :: rest -> tsc (ev s) = r1 :: r2 :: r3 :: tl ->
  exists s', Tasks.tasks_init page s = Done (tt, s') /\ started [] s' /\ tsc (ev s') = tl.
Proof.
  intros Hne Hp Hb Hi Ht. destruct (discover_run n rest r1 r2 (r3 :: tl) s Hb Hi Ht) as (s1 & E1 & [B1 B2 B3 B4 B5 B6 B7] & Hn & T1).
  assert (E2 : exists s2, init_rest page s1 = Done (tt, s2) /\ current_task (ev s2) = Some addr_first_task /\
    _callbacks (ev s2) = [CbOnTimer] /\ Fifo.queue (qs s2) QReady = [] /\ tsc (ev s2) = tl /\
    forall u, is_Some (Fifo.tcbs (qs s2) !! u) -> u = addr_first_task \/ u = addr_cleaner_task).
  { unfold init_rest, tasks_new, onq, _get_cpu_time_ns, __rdtsc, timer_register_callback, cmod, emod, eget. krun. cbn.
    destruct (Z.eqb_spec page 0); [done|]. rewrite B1. unfold Fifo.new_task. cbn. rewrite lookup_empty. cbn.
    rewrite lookup_insert_ne, lookup_empty by done. cbn.
    rewrite bool_decide_false by done. cbn.
    unfold Fifo.modify. cbn. rewrite lookup_insert_eq. cbn. rewrite T1. cbn.
    destruct (Z.eqb_spec (_instr_per_ns (ev s1)) 0); [lia|]. cbn. rewrite B6. cbn.
    eexists. split; [reflexivity|]. do 4 (split; [done|]). cbn. intros u.
    rewrite !lookup_insert_is_Some. rewrite lookup_empty. intros [?|[? [?|[? [?|[? []%is_Some_None]]]]]]; auto. }
  destruct E2 as (s2 & E2 & H1 & H2 & H3 & H4 & H5). exists s2.
  assert (E : Tasks.tasks_init page s = Done (tt, s2)).
  { change (Tasks.tasks_init page) with (_discover_cpu_speed ;; init_rest page). by rewrite (run_bind_done _ _ _ _ _ E1). }
  split; [exact E|]. split; [|done]. split; try done; [by eapply reach_init|]. intros u Hu. destruct (H5 u Hu) as [?|?]; auto.
Qed.

(** The stack pointer of [t] is in the page at [a]. *)
Definition stack_in s (t : tid) (a : Z) : Prop := exists k, Fifo.tcbs (qs s) !! t = Some k /\
  a <= stack_top (Fifo.a_fields k) < a + 4096.

(** A task that is created is the last of the ready queue, and its stack is in
    the page that was given to it. *)
Lemma new_started l i entry t nm s : started l s -> 0 < i < MEM_BITMAP_SIZE - 1 ->
  t <> addr_first_task -> t <> addr_cleaner_task -> t ∉ l ->
  exists s', tasks_new None (i * 4096) entry (Some t) TASK_READY nm s = Done (t, s') /\ started (l ++ [t]) s' /\
    tsc (ev s') = tsc (ev s) /\ stack_in s' t (i * 4096) /\ (forall u a, u <> t -> stack_in s u a -> stack_in s' u a).
Proof.
  intros [Hr Hc Hcb Hq Hk] Hp Hf Hcl Hl. rewrite size_eq in Hp.
  assert (Hnone : Fifo.tcbs (qs s) !! t = None).
  { destruct (Fifo.tcbs (qs s) !! t) as [k|] eqn:E; [|done]. destruct (Hk t) as [?|[?|?]]; [by eexists|done..]. }
  assert (E : exists s', tasks_new None (i * 4096) entry (Some t) TASK_READY nm s = Done (t, s') /\
    current_task (ev s') = current_task (ev s) /\ _callbacks (ev s') = _callbacks (ev s) /\ tsc (ev s') = tsc (ev s) /\
    Fifo.queue (qs s') QReady = Fifo.queue (qs s) QReady ++ [t] /\ stack_in s' t (i * 4096) /\
    forall u, u <> t -> Fifo.tcbs (qs s') !! u = Fifo.tcbs (qs s) !! u).
  { unfold tasks_new, onq, cmod, emod, eget. krun. cbn. destruct (Z.eqb_spec (i * 4096) 0); [lia|]. cbn.
    unfold Fifo.new_task. rewrite Hnone. cbn.
    rewrite bool_decide_true by done. cbn. unfold Fifo.enqueue. cbn. rewrite lookup_insert_eq. cbn.
    eexists. split; [reflexivity|]. do 3 (split; [done|]). cbn. split; [by rewrite fn_lookup_insert|]. split.
    - eexists. split; [apply lookup_insert_eq|]. cbn. unfold ARCH_PAGE_SIZE.
      repeat match goal with |- context [u32 ?x] =>
        lazymatch x with context [u32 _] => fail | _ => rewrite (u32_small x) by (unfold in_u32; lia) end end. lia.
    - intros u Hu. by rewrite !lookup_insert_ne by done. }
  destruct E as (s' & E & E1 & E2 & E3 & E4 & E6 & E5). exists s'. split; [exact E|].
  split; [|split; [done|split; [done|]]].
  - split; [|congruence|congruence|congruence|].
    + apply (reach_call s (CNew None (i * 4096) entry (Some t) TASK_READY nm)); [done| |].
      * split; [lia|]. split; [by left|]. exists t. split; [by left|]. split; [congruence|]. by rewrite Hnone.
      * cbn [do_call]. by rewrite (run_bind_done _ _ _ _ _ E).
    + intros u Hu. rewrite elem_of_app, list_elem_of_singleton. destruct (decide (u = t)) as [?|Hne]; [auto|].
      rewrite E5 in Hu by done. destruct (Hk u Hu) as [?|[?|?]]; auto.
  - intros u a Hu (k & Hu1 & Hu2). exists k. by rewrite E5.
Qed.

End scheduler.

(** ** The whole start *)
Section whole.
Context {B : Type} {HB : Bitmap B} `{KernelText}.
Hypothesis Hsize : bm_size = MEM_BITMAP_SIZE.
Implicit Type p : paging (B := B).
Implicit Type s : sched Fifo.queues.

Lemma Done_bind {A C} (r : A) (f : A -> outcome C) : (Done r ≫= f) = f r.
Proof. done. Qed.

Lemma tasks_init_run p s page p' : newPage 1 p = Done (page, p') ->
  tasks_init (mkMachine B _ p s) = (Tasks.tasks_init page s ≫= fun r => Done (tt, mkMachine B _ p' r.2)).
Proof.
  intros E. unfold tasks_init, Tasks.tasks_init, spawn. rewrite ontasks_bind, run_bind.
  destruct (_discover_cpu_speed s) as [[[] s1]| | |]; [|done..]. rewrite Done_bind. cbn [fst snd]. rewrite ontasks_bind, run_bind.
  destruct (onq _ s1) as [[[] s2]| | |]; [|done..]. rewrite Done_bind. cbn [fst snd].
  rewrite run_bind_assoc, (onpages_bind _ _ _ _ _ _ E), ontasks_bind, run_bind.
  destruct (tasks_new _ _ _ _ _ _ s2) as [[t s3]| | |]; [|done..]. rewrite Done_bind. cbn [fst snd]. rewrite ontasks_run.
  match goal with |- context [onq ?q ≫= ?f] => destruct ((onq q ≫= f) s3) as [[[] s4]| | |] end; done.
Qed.

Lemma spawn_run entry t st nm p s page p' : newPage 1 p = Done (page, p') ->
  spawn entry t st nm (mkMachine B _ p s) =
  (tasks_new None page entry (Some t) st nm s ≫= fun r => Done (r.1, mkMachine B _ p' r.2)).
Proof. intros E. unfold spawn. rewrite (onpages_bind _ _ _ _ _ _ E), ontasks_run. done. Qed.
(** The next task gets the next page. *)
Lemma spawn_started n l entry t nm p s : room (S n) p -> started l s ->
  t <> addr_first_task -> t <> addr_cleaner_task -> t ∉ l ->
  exists i p' s', spawn entry t TASK_READY nm (mkMachine B _ p s) = Done (t, mkMachine B _ p' s') /\
    room n p' /\ started (l ++ [t]) s' /\ tsc (ev s') = tsc (ev s) /\ 0 < i < MEM_BITMAP_SIZE - 1 /\ ~ mapped p i /\
    (forall k, vpage k -> mapped p' k <-> mapped p k \/ k = i) /\
    stack_in s' t (i * 4096) /\ (forall u a, u <> t -> stack_in s u a -> stack_in s' u a).
Proof.
  intros Hp Hs H1 H2 H3. destruct (newPage_one Hsize p n Hp) as (i & p' & E & Hi & Hm & Hm' & Hp').
  destruct (new_started l i entry t nm s Hs Hi H1 H2 H3) as (s' & E' & Hs' & Ht & Hst).
  exists i, p', s'. rewrite (spawn_run _ _ _ _ _ _ _ _ E), E'. split; [reflexivity|]. by destruct Hp.
Qed.

Lemma NoDup5 {A} (a b x y z : A) : NoDup [a; b; x; y; z] ->
  a <> b /\ (a <> x /\ a <> y /\ a <> z) /\ (b <> x /\ b <> y /\ b <> z) /\ x <> y /\ x <> z /\ y <> z.
Proof. rewrite !NoDup_cons. set_solver. Qed.
Lemma NoDup3 {A} (x y z : A) : x <> y -> x <> z -> y <> z -> NoDup [x; y; z].
Proof. intros. rewrite !NoDup_cons. set_solver by (apply NoDup_nil_2). Qed.

(** The three tasks have stacks of their own. *)
Definition own_stacks p p' s (t1 t2 t3 : tid) : Prop := exists i1 i2 i3, NoDup [i1; i2; i3] /\
  stack_in s t1 (i1 * 4096) /\ stack_in s t2 (i2 * 4096) /\ stack_in s t3 (i3 * 4096) /\
  Forall (fun i => 0 < i < MEM_BITMAP_SIZE - 1 /\ ~ mapped p i /\ mapped p' i) [i1; i2; i3].

Lemma create_tasks_run n rest r1 r2 r3 tl f1 f2 f3 t1 t2 t3 p s :
  room 4 p -> blank s -> irqs (ev s) = replicate n IrqOther ++ IrqTimer :: rest -> tsc (ev s) = r1 :: r2 :: r3 :: tl ->
  NoDup [addr_first_task; addr_cleaner_task; t1; t2; t3] ->
  exists p' s', create_tasks f1 f2 f3 t1 t2 t3 (mkMachine B _ p s) = Done (tt, mkMachine B _ p' s') /\
    Paging.inv p' /\ started [t1; t2; t3] s' /\ tsc (ev s') = tl /\ own_stacks p p' s' t1 t2 t3.
Proof.
  intros Hp Hb Hi Ht Hd. apply NoDup5 in Hd as (Hfc & (Hf1 & Hf2 & Hf3) & (Hc1 & Hc2 & Hc3) & H12 & H13 & H23).
  destruct (newPage_one Hsize p 3 Hp) as (i0 & p0 & E0 & Hi0 & _ & M0 & Hp0). rewrite size_eq in Hi0.
  destruct (init_started n rest r1 r2 r3 tl (i0 * 4096) s Hfc ltac:(lia) Hb Hi Ht) as (s0 & Es0 & Hs0 & T0).
  destruct (spawn_started 2 [] f1 t1 "prime_compute" p0 s0 Hp0 Hs0) as
    (i1 & p1 & s1 & E1 & Hp1 & Hs1 & T1 & Hi1 & U1 & M1 & S1 & _); [congruence|congruence|set_solver|].
  destruct (spawn_started 1 [t1] f2 t2 "prime_display" p1 s1 Hp1 Hs1) as
    (i2 & p2 & s2 & E2 & Hp2 & Hs2 & T2 & Hi2 & U2 & M2 & S2 & K2); [congruence|congruence|set_solver|].
  destruct (spawn_started 0 [t1; t2] f3 t3 "spinner" p2 s2 Hp2 Hs2) as
    (i3 & p3 & s3 & E3 & Hp3 & Hs3 & T3 & Hi3 & U3 & M3 & S3 & K3); [congruence|congruence|set_solver|].
  exists p3, s3. split.
  { unfold create_tasks. assert (Ei : tasks_init (mkMachine B _ p s) = Done (tt, mkMachine B _ p0 s0)).
    { by rewrite (tasks_init_run _ _ _ _ E0), Es0. }
    by rewrite (run_bind_done _ _ _ _ _ Ei), (run_bind_done _ _ _ _ _ E1), (run_bind_done _ _ _ _ _ E2),
      (run_bind_done _ _ _ _ _ E3). }
  split; [apply Hp3|]. split; [exact Hs3|]. split; [by rewrite T3, T2, T1|].
  assert (Hv : forall i, 0 < i < MEM_BITMAP_SIZE - 1 -> vpage i) by (unfold vpage; rewrite size_eq; lia).
  assert (G0 : forall k, vpage k -> mapped p k -> mapped p0 k) by (intros k Hk Hm; apply M0; [done|by left]).
  assert (G1 : forall k, vpage k -> mapped p0 k -> mapped p1 k) by (intros k Hk Hm; apply M1; [done|by left]).
  assert (G2 : forall k, vpage k -> mapped p1 k -> mapped p2 k) by (intros k Hk Hm; apply M2; [done|by left]).
  assert (G3 : forall k, vpage k -> mapped p2 k -> mapped p3 k) by (intros k Hk Hm; apply M3; [done|by left]).
  assert (N1 : mapped p1 i1) by (apply M1; [auto|by right]).
  assert (N2 : mapped p2 i2) by (apply M2; [auto|by right]).
  assert (N3 : mapped p3 i3) by (apply M3; [auto|by right]).
  exists i1, i2, i3. split; [apply NoDup3; intros ->; [exact (U2 N1)|exact (U3 (G2 _ (Hv _ Hi3) N1))|exact (U3 N2)]|].
  split; [by apply K3; [|apply K2]|]. split; [by apply K3|]. split; [done|].
  apply Forall_cons_2; [|apply Forall_cons_2; [|apply Forall_cons_2; [|apply Forall_nil_2]]]; (split; [assumption|]).
  - split; [intros Hm; exact (U1 (G0 _ (Hv _ Hi1) Hm))|auto].
  - split; [intros Hm; apply U2; auto|auto].
  - split; [intros Hm; apply U3; auto|exact N3].
Qed.

(** The first task leaves the processor to the first of the others. *)
Lemma handed_over t1 l r1 r2 tl s : started (t1 :: l) s -> tsc (ev s) = r1 :: r2 :: tl ->
  exists s', tasks_block_current TASK_PAUSED s = Done (tt, s') /\ reachable s' /\ _callbacks (ev s') = [CbOnTimer] /\
    left_to addr_first_task t1 l tl s s' /\ (forall u a, u <> addr_first_task -> stack_in s u a -> stack_in s' u a).
Proof.
  intros [Hr Hc Hcb Hq _] Ht.
  destruct (block_run addr_first_task t1 l r1 r2 tl s (reachable_inv _ Hr) Hc Hq Ht) as (s' & E & HL). pose proof HL as [L1 L2 L3 L4 L5 L6 L7 L8].
  exists s'. split; [exact E|]. split; [by apply (reach_call s (CBlock TASK_PAUSED) s')|]. split; [congruence|]. split; [exact HL|].
  intros u a Hu (k & Hk & Ha). destruct (decide (u = t1)) as [->|Hne]; [|exists k; by rewrite L5].
  rewrite Hk in L6. cbn in L6. apply fmap_Some in L6 as (k' & Hk' & E'). exists k'. split; [exact Hk'|]. by rewrite <- E'.
Qed.

End whole.

(** ** A concrete start *)
#[local] Existing Instance Manager.frame_bitmap.
#[local] Existing Instance demo_linked_image.
#[local] Existing Instance SchedulerTheorems.demo_text.

