(* ===== verification/EarlyBoot.v ===== *)
(** * Before paging (Arch/i686/Bootloader/stivale2.c, EarlyPanic.cpp, Arch/i686/regs.hpp)

    Stage 1 runs with paging off, on tables in memory that the boot loader has
    cleared.  It maps low memory and the boot loader's information to
    themselves and the kernel to its high addresses, switches paging on and
    jumps.  The tables are kept by physical address, so that what the code says
    about neighbouring tables is part of the model, and the result is judged by
    the walk of the processor. *)
From S2P Require Import Prelude Words PageTypes Bitmaps Physical Paging KString Handoff.
From Stdlib Require Import ZArith Lia Bool Ascii.
From stdpp Require Import base strings numbers functions gmap list.
#[local] Open Scope Z_scope.

(** ** Control register 0 *)
Record CR0 := mkCR0 {
  protectedMode : Z; monitorCoProcessor : Z; emulation : Z; taskSwitched : Z; extensionType : Z; numericError : Z;
  reservedA : Z; writeProtection : Z; reservedB : Z; alignmentMask : Z; reservedC : Z; nonWriteThrough : Z;
  cr0_cacheDisable : Z; pagingEnable_ : Z
}.
Definition CR0_widths : list Z := [1; 1; 1; 1; 1; 1; 10; 1; 1; 1; 10; 1; 1; 1].
Definition CR0_word (r : CR0) : Z := pack CR0_widths
  [protectedMode r; monitorCoProcessor r; emulation r; taskSwitched r; extensionType r; numericError r;
   reservedA r; writeProtection r; reservedB r; alignmentMask r; reservedC r; nonWriteThrough r;
   cr0_cacheDisable r; pagingEnable_ r].
Definition word_CR0 (x : Z) : CR0 :=
  match unpack CR0_widths x with
  | [a; b; c; d; e; f; g; h; i; j; k; l; m; n] => mkCR0 a b c d e f g h i j k l m n
  | _ => mkCR0 0 0 0 0 0 0 0 0 0 0 0 0 0 0
  end.
Definition set_pagingEnable (v : Z) (r : CR0) : CR0 :=
  mkCR0 (protectedMode r) (monitorCoProcessor r) (emulation r) (taskSwitched r) (extensionType r) (numericError r)
    (reservedA r) (writeProtection r) (reservedB r) (alignmentMask r) (reservedC r) (nonWriteThrough r)
    (cr0_cacheDisable r) v.

(** ** Addresses of the linker *)
Class EarlyImage := {
  EARLY_KERNEL_END : Z; BSS_START : Z; BSS_SIZE : Z;
  addr_directory : Z;          (* &pageDirectory *)
  addr_lowMemoryPageTable : Z;
  addr_kernelPageTable : Z;    (* both tables, one after the other *)
  addr_bootPageTable : Z;
  addr_stage2Stack_end : Z;
}.

Section stage1.
Context {HK : KernelImage} {HE : EarlyImage}.

(** The entries of all tables by their physical address, the directory, the
    control registers, and memory. *)
Record early := mkEarly {
  tables : Z -> TableEntry; directory : Z -> DirectoryEntry; early_cr3 : Z; early_cr0 : Z; early_memory : memory
}.
Definition set_tables t (s : early) := mkEarly t (directory s) (early_cr3 s) (early_cr0 s) (early_memory s).
Definition set_dirs d (s : early) := mkEarly (tables s) d (early_cr3 s) (early_cr0 s) (early_memory s).

(** [entry->present = 1; entry->readWrite = 1; entry->pageAddr = v]. *)
Definition map_entry (v : Z) (e : TableEntry) : TableEntry :=
  mkTableEntry 1 1 (usermode e) (writeThrough e) (cacheDisable e) (accessed e) (dirty e) (pageAttrTable e)
    (global e) (unused e) (v mod 2 ^ 20).
Definition map_dir (v : Z) (e : DirectoryEntry) : DirectoryEntry :=
  mkDirectoryEntry 1 1 (d_usermode e) (d_writeThrough e) (d_cacheDisable e) (d_accessed e) (d_ignoredA e) (d_size e)
    (d_ignoredB e) (v mod 2 ^ 20).

(** The entry with index [idx] of the table at [table]. *)
Definition put_entry (table idx v : Z) : K early unit := kmodify (fun s =>
  set_tables (<[table + 4 * idx := map_entry v (tables s (table + 4 * idx))]> (tables s)) s).
Definition put_dir (idx table : Z) : K early unit := fun s =>
  if (0 <=? idx) && (idx <? ARCH_PAGE_DIR_ENTRIES)
  then Done (tt, set_dirs (<[idx := map_dir (Z.shiftr table ARCH_PAGE_TABLE_ENTRY_SHIFT) (directory s idx)]> (directory s)) s)
  else Fault.

Definition ARCH_PAGE_TABLE_ENTRY_MASK : Z := 0x3FF.

(** [for (addr = a; addr < stop; addr += ARCH_PAGE_SIZE)]. *)
Fixpoint page_loop (fuel : nat) (a stop : Z) (body : Z -> K early unit) : K early unit :=
  if a <? stop then
    match fuel with
    | O => kstuck
    | S fuel' => body a ;; page_loop fuel' (u32 (a + ARCH_PAGE_SIZE)) stop body
    end
  else mret tt.
Definition rounds (a stop : Z) : nat := Z.to_nat ((stop - a + ARCH_PAGE_SIZE - 1) / ARCH_PAGE_SIZE).

Definition stage1MapLowMemory : K early unit :=
  put_dir 0 addr_lowMemoryPageTable ;;
  page_loop (rounds ARCH_PAGE_SIZE EARLY_KERNEL_END) ARCH_PAGE_SIZE EARLY_KERNEL_END (fun addr =>
    let pageIdx := Z.shiftr addr ARCH_PAGE_TABLE_ENTRY_SHIFT in
    put_entry addr_lowMemoryPageTable (Z.land pageIdx ARCH_PAGE_TABLE_ENTRY_MASK) pageIdx).

(** The index may reach into the second table, which follows the first. *)
Definition stage1MapHighMemory : K early unit :=
  let kernelDirectoryEntryIdx := Z.shiftr KERNEL_START ARCH_PAGE_DIR_ENTRY_SHIFT in
  put_dir kernelDirectoryEntryIdx addr_kernelPageTable ;;
  put_dir (kernelDirectoryEntryIdx + 1) (u32 (addr_kernelPageTable + 4096)) ;;
  page_loop (rounds KERNEL_START KERNEL_END) KERNEL_START KERNEL_END (fun addr =>
    let kernelMemoryIdx := Z.shiftr addr ARCH_PAGE_TABLE_ENTRY_SHIFT in
    put_entry addr_kernelPageTable (Z.land kernelMemoryIdx (Z.lor 0x400 ARCH_PAGE_TABLE_ENTRY_MASK))
      (u32 (kernelMemoryIdx - Z.shiftr KERNEL_BASE ARCH_PAGE_TABLE_ENTRY_SHIFT))).

(** ** The boot loader's information *)
Section info.
Context (tags : gmap Z tag).

(** The loop over the entries of a memory map, for the tag at [tag]. *)
Fixpoint find_reclaimable (tag : Z) (l : list mmap_entry) : option Z :=
  match l with
  | [] => None
  | e :: l' =>
      if bool_decide (e_type e = STIVALE2_MMAP_BOOTLOADER_RECLAIMABLE) && (u32 (e_base e) =? tag)
      then Some (u32 (e_length e)) else find_reclaimable tag l'
  end.

Fixpoint stage1GetBootInfoAddr (fuel : nat) (tag : Z) : outcome Z :=
  if tag =? 0 then Panic "Error: Cannot detect bootloader info length!" else
  match tags !! tag with
  | None => Fault
  | Some t =>
      match fuel with
      | O => Stuck
      | S fuel' =>
          match (match body t with MEMMAP l => find_reclaimable tag l | _ => None end) with
          | Some length => Done length
          | None => stage1GetBootInfoAddr fuel' (u32 (next t))
          end
      end
  end.

(** [first] is [stivale2Info->tags]. *)
Definition stage1MapBootloader (fuel : nat) (first : Z) : K early unit :=
  let stivale2InfoAddr := u32 first in
  let bootDirectoryEntryIdx := Z.shiftr stivale2InfoAddr ARCH_PAGE_DIR_ENTRY_SHIFT in
  d ← kgets (fun s => directory s bootDirectoryEntryIdx) ;
  bootTable ← (if negb (d_present d =? 0) then mret (u32 (Z.shiftl (d_tableAddr d) ARCH_PAGE_TABLE_ENTRY_SHIFT))
               else put_dir bootDirectoryEntryIdx addr_bootPageTable ;; mret addr_bootPageTable) ;
  stivale2InfoLength ← kread (fun _ => stage1GetBootInfoAddr fuel stivale2InfoAddr) ;
  let stivale2InfoEnd := u32 (stivale2InfoAddr + stivale2InfoLength) in
  page_loop (rounds stivale2InfoAddr stivale2InfoEnd) stivale2InfoAddr stivale2InfoEnd (fun addr =>
    let bootMemoryIdx := Z.shiftr addr ARCH_PAGE_TABLE_ENTRY_SHIFT in
    put_entry bootTable (Z.land bootMemoryIdx ARCH_PAGE_TABLE_ENTRY_MASK) bootMemoryIdx).

Definition stage1EnablePaging : K early unit := kmodify (fun s =>
  mkEarly (tables s) (directory s) addr_directory (CR0_word (set_pagingEnable 1 (word_CR0 (early_cr0 s)))) (early_memory s)).

(** The BSS is cleared; the stack pointer, and the words that are pushed, the
    last one first: a return address and the arguments of [stage2Entry]. *)
Definition stage1JumpToStage2 (info : Z) : K early (Z * list Z) :=
  kzoom early_memory (fun m s => mkEarly (tables s) (directory s) (early_cr3 s) (early_cr0 s) m)
    (kfor (Z.to_nat BSS_SIZE) 0 1 (fun i => store (BSS_START + i) 0)) ;;
  mret (u32 (addr_stage2Stack_end - 12), [0; info; STIVALE2_MAGIC]).

Definition stage1Entry (fuel : nat) (info first : Z) : K early (Z * list Z) :=
  if info =? 0 then kpanic "Error: Missing bootloader information!" else
  stage1MapLowMemory ;;
  stage1MapHighMemory ;;
  stage1MapBootloader fuel first ;;
  stage1EnablePaging ;;
  stage1JumpToStage2 info.
End info.

(** ** The walk of the processor *)

(** The physical address of [va], if it is mapped. *)
Definition walk (s : early) (va : Z) : option Z :=
  let d := directory s (va / 2 ^ 22) in
  if d_present d =? 0 then None else
  let e := tables s (d_tableAddr d * 4096 + 4 * (va / 4096 mod 1024)) in
  if present e =? 0 then None else Some (pageAddr e * 4096 + va mod 4096).

(** *** Loops over pages *)

(** The tables after [n] pages from [p] on have been entered in the table of
    [M] entries at [table]. *)
Fixpoint entered (table M : Z) (v : Z -> Z) (n : nat) (p : Z) (f : Z -> TableEntry) : Z -> TableEntry :=
  match n with
  | O => f
  | S n' => entered table M v n' (p + 1)
              (<[table + 4 * (p mod M) := map_entry (v p) (f (table + 4 * (p mod M)))]> f)
  end.

Lemma entered_miss table M v x n : forall p f, (forall q, p <= q < p + Z.of_nat n -> x <> table + 4 * (q mod M)) ->
  entered table M v n p f x = f x.
Proof.
  induction n as [|n IH]; intros p f Hx; [done|]. cbn [entered].
  rewrite IH by (intros q Hq; apply Hx; lia). apply fn_lookup_insert_ne. apply not_eq_sym, Hx. lia.
Qed.

(** The pages are in one table. *)
Lemma entered_hit table M v n : forall p f q, 0 < M -> p / M = (p + Z.of_nat n - 1) / M -> p <= q < p + Z.of_nat n ->
  entered table M v n p f (table + 4 * (q mod M)) = map_entry (v q) (f (table + 4 * (q mod M))).
Proof.
  assert (Hinj : forall M p q, 0 < M -> p / M = q / M -> p <> q -> table + 4 * (p mod M) <> table + 4 * (q mod M)).
  { intros M' p q HM E Hne Heq. pose proof (Z.div_mod p M'). pose proof (Z.div_mod q M'). nia. }
  assert (Hblock : forall M p n q, 0 < M -> p / M = (p + n - 1) / M -> p <= q < p + n -> q / M = p / M).
  { intros M' p m q HM E Hq. pose proof (Z.div_le_mono p q M' HM ltac:(lia)). pose proof (Z.div_le_mono q (p + m - 1) M' HM ltac:(lia)). lia. }
  induction n as [|n IH]; intros p f q HM E Hq; [lia|]. cbn [entered].
  destruct (decide (q = p)) as [->|Hne].
  - rewrite entered_miss; [apply fn_lookup_insert|]. intros r Hr. apply Hinj; [done| |lia].
    symmetry. apply (Hblock M p (Z.of_nat (S n))); [done|done|lia].
  - rewrite IH.
    + rewrite fn_lookup_insert_ne; [done|]. apply Hinj; [done| |lia]. symmetry. by apply (Hblock M p (Z.of_nat (S n))).
    + done.
    + rewrite (Hblock M p (Z.of_nat (S n)) (p + 1)) by lia.
      symmetry. apply (Hblock M p (Z.of_nat (S n))); [done|done|lia].
    + lia.
Qed.

Lemma land_mask x k : 0 <= k -> Z.land x (2 ^ k - 1) = x mod 2 ^ k.
Proof. intros Hk. rewrite <- Z.land_ones by done. f_equal. rewrite Z.ones_equiv. lia. Qed.

Lemma rounds_step a stop : a < stop -> rounds a stop = S (rounds (a + 4096) stop).
Proof. intros H. unfold rounds, ARCH_PAGE_SIZE. Z.to_euclidean_division_equations; lia. Qed.
Lemma rounds_end a stop : stop <= a -> rounds a stop = O.
Proof. intros H. unfold rounds, ARCH_PAGE_SIZE. Z.to_euclidean_division_equations; lia. Qed.

Lemma page_loop_run table k v stop : 0 <= k -> stop <= 2 ^ 32 - 4096 -> forall n a s, 0 <= a -> n = rounds a stop ->
  page_loop n a stop (fun addr =>
    put_entry table (Z.land (Z.shiftr addr 12) (2 ^ k - 1)) (v (Z.shiftr addr 12))) s =
  Done (tt, set_tables (entered table (2 ^ k) v n (a / 4096) (tables s)) s).
Proof.
  intros Hk Hstop. induction n as [|n IH]; intros a s Ha Hn.
  - assert (stop <= a) by (destruct (Z.lt_ge_cases a stop) as [Hlt|]; [by rewrite (rounds_step _ _ Hlt) in Hn|done]).
    cbn [page_loop]. destruct (Z.ltb_spec a stop); [lia|]. by destruct s.
  - assert (Hlt : a < stop) by (destruct (Z.lt_ge_cases a stop) as [|Hge]; [done|by rewrite (rounds_end _ _ Hge) in Hn]).
    rewrite (rounds_step _ _ Hlt) in Hn. injection Hn as Hn. cbn [page_loop]. destruct (Z.ltb_spec a stop); [|lia].
    rewrite (run_bind_done _ _ _ tt _ eq_refl). unfold ARCH_PAGE_SIZE.
    rewrite u32_small by (unfold in_u32; lia). rewrite IH by (done || lia).
    rewrite land_mask by done. rewrite Z.shiftr_div_pow2 by lia. change (2 ^ 12) with 4096.
    replace ((a + 4096) / 4096) with (a / 4096 + 1) by (Z.to_euclidean_division_equations; lia). done.
Qed.


(** What an entry leads to. *)
Definition target (e : TableEntry) : option Z := if present e =? 0 then None else Some (pageAddr e).

Lemma target_entered table M v n p f i : 0 < M -> p + Z.of_nat n <= M * (p / M + 1) -> 0 <= i < M ->
  let q := i + M * (p / M) in
  target (entered table M v n p f (table + 4 * i)) =
    if (p <=? q) && (q <? p + Z.of_nat n) then Some (v q mod 2 ^ 20) else target (f (table + 4 * i)).
Proof.
  intros HM Hn Hi q. assert (Hq : q mod M = i) by (unfold q; rewrite (Z.mul_comm M), Z.mod_add, Z.mod_small by lia; done).
  pose proof (Z.div_mod p M ltac:(lia)) as Hp. pose proof (Z.mod_pos_bound p M HM).
  destruct (Z.leb_spec p q), (Z.ltb_spec q (p + Z.of_nat n)); cbn [andb];
    try (rewrite entered_miss; [done|]; intros r Hr E;
         assert (Er : r mod M = i) by lia; assert (r / M = p / M) by (symmetry; apply Z.div_unique with (r - M * (p / M)); lia);
         pose proof (Z.div_mod r M ltac:(lia)); lia).
  rewrite <- Hq at 1. rewrite entered_hit; [done|done| |lia].
  apply Z.div_unique with (p + Z.of_nat n - 1 - M * (p / M)); lia.
Qed.

Lemma entered_outside table M v n p f x : 0 < M -> ~ table <= x < table + 4 * M -> entered table M v n p f x = f x.
Proof. intros HM Hx. apply entered_miss. intros q _. pose proof (Z.mod_pos_bound q M HM). lia. Qed.

Lemma walk_through s va table : in_u32 table -> table mod 4096 = 0 ->
  (exists e, directory s (va / 2 ^ 22) = map_dir (Z.shiftr table 12) e) ->
  walk s va = (fun pa => pa * 4096 + va mod 4096) <$> target (tables s (table + 4 * (va / 4096 mod 1024))).
Proof.
  intros Ht Ha [e E]. unfold walk. rewrite E. cbn [d_present d_tableAddr map_dir Z.eqb].
  rewrite Z.shiftr_div_pow2 by lia. change (2 ^ 12) with 4096.
  assert (Et : (table / 4096) mod 2 ^ 20 * 4096 = table) by (unfold in_u32 in Ht; Z.to_euclidean_division_equations; lia).
  rewrite Et. unfold target. by destruct (_ =? 0).
Qed.

(** *** The tags *)

(** The tags and their addresses, from [p] on. *)
Fixpoint tag_list (tags : gmap Z tag) (p : Z) (l : list (Z * tag_body)) : Prop :=
  match l with
  | [] => p = 0
  | (a, b) :: l' => p = a /\ a <> 0 /\ exists t, tags !! a = Some t /\ body t = b /\ tag_list tags (u32 (next t)) l'
  end.
(** The length of the reclaimable memory that begins with a memory map tag. *)
Definition reclaimable (x : Z * tag_body) : option Z := match x.2 with MEMMAP es => find_reclaimable x.1 es | _ => None end.
Fixpoint info_length (l : list (Z * tag_body)) : option Z :=
  match l with
  | [] => None
  | x :: l' => match reclaimable x with Some n => Some n | None => info_length l' end
  end.

Lemma info_length_found tags l : forall fuel p, tag_list tags p l -> (length l <= fuel)%nat ->
  stage1GetBootInfoAddr tags fuel p =
    match info_length l with Some n => Done n | None => Panic "Error: Cannot detect bootloader info length!" end.
Proof.
  induction l as [|[a b] l IH]; intros fuel p Hp Hf; [cbn in Hp; subst; by destruct fuel|].
  destruct Hp as (-> & Ha & t & Et & <- & Hp). destruct fuel as [|fuel]; [cbn in Hf; lia|].
  cbn [stage1GetBootInfoAddr info_length]. destruct (Z.eqb_spec a 0); [done|]. rewrite Et. unfold reclaimable. cbn [fst snd].
  destruct (match body t with MEMMAP l0 => find_reclaimable a l0 | _ => None end); [done|].
  apply IH; [done|cbn in Hf; lia].
Qed.

(** ** The layout the linker script makes *)
Definition kernel_dir : Z := KERNEL_START / 2 ^ 22.
Definition own_table (t : Z) : Prop := in_u32 t /\ t mod 4096 = 0.
Record image_ok : Prop := {
  ok_low : own_table addr_lowMemoryPageTable; ok_boot : own_table addr_bootPageTable;
  ok_kernel : own_table addr_kernelPageTable; ok_kernel2 : in_u32 (addr_kernelPageTable + 4096);
  ok_distinct : NoDup [addr_lowMemoryPageTable; addr_bootPageTable; addr_kernelPageTable; addr_kernelPageTable + 4096];
  ok_early : 0 <= EARLY_KERNEL_END <= 2 ^ 22;
  ok_base : KERNEL_BASE mod 4096 = 0 /\ 0 <= KERNEL_BASE <= KERNEL_START;
  ok_end : KERNEL_END mod 4096 = 0 /\ KERNEL_START <= KERNEL_END <= (kernel_dir + 2) * 2 ^ 22;
  ok_dir : 0 < kernel_dir < 1022 /\ kernel_dir mod 2 = 0;
  ok_bss : 0 <= BSS_SIZE /\ 0 <= BSS_START;
}.

(** The information begins at a page, in one table that is not the kernel's. *)
Definition info_ok (first len : Z) : Prop :=
  in_u32 first /\ first mod 4096 = 0 /\ 0 < len /\ first / 2 ^ 22 = (first + len - 1) / 2 ^ 22 /\
  first / 2 ^ 22 < 1023 /\ first / 2 ^ 22 <> kernel_dir /\ first / 2 ^ 22 <> kernel_dir + 1.

(** The mapping: the boot loader's information, low memory and the kernel. *)
Definition pages_up (a : Z) : Z := (a + 4095) / 4096.
Definition early_map (first len va : Z) : option Z :=
  let p := va / 4096 in
  if (first / 4096 <=? p) && (p <? pages_up (first + len)) || (1 <=? p) && (p <? pages_up EARLY_KERNEL_END) then Some va
  else if (KERNEL_START / 4096 <=? p) && (p <? KERNEL_END / 4096) then Some (va - KERNEL_BASE)
  else None.

(** The tables are empty when stage 1 begins. *)
Definition zero_dir : DirectoryEntry := mkDirectoryEntry 0 0 0 0 0 0 0 0 0 0.
Definition cleared (s : early) : Prop := tables s = (fun _ => zero_entry) /\ directory s = (fun _ => zero_dir).


(** *** The three mappings *)
Definition kernel_frame (p : Z) : Z := u32 (p - Z.shiftr KERNEL_BASE 12).
Definition low_tables (f : Z -> TableEntry) : Z -> TableEntry :=
  entered addr_lowMemoryPageTable 1024 (fun p => p) (rounds 4096 EARLY_KERNEL_END) 1 f.
Definition kernel_tables (f : Z -> TableEntry) : Z -> TableEntry :=
  entered addr_kernelPageTable 2048 kernel_frame (rounds KERNEL_START KERNEL_END) (KERNEL_START / 4096) f.

Lemma put_dir_run i t s : 0 <= i < 1024 ->
  put_dir i t s = Done (tt, set_dirs (<[i := map_dir (Z.shiftr t 12) (directory s i)]> (directory s)) s).
Proof.
  intros Hi. unfold put_dir, ARCH_PAGE_DIR_ENTRIES. destruct (Z.leb_spec 0 i), (Z.ltb_spec i 1024); (lia || done).
Qed.

Lemma low_run s : image_ok -> stage1MapLowMemory s =
  Done (tt, set_tables (low_tables (tables s))
    (set_dirs (<[0 := map_dir (Z.shiftr addr_lowMemoryPageTable 12) (directory s 0)]> (directory s)) s)).
Proof.
  intros [_ _ _ _ _ He _ _ _ _]. unfold stage1MapLowMemory. rewrite (run_bind_done _ _ _ _ _ (put_dir_run 0 _ s ltac:(lia))).
  rewrite (page_loop_run addr_lowMemoryPageTable 10 (fun p => p) EARLY_KERNEL_END); [done|lia|lia|unfold ARCH_PAGE_SIZE; lia|done].
Qed.

(** The tables of the kernel, wherever it is. *)
Definition high_state (s : early) : early :=
  set_tables (kernel_tables (tables s)) (set_dirs
    (<[kernel_dir + 1 := map_dir (Z.shiftr (addr_kernelPageTable + 4096) 12) (directory s (kernel_dir + 1))]>
     (<[kernel_dir := map_dir (Z.shiftr addr_kernelPageTable 12) (directory s kernel_dir)]> (directory s))) s).
Lemma high_run_anywhere s : in_u32 (addr_kernelPageTable + 4096) -> 0 < kernel_dir < 1022 -> 0 <= KERNEL_START ->
  KERNEL_END <= 2 ^ 32 - 4096 -> stage1MapHighMemory s = Done (tt, high_state s).
Proof.
  intros Hk2 Hd Hb He. unfold stage1MapHighMemory.
  rewrite (Z.shiftr_div_pow2 KERNEL_START ARCH_PAGE_DIR_ENTRY_SHIFT) by done. change (KERNEL_START / 2 ^ ARCH_PAGE_DIR_ENTRY_SHIFT) with kernel_dir.
  rewrite (run_bind_done _ _ _ _ _ (put_dir_run kernel_dir _ s ltac:(lia))).
  rewrite (run_bind_done _ _ _ _ _ (put_dir_run (kernel_dir + 1) _ _ ltac:(lia))).
  rewrite u32_small by done. cbn [directory set_dirs]. rewrite fn_lookup_insert_ne by lia.
  change (Z.lor 0x400 ARCH_PAGE_TABLE_ENTRY_MASK) with (2 ^ 11 - 1).
  rewrite (page_loop_run addr_kernelPageTable 11 kernel_frame KERNEL_END); [done|lia|lia|lia|done].
Qed.
Lemma high_run s : image_ok -> stage1MapHighMemory s = Done (tt, high_state s).
Proof.
  intros [_ _ _ Hk2 _ _ Hb He Hd _]. apply high_run_anywhere; [done|lia|lia|]. unfold kernel_dir in *. lia.
Qed.

Lemma boot_run s first len tags fuel : info_ok first len -> stage1GetBootInfoAddr tags fuel first = Done len ->
  let bd := first / 2 ^ 22 in
  let mapped := negb (d_present (directory s bd) =? 0) in
  let table := if mapped then u32 (Z.shiftl (d_tableAddr (directory s bd)) 12) else addr_bootPageTable in
  stage1MapBootloader tags fuel first s =
  Done (tt, set_tables (entered table 1024 (fun p => p) (rounds first (first + len)) (first / 4096) (tables s))
    (if mapped then s else set_dirs (<[bd := map_dir (Z.shiftr addr_bootPageTable 12) (directory s bd)]> (directory s)) s)).
Proof.
  intros (Hf & Hal & Hlen & Hbd & Hlast & _) Hinfo bd mapped table. unfold stage1MapBootloader. rewrite u32_small by done.
  assert (Hend : first + len <= 2 ^ 32 - 4096).
  { pose proof (Z.div_mod (first + len - 1) (2 ^ 22)). pose proof (Z.mod_pos_bound (first + len - 1) (2 ^ 22)). lia. }
  assert (Hbdr : 0 <= bd < 1024) by (split; [apply Z.div_pos; [apply Hf|lia]|unfold bd; lia]).
  rewrite (Z.shiftr_div_pow2 first ARCH_PAGE_DIR_ENTRY_SHIFT) by done.
  change (first / 2 ^ ARCH_PAGE_DIR_ENTRY_SHIFT) with bd. rewrite (run_bind_done _ _ s (directory s bd) s) by done.
  set (s1 := if mapped then s else set_dirs (<[bd := map_dir (Z.shiftr addr_bootPageTable 12) (directory s bd)]> (directory s)) s).
  rewrite (run_bind_done _ _ s table s1).
  2: { unfold table, s1, mapped. destruct (negb _); [done|]. by rewrite (run_bind_done _ _ _ _ _ (put_dir_run bd _ s Hbdr)). }
  rewrite (run_bind_done _ _ s1 len s1) by (unfold kread; by rewrite Hinfo).
  unfold in_u32 in Hf. rewrite u32_small by (unfold in_u32; lia).
  change (ARCH_PAGE_TABLE_ENTRY_MASK) with (2 ^ 10 - 1).
  rewrite (page_loop_run table 10 (fun p => p) (first + len)); [|lia|lia|lia|done].
  f_equal. f_equal. f_equal. unfold s1. by destruct mapped.
Qed.

Lemma rounds_up a stop : 0 <= a -> a mod 4096 = 0 -> a <= stop -> a / 4096 + Z.of_nat (rounds a stop) = pages_up stop.
Proof. intros ? ? ?. unfold rounds, pages_up, ARCH_PAGE_SIZE. Z.to_euclidean_division_equations; lia. Qed.
Lemma rounds_aligned a stop : 0 <= a -> stop mod 4096 = 0 -> a <= stop -> a / 4096 + Z.of_nat (rounds a stop) = Z.max (a / 4096) (stop / 4096).
Proof. intros ? ? ?. unfold rounds, ARCH_PAGE_SIZE. Z.to_euclidean_division_equations; lia. Qed.
Lemma low_rounds : 0 <= EARLY_KERNEL_END -> 1 + Z.of_nat (rounds 4096 EARLY_KERNEL_END) = Z.max 1 (pages_up EARLY_KERNEL_END).
Proof. intros ?. unfold rounds, pages_up, ARCH_PAGE_SIZE. Z.to_euclidean_division_equations; lia. Qed.

(** *** What is mapped *)
Lemma dir_of_page x : x / 2 ^ 22 = x / 4096 / 1024.
Proof. by rewrite Z.div_div by lia. Qed.

Lemma table_of_dir t e : own_table t -> u32 (Z.shiftl (d_tableAddr (map_dir (Z.shiftr t 12) e)) 12) = t.
Proof.
  intros [Ht Ha]. cbn [d_tableAddr map_dir]. rewrite Z.shiftl_mul_pow2, Z.shiftr_div_pow2 by lia. change (2 ^ 12) with 4096.
  assert (Et : (t / 4096) mod 2 ^ 20 * 4096 = t) by (unfold in_u32 in Ht; Z.to_euclidean_division_equations; lia).
  rewrite Et. by apply u32_small.
Qed.

Lemma info_block first len : info_ok first len ->
  first / 4096 + Z.of_nat (rounds first (first + len)) = pages_up (first + len) /\
  pages_up (first + len) <= 1024 * (first / 4096 / 1024 + 1).
Proof.
  intros (Hf & Hal & Hlen & Hbd & _). unfold in_u32 in Hf. split; [apply rounds_up; lia|].
  rewrite !dir_of_page in Hbd. unfold pages_up. Z.to_euclidean_division_equations; lia.
Qed.
Lemma kernel_block : image_ok ->
  KERNEL_START / 4096 + Z.of_nat (rounds KERNEL_START KERNEL_END) = Z.max (KERNEL_START / 4096) (KERNEL_END / 4096) /\
  KERNEL_END / 4096 <= 2048 * (KERNEL_START / 4096 / 2048 + 1) /\ 2 * (KERNEL_START / 4096 / 2048) = kernel_dir /\
  kernel_dir = KERNEL_START / 4096 / 1024.
Proof.
  intros [_ _ _ _ _ _ Hb He Hd _]. assert (Ek : kernel_dir = KERNEL_START / 4096 / 1024) by apply dir_of_page.
  split; [apply rounds_aligned; lia|]. rewrite Ek in *. clear Ek.
  split; [|split]; [Z.to_euclidean_division_equations; lia..|done].
Qed.

Lemma not_same_table t1 t2 i j : own_table t1 -> own_table t2 -> t1 <> t2 -> 0 <= i < 1024 -> 0 <= j < 1024 -> t1 + 4 * i <> t2 + 4 * j.
Proof. intros [_ H1] [_ H2] Hne Hi Hj. Z.to_euclidean_division_equations. lia. Qed.

Definition boot_tables (table first len : Z) (f : Z -> TableEntry) : Z -> TableEntry :=
  entered table 1024 (fun p => p) (rounds first (first + len)) (first / 4096) f.

Lemma boot_target table first len f i : info_ok first len -> 0 <= i < 1024 ->
  let q := i + 1024 * (first / 2 ^ 22) in
  target (boot_tables table first len f (table + 4 * i)) =
    if (first / 4096 <=? q) && (q <? pages_up (first + len)) then Some (q mod 2 ^ 20) else target (f (table + 4 * i)).
Proof.
  intros Hok Hi. destruct (info_block first len Hok) as [E1 E2]. cbv zeta. rewrite dir_of_page.
  unfold boot_tables. rewrite target_entered by lia. by rewrite E1.
Qed.
Lemma low_target f i : image_ok -> 0 <= i < 1024 ->
  target (low_tables f (addr_lowMemoryPageTable + 4 * i)) =
    if (1 <=? i) && (i <? pages_up EARLY_KERNEL_END) then Some (i mod 2 ^ 20) else target (f (addr_lowMemoryPageTable + 4 * i)).
Proof.
  intros [_ _ _ _ _ He _ _ _ _] Hi. pose proof (low_rounds ltac:(lia)) as E.
  assert (pages_up EARLY_KERNEL_END <= 1024) by (unfold pages_up; Z.to_euclidean_division_equations; lia).
  unfold low_tables. change (1 / 1024) with 0 in *. rewrite target_entered by (change (1 / 1024) with 0; lia).
  change (1 / 1024) with 0. rewrite E, Z.mul_0_r, Z.add_0_r.
  destruct (Z.leb_spec 1 i); [|done]. cbn [andb]. destruct (Z.ltb_spec i (Z.max 1 (pages_up EARLY_KERNEL_END))),
    (Z.ltb_spec i (pages_up EARLY_KERNEL_END)); (done || lia).
Qed.
Lemma kernel_target f j : image_ok -> 0 <= j < 2048 ->
  let q := j + 1024 * kernel_dir in
  target (kernel_tables f (addr_kernelPageTable + 4 * j)) =
    if (KERNEL_START / 4096 <=? q) && (q <? KERNEL_END / 4096) then Some (q - KERNEL_BASE / 4096)
    else target (f (addr_kernelPageTable + 4 * j)).
Proof.
  intros Hok Hj. destruct (kernel_block Hok) as (E1 & E2 & E3 & E4). cbv zeta.
  destruct Hok as [_ _ _ _ _ _ Hb He Hd _].
  assert (0 <= KERNEL_START / 4096) by (apply Z.div_pos; lia).
  assert (KERNEL_START / 4096 < 2048 * (KERNEL_START / 4096 / 2048 + 1)) by (Z.to_euclidean_division_equations; lia).
  unfold kernel_tables. rewrite target_entered by lia. rewrite E1.
  replace (j + 2048 * (KERNEL_START / 4096 / 2048)) with (j + 1024 * kernel_dir) by lia. set (q := j + 1024 * kernel_dir) in *.
  destruct (Z.leb_spec (KERNEL_START / 4096) q); [|done]. cbn [andb].
  destruct (Z.ltb_spec q (Z.max (KERNEL_START / 4096) (KERNEL_END / 4096))), (Z.ltb_spec q (KERNEL_END / 4096)); try (done || lia).
  f_equal. unfold kernel_frame. rewrite Z.shiftr_div_pow2 by lia. change (2 ^ 12) with 4096.
  assert (KERNEL_BASE / 4096 <= KERNEL_START / 4096) by (apply Z.div_le_mono; lia).
  assert (0 <= KERNEL_BASE / 4096) by (apply Z.div_pos; lia).
  assert (q < 2 ^ 20) by lia.
  rewrite u32_small by (unfold in_u32; lia). apply Z.mod_small. lia.
Qed.

(** The tables and the directory that stage 1 leaves. *)
Definition stage1_tables (first len : Z) : Z -> TableEntry :=
  boot_tables (if first / 2 ^ 22 =? 0 then addr_lowMemoryPageTable else addr_bootPageTable) first len
    (kernel_tables (low_tables (fun _ => zero_entry))).
Definition stage1_directory (first : Z) : Z -> DirectoryEntry :=
  let enter i t (d : Z -> DirectoryEntry) := <[i := map_dir (Z.shiftr t 12) (d i)]> d in
  let d := enter (kernel_dir + 1) (addr_kernelPageTable + 4096) (enter kernel_dir addr_kernelPageTable
             (enter 0 addr_lowMemoryPageTable (fun _ => zero_dir))) in
  if first / 2 ^ 22 =? 0 then d else enter (first / 2 ^ 22) addr_bootPageTable d.

Lemma stage1_mapped tags fuel first len s : image_ok -> info_ok first len -> cleared s ->
  stage1GetBootInfoAddr tags fuel first = Done len ->
  (stage1MapLowMemory ;; stage1MapHighMemory ;; stage1MapBootloader tags fuel first) s =
    Done (tt, set_tables (stage1_tables first len) (set_dirs (stage1_directory first) s)).
Proof.
  intros Hok Hinfo [Ht Hd] Hlen. rewrite (run_bind_done _ _ _ _ _ (low_run s Hok)), (run_bind_done _ _ _ _ _ (high_run _ Hok)).
  rewrite (boot_run _ first len tags fuel Hinfo Hlen). unfold high_state. cbn [tables directory set_tables set_dirs]. rewrite Ht, Hd. unfold stage1_tables, stage1_directory.
  destruct Hinfo as (_ & _ & _ & _ & _ & Hn1 & Hn2). assert (Hd0 := ok_dir Hok).
  cbn [directory set_tables set_dirs tables]. set (bd := first / 2 ^ 22) in *.
  rewrite !(fn_lookup_insert_ne _ (kernel_dir + 1) bd), !(fn_lookup_insert_ne _ kernel_dir bd) by done.
  rewrite (fn_lookup_insert_ne _ kernel_dir (kernel_dir + 1)), (fn_lookup_insert_ne _ 0 kernel_dir), (fn_lookup_insert_ne _ 0 (kernel_dir + 1)) by lia.
  destruct (Z.eqb_spec bd 0) as [E|E].
  - rewrite E, fn_lookup_insert. cbn [d_present map_dir Z.eqb negb].
    rewrite (table_of_dir addr_lowMemoryPageTable) by apply (ok_low Hok). done.
  - rewrite (fn_lookup_insert_ne _ 0 bd) by done. done.
Qed.

Lemma tables_apart : image_ok ->
  addr_lowMemoryPageTable <> addr_bootPageTable /\ addr_lowMemoryPageTable <> addr_kernelPageTable /\
  addr_lowMemoryPageTable <> addr_kernelPageTable + 4096 /\ addr_bootPageTable <> addr_kernelPageTable /\
  addr_bootPageTable <> addr_kernelPageTable + 4096.
Proof.
  intros Hok. pose proof (ok_distinct Hok) as H. rewrite !NoDup_cons, !not_elem_of_cons in H. naive_solver.
Qed.

(** The areas of the tables do not touch. *)
Lemma table_areas : image_ok -> forall i, 0 <= i < 1024 ->
  (~ addr_kernelPageTable <= addr_lowMemoryPageTable + 4 * i < addr_kernelPageTable + 4 * 2048) /\
  (~ addr_bootPageTable <= addr_lowMemoryPageTable + 4 * i < addr_bootPageTable + 4 * 1024) /\
  (~ addr_kernelPageTable <= addr_bootPageTable + 4 * i < addr_kernelPageTable + 4 * 2048) /\
  (~ addr_lowMemoryPageTable <= addr_bootPageTable + 4 * i < addr_lowMemoryPageTable + 4 * 1024) /\
  (forall j, 0 <= j < 2048 ->
    ~ addr_lowMemoryPageTable <= addr_kernelPageTable + 4 * j < addr_lowMemoryPageTable + 4 * 1024) /\
  (forall j, 0 <= j < 2048 -> ~ addr_bootPageTable <= addr_kernelPageTable + 4 * j < addr_bootPageTable + 4 * 1024).
Proof.
  intros Hok i Hi. destruct (tables_apart Hok) as (N1 & N2 & N3 & N4 & N5).
  destruct Hok as [[_ A1] [_ A2] [_ A3] _ _ _ _ _ _ _].
  apply Z.mod_divide in A1 as [a Ea], A2 as [b Eb], A3 as [c Ec]; [|lia..]. rewrite Ea, Eb, Ec in *.
  repeat split; try intros j Hj; lia.
Qed.

(** The pages that are mapped to themselves. *)
Definition identity_page (first len p : Z) : bool :=
  (first / 4096 <=? p) && (p <? pages_up (first + len)) || (1 <=? p) && (p <? pages_up EARLY_KERNEL_END).
Definition kernel_page (p : Z) : bool := (KERNEL_START / 4096 <=? p) && (p <? KERNEL_END / 4096).

Lemma pages_in_place first len p : image_ok -> info_ok first len ->
  ((first / 4096 <=? p) && (p <? pages_up (first + len)) = true -> p / 1024 = first / 2 ^ 22) /\
  ((1 <=? p) && (p <? pages_up EARLY_KERNEL_END) = true -> p / 1024 = 0) /\
  (kernel_page p = true -> p / 1024 = kernel_dir \/ p / 1024 = kernel_dir + 1).
Proof.
  intros Hok Hinfo. destruct (info_block first len Hinfo) as [_ H1]. destruct (kernel_block Hok) as (_ & H2 & H3 & H4).
  pose proof (ok_early Hok) as He. unfold kernel_page. rewrite !andb_true_iff, !Z.leb_le, !Z.ltb_lt, dir_of_page.
  split; [|split]; intros [Hl Hr].
  - pose proof (Z.div_le_mono (first / 4096) p 1024). symmetry. apply Z.div_unique with (p - 1024 * (first / 4096 / 1024));
    pose proof (Z.div_mod (first / 4096) 1024); pose proof (Z.mod_pos_bound (first / 4096) 1024); lia.
  - assert (pages_up EARLY_KERNEL_END <= 1024) by (unfold pages_up; Z.to_euclidean_division_equations; lia). apply Z.div_small. lia.
  - pose proof (Z.div_le_mono (KERNEL_START / 4096) p 1024 ltac:(lia) Hl).
    assert (p / 1024 < kernel_dir + 2) by (apply Z.div_lt_upper_bound; lia). lia.
Qed.

Lemma stage1_directory_at first d : image_ok -> first / 2 ^ 22 <> kernel_dir -> first / 2 ^ 22 <> kernel_dir + 1 ->
  stage1_directory first d =
    if d =? kernel_dir then map_dir (Z.shiftr addr_kernelPageTable 12) zero_dir
    else if d =? kernel_dir + 1 then map_dir (Z.shiftr (addr_kernelPageTable + 4096) 12) zero_dir
    else if d =? 0 then map_dir (Z.shiftr addr_lowMemoryPageTable 12) zero_dir
    else if d =? first / 2 ^ 22 then map_dir (Z.shiftr addr_bootPageTable 12) zero_dir
    else zero_dir.
Proof.
  intros Hok H1 H2. assert (Hd := ok_dir Hok). unfold stage1_directory. set (bd := first / 2 ^ 22) in *.
  destruct (Z.eqb_spec d kernel_dir) as [->|N1]; [|destruct (Z.eqb_spec d (kernel_dir + 1)) as [->|N2];
    [|destruct (Z.eqb_spec d 0) as [->|N3]; [|destruct (Z.eqb_spec d bd) as [->|N4]]]]; destruct (Z.eqb_spec bd 0); try lia;
    rewrite ?fn_lookup_insert; repeat (rewrite fn_lookup_insert_ne by lia; rewrite ?fn_lookup_insert); done.
Qed.

(** The state after the three mappings; [s] is what else there is. *)
Definition mapped_state (first len : Z) (s : early) : early :=
  set_tables (stage1_tables first len) (set_dirs (stage1_directory first) s).

Lemma walk_table first len s va table : own_table table ->
  stage1_directory first (va / 2 ^ 22) = map_dir (Z.shiftr table 12) zero_dir ->
  walk (mapped_state first len s) va =
    (fun pa => pa * 4096 + va mod 4096) <$> target (stage1_tables first len (table + 4 * (va / 4096 mod 1024))).
Proof. intros [Ho1 Ho2] E. rewrite (walk_through _ va table); [done..|]. by exists zero_dir. Qed.

Lemma walk_kernel first len s va : image_ok -> info_ok first len ->
  let p := va / 4096 in
  p / 1024 = kernel_dir \/ p / 1024 = kernel_dir + 1 ->
  walk (mapped_state first len s) va =
    if kernel_page p then Some ((p - KERNEL_BASE / 4096) * 4096 + va mod 4096) else None.
Proof.
  intros Hok Hinfo p Hk. assert (Ed : va / 2 ^ 22 = p / 1024) by apply dir_of_page.
  pose proof (Z.mod_pos_bound p 1024 ltac:(lia)) as Hi. pose proof (Z.div_mod p 1024 ltac:(lia)) as Hp.
  destruct (table_areas Hok (p mod 1024) Hi) as (_ & _ & _ & _ & D5 & D6).
  assert (Hbd : first / 2 ^ 22 <> kernel_dir /\ first / 2 ^ 22 <> kernel_dir + 1) by apply Hinfo.
  assert (Hdir := stage1_directory_at first (p / 1024) Hok (proj1 Hbd) (proj2 Hbd)). rewrite <- Ed in Hdir.
  set (j := p mod 1024 + 1024 * (p / 1024 - kernel_dir)). assert (Hj : 0 <= j < 2048) by lia.
  assert (Ew : walk (mapped_state first len s) va =
    (fun pa => pa * 4096 + va mod 4096) <$> target (stage1_tables first len (addr_kernelPageTable + 4 * j))).
  { rewrite Ed in Hdir. unfold j. destruct Hk as [E|E]; rewrite E in Hdir |- *.
    - rewrite Z.eqb_refl in Hdir. rewrite (walk_table _ _ _ _ _ (ok_kernel Hok)); [|by rewrite Ed, E]. fold p. do 4 f_equal. lia.
    - rewrite (proj2 (Z.eqb_neq _ _)), Z.eqb_refl in Hdir by lia.
      rewrite (walk_table _ _ _ _ (addr_kernelPageTable + 4096)); [fold p; do 3 f_equal; lia| |by rewrite Ed, E].
      split; [apply (ok_kernel2 Hok)|]. destruct (ok_kernel Hok) as [_ Ha]. Z.to_euclidean_division_equations; lia. }
  rewrite Ew. unfold stage1_tables, boot_tables.
  rewrite entered_outside by (lia || (destruct (first / 2 ^ 22 =? 0); [by apply D5|by apply D6])). rewrite (kernel_target _ j Hok Hj).
  replace (j + 1024 * kernel_dir) with p by lia. unfold kernel_page. destruct ((KERNEL_START / 4096 <=? p) && _); [done|].
  unfold low_tables. by rewrite entered_outside by (lia || by apply D5).
Qed.

Lemma walk_low_or_info first len s va : image_ok -> info_ok first len ->
  let p := va / 4096 in
  p / 1024 <> kernel_dir -> p / 1024 <> kernel_dir + 1 ->
  walk (mapped_state first len s) va = if identity_page first len p then Some (p mod 2 ^ 20 * 4096 + va mod 4096) else None.
Proof.
  intros Hok Hinfo p Hk1 Hk2. assert (Ed : va / 2 ^ 22 = p / 1024) by apply dir_of_page.
  pose proof (Z.mod_pos_bound p 1024 ltac:(lia)) as Hi. pose proof (Z.div_mod p 1024 ltac:(lia)) as Hp.
  destruct (pages_in_place first len p Hok Hinfo) as (P1 & P2 & _).
  destruct (table_areas Hok (p mod 1024) Hi) as (D1 & D2 & D3 & D4 & _ & _).
  assert (Hbd : first / 2 ^ 22 <> kernel_dir /\ first / 2 ^ 22 <> kernel_dir + 1) by apply Hinfo.
  assert (Hdir := stage1_directory_at first (p / 1024) Hok (proj1 Hbd) (proj2 Hbd)).
  rewrite (proj2 (Z.eqb_neq _ _) Hk1), (proj2 (Z.eqb_neq _ _) Hk2) in Hdir. rewrite <- Ed in Hdir at 1. unfold identity_page.
  set (f := kernel_tables (low_tables (fun _ => zero_entry))).
  assert (Elow : target (f (addr_lowMemoryPageTable + 4 * (p mod 1024))) =
    if (1 <=? p mod 1024) && (p mod 1024 <? pages_up EARLY_KERNEL_END) then Some ((p mod 1024) mod 2 ^ 20) else None).
  { unfold f, kernel_tables. rewrite entered_outside by (lia || done). by rewrite low_target. }
  assert (Eboot : target (f (addr_bootPageTable + 4 * (p mod 1024))) = None).
  { unfold f, kernel_tables, low_tables. by rewrite !entered_outside by (lia || done). }
  destruct (Z.eqb_spec (p / 1024) 0) as [E1|E1].
  - rewrite (walk_table _ _ _ _ _ (ok_low Hok) Hdir). fold p. replace (p mod 1024) with p in * by lia. unfold stage1_tables. fold f.
    destruct (Z.eqb_spec (first / 2 ^ 22) 0) as [E0|E0].
    + rewrite boot_target by (done || lia). rewrite E0, Z.mul_0_r, Z.add_0_r, Elow.
      destruct ((first / 4096 <=? p) && _); [done|]. cbn [orb]. by destruct ((1 <=? p) && _).
    + unfold boot_tables. rewrite entered_outside by (lia || done). rewrite Elow.
      destruct ((first / 4096 <=? p) && _); [specialize (P1 eq_refl); lia|]. cbn [orb]. by destruct ((1 <=? p) && _).
  - destruct ((1 <=? p) && _); [specialize (P2 eq_refl); lia|]. rewrite orb_false_r.
    destruct (Z.eqb_spec (p / 1024) (first / 2 ^ 22)) as [E2|E2].
    + rewrite (walk_table _ _ _ _ _ (ok_boot Hok) Hdir). fold p. unfold stage1_tables. fold f.
      destruct (Z.eqb_spec (first / 2 ^ 22) 0); [lia|]. rewrite boot_target by (done || lia). rewrite Eboot.
      replace (p mod 1024 + 1024 * (first / 2 ^ 22)) with p by lia. by destruct ((first / 4096 <=? p) && _).
    + destruct ((first / 4096 <=? p) && _); [specialize (P1 eq_refl); lia|].
      unfold walk, mapped_state. cbn [directory set_tables set_dirs]. by rewrite Hdir.
Qed.

(** The walk finds the information, low memory and the kernel, and no more. *)
Lemma walk_mapped first len s va : image_ok -> info_ok first len -> in_u32 va ->
  walk (mapped_state first len s) va = early_map first len va.
Proof.
  intros Hok Hinfo Hva. destruct (pages_in_place first len (va / 4096) Hok Hinfo) as (P1 & P2 & P3). unfold early_map.
  change ((first / 4096 <=? va / 4096) && _ || _) with (identity_page first len (va / 4096)).
  change ((KERNEL_START / 4096 <=? va / 4096) && _) with (kernel_page (va / 4096)).
  pose proof (Z.div_mod va 4096 ltac:(lia)) as Ev. pose proof (Z.mod_pos_bound va 4096 ltac:(lia)) as Hm.
  assert (Hp : 0 <= va / 4096 < 2 ^ 20) by (unfold in_u32 in Hva; lia).
  destruct (decide (va / 4096 / 1024 = kernel_dir \/ va / 4096 / 1024 = kernel_dir + 1)) as [Hk|Hk].
  - rewrite (walk_kernel first len s va Hok Hinfo Hk). assert (Hd := ok_dir Hok).
    assert (Hid : identity_page first len (va / 4096) = false).
    { destruct Hinfo as (_ & _ & _ & _ & _ & ? & ?).
      unfold identity_page. apply orb_false_iff. split; apply not_true_is_false; intros Hx; [apply P1 in Hx|apply P2 in Hx]; lia. }
    rewrite Hid. destruct (kernel_page _); [|done]. f_equal.
    destruct (ok_base Hok) as [Hb _]. pose proof (Z.div_mod KERNEL_BASE 4096 ltac:(lia)). lia.
  - rewrite (walk_low_or_info first len s va Hok Hinfo) by tauto.
    assert (Hkp : kernel_page (va / 4096) = false) by (apply not_true_is_false; intros H%P3; lia). rewrite Hkp.
    destruct (identity_page _ _ _); [|done]. f_equal. rewrite Z.mod_small by done. lia.
Qed.

(** *** Paging, and the jump *)
Lemma CR0_paging x : in_u32 x -> CR0_word (set_pagingEnable 1 (word_CR0 x)) = Z.lor x (2 ^ 31).
Proof.
  intros Hx. transitivity (x mod 2 ^ 31 + 2 ^ 31).
  - unfold CR0_word, word_CR0, CR0_widths. cbn [unpack set_pagingEnable pack protectedMode monitorCoProcessor emulation taskSwitched
      extensionType numericError reservedA writeProtection reservedB alignmentMask reservedC nonWriteThrough cr0_cacheDisable pagingEnable_].
    change (2 ^ 1) with 2. change (2 ^ 10) with 1024. change (2 ^ 31) with 2147483648. unfold in_u32 in Hx.
    rewrite !Z.mod_mod by lia. rewrite !Z.div_div by lia. cbn [Z.mul Pos.mul].
    Z.to_euclidean_division_equations; lia.
  - apply Z.bits_inj'. intros i Hi. rewrite Z.lor_spec.
    destruct (decide (i < 31)) as [Hl|Hl]; [|destruct (decide (i = 31)) as [->|]].
    + rewrite (Z.pow2_bits_false 31) by lia. rewrite orb_false_r. rewrite <- (Z.mod_pow2_bits_low (_ + 2 ^ 31) 31) by lia.
      rewrite <- (Z.mul_1_l (2 ^ 31)) at 2. rewrite Z.mod_add, Z.mod_mod by lia. by rewrite Z.mod_pow2_bits_low by lia.
    + rewrite Z.pow2_bits_true by lia. rewrite orb_true_r. apply Z.testbit_true; [lia|].
      rewrite <- (Z.mul_1_l (2 ^ 31)) at 2. rewrite Z.div_add by lia. rewrite Z.div_small by (apply Z.mod_pos_bound; lia). done.
    + rewrite Z.pow2_bits_false by lia. rewrite orb_false_r. pose proof (Z.mod_pos_bound x (2 ^ 31)).
      rewrite !(testbit_above 32); (done || lia || (unfold in_u32 in Hx; lia)).
Qed.

Lemma clear_bss n : forall p m, mapped m p (Z.of_nat n) ->
  exists m', kfor n 0 1 (fun i => store (p + i) 0) m = Done (tt, m') /\
    forall a, m' !! a = if (p <=? a) && (a <? p + Z.of_nat n) then Some 0 else m !! a.
Proof.
  intros p m Hm. destruct (kfor_inv (fun i m' => mapped m' p (Z.of_nat n) /\
    forall a, m' !! a = if (p <=? a) && (a <? p + i) then Some 0 else m !! a) n 0 1 (fun i => store (p + i) 0) m) as (m' & E & _ & H).
  - split; [done|]. intros a. destruct (Z.leb_spec p a), (Z.ltb_spec a (p + 0)); (lia || done).
  - intros k m' Hk [Hm' H]. rewrite Z.mul_1_r, Z.add_0_l in *. exists (<[p + k := 0]> m'). split; [apply store_run, Hm'; lia|]. split.
    + intros a Ha. destruct (decide (a = p + k)) as [->|]; [rewrite lookup_insert_eq; by eexists|]. rewrite lookup_insert_ne by done. by apply Hm'.
    + intros a. destruct (decide (a = p + k)) as [->|Hne].
      * rewrite lookup_insert_eq. destruct (Z.leb_spec p (p + k)), (Z.ltb_spec (p + k) (p + (0 + (k + 1) * 1))); (lia || done).
      * rewrite lookup_insert_ne, H by done. destruct (Z.leb_spec p a), (Z.ltb_spec a (p + k)), (Z.ltb_spec a (p + (0 + (k + 1) * 1))); (lia || done).
  - exists m'. split; [done|]. intros a. rewrite H. by rewrite Z.add_0_l, Z.mul_1_r.
Qed.

Lemma boot_panics tags fuel first s msg : in_u32 first -> stage1GetBootInfoAddr tags fuel first = Panic msg ->
  stage1MapBootloader tags fuel first s = Panic msg.
Proof.
  intros Hf E. unfold stage1MapBootloader. rewrite u32_small by done.
  rewrite (Z.shiftr_div_pow2 first ARCH_PAGE_DIR_ENTRY_SHIFT) by done.
  assert (Hd : 0 <= first / 2 ^ ARCH_PAGE_DIR_ENTRY_SHIFT < 1024).
  { unfold in_u32 in Hf. change (2 ^ ARCH_PAGE_DIR_ENTRY_SHIFT) with 4194304. Z.to_euclidean_division_equations; lia. }
  set (bd := first / 2 ^ ARCH_PAGE_DIR_ENTRY_SHIFT) in *. rewrite (run_bind_done _ _ s (directory s bd) s) by done.
  assert (Hrest : forall t s', (stivale2InfoLength ← kread (fun _ : early => stage1GetBootInfoAddr tags fuel first) ;
     page_loop (rounds first (u32 (first + stivale2InfoLength))) first (u32 (first + stivale2InfoLength)) (fun addr =>
       put_entry t (Z.land (Z.shiftr addr ARCH_PAGE_TABLE_ENTRY_SHIFT) ARCH_PAGE_TABLE_ENTRY_MASK)
         (Z.shiftr addr ARCH_PAGE_TABLE_ENTRY_SHIFT))) s' = Panic msg).
  { intros t s'. rewrite run_bind. unfold kread. by rewrite E. }
  destruct (negb (d_present (directory s bd) =? 0)).
  - apply Hrest.
  - rewrite run_bind, (run_bind_done _ _ _ _ _ (put_dir_run bd addr_bootPageTable s Hd)). apply Hrest.
Qed.

(** C13. Stage 1 on tables the boot loader has cleared, for every list of tags:
    it goes on to stage 2 with paging switched on, its two arguments on the new
    stack and the BSS cleared, and the processor then finds exactly the boot
    loader's information and low memory (but for page 0) at their own addresses
    and the kernel's pages below [KERNEL_BASE]; or it panics, if it got no
    information or if no memory map begins with reclaimable memory. *)
Theorem stage1_maps_kernel tags fuel info first l s :
  image_ok -> cleared s -> in_u32 (early_cr0 s) -> mapped (early_memory s) BSS_START BSS_SIZE ->
  tag_list tags (u32 first) l -> (length l <= fuel)%nat ->
  let run i := stage1Entry tags fuel i first s in
  run 0 = Panic "Error: Missing bootloader information!" /\
  (info <> 0 -> info_length l = None -> run info = Panic "Error: Cannot detect bootloader info length!") /\
  (info <> 0 -> forall len, info_length l = Some len -> info_ok (u32 first) len ->
   exists s', run info = Done ((u32 (addr_stage2Stack_end - 12), [0; info; STIVALE2_MAGIC]), s') /\
     (forall va, in_u32 va -> walk s' va = early_map (u32 first) len va) /\
     early_cr3 s' = addr_directory /\ early_cr0 s' = Z.lor (early_cr0 s) (2 ^ 31) /\
     forall a, early_memory s' !! a = if (BSS_START <=? a) && (a <? BSS_START + BSS_SIZE) then Some 0 else early_memory s !! a).
Proof.
  intros Hok Hs Hcr Hbss Hl Hf run. assert (Hlen := info_length_found tags l fuel (u32 first) Hl Hf).
  unfold run, stage1Entry. split; [done|].
  assert (Hfirst : forall s', stage1MapBootloader tags fuel first s' = stage1MapBootloader tags fuel (u32 first) s').
  { intros s'. unfold stage1MapBootloader. by rewrite (u32_small (u32 first)) by apply u32_range. }
  split.
  - intros Hi Hn. destruct (Z.eqb_spec info 0); [done|]. rewrite Hn in Hlen.
    rewrite (run_bind_done _ _ _ _ _ (low_run s Hok)), (run_bind_done _ _ _ _ _ (high_run _ Hok)), run_bind, Hfirst.
    by rewrite (boot_panics _ _ _ _ _ (u32_range first) Hlen).
  - intros Hi len Hn Hinfo. destruct (Z.eqb_spec info 0); [done|]. rewrite Hn in Hlen.
    assert (E := stage1_mapped tags fuel (u32 first) len s Hok Hinfo Hs Hlen).
    rewrite (run_bind_done _ _ _ _ _ (low_run s Hok)), (run_bind_done _ _ _ _ _ (high_run _ Hok)) in E.
    rewrite (run_bind_done _ _ _ _ _ (low_run s Hok)), (run_bind_done _ _ _ _ _ (high_run _ Hok)).
    rewrite (run_bind_done _ _ _ tt (mapped_state (u32 first) len s)) by by rewrite Hfirst.
    rewrite (run_bind_done _ _ _ tt _ eq_refl). destruct (ok_bss Hok) as [Hb1 Hb2].
    destruct (clear_bss (Z.to_nat BSS_SIZE) BSS_START (early_memory s)) as (m' & Em & Hm); [by rewrite Z2Nat.id|].
    eexists. split; [|split; [|split; [|split]]].
    + unfold stage1JumpToStage2. rewrite run_bind. unfold kzoom. cbn [early_memory mapped_state set_tables set_dirs]. rewrite Em. reflexivity.
    + intros va Hva. rewrite <- (walk_mapped (u32 first) len s va Hok Hinfo Hva). reflexivity.
    + reflexivity.
    + apply (CR0_paging _ Hcr).
    + intros a. cbn [early_memory]. rewrite Hm. by rewrite Z2Nat.id.
Qed.
End stage1.

(** ** The panic of stage 1 (EarlyPanic.cpp) *)
Definition TTY_WIDTH : Z := 80.
Definition TTY_HEIGHT : Z := 25.
Definition BIOS_Black : Z := 0.
Definition BIOS_Red : Z := 4.
Definition BIOS_White : Z := 15.
Definition VGA_COLOR (bg fg : Z) : Z := u16 (Z.lor (Z.shiftl bg 4) (Z.land fg 0xF)).
Definition VGA_CHAR (c co : Z) : Z := u16 (Z.lor c (Z.shiftl co 8)).

(** The words of the text buffer, by their index. *)
Fixpoint early_text (str : list Z) (x y : Z) (screen : gmap Z Z) : gmap Z Z :=
  match str with
  | [] => screen
  | c :: str' =>
      if c =? 10 then early_text str' 0 (y + 1) screen
      else early_text str' (x + 1) y (<[y * TTY_WIDTH + x := VGA_CHAR (s8 c) (VGA_COLOR BIOS_Red BIOS_White)]> screen)
  end.
Definition early_clear : gmap Z Z := foldr (fun i m =>
  foldr (fun j m => <[j * TTY_WIDTH + i := VGA_CHAR 32 (VGA_COLOR BIOS_Black BIOS_White)]> m) m (seqZ 0 TTY_HEIGHT)) ∅ (seqZ 0 TTY_WIDTH).
Definition EarlyPanic (str : list Z) : gmap Z Z := early_text str 0 0 early_clear.

(** A short message is on the first line of the screen, and the rest is blank. *)
Lemma early_text_spec str : forall x y screen, Forall (fun c => c <> 10) str ->
  forall i, early_text str x y screen !! i =
    if decide (y * 80 + x <= i < y * 80 + x + Z.of_nat (length str))
    then (fun c => VGA_CHAR (s8 c) (VGA_COLOR BIOS_Red BIOS_White)) <$> str !! Z.to_nat (i - (y * 80 + x)) else screen !! i.
Proof.
  induction str as [|c str IH]; intros x y screen Hs i; cbn [early_text length].
  - by rewrite decide_False by lia.
  - apply Forall_cons in Hs as [Hc Hs]. destruct (Z.eqb_spec c 10); [done|]. rewrite IH by done. unfold TTY_WIDTH.
    destruct (decide (i = y * 80 + x)) as [->|Hne].
    + rewrite decide_False, decide_True by lia. rewrite lookup_insert_eq. by rewrite Z.sub_diag.
    + rewrite lookup_insert_ne by done. repeat case_decide; try lia; [|done].
      replace (Z.to_nat (i - (y * 80 + x))) with (S (Z.to_nat (i - (y * 80 + (x + 1))))) by lia. done.
Qed.

(** ** An image like the one the linker makes *)
#[local] Instance demo_kernel : KernelImage := {|
  KERNEL_BASE := 0xC0000000; KERNEL_START := 0xC0110004; KERNEL_END := 0xC0600000; KERNEL_SIZE := 0x4EFFFC;
  EARLY_MEM_START := 0; EARLY_KERNEL_START := 0x100000; addr_pageDirectory := 0xC0200000; addr_pageTables := 0xC0201000 |}.
#[local] Instance demo_early : EarlyImage := {|
  EARLY_KERNEL_END := 0x110004; BSS_START := 0xC01F0000; BSS_SIZE := 3; addr_directory := 0x102000;
  addr_lowMemoryPageTable := 0x103000; addr_kernelPageTable := 0x104000; addr_bootPageTable := 0x106000;
  addr_stage2Stack_end := 0xC01F4000 |}.
Definition demo_info : gmap Z tag :=
  {[ 0x7F0000 := mkTag (MEMMAP [mkEntry 0x7F0000 0x3000 STIVALE2_MMAP_BOOTLOADER_RECLAIMABLE]) 0 ]}.
Definition early_start (m : memory) : early := mkEarly (fun _ => zero_entry) (fun _ => zero_dir) 0 0x11 m.
Definition demo_bss : memory := {[ 0xC01F0000 := 1; 0xC01F0001 := 2; 0xC01F0002 := 3 ]}.

Lemma demo_image_ok : image_ok.
Proof.
  split; try (split; (reflexivity || (vm_compute; repeat split; discriminate))); try (by repeat split).
  by apply (bool_decide_unpack _); vm_compute.
Qed.

Lemma stage1_maps_kernel_witness : exists s',
  stage1Entry demo_info 1 0x5000 0x7F0000 (early_start demo_bss) = Done ((0xC01F3FF4, [0; 0x5000; 0x73747632]), s') /\
  walk s' 0xC0123456 = Some 0x123456 /\ walk s' 0x7F1234 = Some 0x7F1234 /\ walk s' 0x10 = None /\ early_cr0 s' = 0x80000011.
Proof.
  destruct (stage1_maps_kernel demo_info 1 0x5000 0x7F0000 [(0x7F0000, MEMMAP [mkEntry 0x7F0000 0x3000 STIVALE2_MMAP_BOOTLOADER_RECLAIMABLE])]
    (early_start demo_bss)) as (_ & _ & H).
  - exact demo_image_ok.
  - split; reflexivity.
  - split; [discriminate|reflexivity].
  - apply mapped_by_test. reflexivity.
  - split; [reflexivity|]. split; [discriminate|]. eexists. split; [reflexivity|]. split; reflexivity.
  - reflexivity.
  - destruct (H ltac:(discriminate) 0x3000 eq_refl) as (s' & E & Hw & _ & Hcr & _).
    { repeat split; try reflexivity; discriminate. }
    exists s'. split; [exact E|]. rewrite !Hw by (split; [discriminate|reflexivity]). rewrite Hcr. repeat split; reflexivity.
Defined.

(** The linker allows a kernel of nearly 7 MiB; with the early section before it
    the kernel's end is behind the second table, whose index then starts again
    at the first entry: the last pages are not mapped, and they replace others. *)
Definition large_kernel : KernelImage := {|
  KERNEL_BASE := 0xC0000000; KERNEL_START := 0xC0110000; KERNEL_END := 0xC080F000; KERNEL_SIZE := 0x6FF000;
  EARLY_MEM_START := 0; EARLY_KERNEL_START := 0x100000; addr_pageDirectory := 0xC0200000; addr_pageTables := 0xC0201000 |}.
Lemma large_kernel_is_not_mapped :
  @KERNEL_SIZE large_kernel < 0x700000 /\
  exists s', @stage1MapHighMemory large_kernel demo_early (early_start ∅) = Done (tt, s') /\
    walk s' 0xC0123456 = Some 0x123456 /\ walk s' 0xC0800000 = None /\ walk s' 0xC0000000 = Some 0x800000.
Proof.
  split; [reflexivity|]. exists (@high_state large_kernel demo_early (early_start ∅)).
  split; [apply high_run_anywhere; by repeat split|]. split; [|split]; vm_compute; reflexivity.
Qed.
