(* ===== verification/Panics.v ===== *)
(** * Panics (Panic.cpp, Stacktrace.cpp, Arch/i686/Arch.cpp, stdio.hpp)

    What is printed before the kernel halts: a cow, the message, what the
    processor says about an exception, its registers and a trace of the stack.
    The text goes to the serial line and to the console.  What is needed of
    the two is the interface [Terminal]: Serial.v provides one here, Console.v
    the other in PanicScreen.v. *)
From S2P Require Import Prelude Words KString Printf Display Console Interrupts Logging Serial.
From Stdlib Require Import ZArith Lia Bool Ascii.
From stdpp Require Import base strings numbers gmap list.
#[local] Open Scope Z_scope.

(** ** Registers *)
Record registers := mkRegisters {
  ds : Z; edi : Z; esi : Z; ebp : Z; ignored : Z; ebx : Z; edx : Z; ecx : Z; eax : Z;
  int_num : Z; err_code : Z; eip : Z; cs : Z; eflags : Z; esp : Z; ss : Z
}.

Definition nl : string := Logger.newline.
Definition red (name : string) : string := (Logger.esc "[31m" ++ name ++ ":" ++ Logger.esc "[0m 0x%08X")%string.
Definition register_format : string :=
  (red " DS" ++ nl ++
   red "EDI" ++ " " ++ red "ESI" ++ " " ++ red "EBP" ++ " " ++ red "ESP" ++ nl ++
   red "EAX" ++ " " ++ red "EBX" ++ " " ++ red "ECX" ++ " " ++ red "EDX" ++ nl ++
   red "ERR" ++ " " ++ red "EIP" ++ " " ++ red " CS" ++ nl ++
   red "FLG" ++ " " ++ red " SS" ++ nl ++ nl)%string.
Definition register_args (r : registers) : list Z :=
  [ds r; edi r; esi r; ebp r; esp r; eax r; ebx r; ecx r; edx r; err_code r; eip r; cs r; eflags r; ss r].

Definition exceptionStrings : list string :=
  ["Divide-By-Zero"; "Debugging"; "Non-Maskable Interrupt"; "Breakpoint";
   "Overflow"; "Bound Range Exceeded"; "Invalid Opcode"; "Device Not Available";
   "Double Fault"; "Coprocessor Overrun"; "Invalid TSS"; "Segment Not Present";
   "Segmentation Fault"; "Protection Fault"; "Page Fault"; "RESERVED";
   "Floating Point Exception"; "Alignment Check"; "Machine Check"; "SIMD Floating Point Exception";
   "Virtualization Exception"; "RESERVED"; "RESERVED"; "RESERVED";
   "RESERVED"; "RESERVED"; "RESERVED"; "RESERVED";
   "RESERVED"; "Security Exception"; "RESERVED"; "Triple Fault"; "FPU Error"]%string.
Definition EXCEPTION_PAGE_FAULT : Z := 0xE.

(** The words about a page fault. *)
Definition fault_words (err : Z) : list string :=
  let missing := Z.land err 0x1 in
  let rw := Z.land err 0x2 in
  let us := Z.land err 0x4 in
  let reserved := Z.land err 0x8 in
  let word b yes no : string := if negb (b =? 0) then yes else no in
  [word missing "missing" "present"; word rw "reading" "writing"; word us "user-mode" "kernel";
   word reserved "reserved" "available"]%string.

Definition exception_format : string := ("Exception: %lu (%s)" ++ nl ++ nl)%string.
Definition error_format_text : string := "Error code: ".
Definition error_format : string := (error_format_text ++ "%lu")%string.
Definition fault_format : string := ("Page fault at 0x%08lX [ %s %s %s %s ] (id -> %i)" ++ nl)%string.

(** ** The cow *)
Definition funnyMessagesForMoo : list string :=
  ["Oh, it’s you. It’s been a long time." ++ nl ++ "How have you been?";
   "Sorry, I accidentally let the magic smoke out.";
   "Not sure how we got here, but here we are.";
   "Whatever you just did, don't do it again.";
   "Something udderly terrible happened!";
   "Still more stable than DOS!";
   "Yeah, that's about right.";
   "I'm Moo, the Xryis cow!";
   "Guru meditation time!";
   "Yahaha, you found me!";
   "Minecraft crashed!";
   "Get Dunked On!"]%string.
Definition moo_format : string :=
  (nl ++ "%s" ++ nl ++ nl ++
   "        \   ^__^" ++ nl ++
   "         \  (OO)\_______" ++ nl ++
   "            (__)\       )\/\" ++ nl ++
   "             U  ||----w |" ++ nl ++
   "                ||     ||" ++ nl ++ nl)%string.

Definition PANIC_MAX_TRACE : Z := 64.
Definition PANIC_MOO_BUF_SZ : Z := 256.
Definition PANIC_MSG_BUF_SZ : Z := 256.
Definition PANIC_REG_BUG_SZ : Z := 512.
Definition PANIC_COLOR_FORE : Z := 0xFFFFFF.
Definition PANIC_COLOR_BACK : Z := 0x2D2D2D.
Definition PANIC_REG_DUMP_MSG : string := "Kernel exception - Dumping register state...".

(** A frame of the stack. *)
Record stackframe := mkFrame { f_ebp : Z; f_eip : Z }.
(** A little-endian word of memory. *)
Definition load_word (p : Z) (m : memory) : outcome Z :=
  a ← load p m ; b ← load (p + 1) m ; c ← load (p + 2) m ; d ← load (p + 3) m ;
  Done (Z.lor a (Z.lor (Z.shiftl b 8) (Z.lor (Z.shiftl c 16) (Z.shiftl d 24)))).
Definition load_frame (p : Z) (m : memory) : outcome stackframe :=
  ebp ← load_word p m ; eip ← load_word (p + 4) m ; Done (mkFrame ebp eip).
Definition trace_format : string := ("0x%0zx" ++ nl)%string.
Definition trace_heading : string := (Logger.esc "[31mStack trace:" ++ Logger.esc ("[0m" ++ nl))%string.

(** ** The text of the formats

    The pieces of the formats, and what they print. *)
#[export] Instance item_ok_dec it : Decision (item_ok it).
Proof. destruct it; unfold item_ok, is_char, is_digit; apply _. Defined.

Definition T (s : string) : list item := Text <$> codes s.
Definition hex8 (mods : list Z) : item := Conv false true (codes "8") mods (ch "X").
Definition str : item := Conv false false [] [] (ch "s").
Definition unsigned_long : item := Conv false false [] [ch "l"] (ch "u").
Definition number (o : option (list Z)) : list Z := default [] o.
Definition hex_word (w : Z) : list Z := number (number_field false true false true 8 16 w).
Definition hex_lower (w : Z) : list Z := number (number_field false true false false 8 16 w).
Definition dec_word (w : Z) : list Z := number (number_field false false false false 0 10 w).
Definition dec_int (w : Z) : list Z := number (number_field false false true false 0 10 w).

Definition plain (s : string) : bool := forallb (fun c => (0 <=? c) && (c <? 128)) (codes s).

Lemma plain_text s : plain s = true -> (fun c => u32 (s8 c)) <$> codes s = codes s.
Proof.
  unfold plain. induction (codes s) as [|c l IH]; [done|]. cbn [forallb fmap list_fmap]. intros [Hc Hl]%andb_true_iff. rewrite IH by done.
  apply andb_true_iff in Hc as [H1%Z.leb_le H2%Z.ltb_lt]. f_equal. unfold s8, swrap. change (2 ^ (8 - 1)) with 128. change (2 ^ 8) with 256.
  rewrite Z.mod_small by lia. destruct (Z.ltb_spec c 128); [|lia]. apply u32_small. unfold in_u32. lia.
Qed.

Lemma out_T strs s its args O r : plain s = true -> format_out strs its args = Some (O, r) ->
  format_out strs (T s ++ its) args = Some (codes s ++ O, r).
Proof. intros Hs E. eapply format_out_app; [|exact E]. unfold T. by rewrite format_out_text, plain_text. Qed.
Lemma out_str strs its a s args O r : strs a = Some s -> format_out strs its args = Some (O, r) ->
  format_out strs (str :: its) (a :: args) = Some (s ++ O, r).
Proof.
  intros Es E. eapply format_out_cons; [|exact E]. unfold str.
  rewrite (Logger.string_out strs false [] a args s Es eq_refl). unfold Logger.left_in. by rewrite app_nil_r.
Qed.

(** Digits of a word need no more fuel than there are digits. *)
Lemma digits_more f caps radix k : forall n w l, digits f caps radix n w = Done l -> digits (f + k) caps radix n w = Done l.
Proof.
  induction f as [|f IH]; intros n w l; cbn [digits Nat.add].
  - destruct k; cbn [digits]; by destruct (n / radix =? 0).
  - destruct (n / radix =? 0); [done|]. apply IH.
Qed.
Lemma hex_digits caps n : in_u32 n -> exists l, digits 10 caps 16 n [] = Done l /\ (length l <= 8)%nat.
Proof.
  intros Hn. destruct (digits_spec 7 caps 16 n []) as (l & E & _ & Hl); [lia|exact Hn|]. exists l. split; [|lia].
  rewrite app_nil_r in E. exact (digits_more 7 caps 16 3 _ _ _ E).
Qed.

Lemma unsigned_field lj lz caps wd radix w : In radix [8; 10; 16] -> exists o, number_field lj lz false caps wd radix w = Some o.
Proof.
  intros Hr. unfold number_field. cbn [andb]. destruct (word_digits caps radix (u32 (s32 w)) Hr (u32_range _)) as (l & -> & _). by eexists.
Qed.
Lemma signed_field w : INT_MIN < s32 w -> exists o, number_field false false true false 0 10 w = Some o.
Proof.
  intros Hw. unfold number_field. cbn [andb]. destruct (Z.eqb_spec (s32 w) INT_MIN); [lia|]. rewrite andb_false_r.
  pose proof (s32_range w) as Hr. unfold INT_MIN, INT_MAX in *. destruct (Z.ltb_spec (s32 w) 0).
  - destruct (word_digits false 10 (- s32 w)) as (l & -> & _); [cbn; auto|lia|]. by eexists.
  - destruct (word_digits false 10 (u32 (s32 w)) ltac:(cbn; auto) (u32_range _)) as (l & -> & _). by eexists.
Qed.

(** A word in hexadecimal takes eight places. *)
Lemma hex_word_length w : length (hex_word w) = 8%nat.
Proof.
  unfold hex_word, number_field. cbn [andb].
  destruct (hex_digits true (u32 (s32 w)) (u32_range _)) as (l & -> & Hl). cbn [number default from_option].
  unfold field, justified. cbn [opt andb negb app Z.b2z id]. rewrite !length_app, length_replicate. cbn [length]. lia.
Qed.

Lemma hex_lower_length w : length (hex_lower w) = 8%nat.
Proof.
  unfold hex_lower, number_field. cbn [andb].
  destruct (hex_digits false (u32 (s32 w)) (u32_range _)) as (l & -> & Hl). cbn [number default from_option].
  unfold field, justified. cbn [opt andb negb app Z.b2z id]. rewrite !length_app, length_replicate. cbn [length]. lia.
Qed.

(** What is printed of numbers are bytes. *)
Lemma digits_bytes f caps radix : forall n w l, digits f caps radix n w = Done l -> u8 <$> w = w -> u8 <$> l = l.
Proof.
  assert (Hd : forall t, u8 (digit caps t) = digit caps t).
  { intros t. unfold digit. destruct (t <? 10), caps; apply u8_small, u8_range. }
  induction f as [|f IH]; intros n w l; cbn [digits]; destruct (n / radix =? 0).
  - intros [= <-] Hw. cbn. by rewrite Hd, Hw.
  - done.
  - intros [= <-] Hw. cbn. by rewrite Hd, Hw.
  - intros E Hw. apply (IH _ _ _ E). cbn. by rewrite Hd, Hw.
Qed.
Lemma number_bytes lj lz sg caps wd radix w : u8 <$> number (number_field lj lz sg caps wd radix w) = number (number_field lj lz sg caps wd radix w).
Proof.
  unfold number_field. destruct (_ && (s32 w =? INT_MIN)); [done|]. destruct (digits _ _ _ _ _) as [l| | |] eqn:E; [|done..].
  apply digits_bytes in E; [|done]. cbn [number default from_option id]. unfold field, justified, opt. rewrite !fmap_app, E.
  destruct lj, lz, (sg && (s32 w <? 0)); cbn [andb negb]; rewrite ?fmap_replicate; reflexivity.
Qed.
Lemma hex_lower_bytes w : u8 <$> hex_lower w = hex_lower w.
Proof. apply number_bytes. Qed.

Lemma out_hex8 strs mods its w args O r : mods = [] \/ mods = [ch "l"] -> format_out strs its args = Some (O, r) ->
  format_out strs (hex8 mods :: its) (w :: args) = Some (hex_word w ++ O, r).
Proof.
  intros Hm E. eapply format_out_cons; [|exact E]. destruct (unsigned_field false true true 8 16 w) as [o Eo]; [cbn; auto|].
  unfold hex8, hex_word. rewrite Eo. destruct Hm as [-> | ->]; cbn [item_out]; unfold long_long;
    rewrite bool_decide_false by (by apply (bool_decide_unpack _); vm_compute); cbn [mbind option_bind];
    change (ch "X" =? ch "c") with false; change (ch "X" =? ch "s") with false; change (ch "X" =? ch "X") with true; cbn [orb];
    by rewrite Eo.
Qed.
Lemma out_lu strs its w args O r : format_out strs its args = Some (O, r) ->
  format_out strs (unsigned_long :: its) (w :: args) = Some (dec_word w ++ O, r).
Proof.
  intros E. eapply format_out_cons; [|exact E]. destruct (unsigned_field false false false 0 10 w) as [o Eo]; [cbn; auto|].
  unfold unsigned_long, dec_word. rewrite Eo. cbn [item_out]. unfold long_long.
  rewrite bool_decide_false by (by apply (bool_decide_unpack _); vm_compute). cbn [mbind option_bind].
  change (u32 (decimal [])) with 0. change (ch "u" =? ch "c") with false. change (ch "u" =? ch "s") with false.
  change ((ch "u" =? ch "X") || (ch "u" =? ch "x") || (ch "u" =? ch "p")) with false.
  change (ch "u" =? ch "n") with false. change (ch "u" =? ch "u") with true. cbv iota. by rewrite Eo.
Qed.
Definition signed_int : item := Conv false false [] [] (ch "i").
Lemma out_i strs its w args O r : INT_MIN < s32 w -> format_out strs its args = Some (O, r) ->
  format_out strs (signed_int :: its) (w :: args) = Some (dec_int w ++ O, r).
Proof.
  intros Hw E. eapply format_out_cons; [|exact E]. destruct (signed_field w Hw) as [o Eo].
  unfold signed_int, dec_int. rewrite Eo. cbn [item_out]. unfold long_long.
  rewrite bool_decide_false by (by apply (bool_decide_unpack _); vm_compute). cbn [mbind option_bind].
  change (u32 (decimal [])) with 0. change (ch "i" =? ch "c") with false. change (ch "i" =? ch "s") with false.
  change ((ch "i" =? ch "X") || (ch "i" =? ch "x") || (ch "i" =? ch "p")) with false.
  change (ch "i" =? ch "n") with false. change (ch "i" =? ch "u") with false. change (ch "i" =? ch "o") with false. cbv iota. by rewrite Eo.
Qed.
Definition hex_zx : item := Conv false true [] [ch "z"] (ch "x").
Lemma out_zx strs its w args O r : format_out strs its args = Some (O, r) ->
  format_out strs (hex_zx :: its) (w :: args) = Some (hex_lower w ++ O, r).
Proof.
  intros E. eapply format_out_cons; [|exact E]. destruct (unsigned_field false true false 8 16 w) as [o Eo]; [cbn; auto|].
  unfold hex_zx, hex_lower. rewrite Eo. cbn [item_out]. unfold long_long.
  rewrite bool_decide_false by (by apply (bool_decide_unpack _); vm_compute). cbn [mbind option_bind].
  change (ch "x" =? ch "c") with false. change (ch "x" =? ch "s") with false. change (ch "x" =? ch "X") with false.
  change (ch "x" =? ch "x") with true. cbn [orb]. by rewrite Eo.
Qed.

(** *** The formats, piece by piece *)
Definition red_piece (before name : string) : string :=
  (before ++ Logger.esc "[31m" ++ name ++ ":" ++ Logger.esc "[0m 0x")%string.
Definition register_pieces : list string :=
  [red_piece "" " DS"; red_piece nl "EDI"; red_piece " " "ESI"; red_piece " " "EBP"; red_piece " " "ESP";
   red_piece nl "EAX"; red_piece " " "EBX"; red_piece " " "ECX"; red_piece " " "EDX";
   red_piece nl "ERR"; red_piece " " "EIP"; red_piece " " " CS"; red_piece nl "FLG"; red_piece " " " SS"].
Definition register_items : list item := (register_pieces ≫= fun p => T p ++ [hex8 []]) ++ T (nl ++ nl).
Definition register_text (r : registers) : list Z :=
  concat (zip_with (fun p w => codes p ++ hex_word w) register_pieces (register_args r)) ++ codes (nl ++ nl).

Definition moo_end : string := (nl ++ nl ++
   "        \   ^__^" ++ nl ++
   "         \  (OO)\_______" ++ nl ++
   "            (__)\       )\/\" ++ nl ++
   "             U  ||----w |" ++ nl ++
   "                ||     ||" ++ nl ++ nl)%string.
Definition moo_items : list item := T nl ++ [str] ++ T moo_end.
Definition moo_text (moo : string) : list Z := codes nl ++ codes moo ++ codes moo_end.

Definition exception_items : list item := T "Exception: " ++ [unsigned_long] ++ T " (" ++ [str] ++ T (")" ++ nl ++ nl).
Definition error_items : list item := T error_format_text ++ [unsigned_long].
Definition fault_items : list item :=
  T "Page fault at 0x" ++ [hex8 [ch "l"]] ++ T " [ " ++ [str] ++ T " " ++ [str] ++ T " " ++ [str] ++ T " " ++ [str] ++
  T " ] (id -> " ++ [signed_int] ++ T (")" ++ nl).
Definition fault_text (cr2 err : Z) : list Z :=
  match fault_words err with
  | [a; b; c; d] => codes "Page fault at 0x" ++ hex_word cr2 ++ codes " [ " ++ codes a ++ codes " " ++ codes b ++ codes " " ++
      codes c ++ codes " " ++ codes d ++ codes " ] (id -> " ++ dec_int (Z.land err 0x10) ++ codes (")" ++ nl)
  | _ => []
  end.
Definition exception_text (cr2 : Z) (name : string) (r : registers) : list Z :=
  codes "Exception: " ++ dec_word (int_num r) ++ codes " (" ++ codes name ++ codes (")" ++ nl ++ nl) ++
  (if err_code r =? 0 then [] else codes error_format_text ++ dec_word (err_code r)) ++
  (if int_num r =? EXCEPTION_PAGE_FAULT then fault_text cr2 (err_code r) else []).

Definition line_items : list item := [str] ++ T (nl ++ nl).
Definition trace_items : list item := T "0x" ++ [hex_zx] ++ T nl.
Definition trace_line (e : Z) : list Z := codes "0x" ++ hex_lower e ++ codes nl.

Lemma formats_spelled :
  print_format register_items = codes register_format /\ print_format moo_items = codes moo_format /\
  print_format exception_items = codes exception_format /\ print_format error_items = codes error_format /\
  print_format fault_items = codes fault_format /\ print_format line_items = codes ("%s" ++ nl ++ nl) /\
  print_format trace_items = codes trace_format /\ print_format (T trace_heading) = codes trace_heading /\
  print_format [str] = codes "%s".
Proof. repeat split; vm_compute; reflexivity. Qed.

Lemma formats_ok :
  Forall item_ok register_items /\ Forall item_ok moo_items /\ Forall item_ok exception_items /\ Forall item_ok error_items /\
  Forall item_ok fault_items /\ Forall item_ok line_items /\ Forall item_ok trace_items /\ Forall item_ok (T trace_heading) /\
  Forall item_ok [str].
Proof. repeat split; by apply (bool_decide_unpack _); vm_compute. Qed.

Lemma out_pieces strs ps : forall ws its r, Forall (fun p => plain p = true) ps -> length ps = length ws ->
  forall O, format_out strs its [] = Some (O, r) ->
  format_out strs ((ps ≫= fun p => T p ++ [hex8 []]) ++ its) ws =
    Some (concat (zip_with (fun p w => codes p ++ hex_word w) ps ws) ++ O, r).
Proof.
  induction ps as [|p ps IH]; intros [|w ws] its r Hp Hl O E; try done.
  apply Forall_cons in Hp as [Hp Hps]. change ((p :: ps) ≫= ?f) with (f p ++ (ps ≫= f)).
  cbn [zip_with concat]. rewrite <- !app_assoc. cbn [app].
  apply out_T; [done|]. apply out_hex8; [by left|]. apply IH; [done|by injection Hl|done].
Qed.

Lemma register_out strs r : format_out strs register_items (register_args r) = Some (register_text r, []).
Proof.
  unfold register_items, register_text. apply out_pieces; [by repeat constructor|reflexivity|].
  rewrite <- (app_nil_r (T _)), <- (app_nil_r (codes _)). by apply out_T.
Qed.
(** The text of the registers has 351 characters. *)
Lemma register_text_length r : length (register_text r) = 351%nat.
Proof.
  unfold register_text, register_pieces, register_args. cbn [zip_with concat].
  rewrite !length_app, !hex_word_length. reflexivity.
Qed.


#[global] Create HintDb panic.

(** ** Text that a terminal shows

    The characters of terminal operations within the grid: visible characters,
    newlines and colours are. *)
Definition terminal_text (O : list Z) : Prop :=
  Forall (fun c => 0 < c < 128) O /\ exists ops, Forall op_ok ops /\ Forall op_on_screen ops /\ O = ops ≫= op_text.
Definition visible (c : Z) : bool := ((32 <=? c) && (c <? 127)) || (c =? 10).

Lemma shown_nil : terminal_text [].
Proof. split; [done|]. by exists []. Qed.
Lemma shown_app l1 l2 : terminal_text l1 -> terminal_text l2 -> terminal_text (l1 ++ l2).
Proof.
  intros (C1 & o1 & H1 & G1 & ->) (C2 & o2 & H2 & G2 & ->). split; [by apply Forall_app|]. exists (o1 ++ o2).
  rewrite !Forall_app. split; [done|]. split; [done|]. symmetry. apply bind_app.
Qed.
#[export] Hint Resolve shown_nil shown_app : panic.

Lemma text_unsigned O : terminal_text O -> u8 <$> O = O.
Proof. intros [Hch _]. induction Hch as [|c O Hc _ IH]; [done|]. cbn. rewrite IH, u8_small by lia. done. Qed.
Lemma text_op o : Forall (fun c => 0 < c < 128) (op_text o) -> op_ok o -> op_on_screen o -> terminal_text (op_text o).
Proof. intros Hc Ho Hs. split; [done|]. exists [o]. cbn. rewrite app_nil_r. repeat split; by constructor. Qed.
Lemma text_visible c : visible c = true -> terminal_text [c].
Proof.
  unfold visible. intros [[H1%Z.leb_le H2%Z.ltb_lt]%andb_true_iff | ->%Z.eqb_eq]%orb_true_iff.
  - apply (text_op (Put c)); [by repeat constructor; lia| |done]. split; [lia|]. unfold ESC. set_solver by lia.
  - by apply (text_op Newline); [repeat constructor; lia|..].
Qed.
Lemma text_visibles l : Forall (fun c => visible c = true) l -> terminal_text l.
Proof. induction 1 as [|c l Hc _ IH]; [apply shown_nil|]. change (c :: l) with ([c] ++ l). apply shown_app; [by apply text_visible|done]. Qed.

Definition red_on : list Z := codes (Logger.esc "[31m").
Definition red_off : list Z := codes (Logger.esc "[0m").
Lemma text_red_on : terminal_text red_on.
Proof.
  apply (text_op (Attributes [codes "31"])); [|split|done]; [vm_compute; repeat constructor; done|vm_compute; lia|].
  apply Forall_singleton. split; [done|]. by apply (bool_decide_unpack _); vm_compute.
Qed.
Lemma text_red_off : terminal_text red_off.
Proof.
  apply (text_op (Attributes [codes "0"])); [|split|done]; [vm_compute; repeat constructor; done|vm_compute; lia|].
  apply Forall_singleton. split; [done|]. by apply (bool_decide_unpack _); vm_compute.
Qed.

(** A test for the literals. *)
Fixpoint textb (n : nat) (l : list Z) : bool :=
  match n, l with
  | _, [] => true
  | O, _ => false
  | S n', c :: l' =>
      if visible c then textb n' l'
      else if bool_decide (take 5 l = red_on) then textb n' (drop 5 l)
      else if bool_decide (take 4 l = red_off) then textb n' (drop 4 l) else false
  end.
Lemma textb_sound n l : textb n l = true -> terminal_text l.
Proof.
  revert l. induction n as [|n IH]; intros [|c l] H; cbn [textb] in H; try discriminate H; try apply shown_nil.
  destruct (visible c) eqn:Ev; [|destruct (bool_decide_reflect (take 5 (c :: l) = red_on)) as [E|_];
    [|destruct (bool_decide_reflect (take 4 (c :: l) = red_off)) as [E|_]; [|done]]].
  - change (c :: l) with ([c] ++ l). apply shown_app; [by apply text_visible|by apply IH].
  - rewrite <- (take_drop 5 (c :: l)), E. apply shown_app; [apply text_red_on|by apply IH].
  - rewrite <- (take_drop 4 (c :: l)), E. apply shown_app; [apply text_red_off|by apply IH].
Qed.
(** Literals that a terminal shows. *)
Definition showable (s : string) : Prop := textb 512 (codes s) = true.
#[local] Instance showable_dec s : Decision (showable s).
Proof. unfold showable. apply _. Defined.
Lemma text_showable s : showable s -> terminal_text (codes s).
Proof. apply textb_sound. Qed.

(** Numbers. *)
Lemma digit_visible caps t : 0 <= t < 16 -> visible (digit caps t) = true.
Proof.
  intros Ht. assert (Ec : t ∈ seqZ 0 16) by (apply elem_of_seqZ; lia). revert t Ec Ht.
  destruct caps; intros t Ec _; revert t Ec; apply Forall_forall; by apply (bool_decide_unpack _); vm_compute.
Qed.
Lemma field_visible lj lz neg wd w l : Forall (fun c => visible c = true) l -> Forall (fun c => visible c = true) (field lj lz neg wd w l).
Proof.
  intros Hl. unfold field, justified, opt. rewrite !Forall_app.
  repeat split; try done; repeat case_match; try done; by repeat constructor || apply Forall_replicate.
Qed.
Lemma number_visible lj lz sg caps wd radix w : In radix [8; 10; 16] ->
  Forall (fun c => visible c = true) (number (number_field lj lz sg caps wd radix w)).
Proof.
  intros Hr. unfold number_field. destruct (_ && (s32 w =? INT_MIN)) eqn:Em; [done|].
  assert (Hn : 0 <= (if sg && (s32 w <? 0) then - s32 w else u32 (s32 w)) < 2 ^ 32).
  { pose proof (s32_range w) as Hw. unfold INT_MIN, INT_MAX in Hw. destruct sg, (Z.ltb_spec (s32 w) 0); cbn [andb]; try apply u32_range. lia. }
  destruct (word_digits caps radix _ Hr Hn) as (l & -> & (ds & -> & Hd & _) & _). cbn [number default from_option id].
  apply field_visible, Forall_fmap. eapply Forall_impl; [exact Hd|]. intros d Hb. apply digit_visible. cbv beta in Hb.
  destruct Hr as [<-|[<-|[<-|[]]]]; lia.
Qed.
Lemma text_number lj lz sg caps wd radix w : In radix [8; 10; 16] -> terminal_text (number (number_field lj lz sg caps wd radix w)).
Proof. intros Hr. by apply text_visibles, number_visible. Qed.
#[export] Hint Extern 1 (terminal_text (hex_word _)) => apply text_number; cbn; tauto : panic.
#[export] Hint Extern 1 (terminal_text (hex_lower _)) => apply text_number; cbn; tauto : panic.
#[export] Hint Extern 1 (terminal_text (dec_word _)) => apply text_number; cbn; tauto : panic.
#[export] Hint Extern 1 (terminal_text (dec_int _)) => apply text_number; cbn; tauto : panic.
#[export] Hint Extern 1 (terminal_text (codes _)) => apply text_showable; first [assumption | vm_compute; reflexivity] : panic.

Lemma number_length lj lz sg caps wd radix w : In radix [8; 10; 16] -> wd <= 8 ->
  (length (number (number_field lj lz sg caps wd radix w)) <= 32)%nat.
Proof.
  intros Hr Hw. unfold number_field. destruct (_ && (s32 w =? INT_MIN)); [cbn; lia|].
  destruct (digits _ _ _ _ _) as [l| | |] eqn:E; [|cbn; lia..]. cbn [number default from_option id].
  assert (Hl : (length l <= 11)%nat).
  { clear -E. assert (H : forall f n w0 l0, digits f caps radix n w0 = Done l0 -> (length l0 <= f + 1 + length w0)%nat).
    { induction f as [|f IH]; intros n w0 l0; cbn [digits]; destruct (n / radix =? 0); intros H; try discriminate H; try (injection H as <-; cbn; lia).
      apply IH in H. cbn [length] in H. lia. }
    apply H in E. cbn in E. lia. }
  generalize (sg && (s32 w <? 0)). intros neg. unfold field, justified, opt. rewrite !length_app.
  destruct lj, lz, neg; cbn [andb negb length Z.b2z]; rewrite ?length_replicate; lia.
Qed.

(** Everything that is printed is such text, but for the first message of the
    cow, whose apostrophes are not ASCII. *)
Lemma text_moo i moo : funnyMessagesForMoo !! i = Some moo -> i <> 0%nat -> terminal_text (moo_text moo) /\ (length (moo_text moo) < 256)%nat.
Proof.
  intros Hi H0. destruct i as [|i]; [done|].
  assert (Hall : Forall (fun moo => textb 512 (moo_text moo) = true /\ (length (moo_text moo) < 256)%nat) (tail funnyMessagesForMoo))
    by (by apply (bool_decide_unpack _); vm_compute).
  destruct (Forall_lookup_1 _ _ i moo Hall Hi) as [H1 H2]. split; [by eapply textb_sound|done].
Qed.
Lemma text_register r : terminal_text (register_text r).
Proof.
  unfold register_text, register_pieces, register_args. cbn [zip_with concat]. auto 50 with panic.
Qed.
Lemma fault_words_four err : exists a b c d, fault_words err = [a; b; c; d] /\ showable a /\ showable b /\ showable c /\ showable d.
Proof. unfold fault_words. do 4 eexists. split; [done|]. repeat split; case_match; vm_compute; reflexivity. Qed.
Lemma text_trace_line e : terminal_text (trace_line e).
Proof. unfold trace_line. auto with panic. Qed.

(** ** Terminals *)

(** A format at [fmt] that means [O] with these arguments. *)
Definition means (m : memory) (fmt : Z) (args O : list Z) : Prop := exists its strs rest,
  Forall item_ok its /\ cstr m fmt (print_format its) /\
  (forall a l, strs a = Some l -> Z.of_nat (length l) <= INT_MAX /\ cstr m a l) /\
  format_out strs its args = Some (O, rest) /\ Z.of_nat (length O) <= INT_MAX.

(** What a terminal offers to formatted output: while it is ready, text is sent
    in order, and it stays ready. *)
Class Terminal (X : Type) := {
  term_printf : Z -> list Z -> K (memory * X) Z;
  term_ready : X -> Prop;
  sent : list Z -> X -> X -> Prop;
  sent_nil x : sent [] x x;
  sent_app l1 l2 x x1 x2 : sent l1 x x1 -> sent l2 x1 x2 -> sent (l1 ++ l2) x x2;
  term_printf_ok m fmt args O x : means m fmt args O -> terminal_text O -> term_ready x ->
    exists x', term_printf fmt args (m, x) = Done (Z.of_nat (length O), (m, x')) /\ sent O x x' /\ term_ready x'
}.
(** One that can be filled with a colour, text continuing in another. *)
Class Clears (X : Type) {T : Terminal X} := {
  term_clear : Z -> Z -> K X unit;
  term_clear_ok fore back x : term_ready x -> exists x', term_clear fore back x = Done (tt, x') /\ term_ready x'
}.

(** The serial line, [RS232::printf]. *)
#[export] Instance serial_terminal (port_in : nat -> Z -> Z) (patience : nat) : Terminal RS232.serial.
Proof.
  refine {| term_printf := RS232.printf port_in patience;
            term_ready := fun s => RS232.comes port_in patience 5 (RS232.status_port s);
            sent := RS232.sends |}.
  - intros s. exists 0%nat. by rewrite RS232.after_sending_0.
  - apply RS232.sends_app.
  - intros m fmt args O s (its & strs & rest & H1 & H2 & H3 & H4 & H5) Ht Hr.
    destruct (RS232.vprintf_run port_in patience m s fmt its args strs O rest Hr H1 H2 H3 H4 H5) as (s' & E & Hs).
    rewrite (text_unsigned O Ht) in Hs. exists s'. split; [exact E|]. split; [exact Hs|]. cbv beta. by rewrite (RS232.status_port_sends _ _ _ Hs).
Defined.

Section panic.
Context {X1 X2 : Type} {T1 : Terminal X1} {T2 : Terminal X2} {C2 : Clears X2}.
(** Where the literals and the local buffers are, and the writer of the logger. *)
Context (literal : string -> Z) (cow_buf reg_buf msg_buf vprintf_addr : Z).

(** Memory, the serial line and the console. *)
Definition devices : Type := memory * (X1 * X2).
Definition serial_printf (fmt : Z) (args : list Z) : K devices Z :=
  kzoom (fun s => (s.1, s.2.1)) (fun y s => (y.1, (y.2, s.2.2))) (term_printf fmt args).
Definition console_printf (fmt : Z) (args : list Z) : K devices Z :=
  kzoom (fun s => (s.1, s.2.2)) (fun y s => (y.1, (s.2.1, y.2))) (term_printf fmt args).
Definition on_mem {A} : K memory A -> K devices A := kzoom fst (fun m s => (m, s.2)).
Definition on_console (m : K X2 unit) : K devices unit := kzoom (fun s => s.2.2) (fun x s => (s.1, (s.2.1, x))) m.

Definition log_all (fmt : Z) (args : list Z) : K devices unit :=
  serial_printf fmt args ;; console_printf fmt args ;; mret tt.

Definition registersToString (buf : Z) (regs : registers) : K memory unit :=
  ksprintf buf (literal register_format) (register_args regs) ;; mret tt.

Definition registersPrintInformation (cr2 : Z) (regs : registers) : K devices unit :=
  name ← kread (fun _ => match exceptionStrings !! Z.to_nat (int_num regs) with Some s => Done s | None => Fault end) ;
  log_all (literal exception_format) [int_num regs; literal name] ;;
  kwhen (negb (err_code regs =? 0)) (log_all (literal error_format) [err_code regs]) ;;
  kwhen (int_num regs =? EXCEPTION_PAGE_FAULT)
    (log_all (literal fault_format) ([cr2] ++ (literal <$> fault_words (err_code regs)) ++ [Z.land (err_code regs) 0x10])).

(** [tsc] is the time stamp counter. *)
Definition printMoo (tsc : Z) : K devices unit :=
  on_console (term_clear PANIC_COLOR_FORE PANIC_COLOR_BACK) ;;
  moo ← kread (fun _ => match funnyMessagesForMoo !! Z.to_nat (tsc mod 12) with Some s => Done s | None => Fault end) ;
  on_mem (ksprintf cow_buf (literal moo_format) [literal moo]) ;;
  log_all (literal "%s"%string) [cow_buf].

(** The registered writer of the logger. *)
Definition call_writer (w fmt : Z) (args : list Z) : K devices Z :=
  if w =? vprintf_addr then serial_printf fmt args else kfault.
Definition on_devices {A} : K devices A -> K (Logger.world (X1 * X2)) A := Logger.onrest.

(** The same text to the console and to the logger. *)
Definition trace_print (fmt : Z) (args : list Z) : K (Logger.world (X1 * X2)) unit :=
  on_devices (console_printf fmt args) ;; Logger.Print call_writer fmt args.

(** The frames from [frame] on, at most [max] of them. *)
Fixpoint trace_loop (max : nat) (frame : Z) : K (Logger.world (X1 * X2)) unit :=
  match max with
  | O => mret tt
  | S max' =>
      if frame =? 0 then mret tt else
      f ← kread (fun s => load_frame frame s.2.1) ;
      trace_print (literal trace_format) [f_eip f] ;;
      if f_ebp f =? 0 then mret tt else trace_loop max' (f_ebp f)
  end.
Definition printTrace (max frame : Z) : K (Logger.world (X1 * X2)) unit :=
  trace_print (literal trace_heading) [] ;; trace_loop (Z.to_nat max) frame.

(** Up to the halt; [msg] is an address, 0 if there is none, and [frame] the
    base pointer. *)
Definition panicInternal (tsc cr2 frame msg : Z) (regs : option registers) : K (Logger.world (X1 * X2)) unit :=
  on_devices (printMoo tsc) ;;
  kwhen (negb (msg =? 0)) (on_devices (log_all (literal ("%s" ++ nl ++ nl)%string) [msg])) ;;
  (match regs with
   | Some r =>
       on_devices (registersPrintInformation cr2 r) ;;
       on_devices (on_mem (registersToString reg_buf r)) ;;
       on_devices (log_all (literal "%s"%string) [reg_buf])
   | None => mret tt
   end) ;;
  printTrace PANIC_MAX_TRACE frame.
Definition panic (tsc cr2 frame msg : Z) : K (Logger.world (X1 * X2)) unit := panicInternal tsc cr2 frame msg None.
Definition panicf (tsc cr2 frame fmt : Z) (args : list Z) : K (Logger.world (X1 * X2)) unit :=
  on_devices (on_mem (kvsprintf msg_buf fmt args)) ;; panic tsc cr2 frame msg_buf.
Definition panic_registers (tsc cr2 frame : Z) (regs : registers) : K (Logger.world (X1 * X2)) unit :=
  panicInternal tsc cr2 frame (literal PANIC_REG_DUMP_MSG) (Some regs).

(** ** Memory *)

Definition env_of (env : list (Z * list Z)) (a : Z) : option (list Z) := snd <$> head (filter (fun p => p.1 = a) env).

Lemma env_of_in env a l : env_of env a = Some l -> (a, l) ∈ env.
Proof.
  unfold env_of. intros H. apply fmap_Some in H as ([a' l'] & Hh & ->). apply head_Some in Hh as [k Hk].
  assert (Hin : (a', l') ∈ filter (fun p : Z * list Z => p.1 = a) env) by (rewrite Hk; by left).
  apply list_elem_of_filter in Hin as [Ea Hin]. cbn in Ea. by subst.
Qed.
Lemma env_of_hit m env a l : (forall p, p ∈ env -> cstr m p.1 p.2) -> (a, l) ∈ env -> env_of env a = Some l.
Proof.
  intros He Hin. destruct (env_of env a) as [l'|] eqn:E.
  - apply env_of_in in E. f_equal. exact (Logger.cstr_inj _ _ _ _ (He _ E) (He _ Hin)).
  - unfold env_of in E. assert (Hin' : (a, l) ∈ filter (fun p : Z * list Z => p.1 = a) env) by (by apply list_elem_of_filter).
    destruct (filter _ env); [by apply not_elem_of_nil in Hin'|done].
Qed.

(** The buffers: [n] bytes at [p] are none of theirs. *)
Definition clear (p n : Z) : Prop :=
  (p + n <= cow_buf \/ cow_buf + PANIC_MOO_BUF_SZ <= p) /\ (p + n <= reg_buf \/ reg_buf + PANIC_REG_BUG_SZ <= p).
Definition buffer (buf size : Z) : Prop := (buf = cow_buf /\ size = PANIC_MOO_BUF_SZ) \/ (buf = reg_buf /\ size = PANIC_REG_BUG_SZ).
(** Memory changes in the buffers only. *)
Record same_but (m m' : memory) : Prop := {
  same_outside a : clear a 1 -> m' !! a = m !! a;
  same_mapped a : is_Some (m !! a) -> is_Some (m' !! a)
}.

Lemma same_refl m : same_but m m.
Proof. by split. Qed.
Lemma same_trans m1 m2 m3 : same_but m1 m2 -> same_but m2 m3 -> same_but m1 m3.
Proof. intros [A1 B1] [A2 B2]. split; [intros a Ha; by rewrite A2, A1|intros a Ha; by apply B2, B1]. Qed.
Lemma clear_at p n a : clear p n -> p <= a < p + n -> clear a 1.
Proof. unfold clear. lia. Qed.

Lemma cstr_same m m' p s : same_but m m' -> clear p (Z.of_nat (length s) + 1) -> cstr m p s -> cstr m' p s.
Proof.
  intros [Hs _] Hc [Hb Hch]. split; [|done]. eapply bytes_ext; [|exact Hb]. intros a Ha. apply Hs.
  rewrite length_app in Ha. cbn in Ha. apply (clear_at _ _ _ Hc). lia.
Qed.

(** The literals. *)
Definition panic_literals : list string :=
  [register_format; moo_format; exception_format; error_format; fault_format; ("%s" ++ nl ++ nl)%string; trace_format;
   trace_heading; "%s"; PANIC_REG_DUMP_MSG] ++ exceptionStrings ++ funnyMessagesForMoo ++
  ["missing"; "present"; "reading"; "writing"; "user-mode"; "kernel"; "reserved"; "available"]%string.
Definition placed (m : memory) : Prop :=
  Forall (fun s => literal s <> 0 /\ cstr m (literal s) (codes s) /\ clear (literal s) (Z.of_nat (length (codes s)) + 1)) panic_literals.

Lemma exception_literal s : s ∈ exceptionStrings -> s ∈ panic_literals.
Proof. intros H. unfold panic_literals. rewrite !elem_of_app. tauto. Qed.
Lemma cow_literal s : s ∈ funnyMessagesForMoo -> s ∈ panic_literals.
Proof. intros H. unfold panic_literals. rewrite !elem_of_app. tauto. Qed.

Lemma literals_short : Forall (fun s => Z.of_nat (length (codes s)) <= 400) panic_literals.
Proof. by apply (bool_decide_unpack _); vm_compute. Qed.
Lemma placed_at m s : placed m -> s ∈ panic_literals -> cstr m (literal s) (codes s).
Proof. intros Hp Hs. unfold placed in Hp. rewrite Forall_forall in Hp. by apply Hp. Qed.
Lemma placed_same m m' : same_but m m' -> placed m -> placed m'.
Proof.
  intros Hs Hp. eapply Forall_impl; [exact Hp|]. intros s (H0 & Hc & Hl). cbv beta. split; [done|]. split; [by eapply cstr_same|done].
Qed.

(** What strings there are is given by a list. *)
Definition env_ok (m : memory) (env : list (Z * list Z)) : Prop :=
  Forall (fun p => cstr m p.1 p.2 /\ Z.of_nat (length p.2) <= 1024) env.
Definition at_literals (ss : list string) : list (Z * list Z) := (fun s => (literal s, codes s)) <$> ss.

Lemma env_hit m env a l : env_ok m env -> (a, l) ∈ env -> env_of env a = Some l.
Proof. intros He. apply (env_of_hit m). unfold env_ok in He. rewrite Forall_forall in He. intros p Hp. by apply He. Qed.
Lemma literal_hit m ss s : env_ok m (at_literals ss) -> s ∈ ss -> env_of (at_literals ss) (literal s) = Some (codes s).
Proof. intros He Hs. apply (env_hit m); [done|]. unfold at_literals. apply list_elem_of_fmap. by exists s. Qed.
Lemma env_bounded m env a l : env_ok m env -> env_of env a = Some l -> Z.of_nat (length l) <= INT_MAX /\ cstr m a l.
Proof.
  intros He Ha%env_of_in. unfold env_ok in He. rewrite Forall_forall in He. destruct (He _ Ha) as [Hc Hl].
  split; [unfold INT_MAX; cbn in Hl; lia|done].
Qed.
Lemma placed_env m ss : placed m -> (forall s, s ∈ ss -> s ∈ panic_literals) -> env_ok m (at_literals ss).
Proof.
  intros Hp Hs. apply Forall_fmap, Forall_forall. intros s Hin. unfold compose. cbn [fst snd].
  pose proof literals_short as Hl. rewrite Forall_forall in Hl. split; [by apply placed_at; [|apply Hs]|].
  specialize (Hl s (Hs s Hin)). lia.
Qed.
Lemma means_env m fmt its args env O rest : placed m -> fmt ∈ panic_literals -> Forall item_ok its ->
  print_format its = codes fmt -> env_ok m env ->
  format_out (env_of env) its args = Some (O, rest) -> Z.of_nat (length O) <= INT_MAX -> means m (literal fmt) args O.
Proof.
  intros Hp Hf H1 H2 He H3 H4. exists its, (env_of env), rest. split; [done|]. split; [rewrite H2; by apply placed_at|].
  split; [|done]. intros a l. by apply env_bounded.
Qed.

(** A text formatted into a buffer. *)
Lemma sprintf_run m fmt its args ss O rest buf size : placed m -> fmt ∈ panic_literals -> Forall item_ok its ->
  print_format its = codes fmt -> (forall s, s ∈ ss -> s ∈ panic_literals) ->
  format_out (env_of (at_literals ss)) its args = Some (O, rest) -> terminal_text O -> Z.of_nat (length O) < size ->
  buffer buf size -> mapped m buf size ->
  exists m', ksprintf buf (literal fmt) args m = Done (Z.of_nat (length O), m') /\ cstr m' buf O /\ same_but m m'.
Proof.
  intros Hp Hf Hok Hs Hss Ho Ht Hlen Hbuf Hm. pose proof Ht as [Hch _].
  assert (Hsz : size <= 512) by (destruct Hbuf as [[_ ->]|[_ ->]]; done).
  assert (Hclear : forall p n, clear p n -> p + n <= buf \/ buf + size <= p) by (intros p n [??]; by destruct Hbuf as [[-> ->]|[-> ->]]).
  assert (Hlit : forall s, s ∈ panic_literals -> literal s + Z.of_nat (length (codes s)) < buf \/ buf + Z.of_nat (length O) <= literal s).
  { intros s Hin. unfold placed in Hp. rewrite Forall_forall in Hp. destruct (Hp _ Hin) as (_ & _ & Hc%Hclear). lia. }
  destruct (kvsprintf_spec m (env_of (at_literals ss)) buf (literal fmt) its args O rest) as (m' & E & Hb & Hk); try done.
  - rewrite Hs. by apply placed_at.
  - unfold INT_MAX. lia.
  - intros a Ha. apply Hm. lia.
  - rewrite Hs. by apply Hlit.
  - intros a l Ha. pose proof (placed_env m ss Hp Hss) as He. destruct (env_bounded _ _ _ _ He Ha) as [H1 H2]. split; [done|]. split; [done|].
    apply env_of_in in Ha. apply list_elem_of_fmap in Ha as (s & [= -> ->] & Hin). by apply Hlit, Hss.
  - exists m'. split; [exact E|].
    rewrite (text_unsigned O Ht) in Hb. split; [split; [exact Hb|eapply Forall_impl; [exact Hch|]; unfold is_char; cbv beta; lia]|].
    split.
    + intros a Ha%Hclear. apply Hk. lia.
    + intros a Ha. destruct (decide (buf <= a < buf + Z.of_nat (length O) + 1)) as [Hin|Hout]; [|by rewrite Hk].
      rewrite bytes_lookup in Hb. destruct (lookup_lt_is_Some_2 (O ++ [0]) (Z.to_nat (a - buf))) as [b Hb']; [rewrite length_app; cbn; lia|].
      specialize (Hb _ _ Hb'). replace (buf + Z.of_nat (Z.to_nat (a - buf))) with a in Hb by lia. rewrite Hb. by eexists.
Qed.

(** ** What is printed *)

Definition both_ready (x : X1 * X2) : Prop := term_ready x.1 /\ term_ready x.2.
(** Both terminals have been sent [l]. *)
Definition both (l : list Z) (x x' : X1 * X2) : Prop := sent l x.1 x'.1 /\ sent l x.2 x'.2 /\ both_ready x'.

Lemma both_app l1 l2 x x1 x2 : both l1 x x1 -> both l2 x1 x2 -> both (l1 ++ l2) x x2.
Proof. intros (? & ? & _) (? & ? & ?). split; [by eapply sent_app|]. split; [by eapply sent_app|done]. Qed.
Lemma both_nil x : both_ready x -> both [] x x.
Proof. intros ?. split; [apply sent_nil|]. by split; [apply sent_nil|]. Qed.
Lemma both_ready_after l x x' : both l x x' -> both_ready x'.
Proof. by intros (_ & _ & ?). Qed.

Lemma serial_run m fmt args O x : means m fmt args O -> terminal_text O -> both_ready x ->
  exists y, serial_printf fmt args (m, x) = Done (Z.of_nat (length O), (m, (y, x.2))) /\ sent O x.1 y /\ term_ready y.
Proof.
  intros Hm Ht [H1 _]. destruct (term_printf_ok m fmt args O x.1 Hm Ht H1) as (y & E & Hy). exists y. split; [|done].
  unfold serial_printf, kzoom. cbn [fst snd]. by rewrite E.
Qed.
Lemma console_run m fmt args O x : means m fmt args O -> terminal_text O -> both_ready x ->
  exists y, console_printf fmt args (m, x) = Done (Z.of_nat (length O), (m, (x.1, y))) /\ sent O x.2 y /\ term_ready y.
Proof.
  intros Hm Ht [_ H2]. destruct (term_printf_ok m fmt args O x.2 Hm Ht H2) as (y & E & Hy). exists y. split; [|done].
  unfold console_printf, kzoom. cbn [fst snd]. by rewrite E.
Qed.

(** What is to be shown to hold of a piece of [panicInternal]: it prints [l],
    and memory stays as it is. *)
Definition shows_text (k : K devices unit) (m : memory) (l : list Z) : Prop := forall x, both_ready x ->
  exists x', k (m, x) = Done (tt, (m, x')) /\ both l x x'.

Lemma log_shows m fmt args O : means m fmt args O -> terminal_text O -> shows_text (log_all fmt args) m O.
Proof.
  intros Hm Ht x Hx. destruct (serial_run m fmt args O x Hm Ht Hx) as (y1 & E1 & S1 & R1).
  destruct (console_run m fmt args O (y1, x.2) Hm Ht (conj R1 (proj2 Hx))) as (y2 & E2 & S2 & R2).
  exists (y1, y2). split; [|by split; [|split; [|split]]]. unfold log_all. rewrite (run_bind_done _ _ _ _ _ E1).
  by rewrite (run_bind_done _ _ _ _ _ E2).
Qed.
Lemma shows_seq k1 k2 m l1 l2 : shows_text k1 m l1 -> shows_text k2 m l2 -> shows_text (k1 ;; k2) m (l1 ++ l2).
Proof.
  intros H1 H2 x Hx. destruct (H1 x Hx) as (x1 & E1 & B1). destruct (H2 x1 (both_ready_after _ _ _ B1)) as (x2 & E2 & B2).
  exists x2. split; [by rewrite (run_bind_done _ _ _ _ _ E1)|by eapply both_app].
Qed.
Lemma shows_when (b : bool) k m l : shows_text k m l -> shows_text (kwhen b k) m (if b then l else []).
Proof. intros H. destruct b; [done|]. intros x Hx. exists x. split; [done|by apply both_nil]. Qed.

(** *** The exception *)

Lemma land_bit e k : 0 <= k -> 0 <= Z.land e (2 ^ k) <= 2 ^ k.
Proof.
  intros Hk. assert (E : Z.land e (2 ^ k) = if Z.testbit e k then 2 ^ k else 0).
  { apply Z.bits_inj'. intros i Hi. rewrite Z.land_spec, Z.pow2_bits_eqb by done.
    destruct (Z.eqb_spec k i) as [<-|Hne]; destruct (Z.testbit e k) eqn:E; rewrite ?Z.pow2_bits_eqb, ?Z.eqb_refl, ?andb_false_r, ?Z.bits_0, ?E by done; try done.
    by destruct (Z.eqb_spec k i). }
  rewrite E. pose proof (Z.pow_pos_nonneg 2 k). destruct (Z.testbit e k); lia.
Qed.

Ltac in_list := repeat first [by left | right].
Ltac literal_in := by apply (bool_decide_unpack _); vm_compute.
(** Lengths of literals. *)
Ltac literal_lengths :=
  rewrite !length_app; unfold INT_MAX;
  repeat match goal with |- context [length (codes ?s)] =>
    assert_fails (is_var s); let n := eval vm_compute in (length (codes s)) in change (length (codes s)) with n
  end.

Lemma exception_shows m name n : placed m -> name ∈ exceptionStrings ->
  shows_text (log_all (literal exception_format) [n; literal name]) m
    (codes "Exception: " ++ dec_word n ++ codes " (" ++ codes name ++ codes (")" ++ nl ++ nl)).
Proof.
  intros Hp Hn. destruct formats_spelled as (_ & _ & Es & _), formats_ok as (_ & _ & Ok & _).
  assert (Hin : forall s, s ∈ [name] -> s ∈ panic_literals) by (intros s ->%list_elem_of_singleton; by apply exception_literal).
  pose proof (placed_env m [name] Hp Hin) as He.
  assert (Hshow : showable name).
  { revert name Hn Hin He. assert (Hall : Forall showable exceptionStrings) by literal_in. rewrite Forall_forall in Hall. by intros ? ?%Hall. }
  assert (Hl : Z.of_nat (length (codes name)) <= 400).
  { pose proof literals_short as Hall. rewrite Forall_forall in Hall. apply Hall, Hin. by left. }
  apply log_shows; [|auto 10 with panic].
  apply (means_env m _ exception_items _ (at_literals [name]) _ []); try done; [literal_in| |].
  - unfold exception_items. apply out_T; [done|]. apply out_lu, out_T; [done|]. apply out_str; [apply (literal_hit m); [done|by left]|].
    rewrite <- (app_nil_r (T _)), <- (app_nil_r (codes (_ ++ _))). by apply out_T.
  - literal_lengths. pose proof (number_length false false false false 0 10 n ltac:(cbn; tauto) ltac:(done)) as Hd.
    unfold dec_word. lia.
Qed.
Lemma error_shows m e : placed m -> shows_text (log_all (literal error_format) [e]) m (codes error_format_text ++ dec_word e).
Proof.
  intros Hp. destruct formats_spelled as (_ & _ & _ & Es & _), formats_ok as (_ & _ & _ & Ok & _). apply log_shows; [|auto with panic].
  apply (means_env m _ error_items _ [] _ []); try done; [literal_in|constructor| |].
  - unfold error_items. apply out_T; [done|]. rewrite <- (app_nil_r (dec_word e)). by apply out_lu.
  - literal_lengths. pose proof (number_length false false false false 0 10 e ltac:(cbn; tauto) ltac:(done)) as Hd.
    unfold dec_word. lia.
Qed.

Lemma fault_shows m cr2 err : placed m ->
  shows_text (log_all (literal fault_format) ([cr2] ++ (literal <$> fault_words err) ++ [Z.land err 0x10])) m (fault_text cr2 err).
Proof.
  intros Hp. destruct formats_spelled as (_ & _ & _ & _ & Es & _), formats_ok as (_ & _ & _ & _ & Ok & _).
  assert (Hin : forall s, s ∈ fault_words err -> s ∈ panic_literals).
  { intros s Hs. unfold fault_words in Hs. revert s Hs. apply Forall_forall.
    repeat case_match; repeat apply Forall_cons_2; try apply Forall_nil_2; literal_in. }
  pose proof (placed_env m _ Hp Hin) as He. destruct (fault_words_four err) as (a & b & c & d & Ew & Ha & Hb & Hc & Hd).
  unfold fault_text. rewrite Ew in *. pose proof literals_short as Hall. rewrite Forall_forall in Hall.
  pose proof (land_bit err 4 ltac:(done)) as Hid. change (2 ^ 4) with 16 in Hid.
  apply log_shows; [|auto 20 with panic].
  apply (means_env m _ fault_items _ (at_literals [a; b; c; d]) _ []); try done; [literal_in| |].
  - unfold fault_items. cbn [fmap list_fmap app].
    apply out_T; [done|]. apply out_hex8; [by right|]. apply out_T; [done|].
    do 3 (apply out_str; [apply (literal_hit m); [done|in_list]|]; apply out_T; [done|]).
    apply out_str; [apply (literal_hit m); [done|in_list]|]. apply out_T; [done|].
    apply out_i. { unfold INT_MIN, s32, swrap. rewrite Z.mod_small by lia. case_match; lia. }
    rewrite <- (app_nil_r (T _)), <- (app_nil_r (codes (")" ++ nl))). by apply out_T.
  - literal_lengths. rewrite hex_word_length.
    pose proof (number_length false false true false 0 10 (Z.land err 16) ltac:(cbn; tauto) ltac:(done)) as Hl. unfold dec_int.
    pose proof (Hall a (Hin a ltac:(in_list))). pose proof (Hall b (Hin b ltac:(in_list))).
    pose proof (Hall c (Hin c ltac:(in_list))). pose proof (Hall d (Hin d ltac:(in_list))). lia.
Qed.

Lemma registersPrintInformation_shows m cr2 r name : placed m -> exceptionStrings !! Z.to_nat (int_num r) = Some name ->
  shows_text (registersPrintInformation cr2 r) m (exception_text cr2 name r).
Proof.
  intros Hp Hn x Hx. unfold registersPrintInformation, exception_text. rewrite (run_bind_done _ _ _ name (m, x)) by (by rewrite Hn).
  pose proof (exception_shows m name (int_num r) Hp ltac:(by eapply list_elem_of_lookup_2)) as H1.
  pose proof (shows_when (negb (err_code r =? 0)) _ _ _ (error_shows m (err_code r) Hp)) as H2.
  pose proof (shows_when (int_num r =? EXCEPTION_PAGE_FAULT) _ _ _ (fault_shows m cr2 (err_code r) Hp)) as H3.
  destruct (shows_seq _ _ _ _ _ H1 (shows_seq _ _ _ _ _ H2 H3) x Hx) as (x' & E & Hb). exists x'. split; [exact E|].
  rewrite <- !app_assoc in Hb. by destruct (err_code r =? 0).
Qed.

(** *** The buffers and the message *)

Lemma string_shows m p O : placed m -> cstr m p O -> terminal_text O -> Z.of_nat (length O) <= 1024 ->
  shows_text (log_all (literal "%s"%string) [p]) m O.
Proof.
  intros Hp Hc Ht Hl. destruct formats_spelled as (_ & _ & _ & _ & _ & _ & _ & _ & Es), formats_ok as (_ & _ & _ & _ & _ & _ & _ & _ & Ok).
  assert (He : env_ok m [(p, O)]) by (by apply Forall_singleton).
  apply log_shows; [|done]. apply (means_env m _ [str] _ [(p, O)] _ []); try done; [literal_in| |unfold INT_MAX; lia].
  rewrite <- (app_nil_r O) at 2. apply out_str; [apply (env_hit m); [done|set_solver]|done].
Qed.
Lemma line_shows m p O : placed m -> cstr m p O -> terminal_text O -> Z.of_nat (length O) <= 1024 ->
  shows_text (log_all (literal ("%s" ++ nl ++ nl)%string) [p]) m (O ++ codes (nl ++ nl)).
Proof.
  intros Hp Hc Ht Hl. destruct formats_spelled as (_ & _ & _ & _ & _ & Es & _), formats_ok as (_ & _ & _ & _ & _ & Ok & _).
  assert (He : env_ok m [(p, O)]) by (by apply Forall_singleton).
  apply log_shows; [|auto with panic]. apply (means_env m _ line_items _ [(p, O)] _ []); try done; [literal_in| |].
  - unfold line_items. apply out_str; [apply (env_hit m); [done|set_solver]|].
    rewrite <- (app_nil_r (T _)), <- (app_nil_r (codes _)). by apply out_T.
  - literal_lengths. lia.
Qed.

Lemma registersToString_run m r : placed m -> mapped m reg_buf PANIC_REG_BUG_SZ ->
  exists m', registersToString reg_buf r m = Done (tt, m') /\ cstr m' reg_buf (register_text r) /\ same_but m m'.
Proof.
  intros Hp Hm. destruct formats_spelled as (Es & _), formats_ok as (Ok & _).
  destruct (sprintf_run m register_format register_items (register_args r) [] (register_text r) [] reg_buf PANIC_REG_BUG_SZ)
    as (m' & E & Hr); try done; [literal_in|by intros s ?%not_elem_of_nil|apply register_out|apply text_register| |by right|].
  - rewrite register_text_length. done.
  - exists m'. split; [|done]. unfold registersToString. by rewrite (run_bind_done _ _ _ _ _ E).
Qed.

Lemma moo_run m i moo : placed m -> mapped m cow_buf PANIC_MOO_BUF_SZ -> funnyMessagesForMoo !! i = Some moo -> i <> 0%nat ->
  exists m' n, ksprintf cow_buf (literal moo_format) [literal moo] m = Done (n, m') /\ cstr m' cow_buf (moo_text moo) /\ same_but m m'.
Proof.
  intros Hp Hm Hi H0. destruct formats_spelled as (_ & Es & _), formats_ok as (_ & Ok & _). destruct (text_moo i moo Hi H0) as [Ht Hl].
  assert (Hin : forall s, s ∈ [moo] -> s ∈ panic_literals).
  { intros s ->%list_elem_of_singleton. apply list_elem_of_lookup_2 in Hi. by apply cow_literal. }
  destruct (sprintf_run m moo_format moo_items [literal moo] [moo] (moo_text moo) [] cow_buf PANIC_MOO_BUF_SZ)
    as (m' & E & Hr); try done; [literal_in| |unfold PANIC_MOO_BUF_SZ; lia|by left|by exists m', (Z.of_nat (length (moo_text moo)))].
  unfold moo_items, moo_text. apply out_T; [done|]. apply out_str; [apply (literal_hit m); [by apply placed_env|by left]|].
  rewrite <- (app_nil_r (T _)), <- (app_nil_r (codes _)). by apply out_T.
Qed.

(** The console is cleared to [x0], and then shows the cow. *)
Lemma printMoo_run m x tsc moo : placed m -> mapped m cow_buf PANIC_MOO_BUF_SZ -> tsc mod 12 <> 0 ->
  funnyMessagesForMoo !! Z.to_nat (tsc mod 12) = Some moo -> both_ready x ->
  exists m' x0 x', printMoo tsc (m, x) = Done (tt, (m', x')) /\ same_but m m' /\
    term_clear PANIC_COLOR_FORE PANIC_COLOR_BACK x.2 = Done (tt, x0) /\ both (moo_text moo) (x.1, x0) x'.
Proof.
  intros Hp Hm H0 Hi [Hx1 Hx2]. pose proof (Z.mod_pos_bound tsc 12 ltac:(lia)) as Hb.
  destruct (term_clear_ok PANIC_COLOR_FORE PANIC_COLOR_BACK x.2 Hx2) as (x0 & Ec & Hx0).
  destruct (moo_run m _ moo Hp Hm Hi ltac:(lia)) as (m' & n & Em & Hc & Hs). destruct (text_moo _ moo Hi ltac:(lia)) as [Ht Hl].
  destruct (string_shows m' cow_buf (moo_text moo) (placed_same _ _ Hs Hp) Hc Ht ltac:(lia) (x.1, x0)) as (x' & E & Hx'); [done|].
  exists m', x0, x'. split; [|done]. unfold printMoo.
  rewrite (run_bind_done _ _ _ tt (m, (x.1, x0))) by (unfold on_console, kzoom; cbn [fst snd]; by rewrite Ec).
  rewrite (run_bind_done _ _ _ moo (m, (x.1, x0))) by (by rewrite Hi).
  rewrite (run_bind_done _ _ _ n (m', (x.1, x0))) by (unfold on_mem, kzoom; cbn [fst snd]; by rewrite Em). exact E.
Qed.

(** *** The trace *)

(** The logger writes to the serial line only. *)
Definition logs_on_serial (l : Logger.Logger) : Prop :=
  vprintf_addr <> 0 /\ Logger.m_writersIdx l = 1 /\ Logger.m_writers l = [vprintf_addr; 0].

Lemma trace_print_run l m fmt args O x : logs_on_serial l -> means m fmt args O -> terminal_text O -> both_ready x ->
  exists x', trace_print fmt args (l, (m, x)) = Done (tt, (l, (m, x'))) /\ both O x x'.
Proof.
  intros (Hv & Hi & Hw) Hm Ht [H1 H2]. destruct (console_run m fmt args O x Hm Ht (conj H1 H2)) as (y2 & E2 & S2 & R2).
  destruct (serial_run m fmt args O (x.1, y2) Hm Ht (conj H1 R2)) as (y1 & E1 & S1 & R1).
  exists (y1, y2). split; [|by split; [|split; [|split]]]. unfold trace_print.
  rewrite (run_bind_done _ _ _ (Z.of_nat (length O)) (l, (m, (x.1, y2)))) by (unfold on_devices, Logger.onrest, kzoom; cbn [fst snd]; by rewrite E2).
  unfold Logger.Print. apply Logger.LogHelperPrint_run; [rewrite Hi, Hw; cbn; lia|]. rewrite Hi, Hw.
  change (take (Z.to_nat 1) [vprintf_addr; 0]) with [vprintf_addr]. cbn [Logger.called]. destruct (Z.eqb_spec vprintf_addr 0); [done|].
  eexists _, _. split; [|done]. unfold call_writer. by rewrite Z.eqb_refl.
Qed.

Lemma trace_means m e : placed m -> means m (literal trace_format) [e] (trace_line e).
Proof.
  intros Hp. destruct formats_spelled as (_ & _ & _ & _ & _ & _ & Et & _), formats_ok as (_ & _ & _ & _ & _ & _ & Ot & _).
  apply (means_env m _ trace_items [e] [] _ []); try done; [literal_in|constructor| |].
  - unfold trace_items, trace_line. apply out_T; [done|]. apply out_zx.
    rewrite <- (app_nil_r (T nl)), <- (app_nil_r (codes nl)). by apply out_T.
  - unfold trace_line. literal_lengths. pose proof (hex_lower_length e) as ->. lia.
Qed.
Lemma heading_means m : placed m -> means m (literal trace_heading) [] (codes trace_heading).
Proof.
  intros Hp. destruct formats_spelled as (_ & _ & _ & _ & _ & _ & _ & Et & _), formats_ok as (_ & _ & _ & _ & _ & _ & _ & Ot & _).
  apply (means_env m trace_heading (T trace_heading) [] [] _ [] Hp ltac:(literal_in) Ot Et); [by apply Forall_nil| |done].
  rewrite <- (app_nil_r (T _)), <- (app_nil_r (codes trace_heading)). by apply out_T.
Qed.

(** The return addresses from the frame [p] on; the buffers are not part of a
    frame. *)
Fixpoint trace_path (m : memory) (p : Z) (l : list Z) : Prop :=
  match l with
  | [] => p = 0
  | e :: l' => p <> 0 /\ clear p 8 /\ exists f, load_frame p m = Done f /\ f_eip f = e /\ trace_path m (f_ebp f) l'
  end.
Definition trace_text (l : list Z) : list Z := codes trace_heading ++ concat (trace_line <$> take 64 l).

Lemma load_word_same m m' p : same_but m m' -> clear p 4 -> load_word p m' = load_word p m.
Proof.
  intros [Hs _] Hc. unfold load_word, load. rewrite !Hs; [done|..]; apply (clear_at _ _ _ Hc); lia.
Qed.
Lemma trace_path_same m m' l : same_but m m' -> forall p, trace_path m p l -> trace_path m' p l.
Proof.
  intros Hs. induction l as [|e l IH]; intros p; cbn [trace_path]; [done|]. intros (Hp & Hc & f & Hf & He & Hl).
  split; [done|]. split; [done|]. exists f. split; [|by split; [|apply IH]]. unfold load_frame in *.
  rewrite !(load_word_same m m') by (done || (unfold clear in *; lia)). done.
Qed.

Lemma trace_loop_run lg m l : logs_on_serial lg -> placed m -> forall n p x, trace_path m p l -> both_ready x ->
  exists x', trace_loop n p (lg, (m, x)) = Done (tt, (lg, (m, x'))) /\ both (concat (trace_line <$> take n l)) x x'.
Proof.
  intros Hlg Hm. induction l as [|e l IH]; intros n p x Hp Hx.
  - cbn in Hp. subst p. exists x. rewrite take_nil. split; [by destruct n|by apply both_nil].
  - destruct Hp as (Hp0 & _ & f & Ef & <- & Hp). destruct n as [|n]; [exists x; split; [done|by apply both_nil]|].
    destruct (trace_print_run lg m _ _ _ x Hlg (trace_means m (f_eip f) Hm) (text_trace_line _) Hx) as (x1 & E1 & H1).
    destruct (IH n (f_ebp f) x1 Hp (both_ready_after _ _ _ H1)) as (x2 & E2 & H2).
    exists x2. split; [|cbn [take fmap list_fmap concat]; by eapply both_app].
    cbn [trace_loop]. destruct (Z.eqb_spec p 0); [done|]. rewrite (run_bind_done _ _ _ f (lg, (m, x))) by (unfold kread; cbn [fst snd]; by rewrite Ef).
    rewrite (run_bind_done _ _ _ _ _ E1). destruct (Z.eqb_spec (f_ebp f) 0) as [E0|]; [|exact E2].
    rewrite E0 in E2. by destruct n.
Qed.
Lemma printTrace_run lg m l p x : logs_on_serial lg -> placed m -> trace_path m p l -> both_ready x ->
  exists x', printTrace PANIC_MAX_TRACE p (lg, (m, x)) = Done (tt, (lg, (m, x'))) /\ both (trace_text l) x x'.
Proof.
  intros Hlg Hm Hp Hx.
  destruct (trace_print_run lg m _ _ _ x Hlg (heading_means m Hm) ltac:(auto with panic) Hx) as (x1 & E1 & H1).
  destruct (trace_loop_run lg m l Hlg Hm 64 p x1 Hp (both_ready_after _ _ _ H1)) as (x2 & E2 & H2).
  exists x2. split; [|by eapply both_app]. unfold printTrace. by rewrite (run_bind_done _ _ _ _ _ E1).
Qed.

(** *** The whole panic *)

Definition message_text (t : option (list Z)) : list Z := match t with Some t => t ++ codes (nl ++ nl) | None => [] end.
(** The message at [msg], if there is one: a string of characters that a
    terminal shows, outside of the buffers. *)
Definition message_at (m : memory) (msg : Z) (t : option (list Z)) : Prop :=
  match t with
  | Some t => msg <> 0 /\ cstr m msg t /\ clear msg (Z.of_nat (length t) + 1) /\ terminal_text t /\ Z.of_nat (length t) <= 1024
  | None => msg = 0
  end.
Definition registers_text (cr2 : Z) (regs : option (registers * string)) : list Z :=
  match regs with Some (r, name) => exception_text cr2 name r ++ register_text r | None => [] end.

Lemma on_devices_run {A} (k : K devices A) lg s a s' : k s = Done (a, s') -> on_devices k (lg, s) = Done (a, (lg, s')).
Proof. intros E. unfold on_devices, Logger.onrest, kzoom. cbn [fst snd]. by rewrite E. Qed.

(** What [panicInternal] needs: the literals, the buffers, the terminals. *)
Record panic_ready (m : memory) (x : X1 * X2) (lg : Logger.Logger) : Prop := {
  ready_literals : placed m;
  ready_cow : mapped m cow_buf PANIC_MOO_BUF_SZ;
  ready_registers : mapped m reg_buf PANIC_REG_BUG_SZ;
  ready_terminals : both_ready x;
  ready_logger : logs_on_serial lg
}.

Lemma message_run lg m msg t x : placed m -> message_at m msg t -> both_ready x ->
  exists x', kwhen (negb (msg =? 0)) (on_devices (log_all (literal ("%s" ++ nl ++ nl)%string) [msg])) (lg, (m, x)) = Done (tt, (lg, (m, x'))) /\
    both (message_text t) x x'.
Proof.
  intros Hp Ht Hx. destruct t as [t|]; cbn [message_at message_text] in *.
  - destruct Ht as (H0 & Hc & _ & Ht & Hl). destruct (line_shows m msg t Hp Hc Ht Hl x Hx) as (x' & E & Hb). exists x'. split; [|done].
    destruct (Z.eqb_spec msg 0); [done|]. by apply on_devices_run.
  - subst msg. exists x. split; [done|by apply both_nil].
Qed.

Lemma registers_run lg m cr2 regs x : placed m -> mapped m reg_buf PANIC_REG_BUG_SZ -> both_ready x ->
  (forall r name, regs = Some (r, name) -> exceptionStrings !! Z.to_nat (int_num r) = Some name) ->
  exists m' x', (match fst <$> regs with
   | Some r =>
       on_devices (registersPrintInformation cr2 r) ;;
       on_devices (on_mem (registersToString reg_buf r)) ;;
       on_devices (log_all (literal "%s"%string) [reg_buf])
   | None => mret tt
   end) (lg, (m, x)) = Done (tt, (lg, (m', x'))) /\ same_but m m' /\ both (registers_text cr2 regs) x x'.
Proof.
  intros Hp Hm Hx Hn. destruct regs as [[r name]|]; cbn [fmap option_fmap option_map fst registers_text].
  - destruct (registersPrintInformation_shows m cr2 r name Hp (Hn r name eq_refl) x Hx) as (x1 & E1 & B1).
    destruct (registersToString_run m r Hp Hm) as (m' & E2 & Hc & Hs).
    destruct (string_shows m' reg_buf (register_text r) (placed_same _ _ Hs Hp) Hc (text_register r) ltac:(rewrite register_text_length; lia)
      x1 (both_ready_after _ _ _ B1)) as (x2 & E3 & B2).
    exists m', x2. split; [|split; [done|by eapply both_app]].
    rewrite (run_bind_done _ _ _ _ _ (on_devices_run _ lg _ _ _ E1)).
    rewrite (run_bind_done _ _ _ tt (lg, (m', x1))); [by apply on_devices_run|].
    apply on_devices_run. unfold on_mem, kzoom. cbn [fst snd]. by rewrite E2.
  - exists m, x. split; [done|]. split; [apply same_refl|by apply both_nil].
Qed.

Lemma panicInternal_run m x lg tsc cr2 frame msg t regs moo path : panic_ready m x lg ->
  tsc mod 12 <> 0 -> funnyMessagesForMoo !! Z.to_nat (tsc mod 12) = Some moo -> message_at m msg t ->
  (forall r name, regs = Some (r, name) -> exceptionStrings !! Z.to_nat (int_num r) = Some name) ->
  trace_path m frame path ->
  exists m' x0 x', panicInternal tsc cr2 frame msg (fst <$> regs) (lg, (m, x)) = Done (tt, (lg, (m', x'))) /\ same_but m m' /\
    term_clear PANIC_COLOR_FORE PANIC_COLOR_BACK x.2 = Done (tt, x0) /\
    both (moo_text moo ++ message_text t ++ registers_text cr2 regs ++ trace_text path) (x.1, x0) x'.
Proof.
  intros [Hp Hcow Hreg Hx Hlg] H0 Hi Ht Hn Hpath.
  destruct (printMoo_run m x tsc moo Hp Hcow H0 Hi Hx) as (m1 & x0 & x1 & E1 & S1 & Ec & B1).
  assert (Ht1 : message_at m1 msg t).
  { destruct t as [t|]; [|done]. destruct Ht as (? & ? & ? & ?). split; [done|]. split; [by eapply cstr_same|done]. }
  destruct (message_run lg m1 msg t x1 (placed_same _ _ S1 Hp) Ht1 (both_ready_after _ _ _ B1)) as (x2 & E2 & B2).
  destruct (registers_run lg m1 cr2 regs x2 (placed_same _ _ S1 Hp)) as (m3 & x3 & E3 & S3 & B3); [|by eapply both_ready_after|done|].
  { intros a Ha. apply (same_mapped _ _ S1), Hreg, Ha. }
  pose proof (same_trans _ _ _ S1 S3) as S.
  destruct (printTrace_run lg m3 path frame x3 Hlg (placed_same _ _ S Hp) (trace_path_same _ _ _ S _ Hpath)) as (x4 & E4 & B4);
    [by eapply both_ready_after|].
  exists m3, x0, x4. split; [|split; [done|split; [done|]]].
  - unfold panicInternal. rewrite (run_bind_done _ _ _ _ _ (on_devices_run _ lg _ _ _ E1)).
    rewrite (run_bind_done _ _ _ _ _ E2). by rewrite (run_bind_done _ _ _ _ _ E3).
  - eapply both_app; [exact B1|]. eapply both_app; [exact B2|]. by eapply both_app.
Qed.

(** Started in the memory [m0], [k] ends with the console cleared and [text]
    sent to both terminals; memory differs from [m] in the buffers only. *)
Definition prints_on (k : K (Logger.world (X1 * X2)) unit) (m0 m : memory) (x : X1 * X2) (lg : Logger.Logger) (text : list Z) : Prop :=
  exists m' x0 x', k (lg, (m0, x)) = Done (tt, (lg, (m', x'))) /\ same_but m m' /\
    term_clear PANIC_COLOR_FORE PANIC_COLOR_BACK x.2 = Done (tt, x0) /\ both text (x.1, x0) x'.

(** ** Theorems *)

End panic.

(** A page that is not there (bit 0 of the error code is clear) is reported as
    present, and a read (bit 1 is clear) as a write. *)
Lemma fault_words_inverted :
  fault_words 0 = ["present"; "writing"; "kernel"; "available"]%string /\
  fault_words 3 = ["missing"; "reading"; "kernel"; "available"]%string.
Proof. by split. Qed.

(** The first message has characters that are not in the glyph table. *)
Lemma first_message_not_ascii : exists moo c, funnyMessagesForMoo !! 0%nat = Some moo /\ c ∈ codes moo /\
  forall x y fore back g, Font.Draw c x y fore back g = Fault.
Proof.
  eexists _, 226. split; [reflexivity|]. split; [by apply (bool_decide_unpack _); vm_compute|].
  intros. apply Draw_outside_table. lia.
Qed.
