(* ===== verification/PanicScreen.v ===== *)
(** * Panics on the console (Panic.cpp, Devices/Graphics)

    The console on the framebuffer keeps the promises that Panics.v asks of a
    terminal: formatted text is shown and swapped to the screen, and the screen
    can be filled with a colour. *)
From S2P Require Import Prelude Words KString Printf Display Console Logging Serial Panics.
From Stdlib Require Import ZArith Lia Bool.
From stdpp Require Import base strings numbers gmap list.
#[local] Open Scope Z_scope.

(** ** The display *)

(** Memory may change, but what is mapped stays so. *)
Record stays (g g' : graphics) : Prop := {
  stays_state : g' = set_mem (mem g') g;
  stays_mapped a : is_Some (mem g !! a) -> is_Some (mem g' !! a)
}.
Lemma stays_refl g : stays g g.
Proof. split; [by destruct g|done]. Qed.
Lemma stays_trans g1 g2 g3 : stays g1 g2 -> stays g2 g3 -> stays g1 g3.
Proof. intros [E1 M1] [E2 M2]. split; [rewrite E2, E1; done|intros a Ha; by apply M2, M1]. Qed.
Lemma painted_stays fb g f g' : painted fb g f g' -> stays g g'.
Proof. intros [E _ M _]. by split. Qed.

(** The grid of the console fits, the framebuffer and the double buffer are
    mapped, and so is one more line and pixel behind the double buffer, which
    filling the screen writes. *)
Record display_ok (fb : Framebuffer) (g : graphics) : Prop := {
  display_grid : grid_fits fb;
  display_ready : Display.ready fb g;
  display_behind : mapped (mem g) (backbuffer g) (_pitch fb * _height fb + _pitch fb + 4);
  display_target : mapped (mem g) (_addr fb) (_pitch fb * _height fb);
  display_apart : _addr fb + _pitch fb * _height fb <= backbuffer g \/ backbuffer g + _pitch fb * _height fb <= _addr fb
}.

Lemma display_ok_stays fb g g' : display_ok fb g -> stays g g' -> display_ok fb g'.
Proof.
  intros [Hg [Hi Ho Hm Hb] Hs Hf Ha] [E M]. rewrite E in *.
  split; [done| |by intros a ?; apply M, Hs|by intros a ?; apply M, Hf|done]. split; try done. intros a ?. by apply M, Hb.
Qed.
(** The double buffer shows something. *)
Lemma display_shows_ready fb g : Display.ready fb g -> exists f, shows fb g f.
Proof.
  intros [_ _ Hm Hb].
  exists (fun x y => (fun i => default 0 (mem g !! (pixel_address fb (backbuffer g) x y + i))) <$> seqZ 0 (Z.of_nat (length (pixel_bytes fb 0)))).
  intros x y Hx Hy. rewrite length_fmap, length_seqZ. split; [lia|].
  destruct (pixel_place fb (backbuffer g) x y Hm Hx Hy) as (H0 & H1 & _). rewrite bytes_lookup. intros i b Hi.
  apply list_lookup_fmap_Some in Hi as (k & -> & (-> & Hlt)%lookup_seqZ). unfold pixel_address in *.
  destruct (Hb (backbuffer g + y * _pitch fb + x * getPixelWidth fb + Z.of_nat i)) as [b Eb]; [lia|].
  replace (0 + Z.of_nat i) with (Z.of_nat i) by lia. by rewrite Eb.
Qed.
Lemma display_shows fb g : display_ok fb g -> exists f, shows fb g f.
Proof. intros Hd. apply display_shows_ready, Hd. Qed.

Lemma the_info_run fb g : Display.ready fb g -> the_info g = Done (fb, g).
Proof. intros [_ Ho _ _]. unfold the_info. apply kread_done. by rewrite Ho. Qed.

Lemma swap_run fb g : display_ok fb g -> exists g', swap g = Done (tt, g') /\ stays g g' /\
  forall a, ~ _addr fb <= a < _addr fb + _pitch fb * _height fb -> mem g' !! a = mem g !! a.
Proof.
  intros [_ Hr _ Hf Ha]. destruct (swap_copies fb g Hr Hf) as (g' & E & Hs & Hin & Hout); [lia|].
  exists g'. split; [done|]. split; [|done]. split; [done|]. intros a Hm.
  destruct (decide (_addr fb <= a < _addr fb + _pitch fb * _height fb)) as [Hx|Hx]; [|by rewrite Hout].
  replace a with (_addr fb + (a - _addr fb)) by lia. rewrite Hin by lia. apply (ready_buffer _ _ Hr). lia.
Qed.

(** ** Filling the screen *)

Lemma upto_run (I : Z -> graphics -> Prop) (body : Z -> K graphics unit) last : 0 <= last < 2 ^ 32 - 1 ->
  (forall i g, 0 <= i <= last -> I i g -> exists g', body i g = Done (tt, g') /\ I (i + 1) g') ->
  forall fuel c g, 0 <= c <= last + 1 -> last + 1 - c <= Z.of_nat fuel -> I c g ->
  exists g', upto fuel c last body g = Done (tt, g') /\ I (last + 1) g'.
Proof.
  intros Hl Hbody. induction fuel as [|fuel IH]; intros c g Hc Hf Hi; cbn [upto].
  - assert (c = last + 1) as -> by lia. destruct (Z.leb_spec (last + 1) last); [lia|]. by exists g.
  - destruct (Z.leb_spec c last); [|assert (c = last + 1) as -> by lia; by exists g].
    destruct (Hbody c g ltac:(lia) Hi) as (g1 & E & Hi1). rewrite (run_bind_done _ _ _ _ _ E).
    rewrite u32_small by (unfold in_u32; lia). apply IH; [lia|lia|done].
Qed.

(** Where a pixel is put, the column and the line behind the last included. *)
Definition place (fb : Framebuffer) (base x y : Z) : Z := base + u32 (y * _pitch fb) + u32 (x * getPixelWidth fb).

Lemma place_address fb base x y : mode_ok fb -> 0 < _height fb -> 0 <= x <= _width fb -> 0 <= y <= _height fb ->
  place fb base x y = pixel_address fb base x y /\ base <= place fb base x y /\
  place fb base x y + 4 <= base + (_pitch fb * _height fb + _pitch fb + 4).
Proof.
  intros [H1 H2 H3 H4 H5 _ _ _] Hh Hx Hy. unfold place, pixel_address.
  assert (x * getPixelWidth fb <= _pitch fb) by nia. assert (0 <= _pitch fb) by nia. assert (_pitch fb <= _pitch fb * _height fb) by nia.
  rewrite !u32_small by (unfold in_u32; nia). nia.
Qed.

(** A line has no pixel and a half behind its last. *)
Definition lines_aligned (fb : Framebuffer) : Prop :=
  _pitch fb = _width fb * getPixelWidth fb \/ (_width fb + 1) * getPixelWidth fb <= _pitch fb.

(** Such a place is a pixel of the screen, or apart from all of them. *)
Lemma place_pixel fb base x y : mode_ok fb -> lines_aligned fb -> 0 < _width fb -> 0 <= x <= _width fb -> 0 <= y <= _height fb ->
  (exists x1 y1, 0 <= x1 < _width fb /\ 0 <= y1 < _height fb /\ pixel_address fb base x y = pixel_address fb base x1 y1 /\
     (x < _width fb -> y < _height fb -> x1 = x /\ y1 = y)) \/
  (~ (x < _width fb /\ y < _height fb) /\
   forall x' y', 0 <= x' < _width fb -> 0 <= y' < _height fb ->
     pixel_address fb base x y + Z.of_nat (length (pixel_bytes fb 0)) <= pixel_address fb base x' y' \/
     pixel_address fb base x' y' + Z.of_nat (length (pixel_bytes fb 0)) <= pixel_address fb base x y).
Proof.
  intros [H1 H2 H3 H4 H5 _ _ _] Ha Hw Hx Hy. unfold pixel_address, lines_aligned in *.
  assert (Hlen : Z.of_nat (length (pixel_bytes fb 0)) <= getPixelWidth fb) by (rewrite pixel_bytes_length; destruct (Z.eqb_spec (getPixelWidth fb) 4); lia).
  set (pw := getPixelWidth fb) in *. set (n := Z.of_nat _) in *. assert (0 <= n) by lia. clearbody n pw.
  destruct (decide (y < _height fb)) as [Hyh|Hyh].
  - destruct (decide (x < _width fb)) as [Hxw|Hxw].
    + left. exists x, y. split; [lia|]. split; [lia|]. by split.
    + assert (x = _width fb) as -> by lia. destruct Ha as [Ha|Ha].
      * destruct (decide (y + 1 < _height fb)) as [Hy1|Hy1].
        -- left. exists 0, (y + 1). split; [lia|]. split; [lia|]. split; [rewrite Ha; ring|lia].
        -- right. split; [lia|]. intros x' y' Hx' Hy'. right. assert (y = _height fb - 1) as -> by lia. nia.
      * right. split; [lia|]. intros x' y' Hx' Hy'. destruct (Z.lt_trichotomy y y') as [Hlt|[->|Hgt]]; [left|right|right]; nia.
  - right. split; [lia|]. assert (y = _height fb) as -> by lia. intros x' y' Hx' Hy'. right. nia.
Qed.

(** The pixels of [P] have the colour. *)
Record filled (fb : Framebuffer) (color : Z) (g0 : graphics) (P : Z -> Z -> Prop) (g : graphics) : Prop := {
  filled_stays : stays g0 g;
  filled_pixels x y : 0 <= x < _width fb -> 0 <= y < _height fb -> P x y ->
    bytes (mem g) (pixel_address fb (backbuffer g0) x y) (pixel_bytes fb color);
  filled_frame a : ~ backbuffer g0 <= a < backbuffer g0 + (_pitch fb * _height fb + _pitch fb + 4) -> mem g !! a = mem g0 !! a
}.

Lemma pixel_fill fb color g0 P g x y : display_ok fb g0 -> lines_aligned fb -> filled fb color g0 P g ->
  0 <= x <= _width fb -> 0 <= y <= _height fb ->
  exists g', pixel x y color g = Done (tt, g') /\ filled fb color g0 (fun x' y' => P x' y' \/ (x' = x /\ y' = y)) g'.
Proof.
  intros Hok Hal [Hst Hf Hfr] Hx Hy. destruct (display_ok_stays _ _ _ Hok Hst) as [[[Hw1 Hw2] [Hh1 Hh2]] [Hi Ho Hm _] Hbeh _ _].
  assert (Eb : backbuffer g = backbuffer g0) by (destruct Hst as [-> _]; done). rewrite Eb in *.
  destruct (place_address fb (backbuffer g0) x y Hm ltac:(lia) Hx Hy) as (Epl & Hlo & Hhi).
  assert (Hlen : Z.of_nat (length (pixel_bytes fb color)) = if getPixelWidth fb =? 4 then 4 else 3)
    by (rewrite pixel_bytes_length; by destruct (getPixelWidth fb =? 4)).
  assert (Hlen0 : length (pixel_bytes fb color) = length (pixel_bytes fb 0)) by by rewrite !pixel_bytes_length.
  exists (set_mem (put (pixel_address fb (backbuffer g0) x y) (pixel_bytes fb color) (mem g)) g). split.
  - rewrite <- Epl. unfold place. rewrite <- Eb. apply pixel_put; try done; try lia. rewrite Eb. fold (place fb (backbuffer g0) x y).
    intros a Ha. apply Hbeh. destruct (getPixelWidth fb =? 4); lia.
  - split.
    + eapply stays_trans; [exact Hst|]. split; [done|]. cbn [mem set_mem]. intros a Ha. by apply put_mapped.
    + intros x' y' Hx' Hy' HP. cbn [mem set_mem].
      destruct (place_pixel fb (backbuffer g0) x y Hm Hal ltac:(lia) Hx Hy) as [(x1 & y1 & Hx1 & Hy1 & -> & Hin)|[Hout Hap]].
      * destruct (decide ((x', y') = (x1, y1))) as [[= -> ->]|Hne]; [apply put_bytes|].
        apply (bytes_ext (mem g)).
        { intros a Ha. apply put_out. destruct (pixel_apart fb (backbuffer g0) x1 y1 x' y' Hm Hx1 Hx' ltac:(congruence)); lia. }
        apply Hf; [done|done|]. destruct HP as [HP|[-> ->]]; [done|]. exfalso. destruct Hin; [lia..|]. subst. done.
      * apply (bytes_ext (mem g)). { intros a Ha. apply put_out. destruct (Hap x' y' Hx' Hy'); lia. }
        apply Hf; [done|done|]. destruct HP as [HP|[-> ->]]; [done|]. exfalso. lia.
    + intros a Ha. cbn [mem set_mem]. rewrite put_out; [by apply Hfr|]. destruct (getPixelWidth fb =? 4); lia.
Qed.

Lemma filled_weaken fb color g0 (P Q : Z -> Z -> Prop) g : (forall x y, 0 <= x < _width fb -> 0 <= y < _height fb -> Q x y -> P x y) ->
  filled fb color g0 P g -> filled fb color g0 Q g.
Proof. intros H [Hs Hf Hfr]. split; [done| |done]. intros x y Hx Hy HQ. by apply Hf, H. Qed.

(** The rectangle of the whole screen. *)
Lemma putrect_run fb color g fuel : display_ok fb g -> lines_aligned fb -> _width fb < 2 ^ 32 - 1 -> _height fb < 2 ^ 32 - 1 ->
  _width fb < Z.of_nat fuel -> _height fb < Z.of_nat fuel ->
  exists g', putrect fuel 0 0 (_width fb) (_height fb) color g = Done (tt, g') /\ stays g g' /\
    shows fb g' (fun _ _ => pixel_bytes fb color) /\
    forall a, ~ backbuffer g <= a < backbuffer g + (_pitch fb * _height fb + _pitch fb + 4) ->
      ~ _addr fb <= a < _addr fb + _pitch fb * _height fb -> mem g' !! a = mem g !! a.
Proof.
  intros Hok Hal Hw Hh Hfw Hfh. pose proof (display_grid _ _ Hok) as [[Hw1 _] [Hh1 _]].
  pose proof (display_ready _ _ Hok) as [Hi _ _ _].
  destruct (upto_run (fun c g1 => filled fb color g (fun x' _ => x' < c) g1)
    (fun curr_x => upto fuel 0 (_height fb) (fun curr_y => pixel curr_x curr_y color)) (_width fb) ltac:(lia)) with (fuel := fuel) (c := 0) (g := g)
    as (g1 & E1 & [Hs1 Hf1 Hfr]); [|lia|lia|split; [apply stays_refl|intros; lia|done]|].
  { intros x g1 Hx Hg1.
    destruct (upto_run (fun c g1 => filled fb color g (fun x' y' => x' < x \/ (x' = x /\ y' < c)) g1)
      (fun curr_y => pixel x curr_y color) (_height fb) ltac:(lia)) with (fuel := fuel) (c := 0) (g := g1)
      as (g2 & E2 & Hg2); [|lia|lia| |].
    - intros y g2 Hy Hg2. destruct (pixel_fill fb color g _ g2 x y Hok Hal Hg2 Hx Hy) as (g3 & E3 & Hg3).
      exists g3. split; [done|]. eapply filled_weaken; [|exact Hg3]. intros x' y' _ _. cbv beta. lia.
    - eapply filled_weaken; [|exact Hg1]. intros x' y' _ Hy'. cbv beta. lia.
    - exists g2. split; [done|]. eapply filled_weaken; [|exact Hg2]. intros x' y' _ Hy'. cbv beta. lia. }
  destruct (swap_run fb g1 (display_ok_stays _ _ _ Hok Hs1)) as (g' & E' & Hs' & Hout).
  exists g'. split; [|split; [by eapply stays_trans|split; [|intros a Ha Ha'; by rewrite Hout, Hfr]]].
  - unfold putrect. rewrite (run_bind_done _ _ g true g) by (unfold kgets; by rewrite Hi). cbn [negb].
    rewrite !Z.add_0_l, !u32_small by (unfold in_u32; lia). by rewrite (run_bind_done _ _ _ _ _ E1).
  - intros x y Hx Hy. split; [by rewrite !pixel_bytes_length|].
    assert (Eb : backbuffer g1 = backbuffer g /\ backbuffer g' = backbuffer g) by (destruct Hs1 as [E _], Hs' as [E2 _]; by rewrite E2, E).
    destruct Eb as [Eb1 Eb2]. rewrite Eb2.
    apply (bytes_ext (mem g1)); [|by apply Hf1; [..|lia]]. intros a Ha. apply Hout.
    pose proof (display_apart _ _ Hok). pose proof (ready_mode _ _ (display_ready _ _ Hok)) as Hm.
    destruct (pixel_place fb (backbuffer g) x y Hm Hx Hy) as (H0 & H1 & _).
    rewrite pixel_bytes_length in Ha, H1. unfold pixel_address in Ha. destruct (getPixelWidth fb =? 4); lia.
Qed.

(** ** The console as a terminal *)

(** [O] has been printed: the operations it stands for have been done, and the
    double buffer was copied to the screen. *)
Definition printed (O : list Z) (s s' : tty * graphics) : Prop := exists ops v g1,
  Forall op_ok ops /\ O = ops ≫= op_text /\ do_ops ops (view s.1) s.2 = Done (v, g1) /\
  view s'.1 = v /\ swap g1 = Done (tt, s'.2).
Inductive printed_all : list Z -> tty * graphics -> tty * graphics -> Prop :=
  | printed_nil s : printed_all [] s s
  | printed_more l1 l2 s s1 s2 : printed l1 s s1 -> printed_all l2 s1 s2 -> printed_all (l1 ++ l2) s s2.

Lemma printed_all_app l1 l2 s s1 s2 : printed_all l1 s s1 -> printed_all l2 s1 s2 -> printed_all (l1 ++ l2) s s2.
Proof. induction 1; [done|]. intros H2. rewrite <- app_assoc. eapply printed_more; [done|by apply IHprinted_all]. Qed.
Lemma printed_one l s s' : printed l s s' -> printed_all l s s'.
Proof. intros H. rewrite <- (app_nil_r l). by eapply printed_more; [|apply printed_nil]. Qed.

Section screen.
(** The framebuffer that is registered is the one that is drawn on. *)
Context (fb : Framebuffer).

Record console_ready (s : tty * graphics) : Prop := {
  console_display : display_ok fb s.2;
  console_lines : lines_aligned fb;
  console_size : _width fb < 2 ^ 32 - 1 /\ _height fb < 2 ^ 32 - 1;
  console_rest : at_rest s.1;
  console_cursor : on_screen (view s.1);
  console_free : locked s.1 = false
}.

Lemma console_printf_ok m fmt args O s : means m fmt args O -> terminal_text O -> console_ready s ->
  exists s', Console.printf fmt args (m, s) = Done (Z.of_nat (length O), (m, s')) /\ printed_all O s s' /\ console_ready s'.
Proof.
  intros (its & strs & rest & H1 & H2 & H3 & H4 & H5) (_ & ops & Hok & Hon & ->) [Hd Hl Hsz Hr Hv Hf]. destruct s as [t g]. cbn [fst snd] in *.
  destruct (display_shows fb g Hd) as [f Hs].
  destruct (do_ops_paint fb ops (view t) f g (display_grid _ _ Hd) (display_ready _ _ Hd) Hs Hv Hok Hon) as (g1 & E1 & Hp & Hv1).
  assert (Hb : in_bytes (view t)) by (destruct Hv as [[??] [??]]; split; lia).
  destruct (vprintf_ops_run display_debug ops fmt its args strs rest m t g _ g1 H1 H2 H3 H4 H5 Hok Hr Hb Hf E1) as (t' & E2 & [Ev Hr' Hl']).
  pose proof (display_ok_stays _ _ _ Hd (painted_stays _ _ _ _ Hp)) as Hd1.
  destruct (swap_run fb g1 Hd1) as (g2 & E3 & Hs2 & _).
  exists (t', g2). split; [|split].
  - unfold Console.printf. rewrite (run_bind_done _ _ _ _ _ E2). rewrite (run_bind_done _ _ _ tt (m, (t', g2))); [done|].
    unfold screen, kzoom. change (@screen_swap graphics display_screen) with swap. cbn [snd fst]. by rewrite E3.
  - apply printed_one. by exists ops, (paint_ops fb ops (view t) f).1, g1.
  - split; cbn [fst snd]; try done; [by eapply display_ok_stays|by rewrite Ev|by rewrite Hl'].
Qed.

#[export] Instance console_terminal : Terminal (tty * graphics).
Proof.
  refine {| term_printf := Console.printf; term_ready := console_ready; sent := printed_all |}.
  - apply printed_nil.
  - apply printed_all_app.
  - apply console_printf_ok.
Defined.

(** [putrect] over the whole screen, then [Console::reset]. *)
Definition fill_screen (fore back : Z) : K (tty * graphics) unit :=
  screen (putrect (Z.to_nat (_width fb + _height fb + 1)) 0 0 (_width fb) (_height fb) back) ;; reset_to fore back.

Lemma fill_screen_run fore back s : console_ready s ->
  exists s', fill_screen fore back s = Done (tt, s') /\ console_ready s' /\
    shows fb s'.2 (fun _ _ => pixel_bytes fb back) /\ view s'.1 = mkTerminal (mkCursor 0 0) (mkColors back fore back fore) (mark (view s.1)).
Proof.
  intros [Hd Hl Hsz Hr Hv Hf]. destruct s as [t g]. cbn [fst snd] in *. pose proof (display_grid _ _ Hd) as [[Hw _] [Hh _]].
  destruct (putrect_run fb back g (Z.to_nat (_width fb + _height fb + 1)) Hd Hl) as (g' & E & Hs & Hsh & _); [lia..|].
  exists (set_colors (mkColors back fore back fore) (set_cursor (mkCursor 0 0) t), g'). split; [|split; [|split; [exact Hsh|reflexivity]]].
  - unfold fill_screen. rewrite (run_bind_done _ _ _ tt (t, g')); [done|]. unfold screen, kzoom. cbn [fst snd]. by rewrite E.
  - split; cbn [fst snd]; try done; [by eapply display_ok_stays|by destruct Hr|].
    destruct Hv as [_ Hm]. split; [|done]. split; cbn; lia.
Qed.

#[export] Instance console_clears : Clears (tty * graphics).
Proof.
  refine {| term_clear := fill_screen |}. intros fore back s Hs. destruct (fill_screen_run fore back s Hs) as (s' & E & Hr & _).
  by exists s'.
Defined.
End screen.

(** ** Behind the double buffer *)

Lemma upto_fault (I : Z -> graphics -> Prop) (body : Z -> K graphics unit) last k : 0 <= k <= last -> last < 2 ^ 32 - 1 ->
  (forall i g, 0 <= i < k -> I i g -> exists g', body i g = Done (tt, g') /\ I (i + 1) g') ->
  (forall g, I k g -> body k g = Fault) ->
  forall fuel c g, 0 <= c <= k -> k - c < Z.of_nat fuel -> I c g -> upto fuel c last body g = Fault.
Proof.
  intros Hk Hl Hbody Hfault. induction fuel as [|fuel IH]; intros c g Hc Hf Hi; cbn [upto]; [lia|].
  destruct (Z.leb_spec c last); [|lia]. destruct (decide (c = k)) as [->|Hne].
  - rewrite run_bind. by rewrite Hfault.
  - destruct (Hbody c g ltac:(lia) Hi) as (g1 & E & Hi1). rewrite (run_bind_done _ _ _ _ _ E).
    rewrite u32_small by (unfold in_u32; lia). apply IH; [lia|lia|done].
Qed.

Lemma putrect_faults fb color g fuel : Display.ready fb g -> 0 < _width fb < 2 ^ 32 - 1 -> 0 < _height fb < 2 ^ 32 - 1 ->
  _height fb < Z.of_nat fuel -> mem g !! (backbuffer g + _pitch fb * _height fb) = None ->
  putrect fuel 0 0 (_width fb) (_height fb) color g = Fault.
Proof.
  intros Hr Hw Hh Hf Hnone. pose proof Hr as [Hi _ _ _].
  unfold putrect. rewrite (run_bind_done _ _ g true g) by (unfold kgets; by rewrite Hi). cbn [negb].
  rewrite !Z.add_0_l, !u32_small by (unfold in_u32; lia). rewrite run_bind.
  rewrite (upto_fault (fun c g1 => g1 = g) _ (_width fb) 0); try done; try lia.
  intros ? ->. apply (upto_fault (fun c g1 => g1 = set_mem (mem g1) g /\ Display.ready fb g1 /\
    mem g1 !! (backbuffer g + _pitch fb * _height fb) = None) _ (_height fb) (_height fb)); try lia.
  - intros y g1 Hy (E & Hr1 & Hn). rewrite (pixel_run fb g1 0 y color Hr1) by lia. eexists. split; [done|].
    destruct (pixel_place fb (backbuffer g1) 0 y (ready_mode _ _ Hr1) ltac:(lia) Hy) as (H0 & H1 & _).
    rewrite pixel_bytes_length in H1. cbn [mem set_mem]. split; [by rewrite E|]. split.
    + destruct Hr1 as [A B C D]. split; try done. intros a Ha. cbn [mem set_mem]. by apply put_mapped, D.
    + rewrite put_out; [done|]. rewrite pixel_bytes_length. unfold pixel_address. rewrite E. cbn [backbuffer set_mem].
      destruct (getPixelWidth fb =? 4); lia.
  - intros g1 (E & Hr1 & Hn). assert (Eb : backbuffer g1 = backbuffer g) by by rewrite E.
    destruct (display_shows_ready fb g1 Hr1) as [f Hs].
    destruct (pixel_correct fb g1 f 0 (_height fb) color Hr1 Hs) as (_ & _ & _ & _ & H); [lia..|]. apply H; [done|done|by rewrite Eb].
  - split; [by destruct g|done].
Qed.

(** ** Theorems *)

(** C33. Filling the screen as a panic does, [putrect(0, 0, width, height)],
    gives every pixel the colour and copies the double buffer to the screen;
    besides these two it changes at most the line and four bytes behind the
    double buffer.  The allocated buffer ends before them: where nothing else
    is mapped there the fill does not end but faults. *)
Theorem screen_is_filled fb color g fuel : 0 < _width fb < 2 ^ 32 - 1 -> 0 < _height fb < 2 ^ 32 - 1 ->
  _width fb < Z.of_nat fuel -> _height fb < Z.of_nat fuel -> Display.ready fb g ->
  (display_ok fb g -> lines_aligned fb ->
   exists g', putrect fuel 0 0 (_width fb) (_height fb) color g = Done (tt, g') /\
     g' = set_mem (mem g') g /\ shows fb g' (fun _ _ => pixel_bytes fb color) /\
     forall a, ~ backbuffer g <= a < backbuffer g + (_pitch fb * _height fb + _pitch fb + 4) ->
       ~ _addr fb <= a < _addr fb + _pitch fb * _height fb -> mem g' !! a = mem g !! a) /\
  (mem g !! (backbuffer g + _pitch fb * _height fb) = None ->
   putrect fuel 0 0 (_width fb) (_height fb) color g = Fault).
Proof.
  intros Hw Hh Hfw Hfh Hr. split.
  - intros Hok Hal. destruct (putrect_run fb color g fuel Hok Hal) as (g' & E & [Hs _] & Hsh & Hout); [lia..|]. by exists g'.
  - intros Hn. apply putrect_faults; done || lia.
Qed.

(** ** A kernel that panics

    The strings, the stack and the buffers; COM1 and a screen of 648 by 208
    pixels of four bytes with memory behind its double buffer. *)
Definition literal_at (s : string) : Z :=
  match list_find (eq s) panic_literals with Some (i, _) => 512 * (Z.of_nat i + 1) | None => 0 end.
Definition panic_memory : memory :=
  foldr (fun p m => <[p.1 := p.2]> m)
    (blank 100000 256 (blank 101000 512 (memory_with ((fun s => (literal_at s, s)) <$> panic_literals))))
    ((fun p => (200000 + Z.of_nat p.1, p.2)) <$> imap pair [0x48; 0x0D; 3; 0; 0x2A; 0; 0x10; 0xC0; 0; 0; 0; 0; 0x07; 0; 0x10; 0xC0]).
Definition panic_graphics : graphics :=
  mkG (demo_block 0 541736 0 (demo_block 0x1000000 539136 0 ∅)) (Some console_fb) 0 true [].
Definition page_fault : registers := mkRegisters 0x10 1 2 3 0 4 5 6 7 14 2 0xC0100000 8 0x202 0xC0103000 0x10.

Lemma panic_display : display_ok console_fb panic_graphics.
Proof.
  assert (Hm : mode_ok console_fb) by (split; vm_compute; (split; congruence) || congruence).
  assert (Hb : forall a, 0 <= a < 541736 -> is_Some (mem panic_graphics !! a)).
  { intros a Ha. exists 0. unfold panic_graphics. cbn [mem]. apply demo_block_in. lia. }
  split.
  - split; vm_compute; split; congruence.
  - split; [reflexivity|reflexivity|exact Hm|]. intros a Ha. apply Hb. cbn [console_fb _pitch _height backbuffer panic_graphics] in Ha. lia.
  - intros a Ha. apply Hb. cbn [console_fb _pitch _height backbuffer panic_graphics] in Ha. lia.
  - intros a Ha. exists 0. unfold panic_graphics. cbn [mem]. cbn [console_fb _addr _pitch _height] in Ha.
    rewrite demo_block_out by lia. apply demo_block_in. lia.
  - right. cbn [backbuffer panic_graphics _addr _pitch _height console_fb]. lia.
Qed.

Lemma screen_is_filled_witness : exists g', putrect 1000 0 0 648 208 0x2D2D2D panic_graphics = Done (tt, g') /\
  shows console_fb g' (fun _ _ => [0x2D; 0x2D; 0x2D; 0]).
Proof.
  destruct (screen_is_filled console_fb 0x2D2D2D panic_graphics 1000) as [H _].
  - cbn. lia.
  - cbn. lia.
  - cbn. lia.
  - cbn. lia.
  - exact (display_ready _ _ panic_display).
  - destruct H as (g' & E & _ & Hs & _); [exact panic_display|left; reflexivity|]. exists g'. split; [exact E|exact Hs].
Defined.

Lemma panic_memory_placed : placed literal_at 100000 101000 panic_memory.
Proof.
  assert (Hall : forallb (fun s => negb (literal_at s =? 0) && (bool_decide (read_string panic_memory (literal_at s) (Z.of_nat (length (codes s)) + 1) = codes s ++ [0]) &&
    forallb (fun a => bool_decide (is_Some (panic_memory !! a))) (seqZ (literal_at s) (Z.of_nat (length (codes s)) + 1)) &&
    forallb (fun c => (0 <? c) && (c <? 256)) (codes s)) && (literal_at s + Z.of_nat (length (codes s)) + 1 <=? 100000)) panic_literals = true)
    by (vm_compute; reflexivity).
  rewrite forallb_forall in Hall. apply Forall_forall. intros s Hs%list_elem_of_In%Hall.
  apply andb_true_iff in Hs as [[H0 Hc]%andb_true_iff Hl%Z.leb_le]. apply negb_true_iff, Z.eqb_neq in H0.
  split; [done|]. split; [by apply cstr_test|]. unfold clear. lia.
Qed.

(** The serial line and the console as they are after booting. *)
Definition panic_terminals : RS232.serial * (tty * graphics) := (RS232.boot_serial, (initial_tty, panic_graphics)).
Definition panic_logger : Logger.Logger := Logger.set_writers 1 [88; 0] (Logger.Logger_new Logger.DEBUG 2000).
Definition always_free : nat -> Z -> Z := fun _ _ => 0x20.

Lemma panic_machine_ready : panic_ready (T1 := serial_terminal always_free 0) (T2 := console_terminal console_fb)
  literal_at 100000 101000 88 panic_memory panic_terminals panic_logger.
Proof.
  split.
  - exact panic_memory_placed.
  - apply mapped_by_test. vm_compute. reflexivity.
  - apply mapped_by_test. vm_compute. reflexivity.
  - split.
    + intros n. exists 0%nat. split; [lia|]. vm_compute. discriminate.
    + split; cbn [panic_terminals fst snd]; [exact panic_display|left; reflexivity|cbn; lia|by split|split; split; vm_compute; split; congruence|reflexivity].
  - split; [done|]. by split.
Qed.

