(* ===== verification/Demos.v ===== *)
(** * The demonstration tasks (Applications/animation.cpp, spinner.cpp)

    [testAnimation] and [spinner] are endless loops; they are modelled by any
    number of their rounds.  What [putrect] paints inside of the screen, what
    the screen shows after each frame, and that the spinner leaves the console
    to the other tasks as it was. *)
From S2P Require Import Prelude Words KString Printf Display Console Panics PanicScreen.
From Stdlib Require Import ZArith Lia Bool.
From stdpp Require Import base strings numbers functions gmap list.
#[local] Open Scope Z_scope.

(** ** Rectangles

    [putrect] paints one column and one line more than its arguments say. *)
Definition rectangle (f : picture) (x y w h : Z) (l : list Z) : picture := fun px py =>
  if (x <=? px) && (px <=? x + w) && (y <=? py) && (py <=? y + h) then l else f px py.

(** The screen, apart from the double buffer. *)
Record on_display (fb : Framebuffer) (g : graphics) : Prop := {
  od_ready : Display.ready fb g;
  od_target : mapped (mem g) (_addr fb) (_pitch fb * _height fb);
  od_apart : backbuffer g + _pitch fb * _height fb <= _addr fb \/ _addr fb + _pitch fb * _height fb <= backbuffer g;
}.
(** What can be seen. *)
Definition screen_shows (fb : Framebuffer) (g : graphics) (f : picture) : Prop :=
  forall x y, 0 <= x < _width fb -> 0 <= y < _height fb -> bytes (mem g) (pixel_address fb (_addr fb) x y) (f x y).

(** One round of [testAnimation]: the new value of [x]. *)
Definition frame (fuel : nat) (x : Z) : K graphics Z :=
  let x := if x >? 250 then 10 else x in
  resetDoubleBuffer ;;
  putrect fuel 0 0 280 280 0x00FFFF ;;
  x ← (if x + 10 <=? INT_MAX then mret (x + 10) else kfault) ;
  putrect fuel (u32 x) 10 10 10 0xFF0000 ;;
  putrect fuel 50 30 10 10 0xFFFF00 ;;
  swap ;;
  mret x.
(** [n] rounds. *)
Fixpoint frames (n : nat) (fuel : nat) (x : Z) : K graphics Z :=
  match n with O => mret x | S n' => x ← frame fuel x ; frames n' fuel x end.
Definition testAnimation (n fuel : nat) : K graphics Z := frames n fuel 10.

(** Where the snake is after a round. *)
Definition next_x (x : Z) : Z := if x >? 250 then 20 else x + 10.
Definition snake (n : nat) : Z := 20 + 10 * (Z.of_nat n mod 25).

Section animation.
Context (fb : Framebuffer).
Implicit Type g : graphics.

Lemma on_display_stays g g' : on_display fb g -> stays g g' -> on_display fb g'.
Proof.
  intros [[Hi Ho Hm Hb] Ht Ha] [E M]. rewrite E in *. split; [split|..]; try done.
  - intros a Hin. by apply M, Hb.
  - intros a Hin. by apply M, Ht.
Qed.

(** Counting up as [for (c = a; c <= last; c++)] does, from any start. *)
Lemma upto_from (I : Z -> graphics -> Prop) (body : Z -> K graphics unit) first last : 0 <= first <= last -> last < 2 ^ 32 - 1 ->
  (forall i g, first <= i <= last -> I i g -> exists g', body i g = Done (tt, g') /\ I (i + 1) g') ->
  forall fuel g, last + 1 - first <= Z.of_nat fuel -> I first g ->
  exists g', upto fuel first last body g = Done (tt, g') /\ I (last + 1) g'.
Proof.
  intros Hf Hl Hbody fuel g Hn Hi.
  destruct (upto_run (fun i g => first <= i /\ I i g) body last ltac:(lia)) with (fuel := fuel) (c := first) (g := g)
    as (g' & E & _ & H'); [|lia|lia|by split|by exists g'].
  intros i g1 Hir [Hge Hi1]. destruct (Hbody i g1 ltac:(lia) Hi1) as (g2 & E & H2). exists g2. split; [done|]. split; [lia|done].
Qed.

(** [swap] shows what the double buffer shows. *)
Lemma swap_shows f g : on_display fb g -> shows fb g f ->
  exists g', swap g = Done (tt, g') /\ stays g g' /\ shows fb g' f /\ screen_shows fb g' f.
Proof.
  intros [Hr Ht Ha] Hs. pose proof (ready_mode _ _ Hr) as Hm. destruct (swap_copies fb g Hr Ht Ha) as (g' & E & Eg & Hin & Hout).
  assert (Eb : backbuffer g' = backbuffer g) by by rewrite Eg.
  assert (Hst : stays g g').
  { split; [done|]. intros a Hm'. destruct (decide (_addr fb <= a < _addr fb + _pitch fb * _height fb)) as [Hx|Hx]; [|by rewrite Hout].
    replace a with (_addr fb + (a - _addr fb)) by lia. rewrite Hin by lia. apply (ready_buffer _ _ Hr). lia. }
  exists g'. split; [done|]. split; [done|]. split; intros x y Hx Hy; destruct (Hs x y Hx Hy) as [Hl Hb].
  - split; [done|]. rewrite Eb. apply (bytes_ext (mem g)); [|done]. intros a Hin'. apply Hout.
    destruct (pixel_place fb (backbuffer g) x y Hm Hx Hy) as (H0 & H1 & _). unfold pixel_address in Hin'. rewrite Hl in Hin'. lia.
  - destruct (pixel_place fb (backbuffer g) x y Hm Hx Hy) as (H0 & H1 & _).
    rewrite bytes_lookup in Hb |- *. intros i b Hi. rewrite <- (Hb i b Hi). unfold pixel_address in *.
    apply lookup_lt_Some in Hi. rewrite Hl in Hi.
    replace (_addr fb + y * _pitch fb + x * getPixelWidth fb + Z.of_nat i) with (_addr fb + (y * _pitch fb + x * getPixelWidth fb + Z.of_nat i)) by lia.
    rewrite Hin by lia. f_equal. lia.
Qed.

(** The rectangle up to column [cx], and of that column up to line [cy]. *)
Definition part (f : picture) (x y h : Z) (l : list Z) (cx cy : Z) : picture := fun px py =>
  if ((x <=? px) && (px <? cx) && (y <=? py) && (py <=? y + h)) || ((px =? cx) && (y <=? py) && (py <? cy)) then l else f px py.

(** A rectangle inside of the screen. *)
Lemma putrect_paints f g x y w h color fuel : on_display fb g -> shows fb g f ->
  0 <= x -> 0 <= w -> x + w < _width fb -> 0 <= y -> 0 <= h -> y + h < _height fb ->
  w < Z.of_nat fuel -> h < Z.of_nat fuel ->
  exists g', putrect fuel x y w h color g = Done (tt, g') /\ stays g g' /\
    shows fb g' (rectangle f x y w h (pixel_bytes fb color)) /\ screen_shows fb g' (rectangle f x y w h (pixel_bytes fb color)).
Proof.
  intros Hd Hs Hx Hw Hxw Hy Hh Hyh Hfw Hfh. pose proof (od_ready _ _ Hd) as Hr.
  assert (Hsize : _width fb < 2 ^ 31 /\ _height fb < 2 ^ 31).
  { destruct (ready_mode _ _ Hr) as [H1 H2 H3 H4 H5 _ _ _]. split; nia. }
  set (l := pixel_bytes fb color). set (I := fun cx cy g1 => painted fb g (part f x y h l cx cy) g1).
  assert (Hext : forall cx cy cx' cy' g1, I cx cy g1 ->
    (forall px py, part f x y h l cx' cy' px py = part f x y h l cx cy px py) -> I cx' cy' g1).
  { intros cx cy cx' cy' g1 Hp He. eapply painted_ext; [exact Hp|]. intros px py _ _. apply He. }
  destruct (upto_from (fun cx => I cx y) (fun cx => upto fuel y (u32 (y + h)) (fun cy => pixel cx cy color)) x (x + w))
    with (fuel := fuel) (g := g) as (g1 & E1 & H1); [lia|lia| |lia| |].
  - intros cx g1 Hcx Hg1. rewrite u32_small by (unfold in_u32; lia).
    destruct (upto_from (fun cy => I cx cy) (fun cy => pixel cx cy color) y (y + h)) with (fuel := fuel) (g := g1)
      as (g2 & E2 & H2); [lia|lia| |lia|exact Hg1|].
    + intros cy g2 Hcy Hg2. destruct (pixel_painted fb g _ g2 cx cy color Hr Hg2 ltac:(lia) ltac:(lia)) as (g3 & E3 & H3).
      exists g3. split; [done|]. eapply painted_ext; [exact H3|]. intros px py _ _. unfold part, repaint. fold l.
      destruct (Z.leb_spec x px), (Z.ltb_spec px cx), (Z.leb_spec y py), (Z.leb_spec py (y + h)), (Z.eqb_spec px cx),
        (Z.ltb_spec py (cy + 1)), (Z.ltb_spec py cy), (Z.eqb_spec py cy); cbn [andb orb]; (reflexivity || lia).
    + exists g2. split; [done|]. eapply Hext; [exact H2|]. intros px py. unfold part.
      destruct (Z.leb_spec x px), (Z.ltb_spec px (cx + 1)), (Z.ltb_spec px cx), (Z.leb_spec y py), (Z.leb_spec py (y + h)), (Z.eqb_spec px (cx + 1)),
        (Z.eqb_spec px cx), (Z.ltb_spec py y), (Z.ltb_spec py (y + h + 1)); cbn [andb orb]; (reflexivity || lia).
  - eapply painted_ext; [by apply painted_refl|]. intros px py _ _. unfold part.
    destruct (Z.leb_spec x px), (Z.ltb_spec px x), (Z.leb_spec y py), (Z.ltb_spec py y); cbn [andb orb]; rewrite ?andb_false_r; (reflexivity || lia).
  - pose proof (painted_stays _ _ _ _ H1) as Hst.
    assert (Hs1 : shows fb g1 (rectangle f x y w h l)).
    { apply (painted_shows fb g). eapply painted_ext; [exact H1|]. intros px py _ _. unfold part, rectangle.
      destruct (Z.leb_spec x px), (Z.ltb_spec px (x + w + 1)), (Z.leb_spec px (x + w)), (Z.leb_spec y py), (Z.leb_spec py (y + h)),
        (Z.eqb_spec px (x + w + 1)), (Z.ltb_spec py y); cbn [andb orb]; (reflexivity || lia). }
    destruct (swap_shows _ g1 (on_display_stays _ _ Hd Hst) Hs1) as (g2 & E2 & Hst2 & H2 & H3).
    exists g2. split; [|split; [by eapply stays_trans|by split]]. unfold putrect.
    rewrite (run_bind_done _ _ g true g) by (unfold kgets; by rewrite (ready_initialized _ _ Hr)). cbn [negb].
    rewrite u32_small by (unfold in_u32; lia). by rewrite (run_bind_done _ _ _ _ _ E1).
Qed.

(** A frame of the animation. *)
Definition scene (x : Z) : picture :=
  let black := fun _ _ => replicate (length (pixel_bytes fb 0)) 0 in
  rectangle (rectangle (rectangle black 0 0 280 280 (pixel_bytes fb 0x00FFFF)) x 10 10 10 (pixel_bytes fb 0xFF0000))
    50 30 10 10 (pixel_bytes fb 0xFFFF00).

Lemma frame_shows g x fuel : on_display fb g -> 280 < _width fb -> 280 < _height fb -> (280 < fuel)%nat -> 10 <= x <= 260 ->
  exists g', frame fuel x g = Done (next_x x, g') /\ stays g g' /\ screen_shows fb g' (scene (next_x x)).
Proof.
  intros Hd Hw Hh Hf Hx. pose proof (od_ready _ _ Hd) as Hr. pose proof (ready_mode _ _ Hr) as Hm.
  assert (Hn : 0 <= _pitch fb * _height fb).
  { destruct Hm as [H1 H2 H3 H4 _ _ _ _]. assert (0 <= _width fb * getPixelWidth fb) by (apply Z.mul_nonneg_nonneg; lia).
    apply Z.mul_nonneg_nonneg; lia. }
  destruct (resetDoubleBuffer_blanks fb g Hr Hn) as (g1 & E1 & Eg1 & Hm1).
  assert (Hst1 : stays g g1).
  { split; [done|]. intros a Ha. rewrite Hm1. destruct ((backbuffer g <=? a) && _); [by eexists|done]. }
  assert (Eb : backbuffer g1 = backbuffer g) by by rewrite Eg1.
  assert (Hs1 : shows fb g1 (fun _ _ => replicate (length (pixel_bytes fb 0)) 0)).
  { apply (zeros_show_black fb g1 Hm). intros a Ha. rewrite Hm1, <- Eb. decide_ranges. done. }
  destruct (putrect_paints _ g1 0 0 280 280 0x00FFFF fuel (on_display_stays _ _ Hd Hst1) Hs1) as (g2 & E2 & Hst2 & Hs2 & _); [lia..|].
  pose proof (stays_trans _ _ _ Hst1 Hst2) as T2.
  assert (Hnx : 20 <= next_x x <= 260) by (unfold next_x; destruct (Z.gtb_spec x 250); lia).
  destruct (putrect_paints _ g2 (next_x x) 10 10 10 0xFF0000 fuel (on_display_stays _ _ Hd T2) Hs2) as (g3 & E3 & Hst3 & Hs3 & _); [lia..|].
  pose proof (stays_trans _ _ _ T2 Hst3) as T3.
  destruct (putrect_paints _ g3 50 30 10 10 0xFFFF00 fuel (on_display_stays _ _ Hd T3) Hs3) as (g4 & E4 & Hst4 & Hs4 & _); [lia..|].
  pose proof (stays_trans _ _ _ T3 Hst4) as T4.
  destruct (swap_shows _ g4 (on_display_stays _ _ Hd T4) Hs4) as (g5 & E5 & Hst5 & _ & Hs5).
  exists g5. split; [|split; [by eapply stays_trans|exact Hs5]].
  unfold frame. cbv zeta. rewrite (run_bind_done _ _ _ _ _ E1), (run_bind_done _ _ _ _ _ E2).
  assert (Ex : (if x >? 250 then 10 else x) + 10 = next_x x) by (unfold next_x; by destruct (x >? 250)).
  rewrite Ex. destruct (Z.leb_spec (next_x x) INT_MAX); [|unfold INT_MAX in *; lia].
  rewrite (run_bind_done _ _ _ (next_x x) g2) by done. rewrite u32_small by (unfold in_u32; lia).
  by rewrite (run_bind_done _ _ _ _ _ E3), (run_bind_done _ _ _ _ _ E4), (run_bind_done _ _ _ _ _ E5).
Qed.

Lemma next_snake n : next_x (snake n) = snake (S n).
Proof.
  unfold next_x, snake. pose proof (Z.mod_pos_bound (Z.of_nat n) 25 ltac:(lia)).
  replace (Z.of_nat (S n)) with (Z.of_nat n + 1) by lia. rewrite <- (Zplus_mod_idemp_l (Z.of_nat n) 1 25).
  destruct (Z.gtb_spec (20 + 10 * (Z.of_nat n mod 25)) 250).
  - assert (Z.of_nat n mod 25 = 24) as -> by lia. reflexivity.
  - rewrite (Z.mod_small (Z.of_nat n mod 25 + 1)); lia.
Qed.

Lemma frames_app n m fuel x : forall g, frames (n + m) fuel x g = (x ← frames n fuel x ; frames m fuel x) g.
Proof.
  revert x. induction n as [|n IH]; intros x g; [done|]. cbn [frames Nat.add]. rewrite run_bind_assoc, !run_bind.
  destruct (frame fuel x g) as [[x' g']| | |]; [apply IH|done..].
Qed.

(** Any number of frames, on a screen of at least 281 by 281 pixels. *)
Lemma testAnimation_shows n fuel g : on_display fb g -> 280 < _width fb -> 280 < _height fb -> (280 < fuel)%nat ->
  exists g', testAnimation (S n) fuel g = Done (snake n, g') /\ stays g g' /\ screen_shows fb g' (scene (snake n)).
Proof.
  intros Hd Hw Hh Hf. unfold testAnimation. induction n as [|n IH].
  - destruct (frame_shows g 10 fuel Hd Hw Hh Hf) as (g' & E & H); [lia|]. exists g'. split; [|exact H].
    cbn [frames]. by rewrite (run_bind_done _ _ _ _ _ E).
  - destruct IH as (g1 & E1 & Hst & _). assert (Hsn : 10 <= snake n <= 260).
    { unfold snake. pose proof (Z.mod_pos_bound (Z.of_nat n) 25 ltac:(lia)). lia. }
    destruct (frame_shows g1 (snake n) fuel (on_display_stays _ _ Hd Hst) Hw Hh Hf Hsn) as (g2 & E2 & Hst2 & Hs2).
    exists g2. rewrite next_snake in E2, Hs2. split; [|split; [by eapply stays_trans|exact Hs2]].
    replace (S (S n)) with (S n + 1)%nat by lia. rewrite frames_app, (run_bind_done _ _ _ _ _ E1). cbn [frames].
    by rewrite (run_bind_done _ _ _ _ _ E2).
Qed.

End animation.

(** ** The spinner *)

Definition spinnay : list Z := [124; 47; 45; 92].
Definition spin_format : list item :=
  (Text <$> [ESC; 91; 115; ESC; 91; 50; 52; 59; 48; 102]) ++ [Conv false false [] [] 99] ++ (Text <$> [ESC; 91; 117]).

Section spinner.
Context {G : Type} `{Screen G}.

(** One round, the string constant being at [fmt]: the new value of [i].  Then
    the processor halts, and other tasks run. *)
Definition spin (fmt i : Z) : K (memory * (tty * G)) Z :=
  c ← kread (fun _ => match spinnay !! Z.to_nat i with Some c => Done c | None => Fault end) ;
  printf fmt [c] ;;
  mret ((i + 1) mod 4).
(** A round for each of the turns of the others. *)
Fixpoint spins (fmt : Z) (others : list (K (memory * (tty * G)) unit)) (i : Z) : K (memory * (tty * G)) Z :=
  match others with
  | [] => mret i
  | o :: others' => i ← spin fmt i ; o ;; spins fmt others' i
  end.
Definition spinner (newline fmt : Z) (others : list (K (memory * (tty * G)) unit)) : K (memory * (tty * G)) Z :=
  printf newline [] ;; spins fmt others 0.
End spinner.

(** The operations of a round. *)
Definition spin_ops (c : Z) : list op := [Save; MoveTo 102 [50; 52] [48]; Put c; Restore].

Section together.
Context (fb : Framebuffer) (Hfit : grid_fits fb).
Implicit Type m : memory.

(** The console is free, and the screen shows [f]. *)
Record console_shows (t : tty) (g : graphics) (f : picture) : Prop := {
  cs_display : on_display fb g;
  cs_buffer : shows fb g f;
  cs_screen : screen_shows fb g f;
  cs_rest : at_rest t;
  cs_cursor : on_screen (view t);
  cs_free : locked t = false;
}.

Lemma console_prints fmt args ops m t g f : means m fmt args (ops ≫= op_text) -> Forall op_ok ops -> Forall op_on_screen ops ->
  console_shows t g f ->
  exists t' g', printf fmt args (m, (t, g)) = Done (Z.of_nat (length (ops ≫= op_text)), (m, (t', g'))) /\
    console_shows t' g' (paint_ops fb ops (view t) f).2 /\ view t' = (paint_ops fb ops (view t) f).1.
Proof.
  intros (its & strs & rest & H1 & H2 & H3 & H4 & H5) Hok Hon [Hd Hs _ Hr Hv Hf].
  destruct (do_ops_paint fb ops (view t) f g Hfit (od_ready _ _ Hd) Hs Hv Hok Hon) as (g1 & E1 & Hp & Hv1).
  assert (Hb : in_bytes (view t)) by (destruct Hv as [[??] [??]]; split; lia).
  destruct (vprintf_ops_run display_debug ops fmt its args strs rest m t g _ g1 H1 H2 H3 H4 H5 Hok Hr Hb Hf E1) as (t' & E2 & [Ev Hr' Hl']).
  destruct (swap_shows fb _ g1 (on_display_stays _ _ _ Hd (painted_stays _ _ _ _ Hp)) (painted_shows _ _ _ _ Hp)) as (g2 & E3 & Hst & Hs2 & Hs3).
  exists t', g2. split; [|split; [|done]].
  - unfold Console.printf. rewrite (run_bind_done _ _ _ _ _ E2). rewrite (run_bind_done _ _ _ tt (m, (t', g2))); [done|].
    unfold screen, kzoom. change (@screen_swap graphics display_screen) with swap. cbn [snd fst]. by rewrite E3.
  - split; try done; [|by rewrite Ev|by rewrite Hl'].
    eapply on_display_stays; [exact Hd|]. eapply stays_trans; [by eapply painted_stays|done].
Qed.

(** *** The turns of the others

    What a turn does to the cursor and the colours, and what it paints. *)
Definition pen : Type := cursor * colors.
Definition pen_of (t : tty) : pen := (at_ t, paint t).
Record other := mkOther { act : K (memory * (tty * graphics)) unit; moves : pen -> pen; draws : pen -> picture -> picture }.
Definition as_told m (o : other) : Prop := forall t g f, console_shows t g f ->
  exists t' g', act o (m, (t, g)) = Done (tt, (m, (t', g'))) /\ console_shows t' g' (draws o (pen_of t) f) /\
    pen_of t' = moves o (pen_of t).

(** The spinner and the others, as the picture shows them. *)
Fixpoint spun (i : Z) (others : list other) (p : pen) (f : picture) : pen * picture :=
  match others with
  | [] => (p, f)
  | o :: others' =>
      spun ((i + 1) mod 4) others' (moves o p)
        (draws o p (draw_character fb f (nth (Z.to_nat i) spinnay 0) 0 24 (colorFore p.2) (colorBack p.2)))
  end.

Lemma spin_chars i : 0 <= i < 4 -> exists c, spinnay !! Z.to_nat i = Some c /\ nth (Z.to_nat i) spinnay 0 = c /\
  (0 < c < 128 /\ c ∉ [8; 9; 10; 13; ESC]) /\
  format_out (fun _ => None) spin_format [c] = Some (spin_ops c ≫= op_text, []).
Proof.
  intros Hi. assert (Hin : i ∈ [0; 1; 2; 3]) by (rewrite !elem_of_cons; lia). rewrite !elem_of_cons in Hin.
  destruct Hin as [->|[->|[->|[->|Hin]]]]; [..|by apply not_elem_of_nil in Hin];
    (eexists; split; [reflexivity|]; split; [reflexivity|]; split; [by apply (bool_decide_unpack _); vm_compute|reflexivity]).
Qed.

Lemma spin_round m fmt i t g f : cstr m fmt (print_format spin_format) -> 0 <= i < 4 -> console_shows t g f ->
  exists t' g', spin fmt i (m, (t, g)) = Done ((i + 1) mod 4, (m, (t', g'))) /\
    console_shows t' g' (draw_character fb f (nth (Z.to_nat i) spinnay 0) 0 24 (colorFore (paint t)) (colorBack (paint t))) /\
    pen_of t' = pen_of t.
Proof.
  intros Hc Hi Hcs. destruct (spin_chars i Hi) as (c & Ec & -> & Hcok & Ho).
  pose proof (cs_cursor _ _ _ Hcs) as [[Hx Hy] _]. cbn [view position] in Hx, Hy.
  destruct (console_prints fmt [c] (spin_ops c) m t g f) as (t' & g' & E & Hcs' & Ev); [| | |exact Hcs|].
  - exists spin_format, (fun _ => None), []. split; [|split; [exact Hc|split; [done|split; [exact Ho|]]]].
    + unfold spin_format. repeat apply Forall_cons_2; try apply Forall_nil_2; try (by split); by apply (bool_decide_unpack _); vm_compute.
    + cbn. unfold INT_MAX. lia.
  - repeat apply Forall_cons_2; try apply Forall_nil_2; try done. split; [by right|].
    split; (split; [done|]); repeat apply Forall_cons_2; try apply Forall_nil_2; vm_compute; split; congruence.
  - repeat apply Forall_cons_2; try apply Forall_nil_2; done.
  - exists t', g'. cbn in Hcs', Ev. split; [|split; [exact Hcs'|]].
    + unfold spin. rewrite (run_bind_done _ _ _ c (m, (t, g))) by (unfold kread; by rewrite Ec).
      by rewrite (run_bind_done _ _ _ _ _ E).
    + unfold view in Ev. cbn in Ev. unfold pen_of. injection Ev as Ea Ep _. rewrite Ea, Ep.
      rewrite !u8_small by lia. by destruct t as [[]].
Qed.

(** All rounds. *)
Lemma spins_together m fmt others : cstr m fmt (print_format spin_format) -> Forall (as_told m) others ->
  forall i t g f, 0 <= i < 4 -> console_shows t g f ->
  exists t' g', spins fmt (act <$> others) i (m, (t, g)) = Done ((i + Z.of_nat (length others)) mod 4, (m, (t', g'))) /\
    console_shows t' g' (spun i others (pen_of t) f).2 /\ pen_of t' = (spun i others (pen_of t) f).1.
Proof.
  intros Hc Hall. induction Hall as [|o others Ho _ IH]; intros i t g f Hi Hcs; cbn [fmap list_fmap spins spun length].
  - exists t, g. rewrite Z.add_0_r, Z.mod_small by lia. done.
  - destruct (spin_round m fmt i t g f Hc Hi Hcs) as (t1 & g1 & E1 & H1 & P1).
    destruct (Ho t1 g1 _ H1) as (t2 & g2 & E2 & H2 & P2). rewrite P1 in H2, P2.
    destruct (IH ((i + 1) mod 4) t2 g2 _ (Z.mod_pos_bound _ 4 ltac:(lia)) H2) as (t3 & g3 & E3 & H3 & P3). rewrite P2 in H3, P3.
    exists t3, g3. split; [|by split].
    rewrite (run_bind_done _ _ _ _ _ E1), (run_bind_done _ _ _ _ _ E2), E3.
    rewrite Zplus_mod_idemp_l. do 3 f_equal. lia.
Qed.

(** The cursor and the colours are those of the others alone. *)
Lemma spun_pen others : forall i p f, (spun i others p f).1 = fold_left (fun p o => moves o p) others p.
Proof. induction others as [|o others IH]; intros i p f; cbn; [done|apply IH]. Qed.

(** *** Tasks that print *)

Definition layouts (ops : list op) (v : terminal) : terminal := fold_left (fun v o => layout o v) ops v.
Lemma paint_ops_layouts ops : forall v f, (paint_ops fb ops v f).1 = layouts ops v.
Proof. induction ops as [|o ops IH]; intros v f; cbn; [done|apply IH]. Qed.

(** A text that restores no position but one that it has saved. *)
Fixpoint own_mark (ops : list op) : Prop :=
  match ops with [] => True | Save :: _ => True | Restore :: _ => False | _ :: ops' => own_mark ops' end.

(** It does not depend on what was saved before. *)
Lemma own_mark_same ops : forall p k k1 k2 f, own_mark ops ->
  position (layouts ops (mkTerminal p k k1)) = position (layouts ops (mkTerminal p k k2)) /\
  palette (layouts ops (mkTerminal p k k1)) = palette (layouts ops (mkTerminal p k k2)) /\
  (paint_ops fb ops (mkTerminal p k k1) f).2 = (paint_ops fb ops (mkTerminal p k k2) f).2.
Proof. induction ops as [|[] ops IH]; intros p k k1 k2 f Ho; cbn; try done; by apply IH. Qed.

(** A task that prints such a text in its turn. *)
Definition printing (fmt : Z) (args : list Z) (ops : list op) : other :=
  mkOther (printf fmt args ;; mret tt)
    (fun p => let v := layouts ops (mkTerminal p.1 p.2 p.1) in (position v, palette v))
    (fun p f => (paint_ops fb ops (mkTerminal p.1 p.2 p.1) f).2).

Lemma printing_as_told m fmt args ops : means m fmt args (ops ≫= op_text) -> Forall op_ok ops -> Forall op_on_screen ops ->
  own_mark ops -> as_told m (printing fmt args ops).
Proof.
  intros Hm Hok Hon Hown t g f Hcs. destruct (console_prints fmt args ops m t g f Hm Hok Hon Hcs) as (t' & g' & E & Hcs' & Ev).
  destruct (own_mark_same ops (at_ t) (paint t) (saved t) (at_ t) f Hown) as (E1 & E2 & E3).
  exists t', g'. split; [cbn [act printing]; by rewrite (run_bind_done _ _ _ _ _ E)|]. split.
  - cbn [draws printing pen_of fst snd]. rewrite <- E3. exact Hcs'.
  - rewrite paint_ops_layouts in Ev. cbn [moves printing pen_of fst snd]. rewrite <- E1, <- E2.
    change (mkTerminal (at_ t) (paint t) (saved t)) with (view t). rewrite <- Ev. done.
Qed.

(** C18. The spinner shares the console: after its newline, whatever turns other
    tasks take while it waits, it never faults and stays in step; the console
    is free, its cursor and colours are those of the others' turns alone, and
    the screen shows what the others have painted and, in the first column of
    the last line, the spinner, painted between their turns. *)
Theorem spinner_shares_console m newline fmt others t g f :
  cstr m newline [10] -> cstr m fmt (print_format spin_format) -> Forall (as_told m) others -> console_shows t g f ->
  let p := (settle (mkCursor 0 (u8 (cursorY (at_ t) + 1))), paint t) in
  exists t' g', spinner newline fmt (act <$> others) (m, (t, g)) = Done (Z.of_nat (length others) mod 4, (m, (t', g'))) /\
    pen_of t' = fold_left (fun p o => moves o p) others p /\
    console_shows t' g' (spun 0 others p f).2.
Proof.
  intros Hnl Hc Hall Hcs p.
  destruct (console_prints newline [] [Newline] m t g f) as (t1 & g1 & E1 & H1 & Ev); [|by repeat constructor..|done|].
  { exists [Text 10], (fun _ => None), []. split; [by repeat constructor|]. split; [exact Hnl|]. split; [done|]. split; [done|].
    cbn. unfold INT_MAX. lia. }
  assert (Ep : pen_of t1 = p) by (unfold pen_of; injection Ev as -> -> _; done).
  destruct (spins_together m fmt others Hc Hall 0 t1 g1 f ltac:(lia) H1) as (t2 & g2 & E2 & H2 & P2).
  rewrite Ep in H2, P2. rewrite spun_pen in P2. exists t2, g2. split; [|by split].
  unfold spinner. by rewrite (run_bind_done _ _ _ _ _ E1), E2.
Qed.
End together.

(** ** Concrete machines

    Their memories are too large to be computed. *)
#[local] Opaque demo_block.

Definition movie_fb : Framebuffer := mkFB 0x1000000 640 288 32 2560 8 16 8 8 8 0 RGB_FBMM.
Definition movie_graphics : graphics := mkG (demo_block 0x1000000 737280 7 ∅) None 0 false [].
Definition movie_malloc (n : Z) : K memory Z := fun m => Done (0, demo_block 0 n 170 m).


(** Zeros on the screen are black. *)
Lemma zeros_on_screen fb g : mode_ok fb ->
  (forall a, _addr fb <= a < _addr fb + _pitch fb * _height fb -> mem g !! a = Some 0) ->
  screen_shows fb g (fun _ _ => replicate (length (pixel_bytes fb 0)) 0).
Proof.
  intros Hm Hz x y Hx Hy. destruct (pixel_place fb (_addr fb) x y Hm Hx Hy) as (H0 & H1 & _).
  apply bytes_lookup. intros i b Hb. apply lookup_replicate in Hb as [-> Hi]. apply Hz. unfold pixel_address. lia.
Qed.

Lemma blank_console : console_shows console_fb initial_tty panic_graphics black.
Proof.
  destruct panic_display as [_ Hr _ Ht Ha]. pose proof (ready_mode _ _ Hr) as Hm. split.
  - split; [exact Hr|exact Ht|]. destruct Ha as [Ha|Ha]; [by right|by left].
  - apply (zeros_show_black console_fb panic_graphics Hm). intros a Hin. cbn [panic_graphics mem].
    apply demo_block_in. cbn [console_fb _pitch _height backbuffer panic_graphics] in Hin. lia.
  - apply (zeros_on_screen console_fb panic_graphics Hm). intros a Hin. cbn [panic_graphics mem].
    cbn [console_fb _addr _pitch _height] in Hin. rewrite demo_block_out by lia. apply demo_block_in. lia.
  - split; reflexivity.
  - split; split; vm_compute; split; congruence.
  - reflexivity.
Qed.

(** The strings of the spinner, and [hi] of another task. *)
Definition spinner_memory : memory :=
  list_to_map (zip (seqZ 0 40) ([10; 0] ++ print_format spin_format ++ [0; 104; 105; 0])).

Lemma spinner_shares_console_witness : exists t' g',
  spinner 0 2 (act <$> [printing console_fb 18 [] [Put 104; Put 105]; printing console_fb 18 [] [Put 104; Put 105]])
    (spinner_memory, (initial_tty, panic_graphics)) = Done (2, (spinner_memory, (t', g'))) /\
  at_ t' = mkCursor 4 1.
Proof.
  assert (Hhi : as_told console_fb spinner_memory (printing console_fb 18 [] [Put 104; Put 105])).
  { assert (Hok : Forall op_ok [Put 104; Put 105]) by
      (repeat apply Forall_cons_2; try apply Forall_nil_2; split; try lia; by apply (bool_decide_unpack _); vm_compute).
    apply printing_as_told; [apply panic_display| |exact Hok|by repeat constructor|exact I].
    exists [Text 104; Text 105], (fun _ => None), []. split; [by repeat constructor|].
    split; [apply cstr_test; vm_compute; reflexivity|]. split; [done|]. split; [reflexivity|]. vm_compute. discriminate. }
  destruct (spinner_shares_console console_fb (display_grid _ _ panic_display) spinner_memory 0 2
    [printing console_fb 18 [] [Put 104; Put 105]; printing console_fb 18 [] [Put 104; Put 105]] initial_tty panic_graphics black)
    as (t' & g' & E & Hp & _).
  - apply cstr_test. vm_compute. reflexivity.
  - apply cstr_test. vm_compute. reflexivity.
  - repeat constructor; exact Hhi.
  - exact blank_console.
  - exists t', g'. split; [exact E|]. exact (f_equal fst Hp).
Defined.
