(* ===== verification/Heap.v ===== *)
(** * The allocator's hooks (Memory/heap.cpp)

    The allocator itself is a submodule.  Its hooks take the mutex and the pages
    that are modelled in Locking.v and Paging.v; here is what they promise it,
    and what the size of the screen's double buffer makes of that. *)
From S2P Require Import Prelude Words Bitmaps PageTypes Physical Paging TaskLists Locking KString Display Console.
From Stdlib Require Import ZArith Lia Bool.
From stdpp Require Import base strings numbers list.
#[local] Open Scope Z_scope.

(** ** The lock *)

(** The static object, and the steps of the calls of a task: the result is there
    when the call has returned. *)
Definition heap_lock : Mutex.state := Mutex.init (Some "alloc"%string).

Definition liballoc_lock (t : tid) (s : Mutex.state) : option (option Z * Mutex.state) :=
  s' ← Mutex.lock t s ;
  Some (if decide (Mutex.at_pc s' t = Mutex.Inside) then Some 0 else None, s').
Definition liballoc_unlock (t : tid) (s : Mutex.state) : option (option Z * Mutex.state) :=
  s' ← Mutex.unlock t s ;
  Some (if decide (Mutex.at_pc s' t = Mutex.Outside) then Some 0 else None, s').

(** The steps of tasks that call the two hooks, in any order. *)
Inductive hook := HLock | HUnlock.
Definition hook_step (t : tid) (h : hook) : Mutex.state -> option (option Z * Mutex.state) :=
  match h with HLock => liballoc_lock t | HUnlock => liballoc_unlock t end.
Inductive heap_reachable : Mutex.state -> Prop :=
  | heap_start : heap_reachable heap_lock
  | heap_step s t h r s' : heap_reachable s -> hook_step t h s = Some (r, s') -> heap_reachable s'.

(** A step of a hook is a step of its mutex. *)
Lemma hook_is_op t h s r s' : hook_step t h s = Some (r, s') ->
  Mutex.step t (match h with HLock => Mutex.Lock | HUnlock => Mutex.Unlock end) s = Some s'.
Proof.
  destruct h; cbn [hook_step]; unfold liballoc_lock, liballoc_unlock, Mutex.step; intros E; simplify_option_eq; done.
Qed.
Lemma heap_reachable_inv s : heap_reachable s -> Mutex.inv s.
Proof.
  induction 1 as [|s t h r s' _ IH E]; [apply Mutex.inv_init|]. by eapply Mutex.inv_step, hook_is_op.
Qed.

(** The task for which [liballoc_lock] has returned, with 0 for success, is in
    the allocator alone until its [liballoc_unlock]. *)
Theorem heap_is_exclusive s t r s' : heap_reachable s -> liballoc_lock t s = Some (Some r, s') ->
  r = 0 /\ (forall u, Mutex.at_pc s u <> Mutex.Inside) /\ forall u, Mutex.at_pc s' u = Mutex.Inside <-> u = t.
Proof.
  intros Hs E. pose proof (heap_reachable_inv s Hs) as Hi.
  assert (Hi' : Mutex.inv s') by (apply heap_reachable_inv; by apply (heap_step s t HLock (Some r) s')).
  unfold liballoc_lock in E. destruct (Mutex.lock t s) as [s1|] eqn:El; [|done]. cbn in E.
  destruct (decide (Mutex.at_pc s1 t = Mutex.Inside)) as [Hin|]; [|done]. injection E as <- <-. split; [done|]. split.
  - intros u Hu. assert (Hl : Mutex.m_isLocked s = true) by (apply (Mutex.inv_locked _ Hi); eauto).
    revert El Hin. unfold Mutex.lock. rewrite Hl. destruct (Mutex.at_pc s t); try done;
      intros [= <-]; rewrite Mutex.goto_eq; done.
  - intros u. split; [|by intros ->]. intros Hu. by apply (Mutex.inv_one _ Hi').
Qed.

(** ** Pages *)
Section pages.
Context {B : Type} {HB : Bitmap B}.
Hypothesis Hsize : bm_size = MEM_BITMAP_SIZE.
Implicit Type p : paging (B := B).

Lemma hook_pages count : 0 < count <= 2 ^ 20 -> u32 (count * ARCH_PAGE_SIZE - 1) = count * 4096 - 1 /\
  PAGE_COUNT (count * 4096 - 1) = count.
Proof.
  intros Hc. unfold ARCH_PAGE_SIZE, PAGE_COUNT. split; [apply u32_small; unfold in_u32; lia|].
  unfold ARCH_PAGE_SIZE. replace (count * 4096 - 1) with ((count - 1) * 4096 + 4095) by lia.
  rewrite Z.div_add_l, Z.div_small by lia. lia.
Qed.

(** For fewer than 32 pages [liballoc_alloc] returns a run of that many pages,
    which were not mapped and now lead to frames of their own; it never returns
    NULL, as the comment in heap.hpp says, but panics instead. *)
Theorem liballoc_alloc_correct p count : inv p -> pagingLock p = false -> 0 < count < 32 ->
  (exists a p', liballoc_alloc count p = Done (a, p') /\ a <> 0 /\ inv p' /\ pagingLock p' = false /\ allocated count p a p') \/
  (liballoc_alloc count p = Panic "Failed to get new page!" /\ exists p', newPage (count * 4096 - 1) p = Done (0, p')).
Proof.
  intros Hp Hl Hc. destruct (hook_pages count ltac:(lia)) as [Eu Ec].
  destruct (newPage_spec Hsize (count * 4096 - 1) p Hp Hl) as (a & p' & E & Hp' & Hl' & Ha); [lia|rewrite Ec; lia|].
  rewrite Ec in Ha. unfold liballoc_alloc, newPageMustSucceed. rewrite Eu, (run_bind_done _ _ _ _ _ E).
  destruct (Z.eqb_spec a 0) as [->|Hne]; [right; split; [done|by exists p']|left; by exists a, p'].
Qed.
End pages.

(** The mask of 32 pages or more is a shift by the width of the type. *)
Theorem liballoc_alloc_of_32_faults (p : paging (B := Bitset.Bitset MEM_BITMAP_SIZE)) count :
  pagingLock p = false -> 32 <= count <= 2 ^ 20 -> liballoc_alloc (HB := Manager.frame_bitmap) count p = Fault.
Proof.
  intros Hl Hc. destruct (hook_pages count ltac:(lia)) as [Eu Ec].
  unfold liballoc_alloc, newPageMustSucceed, newPage. rewrite Eu, Ec. cbv zeta.
  assert (El : lock p = Done (tt, Paging.set_lock true p)) by (unfold lock; by rewrite Hl).
  rewrite run_bind, (run_bind_done _ _ _ _ _ El), run_bind.
  unfold findNextFreeVirtualAddress, onvirt, kzoom, kread.
  change (@bm_FindFirstRange _ Manager.frame_bitmap) with (@Bitset.FindFirstRange MEM_BITMAP_SIZE).
  unfold Bitset.FindFirstRange, Bitset.TypeSize. destruct (Z.leb_spec (4 * 8) count); [done|lia].
Qed.

(** The double buffer of a framebuffer that the console fits on has more: the
    allocator, which gets it from [liballoc_alloc] in whole pages, cannot get
    it by defined behaviour. *)
Theorem double_buffer_is_not_allocated (p : paging (B := Bitset.Bitset MEM_BITMAP_SIZE)) fb count :
  mode_ok fb -> grid_fits fb -> pagingLock p = false ->
  buffer_size fb <= count * 4096 -> count <= 2 ^ 20 -> liballoc_alloc (HB := Manager.frame_bitmap) count p = Fault.
Proof.
  intros Hm [Hw Hh] Hl Hs Hc. apply liballoc_alloc_of_32_faults; [done|]. split; [|done].
  pose proof (mode_pixel _ Hm). pose proof (mode_line _ Hm).
  assert (641 * 3 <= _pitch fb) by nia. assert (1923 * 201 <= _pitch fb * _height fb) by nia.
  rewrite buffer_size_eq in Hs by (done || lia). lia.
Qed.

(** ** A task in the allocator *)
Example heap_lock_taken : exists s, liballoc_lock 1%positive heap_lock = Some (None, s) /\
  exists s', liballoc_lock 1%positive s = Some (Some 0, s').
Proof. eexists. split; [vm_compute; reflexivity|]. eexists. vm_compute. reflexivity. Qed.
