(* ===== verification/Welcome.v ===== *)
(** * The welcome (Entry.cpp)

    What [kernelEntry] prints on the console before it starts the tasks, the
    banner and the time of the real time clock, and the tones that follow. *)
From S2P Require Import Prelude Words KString Printf Clock Display Console Interrupts Logging Panics PanicScreen Demos.
From Stdlib Require Import ZArith Lia Bool Ascii.
From stdpp Require Import base strings numbers gmap list.
#[local] Open Scope Z_scope.

(** ** The texts *)

(** What the build defines; [DATE] and [TIME] are [__DATE__] and [__TIME__]. *)
Record build := mkBuild {
  VER_NAME : string; REPO_URL : string; COMMIT : string;
  VER_MAJOR : string; VER_MINOR : string; VER_PATCH : string; DATE : string; TIME : string
}.
Definition build_strings (b : build) : list string :=
  [VER_NAME b; REPO_URL b; COMMIT b; VER_MAJOR b; VER_MINOR b; VER_PATCH b; DATE b; TIME b].

(** The year of [__DATE__], which is written as in "Jul 24 2021". *)
Definition BUILD_DATE (b : build) : Z :=
  let c k := nth k (codes (DATE b)) 0 - 48 in
  c 7%nat * 1000 + c 8%nat * 100 + c 9%nat * 10 + c 10%nat * 1.

Definition splash_format : string :=
  (Logger.esc "[93mXyris %s" ++ nl ++
   "Copyright the Xyris Contributors (c) %i. All rights reserved." ++ nl ++
   "Kernel source available at %s." ++ nl ++ Logger.esc "[0m")%string.
Definition version_format : string := ("Commit %s (v%s.%s.%s) built on %s at %s." ++ nl ++ nl)%string.
Definition time_format : string := ("UTC: %i/%i/%i %i:%i" ++ nl)%string.
Definition welcome_formats : list string := [splash_format; version_format; time_format].

(** ** Entry.cpp *)
Section welcome.
(** The addresses of the literals. *)
Context (literal : string -> Z) (b : build).

Section printing.
Context {G : Type} `{Screen G}.

Definition printSplash : K (memory * (tty * G)) unit :=
  Console.printf (literal splash_format) [literal (VER_NAME b); BUILD_DATE b; literal (REPO_URL b)] ;;
  Console.printf (literal version_format)
    [literal (COMMIT b); literal (VER_MAJOR b); literal (VER_MINOR b); literal (VER_PATCH b); literal (DATE b); literal (TIME b)] ;;
  mret tt.
Definition print_time (t : TimeDescriptor) : K (memory * (tty * G)) unit :=
  Console.printf (literal time_format) [_month t; _day t; _year t; _hour t; _minutes t] ;; mret tt.

(** The splash, the constructor of the [TimeDescriptor], which reads the clock,
    and its line. *)
Definition welcome (cmos : nat -> Z -> Z) (fuel waits : nat) : K (RTC.rtc * (memory * (tty * G))) unit :=
  kzoom snd (fun c s => (s.1, c)) printSplash ;;
  t ← kzoom fst (fun r s => (r, s.2)) (RTC.toDate cmos fuel waits) ;
  kzoom snd (fun c s => (s.1, c)) (print_time t).
End printing.

(** ** What they mean *)

(** Text of visible characters and newlines. *)
Definition puts (l : list Z) : list op := (fun c => if c =? 10 then Newline else Put c) <$> l.
Definition colour (code : string) : list op := [Attributes [codes code]].

Definition splash_text : list op :=
  colour "93" ++
  puts (codes "Xyris " ++ codes (VER_NAME b) ++ codes (nl ++ "Copyright the Xyris Contributors (c) ") ++ dec_int (BUILD_DATE b) ++
        codes (". All rights reserved." ++ nl ++ "Kernel source available at ") ++ codes (REPO_URL b) ++ codes ("." ++ nl)) ++
  colour "0".
Definition version_text : list op :=
  puts (codes "Commit " ++ codes (COMMIT b) ++ codes " (v" ++ codes (VER_MAJOR b) ++ codes "." ++ codes (VER_MINOR b) ++ codes "." ++
        codes (VER_PATCH b) ++ codes ") built on " ++ codes (DATE b) ++ codes " at " ++ codes (TIME b) ++ codes ("." ++ nl ++ nl)).
Definition time_text (t : TimeDescriptor) : list op :=
  puts (codes "UTC: " ++ dec_int (_month t) ++ codes "/" ++ dec_int (_day t) ++ codes "/" ++ dec_int (_year t) ++ codes " " ++
        dec_int (_hour t) ++ codes ":" ++ dec_int (_minutes t) ++ codes nl).

Definition is_visible (l : list Z) : Prop := Forall (fun c => visible c = true) l.

Lemma puts_shown l : is_visible l -> puts l ≫= op_text = l /\ Forall op_ok (puts l) /\ Forall op_on_screen (puts l).
Proof.
  induction 1 as [|c l Hc _ (IH1 & IH2 & IH3)]; [done|]. unfold puts in *. cbn [fmap list_fmap]. unfold visible in Hc.
  destruct (Z.eqb_spec c 10) as [->|Hne].
  - split; [cbn; by rewrite IH1|]. by split; constructor.
  - rewrite orb_false_r in Hc. apply andb_true_iff in Hc as [H1%Z.leb_le H2%Z.ltb_lt].
    split; [cbn; by rewrite IH1|]. split; constructor; try done. split; [lia|]. unfold ESC. set_solver by lia.
Qed.

(** What is assumed of memory and of the build: the literals are there, the
    strings of the build are visible text, its date ends with a year. *)
Record build_ok (m : memory) : Prop := {
  b_placed : Forall (fun s => cstr m (literal s) (codes s)) (welcome_formats ++ build_strings b);
  b_short : Forall (fun s => (length (codes s) <= 1024)%nat) (build_strings b);
  b_visible : Forall (fun s => is_visible (codes s)) (build_strings b);
  b_year : 0 <= BUILD_DATE b <= INT_MAX;
}.

(** A format and what it prints of the strings of the build. *)
Lemma means_build m fmt its args O : build_ok m -> fmt ∈ welcome_formats -> Forall item_ok its -> print_format its = codes fmt ->
  (forall strs, (forall s, s ∈ build_strings b -> strs (literal s) = Some (codes s)) -> format_out strs its args = Some (O, [])) ->
  Z.of_nat (length O) <= INT_MAX -> means m (literal fmt) args O.
Proof.
  intros [Hp Hs _ _] Hf Hok Hsp Ho Hl. apply Forall_app in Hp as [Hpf Hpb].
  assert (He : env_ok m (at_literals literal (build_strings b))).
  { apply Forall_fmap, Forall_forall. intros s Hin. cbn [compose fst snd]. rewrite Forall_forall in Hpb, Hs.
    split; [by apply Hpb|]. specialize (Hs s Hin). lia. }
  exists its, (env_of (at_literals literal (build_strings b))), []. split; [done|]. split.
  { rewrite Hsp. rewrite Forall_forall in Hpf. by apply Hpf. }
  split; [intros a l Ha; by apply (env_bounded m _ a l He)|]. split; [|done].
  apply Ho. intros s Hin. by apply (literal_hit literal m).
Qed.

Lemma dec_int_bound w : (length (dec_int w) <= 32)%nat.
Proof. apply number_length; [cbn; auto|lia]. Qed.
Lemma dec_int_visible w : is_visible (dec_int w).
Proof. apply number_visible. cbn. auto. Qed.
Lemma small_int w : 0 <= w <= INT_MAX -> INT_MIN < s32 w.
Proof. intros Hw. rewrite s32_small; unfold INT_MIN, INT_MAX in *; lia. Qed.

Ltac short_text :=
  rewrite !length_app; unfold INT_MAX;
  repeat match goal with
  | |- context [length ?l] =>
      lazymatch l with
      | context [b] => fail
      | context [dec_int] => fail
      | _ => let n := eval vm_compute in (length l) in change (length l) with n
      end
  end; lia.
Ltac visible_text := repeat (apply Forall_app; split);
  first [apply dec_int_visible | assumption | by apply (bool_decide_unpack _); vm_compute].

Definition splash_items : list item :=
  T (Logger.esc "[93mXyris ") ++ [str] ++ T (nl ++ "Copyright the Xyris Contributors (c) ") ++ [signed_int] ++
  T (". All rights reserved." ++ nl ++ "Kernel source available at ") ++ [str] ++ T ("." ++ nl ++ Logger.esc "[0m").
Definition version_items : list item :=
  T "Commit " ++ [str] ++ T " (v" ++ [str] ++ T "." ++ [str] ++ T "." ++ [str] ++ T ") built on " ++ [str] ++ T " at " ++ [str] ++
  T ("." ++ nl ++ nl).
Definition time_items : list item :=
  T "UTC: " ++ [signed_int] ++ T "/" ++ [signed_int] ++ T "/" ++ [signed_int] ++ T " " ++ [signed_int] ++ T ":" ++ [signed_int] ++ T nl.

(** Every piece of an item list gives a piece of the text. *)
Ltac pieces :=
  repeat match goal with
  | |- format_out _ (T _ ++ _) _ = Some (codes _ ++ _, _) => apply out_T; [vm_compute; reflexivity|]
  | |- format_out _ (T ?s) _ = _ => rewrite <- (app_nil_r (T s)), <- (app_nil_r (codes s)); apply out_T; [vm_compute; reflexivity|reflexivity]
  | |- format_out _ ([str] ++ _) _ = _ => apply out_str; [match goal with Hst : forall s, _ -> _ |- _ => apply Hst; unfold build_strings; set_solver end|]
  | |- format_out _ ([signed_int] ++ _) _ = _ => apply out_i; [by apply small_int|]
  end.

Lemma formats_of_items :
  (Forall item_ok splash_items /\ print_format splash_items = codes splash_format) /\
  (Forall item_ok version_items /\ print_format version_items = codes version_format) /\
  (Forall item_ok time_items /\ print_format time_items = codes time_format).
Proof. repeat split; by apply (bool_decide_unpack _); vm_compute. Qed.

(** A text of operations that a format prints. *)
Record prints_ops (m : memory) (fmt : string) (args : list Z) (ops : list op) : Prop := {
  po_means : means m (literal fmt) args (ops ≫= op_text);
  po_ok : Forall op_ok ops;
  po_screen : Forall op_on_screen ops;
}.

Lemma colour_shown code : code ∈ ["93"; "0"]%string -> Forall op_ok (colour code) /\ Forall op_on_screen (colour code).
Proof.
  rewrite !elem_of_cons, elem_of_nil. intros [->|[->|[]]]; (split; [|by constructor]);
    (apply Forall_singleton; split; [cbn; lia|]; apply Forall_singleton; split; [done|]; by apply (bool_decide_unpack _); vm_compute).
Qed.

Lemma splash_means m : build_ok m ->
  prints_ops m splash_format [literal (VER_NAME b); BUILD_DATE b; literal (REPO_URL b)] splash_text.
Proof.
  intros Hb. pose proof Hb as [_ Hs Hv Hy]. repeat (apply Forall_cons in Hv as [? Hv]; apply Forall_cons in Hs as [? Hs]).
  destruct (colour_shown "93") as [C1 C2]; [by left|]. destruct (colour_shown "0") as [C3 C4]; [right; by left|].
  match goal with |- prints_ops _ _ _ splash_text => unfold splash_text end.
  match goal with |- context [puts ?l] => destruct (puts_shown l) as (P1 & P2 & P3); [visible_text|] end.
  split; [|by rewrite !Forall_app|by rewrite !Forall_app].
  rewrite !bind_app, P1, <- !app_assoc. destruct formats_of_items as ((F1 & F2) & _).
  apply (means_build m splash_format splash_items); [done|by left|exact F1|exact F2| |].
  - intros strs Hst.
    change (?c ++ codes "Xyris " ++ ?l) with (codes (Logger.esc "[93mXyris ") ++ l).
    change (codes ("." ++ nl)%string ++ (colour "0" ≫= op_text)) with (codes ("." ++ nl ++ Logger.esc "[0m")%string).
    unfold splash_items. pieces.
  - pose proof (dec_int_bound (BUILD_DATE b)). short_text.
Qed.

Lemma version_means m : build_ok m ->
  prints_ops m version_format [literal (COMMIT b); literal (VER_MAJOR b); literal (VER_MINOR b); literal (VER_PATCH b);
    literal (DATE b); literal (TIME b)] version_text.
Proof.
  intros Hb. pose proof Hb as [_ Hs Hv Hy]. repeat (apply Forall_cons in Hv as [? Hv]; apply Forall_cons in Hs as [? Hs]).
  unfold version_text. match goal with |- context [puts ?l] => destruct (puts_shown l) as (P1 & P2 & P3); [visible_text|] end.
  split; [|done|done]. rewrite P1. destruct formats_of_items as (_ & (F1 & F2) & _).
  apply (means_build m version_format version_items); [done|by right; left|exact F1|exact F2| |].
  - intros strs Hst. unfold version_items. pieces.
  - short_text.
Qed.

Lemma time_means m t : build_ok m -> Clock.valid t ->
  prints_ops m time_format [_month t; _day t; _year t; _hour t; _minutes t] (time_text t).
Proof.
  intros Hb [_ ? ? ? ? ?]. pose proof (days_in_month_range (_year t) (_month t)).
  assert (Hi : forall w, 0 <= w < 2 ^ 16 -> 0 <= w <= INT_MAX) by (unfold INT_MAX; lia).
  assert (0 <= _month t <= INT_MAX /\ 0 <= _day t <= INT_MAX /\ 0 <= _year t <= INT_MAX /\ 0 <= _hour t <= INT_MAX /\
    0 <= _minutes t <= INT_MAX) as (? & ? & ? & ? & ?) by (repeat split; apply Hi; lia).
  unfold time_text. match goal with |- context [puts ?l] => destruct (puts_shown l) as (P1 & P2 & P3); [visible_text|] end.
  split; [|done|done]. rewrite P1. destruct formats_of_items as (_ & _ & (F1 & F2)).
  apply (means_build m time_format time_items); [done|by right; right; left|exact F1|exact F2| |].
  - intros strs Hst. unfold time_items. pieces.
  - pose proof (dec_int_bound (_month t)). pose proof (dec_int_bound (_day t)). pose proof (dec_int_bound (_year t)).
    pose proof (dec_int_bound (_hour t)). pose proof (dec_int_bound (_minutes t)). short_text.
Qed.

(** ** On the screen *)
Lemma paint_ops_app fb l1 : forall l2 v f,
  paint_ops fb (l1 ++ l2) v f = paint_ops fb l2 (paint_ops fb l1 v f).1 (paint_ops fb l1 v f).2.
Proof. induction l1 as [|o l1 IH]; intros l2 v f; cbn; [done|apply IH]. Qed.

Section screen.
Context (fb : Framebuffer) (Hfit : grid_fits fb).

(** The console has printed the operations. *)
Definition printed (ops : list op) (t : tty) (f : picture) (t' : tty) (g' : graphics) : Prop :=
  console_shows fb t' g' (paint_ops fb ops (view t) f).2 /\ view t' = (paint_ops fb ops (view t) f).1.
Lemma printed_app l1 l2 t f t1 g1 t2 g2 : printed l1 t f t1 g1 -> printed l2 t1 (paint_ops fb l1 (view t) f).2 t2 g2 ->
  printed (l1 ++ l2) t f t2 g2.
Proof. unfold printed. intros [_ E1] [H2 E2]. rewrite paint_ops_app, <- E1. by split. Qed.

Lemma printf_prints m fmt args ops t g f : prints_ops m fmt args ops -> console_shows fb t g f ->
  exists t' g', (Console.printf (literal fmt) args ;; mret tt) (m, (t, g)) = Done (tt, (m, (t', g'))) /\ printed ops t f t' g'.
Proof.
  intros [H1 H2 H3] Hcs. destruct (console_prints fb Hfit (literal fmt) args ops m t g f H1 H2 H3 Hcs) as (t' & g' & E & Hp).
  exists t', g'. split; [|exact Hp]. by rewrite (run_bind_done _ _ _ _ _ E).
Qed.

Lemma printSplash_run m t g f : build_ok m -> console_shows fb t g f ->
  exists t' g', printSplash (m, (t, g)) = Done (tt, (m, (t', g'))) /\ printed (splash_text ++ version_text) t f t' g'.
Proof.
  intros Hb Hcs. destruct (splash_means m Hb) as [M1 M2 M3].
  destruct (console_prints fb Hfit _ _ _ m t g f M1 M2 M3 Hcs) as (t1 & g1 & E1 & P1).
  destruct (printf_prints m version_format _ version_text t1 g1 _ (version_means m Hb) (proj1 P1)) as (t2 & g2 & E2 & P2).
  exists t2, g2. split; [|by eapply printed_app]. unfold printSplash. by rewrite (run_bind_done _ _ _ _ _ E1).
Qed.

(** The welcome of [kernelEntry]: on whatever screen and with whatever build,
    the banner is painted from the cursor on, in yellow and then in the colours
    of a reset, and after it the date and the time that the clock showed while
    it was read; the console is left free and the strings as they were. *)
Theorem welcome_painted m t g f cmos now bcd twelve U fuel waits s :
  build_ok m -> console_shows fb t g f -> RTCFacts.ticks cmos now bcd twelve U -> (3 <= fuel)%nat -> (U <= waits)%nat ->
  exists i s' t' g', welcome cmos fuel waits (s, (m, (t, g))) = Done (tt, (s', (m, (t', g')))) /\
    (RTC.accesses s <= i < RTC.accesses s')%nat /\
    printed (splash_text ++ version_text ++ time_text (RTCFacts.as_read twelve (now i))) t f t' g'.
Proof.
  intros Hb Hcs Hdev Hf Hw. destruct (printSplash_run m t g f Hb Hcs) as (t1 & g1 & E1 & P1).
  destruct (RTCFacts.TimeDescriptor_shows_clock cmos now bcd twelve U fuel waits s Hdev Hf Hw) as (i & s1 & E2 & Hi).
  assert (Hv : valid (RTCFacts.as_read twelve (now i))) by (apply RTCFacts.valid_as_read; by apply (RTCFacts.now_valid _ _ _ _ _ Hdev)).
  destruct (printf_prints m time_format _ _ t1 g1 _ (time_means m _ Hb Hv) (proj1 P1)) as (t2 & g2 & E3 & P3).
  exists i, s1, t2, g2. split; [|split; [exact Hi|]].
  - unfold welcome. rewrite (run_bind_done _ _ _ tt (s, (m, (t1, g1)))) by (unfold kzoom; cbn [fst snd]; by rewrite E1).
    rewrite (run_bind_done _ _ _ (RTCFacts.as_read twelve (now i)) (s1, (m, (t1, g1)))) by (unfold kzoom; cbn [fst snd]; by rewrite E2).
    unfold kzoom, print_time. cbn [fst snd]. by rewrite E3.
  - rewrite app_assoc. by eapply printed_app.
Qed.
End screen.
End welcome.

(** ** The tones *)
Section tones.
Context (port_in : nat -> Z -> Z).

(** The two tones, with the values of the tick counter that each waits on. *)
Definition bootTone (ticks1 ticks2 : list Z) : K platform unit :=
  spkr_beep port_in 1000 50 ticks1 ;; spkr_beep port_in 1000 50 ticks2.

(** What a tone of 1000 Hz writes, last first: the speaker is connected if it
    was not, and disconnected at the end. *)
Definition speaker_on (v : Z) : list (Z * Z) := if v =? Z.lor v 3 then [] else [(0x61, u8 (Z.lor v 3))].
Definition tone_writes (n : nat) : list (Z * Z) :=
  (0x61, u8 (Z.land (u8 (port_in (S n) 0x61)) 0xFC)) ::
  speaker_on (u8 (port_in n 0x61)) ++ [(0x42, 4); (0x42, 169); (0x43, 0xb6)].

(** A platform after such writes and [n] more reads. *)
Definition after_writes (w : list (Z * Z)) (n : nat) (s : platform) : platform :=
  mkPlatform (idt s) (loaded s) (interruptHandlers s) (w ++ ports s) (n + reads s).

Lemma spkr_beep_run ticks rest s : sleep 50 ticks = Done rest ->
  spkr_beep port_in 1000 50 ticks s = Done (tt, after_writes (tone_writes (reads s)) 2 s).
Proof.
  intros Es. unfold spkr_beep.
  assert (Et : spkr_tone port_in 1000 s =
    Done (tt, after_writes (speaker_on (u8 (port_in (reads s) 0x61)) ++ [(0x42, 4); (0x42, 169); (0x43, 0xb6)]) 1 s)).
  { unfold spkr_tone, speaker_on, after_writes. rewrite (run_bind_done _ _ s 1193 s eq_refl). cbv zeta.
    do 3 (erewrite run_bind_done; [|reflexivity]). erewrite run_bind_done; [|reflexivity]. cbn [reads].
    destruct (Z.eqb_spec (u8 (port_in (reads s) 0x61)) (Z.lor (u8 (port_in (reads s) 0x61)) 3)); reflexivity. }
  rewrite (run_bind_done _ _ _ _ _ Et). erewrite run_bind_done; [|unfold kread; rewrite Es; reflexivity]. reflexivity.
Qed.

(** If the timer reaches the end of the two waits, the tones end with the
    speaker disconnected, and nothing but ports was touched. *)
Theorem bootTone_ends ticks1 ticks2 r1 r2 s : sleep 50 ticks1 = Done r1 -> sleep 50 ticks2 = Done r2 ->
  exists v w, bootTone ticks1 ticks2 s = Done (tt, after_writes ((0x61, v) :: w) 4 s) /\ Z.land v 3 = 0.
Proof.
  intros E1 E2. eexists _, _. split.
  - unfold bootTone. rewrite (run_bind_done _ _ _ _ _ (spkr_beep_run _ _ s E1)), (spkr_beep_run _ _ _ E2).
    unfold after_writes at 1. cbn [idt loaded interruptHandlers ports reads after_writes]. rewrite app_assoc. reflexivity.
  - apply Z.bits_inj'. intros k Hk. rewrite Z.land_spec, Z.bits_0. unfold u8, wrap.
    destruct (Z.ltb_spec k 2).
    + rewrite Z.mod_pow2_bits_low, Z.land_spec by lia. assert (k = 0 \/ k = 1) as [-> | ->] by lia; by rewrite andb_false_r.
    + replace (Z.testbit 3 k) with false; [by rewrite andb_false_r|]. symmetry. change 3 with (Z.ones 2). apply Z.ones_spec_high. lia.
Qed.
End tones.

(** ** A concrete welcome *)
#[local] Opaque demo_block.

Definition demo_build : build := mkBuild "Apollo" "https://xyr.is/source" "abc123" "0" "6" "1" "Jan  1 2024" "12:00:00".
(** The literals one after the other from address 1 on. *)
Fixpoint place (p : Z) (ss : list string) (s : string) : Z :=
  match ss with
  | [] => 0
  | s' :: ss' => if decide (s = s') then p else place (p + Z.of_nat (length (codes s')) + 1) ss' s
  end.
Definition demo_strings : list string := welcome_formats ++ build_strings demo_build.
Definition demo_literal : string -> Z := place 1 demo_strings.
Definition demo_welcome_memory : memory :=
  list_to_map (imap (fun i c => (Z.of_nat i + 1, c)) (demo_strings ≫= fun s => codes s ++ [0])).

Lemma welcome_painted_witness : exists i s' t' g',
  welcome demo_literal demo_build RTCFacts.demo_cmos 3 1 (RTC.mkRtc 0 0 RTC.zeros, (demo_welcome_memory, (initial_tty, panic_graphics))) =
    Done (tt, (s', (demo_welcome_memory, (t', g')))) /\ (i < RTC.accesses s')%nat /\ at_ t' = mkCursor 0 6.
Proof.
  destruct (welcome_painted demo_literal demo_build console_fb (display_grid _ _ panic_display) demo_welcome_memory initial_tty panic_graphics
    black RTCFacts.demo_cmos RTCFacts.demo_now true false 1 3 1 (RTC.mkRtc 0 0 RTC.zeros)) as (i & s' & t' & g' & E & Hi & [_ Hv]).
  - split.
    + repeat apply Forall_cons_2; try apply Forall_nil_2; apply cstr_test; vm_compute; reflexivity.
    + by apply (bool_decide_unpack _); vm_compute.
    + by apply (bool_decide_unpack _); vm_compute.
    + vm_compute. split; congruence.
  - exact blank_console.
  - apply RTCFacts.demo_ticks.
  - lia.
  - lia.
  - exists i, s', t', g'. split; [exact E|]. split; [lia|]. apply (f_equal position) in Hv. cbn [view position] in Hv. rewrite Hv.
    unfold RTCFacts.demo_now. destruct (i <? 9)%nat; vm_compute; reflexivity.
Defined.
