(* ===== verification/Stubs.v ===== *)
(** * The stubs of exceptions and interrupts (Assembly/interrupt.s)

    The instructions of the stubs on the registers, the segments and the stack
    of the processor; what the processor does before and what [iret] does after
    them; the structure [registers] (regs.hpp) that the handlers in isr.cpp get.
    The kernel runs in ring 0 only, so that the processor does not change
    stacks. *)
From S2P Require Import Prelude Words Interrupts.
From Stdlib Require Import ZArith Lia Bool.
From stdpp Require Import base strings numbers functions gmap list.
#[local] Open Scope Z_scope.

(** ** The processor *)

Inductive gp := EAX | ECX | EDX | EBX | ESP | EBP | ESI | EDI.
#[export] Instance gp_eq_dec : EqDecision gp.
Proof. solve_decision. Defined.
Inductive seg := DS | ES | FS | GS.
#[export] Instance seg_eq_dec : EqDecision seg.
Proof. solve_decision. Defined.

(** General registers of 32 bits, selectors of 16; [mem] maps the address of an
    aligned word to its value. *)
Record machine := mkMachine { gpr : gp -> Z; sel : seg -> Z; cs : Z; eip : Z; eflags : Z; mem : Z -> Z }.
Definition set_gpr (r : gp) (v : Z) (m : machine) : machine :=
  mkMachine (<[r := v]> (gpr m)) (sel m) (cs m) (eip m) (eflags m) (mem m).
Definition set_sel (s : seg) (v : Z) (m : machine) : machine :=
  mkMachine (gpr m) (<[s := v]> (sel m)) (cs m) (eip m) (eflags m) (mem m).
Definition set_mem (a v : Z) (m : machine) : machine :=
  mkMachine (gpr m) (sel m) (cs m) (eip m) (eflags m) (<[a := v]> (mem m)).
Definition set_eflags (v : Z) (m : machine) : machine :=
  mkMachine (gpr m) (sel m) (cs m) (eip m) v (mem m).
Definition set_cs (v : Z) (m : machine) : machine :=
  mkMachine (gpr m) (sel m) v (eip m) (eflags m) (mem m).
Definition set_eip (v : Z) (m : machine) : machine :=
  mkMachine (gpr m) (sel m) (cs m) v (eflags m) (mem m).

Definition push (v : Z) (m : machine) : machine :=
  let esp := u32 (gpr m ESP - 4) in set_mem esp v (set_gpr ESP esp m).
(** The word on top of the stack, and the stack without it. *)
Definition top (m : machine) : Z := mem m (gpr m ESP).
Definition drop (m : machine) : machine := set_gpr ESP (u32 (gpr m ESP + 4)) m.
Definition pop (r : gp) (m : machine) : machine := set_gpr r (top m) (drop m).
(** All general registers, [ESP] as it was before, which is not taken back. *)
Definition pushad (m : machine) : machine :=
  push (gpr m EDI) (push (gpr m ESI) (push (gpr m EBP) (push (gpr m ESP)
  (push (gpr m EBX) (push (gpr m EDX) (push (gpr m ECX) (push (gpr m EAX) m))))))).
Definition popad (m : machine) : machine := pop EAX (pop ECX (pop EDX (pop EBX (drop (pop EBP (pop ESI (pop EDI m))))))).
(** The low half of a register. *)
Definition set_low (r : gp) (v : Z) (m : machine) : machine :=
  set_gpr r (gpr m r - gpr m r mod 2 ^ 16 + v) m.

Definition DF : Z := 10.
Definition IF_ : Z := 9.

Inductive instr :=
  | PUSHAD | POPAD
  | PUSH (r : gp) | PUSH_IMM (v : Z) | POP (r : gp)
  | MOV_LOW_SEG (r : gp) (s : seg)   (* mov ax, ds *)
  | MOV_LOW (r : gp) (v : Z)         (* mov ax, 0x10 *)
  | MOV_SEG (s : seg) (r : gp)       (* mov ds, ax *)
  | ADD_ESP (n : Z)
  | CLD | CALL | IRET.

(** The instructions that only change the state. *)
Definition step (i : instr) (m : machine) : machine :=
  match i with
  | PUSHAD => pushad m
  | POPAD => popad m
  | PUSH r => push (gpr m r) m
  | PUSH_IMM v => push v m
  | POP r => pop r m
  | MOV_LOW_SEG r s => set_low r (sel m s) m
  | MOV_LOW r v => set_low r v m
  | MOV_SEG s r => set_sel s (gpr m r mod 2 ^ 16) m
  | ADD_ESP n => set_gpr ESP (u32 (gpr m ESP + n)) m
  | CLD => set_eflags (Z.clearbit (eflags m) DF) m
  | CALL | IRET => m
  end.

Section instructions.
(** The function that is called, and where it returns to. *)
Context (handler : K machine unit) (return_address : Z).

(** Another segment than that of ring 0 would bring another stack with it. *)
Definition iret : K machine unit := fun m =>
  let m1 := set_eip (top m) (drop m) in
  let m2 := set_cs (top m1 mod 2 ^ 16) (drop m1) in
  if negb (cs m2 mod 4 =? 0) then Fault else Done (tt, drop (set_eflags (top m2) m2)).
Definition exec (i : instr) : K machine unit :=
  match i with
  | CALL => kmodify (push return_address) ;; handler ;; kmodify drop
  | IRET => iret
  | _ => kmodify (step i)
  end.
Fixpoint run (l : list instr) : K machine unit :=
  match l with [] => mret tt | i :: l' => exec i ;; run l' end.
End instructions.

(** ** The stubs *)

Definition segments_from (r : gp) : list instr := [MOV_SEG DS r; MOV_SEG ES r; MOV_SEG FS r; MOV_SEG GS r].

Definition exception_stub : list instr :=
  [PUSHAD; MOV_LOW_SEG EAX DS; PUSH EAX; MOV_LOW EAX 0x10] ++ segments_from EAX ++
  [PUSH ESP; CLD; CALL; ADD_ESP 4; POP EAX] ++ segments_from EAX ++ [POPAD; ADD_ESP 8; IRET].
Definition interrupt_stub : list instr :=
  [PUSHAD; MOV_LOW_SEG EAX DS; PUSH EAX; MOV_LOW EAX 0x10] ++ segments_from EAX ++
  [PUSH ESP; CLD; CALL; ADD_ESP 4; POP EBX] ++ segments_from EBX ++ [POPAD; ADD_ESP 8; IRET].

(** The macros, with the jump to the common part. *)
Definition m_exception_err (n : Z) : list instr := [PUSH_IMM 0; PUSH_IMM n] ++ exception_stub.
Definition m_exception_no_err (n : Z) : list instr := [PUSH_IMM n] ++ exception_stub.
Definition m_interrupt (i v : Z) : list instr := [PUSH_IMM i; PUSH_IMM v] ++ interrupt_stub.

(** The exceptions whose stub pushes no error code. *)
Definition no_err : list Z := [8; 10; 11; 12; 13; 14; 17; 30].
Definition exception (n : Z) : list instr :=
  if bool_decide (n ∈ no_err) then m_exception_no_err n else m_exception_err n.
Definition interrupt (i : Z) : list instr := m_interrupt i (32 + i).
(** The stub in the gate of vector [v]. *)
Definition stub (v : Z) : list instr := if v <? 32 then exception v else interrupt (v - 32).

(** What the processor does at vector [v]: for some exceptions it pushes an
    error code.  (21 and 29, which newer processors raise with one, are reserved
    for the processors of the kernel.) *)
Definition has_error_code (v : Z) : bool := bool_decide (v ∈ [8; 10; 11; 12; 13; 14; 17; 30]).
Definition deliver (v code : Z) (m : machine) : machine :=
  let m1 := push (eip m) (push (cs m) (push (eflags m) m)) in
  set_cs 8 (set_eflags (Z.clearbit (eflags m) IF_) (if has_error_code v then push code m1 else m1)).

(** The whole of an exception or interrupt. *)
Definition interrupted (handler : K machine unit) (return_address v code : Z) : K machine unit :=
  kmodify (deliver v code) ;; run handler return_address (stub v).

(** ** The stack

    The words [l] have been pushed since [m0]. *)
Record on_stack (m0 : machine) (l : list Z) (m : machine) : Prop := {
  os_esp : gpr m ESP = gpr m0 ESP - 4 * Z.of_nat (length l);
  os_words i w : l !! i = Some w -> mem m (gpr m ESP + 4 * Z.of_nat i) = w;
  os_above a : gpr m0 ESP <= a -> mem m a = mem m0 a;
}.
(** The stack pointer of [m0] has room for [n] words. *)
Definition room_below (m0 : machine) (n : Z) : Prop := 4 * n <= gpr m0 ESP < 2 ^ 32.

Section stack.
Context (m0 : machine) (Hroom : room_below m0 24).

Lemma gpr_insert r v g : (<[r := v]> g : gp -> Z) r = v.
Proof. apply fn_lookup_insert. Qed.
Lemma gpr_insert_ne r r' v g : r <> r' -> (<[r := v]> g : gp -> Z) r' = g r'.
Proof. apply fn_lookup_insert_ne. Qed.

Lemma start_on : on_stack m0 [] m0.
Proof. split; [cbn; lia|done|done]. Qed.

Lemma push_on v l m : on_stack m0 l m -> (length l < 24)%nat -> on_stack m0 (v :: l) (push v m).
Proof.
  intros [He Hw Ha] Hl. unfold room_below in Hroom. unfold push.
  assert (Hesp : u32 (gpr m ESP - 4) = gpr m ESP - 4) by (apply u32_small; unfold in_u32; lia).
  rewrite Hesp. split; cbn [gpr set_mem set_gpr mem].
  - rewrite gpr_insert. cbn [length]. lia.
  - rewrite gpr_insert. intros [|i] w Hi.
    + injection Hi as <-. by rewrite Z.mul_0_r, Z.add_0_r, fn_lookup_insert.
    + rewrite fn_lookup_insert_ne by lia. rewrite <- (Hw i w Hi). f_equal. lia.
  - intros a Hin. rewrite fn_lookup_insert_ne; [by apply Ha|lia].
Qed.

Lemma top_on w l m : on_stack m0 (w :: l) m -> top m = w.
Proof. intros [_ Hw _]. unfold top. rewrite <- (Hw 0%nat w eq_refl). f_equal. lia. Qed.

Lemma add_on n l1 l2 m : on_stack m0 (l1 ++ l2) m -> (length (l1 ++ l2) <= 24)%nat -> n = 4 * Z.of_nat (length l1) ->
  on_stack m0 l2 (set_gpr ESP (u32 (gpr m ESP + n)) m).
Proof.
  intros [He Hw Ha] Hl ->. unfold room_below in Hroom. rewrite length_app in He, Hl.
  assert (Hesp : u32 (gpr m ESP + 4 * Z.of_nat (length l1)) = gpr m ESP + 4 * Z.of_nat (length l1)) by (apply u32_small; unfold in_u32; lia).
  rewrite Hesp. split; cbn [gpr set_gpr mem]; rewrite ?gpr_insert; [lia| |done].
  intros i w Hi. rewrite <- (Hw (length l1 + i)%nat w); [f_equal; lia|]. by rewrite lookup_app_r, Nat.add_comm, Nat.add_sub by lia.
Qed.
Lemma drop_on w l m : on_stack m0 (w :: l) m -> (length l < 24)%nat -> on_stack m0 l (drop m).
Proof. intros H Hl. apply (add_on 4 [w] l); [exact H|cbn; lia|done]. Qed.

(** Changes of the other registers leave the stack as it is. *)
Lemma gpr_on r v l m : r <> ESP -> on_stack m0 l m -> on_stack m0 l (set_gpr r v m).
Proof. intros Hr [He Hw Ha]. split; cbn [gpr set_gpr mem]; rewrite ?(gpr_insert_ne r ESP) by done; done. Qed.
Lemma same_on l m m' : gpr m' ESP = gpr m ESP -> mem m' = mem m -> on_stack m0 l m -> on_stack m0 l m'.
Proof. intros E1 E2 [He Hw Ha]. split; rewrite ?E1, ?E2; done. Qed.
Lemma pop_on r w l m : r <> ESP -> on_stack m0 (w :: l) m -> (length l < 24)%nat -> on_stack m0 l (pop r m).
Proof. intros Hr H Hl. unfold pop. apply gpr_on; [done|]. by eapply drop_on. Qed.

Lemma gpr_push r v m : r <> ESP -> gpr (push v m) r = gpr m r.
Proof. intros Hr. apply gpr_insert_ne. congruence. Qed.
Lemma gpr_drop r m : r <> ESP -> gpr (drop m) r = gpr m r.
Proof. intros Hr. apply gpr_insert_ne. congruence. Qed.
Lemma gpr_pop r m : gpr (pop r m) r = top m.
Proof. apply gpr_insert. Qed.
Lemma gpr_pop_ne r r' m : r <> r' -> r' <> ESP -> gpr (pop r m) r' = gpr m r'.
Proof. intros H1 H2. unfold pop. cbn [gpr set_gpr]. rewrite gpr_insert_ne by done. by apply gpr_drop. Qed.

Lemma popad_on di si bp x b d c a l m : on_stack m0 (di :: si :: bp :: x :: b :: d :: c :: a :: l) m -> (length l <= 12)%nat ->
  on_stack m0 l (popad m) /\ (sel (popad m) = sel m /\ mem (popad m) = mem m) /\
  gpr (popad m) EDI = di /\ gpr (popad m) ESI = si /\ gpr (popad m) EBP = bp /\ gpr (popad m) EBX = b /\
  gpr (popad m) EDX = d /\ gpr (popad m) ECX = c /\ gpr (popad m) EAX = a.
Proof.
  intros H0 Hl. unfold popad.
  pose proof (pop_on EDI _ _ _ ltac:(done) H0 ltac:(cbn; lia)) as H1. set (m1 := pop EDI m) in *.
  pose proof (pop_on ESI _ _ _ ltac:(done) H1 ltac:(cbn; lia)) as H2. set (m2 := pop ESI m1) in *.
  pose proof (pop_on EBP _ _ _ ltac:(done) H2 ltac:(cbn; lia)) as H3. set (m3 := pop EBP m2) in *.
  pose proof (drop_on _ _ _ H3 ltac:(cbn; lia)) as H4. set (m4 := drop m3) in *.
  pose proof (pop_on EBX _ _ _ ltac:(done) H4 ltac:(cbn; lia)) as H5. set (m5 := pop EBX m4) in *.
  pose proof (pop_on EDX _ _ _ ltac:(done) H5 ltac:(cbn; lia)) as H6. set (m6 := pop EDX m5) in *.
  pose proof (pop_on ECX _ _ _ ltac:(done) H6 ltac:(cbn; lia)) as H7. set (m7 := pop ECX m6) in *.
  pose proof (pop_on EAX _ _ _ ltac:(done) H7 ltac:(lia)) as H8.
  split; [exact H8|]. split; [done|].
  assert (T1 : gpr m1 EDI = di) by (unfold m1; rewrite gpr_pop; by eapply top_on).
  assert (T2 : gpr m2 ESI = si) by (unfold m2; rewrite gpr_pop; by eapply top_on).
  assert (T3 : gpr m3 EBP = bp) by (unfold m3; rewrite gpr_pop; by eapply top_on).
  assert (T5 : gpr m5 EBX = b) by (unfold m5; rewrite gpr_pop; by eapply top_on).
  assert (T6 : gpr m6 EDX = d) by (unfold m6; rewrite gpr_pop; by eapply top_on).
  assert (T7 : gpr m7 ECX = c) by (unfold m7; rewrite gpr_pop; by eapply top_on).
  split; [|split; [|split; [|split; [|split; [|split]]]]].
  - rewrite gpr_pop_ne by done. unfold m7, m6, m5, m4. do 3 rewrite gpr_pop_ne by done. rewrite gpr_drop by done.
    unfold m3, m2. by do 2 rewrite gpr_pop_ne by done.
  - rewrite gpr_pop_ne by done. unfold m7, m6, m5, m4. do 3 rewrite gpr_pop_ne by done. rewrite gpr_drop by done.
    unfold m3. by rewrite gpr_pop_ne by done.
  - rewrite gpr_pop_ne by done. unfold m7, m6, m5, m4. do 3 rewrite gpr_pop_ne by done. by rewrite gpr_drop by done.
  - rewrite gpr_pop_ne by done. unfold m7, m6. by do 2 rewrite gpr_pop_ne by done.
  - rewrite gpr_pop_ne by done. unfold m7. by rewrite gpr_pop_ne by done.
  - by rewrite gpr_pop_ne by done.
  - rewrite gpr_pop. by eapply top_on.
Qed.

Lemma pushad_on l m : on_stack m0 l m -> (length l <= 12)%nat ->
  on_stack m0 (gpr m EDI :: gpr m ESI :: gpr m EBP :: gpr m ESP :: gpr m EBX :: gpr m EDX :: gpr m ECX :: gpr m EAX :: l) (pushad m).
Proof. intros H Hl. unfold pushad. repeat (apply push_on; [|cbn; lia]). exact H. Qed.

Lemma run_app h ra l1 l2 m : run h ra (l1 ++ l2) m = (run h ra l1 ;; run h ra l2) m.
Proof.
  revert m. induction l1 as [|i l1 IH]; intros m; cbn [run app]; [done|]. rewrite run_bind_assoc, !run_bind.
  destruct (exec h ra i m) as [[[] m']| | |]; [apply IH|done..].
Qed.

Definition steps (l : list instr) (m : machine) : machine := fold_left (fun m i => step i m) l m.
Lemma steps_cons i l m : steps (i :: l) m = steps l (step i m).
Proof. done. Qed.
Lemma steps_nil m : steps [] m = m.
Proof. done. Qed.
Lemma steps_app l1 l2 m : steps (l1 ++ l2) m = steps l2 (steps l1 m).
Proof. apply fold_left_app. Qed.
Definition pure (i : instr) : bool := match i with CALL | IRET => false | _ => true end.
Lemma run_pure h ra l m : forallb pure l = true -> run h ra l m = Done (tt, steps l m).
Proof.
  revert m. induction l as [|i l IH]; intros m Hp; [done|]. cbn [forallb] in Hp. apply andb_prop in Hp as [Hi Hl].
  cbn [run]. rewrite (run_bind_done _ _ m tt (step i m)) by by destruct i. by apply IH.
Qed.

(** Loading the segments. *)
Lemma segments_on r l m : on_stack m0 l m -> let m' := steps (segments_from r) m in
  on_stack m0 l m' /\ gpr m' = gpr m /\ mem m' = mem m /\ cs m' = cs m /\ eflags m' = eflags m /\ forall s, sel m' s = gpr m r mod 2 ^ 16.
Proof.
  intros H m'. split; [by apply (same_on l m)|]. do 4 (split; [done|]). intros [];
    cbn [m' steps segments_from fold_left step sel set_sel gpr];
    repeat first [rewrite fn_lookup_insert; done|rewrite fn_lookup_insert_ne by done]; done.
Qed.

Lemma set_low_on r v l m : r <> ESP -> on_stack m0 l m -> 0 <= v < 2 ^ 16 -> on_stack m0 l (set_low r v m) /\
  gpr (set_low r v m) r mod 2 ^ 16 = v.
Proof.
  intros Hr H Hv. split; [by apply gpr_on|]. unfold set_low. cbn [gpr set_gpr]. rewrite gpr_insert.
  pose proof (Z.div_mod (gpr m r) (2 ^ 16) ltac:(lia)) as Hdm.
  replace (gpr m r - gpr m r mod 2 ^ 16 + v) with (v + gpr m r / 2 ^ 16 * 2 ^ 16) by lia. rewrite Z_mod_plus_full. by apply Z.mod_small.
Qed.

(** Up to the call, and after it. *)
Definition prologue : list instr :=
  [PUSHAD; MOV_LOW_SEG EAX DS; PUSH EAX; MOV_LOW EAX 0x10] ++ segments_from EAX ++ [PUSH ESP; CLD].
Definition restore (r : gp) : list instr := [ADD_ESP 4; POP r] ++ segments_from r ++ [POPAD; ADD_ESP 8].

(** What is pushed: the low half of the first word is the data segment. *)
Definition saved (m : machine) (d : Z) : list Z :=
  [d; gpr m EDI; gpr m ESI; gpr m EBP; gpr m ESP; gpr m EBX; gpr m EDX; gpr m ECX; gpr m EAX].

Lemma prologue_on l m : on_stack m0 l m -> (length l <= 5)%nat -> 0 <= sel m DS < 2 ^ 16 ->
  let m1 := steps prologue m in
  let d := gpr m EAX - gpr m EAX mod 2 ^ 16 + sel m DS in
  on_stack m0 (gpr m1 ESP + 4 :: saved m d ++ l) m1 /\
  (forall s, sel m1 s = 0x10) /\ eflags m1 = Z.clearbit (eflags m) DF /\ cs m1 = cs m.
Proof.
  intros H Hl Hds m' d. subst m'. unfold prologue. rewrite !steps_app, !steps_cons, !steps_nil. cbn [step].
  pose proof (pushad_on _ _ H ltac:(lia)) as H1.
  assert (Ea : gpr (pushad m) EAX = gpr m EAX) by (unfold pushad; by do 8 rewrite gpr_push by done).
  assert (Es : sel (pushad m) DS = sel m DS) by done. assert (Ec : cs (pushad m) = cs m /\ eflags (pushad m) = eflags m) by done.
  generalize dependent (pushad m). intros m1 H1 Ea Es Ec.
  destruct (set_low_on EAX (sel m1 DS) _ m1 ltac:(done) H1 ltac:(by rewrite Es)) as [H2 _].
  assert (Ed : gpr (set_low EAX (sel m1 DS) m1) EAX = d) by (unfold set_low; cbn [gpr set_gpr]; rewrite gpr_insert, Ea, Es; done).
  assert (Ec2 : cs (set_low EAX (sel m1 DS) m1) = cs m /\ eflags (set_low EAX (sel m1 DS) m1) = eflags m) by done.
  generalize dependent (set_low EAX (sel m1 DS) m1). intros m2 H2 Ed Ec2.
  pose proof (push_on (gpr m2 EAX) _ _ H2 ltac:(cbn; lia)) as H3. rewrite Ed in H3 at 1.
  assert (Ec3 : cs (push (gpr m2 EAX) m2) = cs m /\ eflags (push (gpr m2 EAX) m2) = eflags m) by done.
  generalize dependent (push (gpr m2 EAX) m2). intros m3 H3 Ec3.
  destruct (set_low_on EAX 16 _ m3 ltac:(done) H3 ltac:(lia)) as [H4 E4].
  assert (Ec4 : cs (set_low EAX 16 m3) = cs m /\ eflags (set_low EAX 16 m3) = eflags m) by done.
  generalize dependent (set_low EAX 16 m3). intros m4 H4 E4 Ec4.
  destruct (segments_on EAX _ m4 H4) as (H5 & _ & _ & Ec5 & Ef5 & Es5). destruct Ec4 as [Ec4 Ef4]. rewrite Ec4 in Ec5. rewrite Ef4 in Ef5. rewrite E4 in Es5.
  generalize dependent (steps (segments_from EAX) m4). intros m5 H5 Ec5 Ef5 Es5.
  pose proof (push_on (gpr m5 ESP) _ _ H5 ltac:(cbn; lia)) as H6.
  split; [|split; [exact Es5|split; [|exact Ec5]]].
  - apply (same_on _ (push (gpr m5 ESP) m5)); [done|done|].
    replace (gpr (set_eflags _ _) ESP + 4) with (gpr m5 ESP); [exact H6|].
    cbn [set_eflags gpr]. rewrite (os_esp _ _ _ H6), (os_esp _ _ _ H5). cbn [length]. lia.
  - cbn [set_eflags eflags push set_mem set_gpr]. by rewrite Ef5.
Qed.

(** After the call. *)
Lemma restore_on r p d di si bp x b dx c a n e l m : r <> ESP ->
  on_stack m0 (p :: d :: di :: si :: bp :: x :: b :: dx :: c :: a :: n :: e :: l) m -> (length l <= 10)%nat ->
  let m' := steps (restore r) m in
  on_stack m0 l m' /\ mem m' = mem m /\ (forall s, sel m' s = d mod 2 ^ 16) /\
  gpr m' EDI = di /\ gpr m' ESI = si /\ gpr m' EBP = bp /\ gpr m' EBX = b /\ gpr m' EDX = dx /\ gpr m' ECX = c /\ gpr m' EAX = a.
Proof.
  intros Hr H Hl m'. subst m'. unfold restore. rewrite !steps_app, !steps_cons, !steps_nil. cbn [step].
  pose proof (add_on 4 [p] _ m H ltac:(cbn; lia) eq_refl) as H1.
  assert (Em : mem (set_gpr ESP (u32 (gpr m ESP + 4)) m) = mem m) by done.
  generalize dependent (set_gpr ESP (u32 (gpr m ESP + 4)) m). intros m1 H1 Em.
  pose proof (pop_on r _ _ _ Hr H1 ltac:(cbn; lia)) as H2. assert (Ed : gpr (pop r m1) r = d) by (rewrite gpr_pop; by eapply top_on).
  assert (Em2 : mem (pop r m1) = mem m) by done.
  generalize dependent (pop r m1). intros m2 H2 Ed Em2.
  destruct (segments_on r _ m2 H2) as (H3 & _ & Em3 & _ & _ & Es3). rewrite Ed in Es3. rewrite Em2 in Em3.
  generalize dependent (steps (segments_from r) m2). intros m3 H3 Em3 Es3.
  destruct (popad_on _ _ _ _ _ _ _ _ _ _ H3 ltac:(cbn; lia)) as (H4 & [E41 E42] & E).
  generalize dependent (popad m3). intros m4 H4 E41 E42 E.
  split; [|split; [by rewrite <- Em3, <- E42|split; [intros s; cbn [sel set_gpr]; by rewrite E41|]]].
  - apply (add_on 8 [n; e] l); [exact H4|cbn; lia|done].
  - cbn [gpr set_gpr]. by rewrite !gpr_insert_ne by done.
Qed.

Lemma iret_on ip c f m : on_stack m0 [ip; c; f] m -> 0 <= c < 2 ^ 16 -> c mod 4 = 0 ->
  exists m', iret m = Done (tt, m') /\ on_stack m0 [] m' /\ (forall r, r <> ESP -> gpr m' r = gpr m r) /\ sel m' = sel m /\
    eip m' = ip /\ cs m' = c /\ eflags m' = f.
Proof.
  intros H Hc H4. unfold iret.
  pose proof (top_on _ _ _ H) as T1. pose proof (drop_on _ _ _ H ltac:(cbn; lia)) as H1.
  assert (G1 : forall r, r <> ESP -> gpr (drop m) r = gpr m r) by (intros r; apply gpr_drop). assert (S1 : sel (drop m) = sel m) by done.
  rewrite T1. set (m1 := set_eip ip (drop m)). assert (H1' : on_stack m0 [c; f] m1) by by apply (same_on _ (drop m)).
  pose proof (top_on _ _ _ H1') as T2. pose proof (drop_on _ _ _ H1' ltac:(cbn; lia)) as H2. cbv zeta. rewrite T2, (Z.mod_small c (2 ^ 16)) by done.
  set (m2 := set_cs c (drop m1)). assert (H2' : on_stack m0 [f] m2) by by apply (same_on _ (drop m1)).
  pose proof (top_on _ _ _ H2') as T3. rewrite T3. change (cs m2) with c. rewrite H4. cbn [Z.eqb negb].
  assert (H3 : on_stack m0 [f] (set_eflags f m2)) by by apply (same_on _ m2).
  exists (drop (set_eflags f m2)). split; [done|]. split; [by eapply drop_on; [exact H3|cbn; lia]|]. split; [|done].
  intros r Hr. rewrite gpr_drop by done. cbn [gpr set_eflags m2 set_cs]. rewrite gpr_drop by done. cbn [gpr m1 set_eip]. by apply G1.
Qed.
End stack.

(** ** The whole of it *)

(** The error code, or for an interrupt its line. *)
Definition error_of (v code : Z) : Z := if v <? 32 then (if has_error_code v then code else 0) else v - 32.

(** What the processor and the stub push before the common part. *)
Definition numbers (v : Z) : list instr :=
  if v <? 32 then (if has_error_code v then [PUSH_IMM v] else [PUSH_IMM 0; PUSH_IMM v]) else [PUSH_IMM (v - 32); PUSH_IMM v].
Definition scratch (v : Z) : gp := if v <? 32 then EAX else EBX.

Lemma stub_shape v : stub v = numbers v ++ prologue ++ [CALL] ++ restore (scratch v) ++ [IRET].
Proof.
  unfold stub, numbers, scratch, exception, interrupt, m_interrupt, has_error_code, no_err.
  destruct (v <? 32); [by destruct (bool_decide _)|]. by replace (32 + (v - 32)) with v by lia.
Qed.

(** Pushing numbers. *)
Lemma numbers_on m0 l ns m : room_below m0 24 -> on_stack m0 l m -> (length l + length ns <= 24)%nat ->
  let m' := steps (PUSH_IMM <$> ns) m in
  on_stack m0 (rev ns ++ l) m' /\ (forall r, r <> ESP -> gpr m' r = gpr m r) /\ sel m' = sel m /\ cs m' = cs m /\ eflags m' = eflags m.
Proof.
  intros Hr. revert l m. induction ns as [|n ns IH]; intros l m H Hl; cbv zeta; [done|].
  cbn [fmap list_fmap]. rewrite steps_cons. cbn [step length] in *.
  destruct (IH (n :: l) (push n m)) as (H1 & G1 & S1 & C1 & F1); [apply push_on; [done|done|lia]|cbn; lia|].
  cbn [rev]. rewrite <- app_assoc. split; [exact H1|]. split; [|by rewrite S1, C1, F1].
  intros r Hne. rewrite G1 by done. by apply gpr_push.
Qed.

Lemma numbers_pure v : forallb pure (numbers v) = true.
Proof. unfold numbers. destruct (v <? 32); [by destruct (has_error_code v)|done]. Qed.

Lemma restore_pure v : forallb pure (restore (scratch v)) = true.
Proof. unfold scratch. by destruct (v <? 32). Qed.

Lemma delivered m v code : room_below m 24 -> let m' := steps (numbers v) (deliver v code m) in
  on_stack m [v; error_of v code; eip m; cs m; eflags m] m' /\ (forall r, r <> ESP -> gpr m' r = gpr m r) /\ sel m' = sel m /\
  cs m' = 8 /\ eflags m' = Z.clearbit (eflags m) IF_.
Proof.
  intros Hr m'. subst m'. unfold deliver, numbers, error_of, has_error_code.
  destruct (numbers_on m [] [eflags m; cs m; eip m] m Hr (start_on m) ltac:(cbn; lia)) as (H1 & G1 & S1 & _ & _).
  cbn [fmap list_fmap steps fold_left step rev app] in H1, G1, S1.
  generalize dependent (push (eip m) (push (cs m) (push (eflags m) m))). intros m1 H1 G1 S1.
  destruct (numbers_on m _ [code] m1 Hr H1 ltac:(cbn; lia)) as (H1' & G1' & S1' & _ & _).
  cbn [fmap list_fmap steps fold_left step rev app] in H1', G1', S1'. 
  generalize dependent (push code m1). intros m2 H2 G2 S2.
  assert (K : forall mm l ns, on_stack m l mm -> (forall r, r <> ESP -> gpr mm r = gpr m r) -> sel mm = sel m -> (length l + length ns <= 24)%nat ->
    let m' := steps (PUSH_IMM <$> ns) (set_cs 8 (set_eflags (Z.clearbit (eflags m) IF_) mm)) in
    on_stack m (rev ns ++ l) m' /\ (forall r, r <> ESP -> gpr m' r = gpr m r) /\ sel m' = sel m /\
    cs m' = 8 /\ eflags m' = Z.clearbit (eflags m) IF_).
  { intros mm l ns H G S Hl. destruct (numbers_on m l ns (set_cs 8 (set_eflags (Z.clearbit (eflags m) IF_) mm)) Hr) as (Hn & Gn & Sn & Cn & Fn);
      [by apply (same_on m l mm)|done|]. split; [exact Hn|]. split; [intros r Hne; rewrite Gn by done; by apply G|]. by rewrite Sn, Cn, Fn. }
  assert (G2' : forall r, r <> ESP -> gpr m2 r = gpr m r) by (intros r Hne; rewrite G2 by done; by apply G1).
  assert (S2' : sel m2 = sel m) by by rewrite S2.
  destruct (Z.ltb_spec v 32); [destruct (bool_decide _)|].
  - exact (K m2 _ [v] H2 G2' S2' ltac:(cbn; lia)).
  - exact (K m1 _ [0; v] H1 G1 S1 ltac:(cbn; lia)).
  - rewrite bool_decide_false by (rewrite !elem_of_cons, elem_of_nil; lia). exact (K m1 _ [v - 32; v] H1 G1 S1 ltac:(cbn; lia)).
Qed.

(** The structure that the handler gets, without its last two fields. *)
Definition handed (m : machine) (v code : Z) : list Z :=
  [gpr m EAX - gpr m EAX mod 2 ^ 16 + sel m DS; gpr m EDI; gpr m ESI; gpr m EBP; gpr m ESP - 20; gpr m EBX; gpr m EDX; gpr m ECX;
   gpr m EAX; v; error_of v code; eip m; cs m; eflags m].

(** What a handler is called with. *)
Record called (m : machine) (return_address v code : Z) (m1 : machine) : Prop := {
  call_returns : mem m1 (gpr m1 ESP) = return_address;
  call_argument : mem m1 (gpr m1 ESP + 4) = gpr m1 ESP + 8;
  call_fields i : (i < 14)%nat -> mem m1 (gpr m1 ESP + 8 + 4 * Z.of_nat i) = nth i (handed m v code) 0;
  call_above a : gpr m ESP <= a -> mem m1 a = mem m a;
  call_place : gpr m1 ESP + 8 + 56 = gpr m ESP;
  call_segments s : sel m1 s = 0x10;
  call_cs : cs m1 = 8;
  call_flags : Z.testbit (eflags m1) DF = false /\ Z.testbit (eflags m1) IF_ = false;
}.

(** The interrupted program goes on as if nothing had happened, except that the
    other data segments are that of [DS]. *)
Record resumed (m m' : machine) : Prop := {
  res_gpr r : gpr m' r = gpr m r;
  res_eip : eip m' = eip m;
  res_cs : cs m' = cs m;
  res_eflags : eflags m' = eflags m;
  res_sel s : sel m' s = sel m DS;
  res_mem a : gpr m ESP <= a -> mem m' a = mem m a;
}.

Lemma before_call m v code : room_below m 24 -> 0 <= sel m DS < 2 ^ 16 -> forall ra,
  exists m1, m1 = push ra (steps prologue (steps (numbers v) (deliver v code m))) /\ called m ra v code m1 /\
    on_stack m (ra :: gpr m1 ESP + 8 :: handed m v code) m1.
Proof.
  intros Hr Hds ra. destruct (delivered m v code Hr) as (H & G & Sl & C & F). eexists. split; [reflexivity|].
  generalize dependent (steps (numbers v) (deliver v code m)). intros m1 H G Sl C F.
  destruct (prologue_on m Hr _ m1 H) as (H2 & S2 & F2 & C2); [cbn; lia|by rewrite Sl|].
  assert (Esp : gpr m1 ESP = gpr m ESP - 20) by (rewrite (os_esp _ _ _ H); cbn; lia).
  unfold saved in H2.
  rewrite Sl, Esp, (G EAX), (G EDI), (G ESI), (G EBP), (G EBX), (G EDX), (G ECX) in H2 by done.
  generalize dependent (steps prologue m1). intros m2 H2 S2 F2 C2.
  pose proof (push_on m Hr ra _ _ H2 ltac:(cbn; lia)) as H3.
  assert (E3 : gpr (push ra m2) ESP = gpr m2 ESP - 4) by (rewrite (os_esp _ _ _ H3), (os_esp _ _ _ H2); cbn [length]; lia).
  replace (gpr m2 ESP + 4) with (gpr (push ra m2) ESP + 8) in H3 by lia.
  split; [|exact H3].
  assert (S3 : sel (push ra m2) = sel m2 /\ cs (push ra m2) = cs m2 /\ eflags (push ra m2) = eflags m2) by done.
  generalize dependent (push ra m2). intros m3 H3 _ (S3 & C3 & F3). pose proof (os_words _ _ _ H3) as W. split.
  - rewrite <- (W 0%nat ra eq_refl). f_equal. lia.
  - rewrite <- (W 1%nat _ eq_refl). f_equal. 
  - intros i Hi. rewrite nth_lookup, <- (W (S (S i)) (default 0 (handed m v code !! i))); [f_equal; lia|].
    cbn [lookup list_lookup]. destruct (lookup_lt_is_Some_2 (handed m v code) i Hi) as [w Hw]. by rewrite Hw.
  - apply (os_above _ _ _ H3).
  - rewrite (os_esp _ _ _ H3). cbn. lia.
  - intros s. by rewrite S3.
  - by rewrite C3, C2.
  - rewrite F3, F2, F. split; [by rewrite Z.clearbit_eq|]. by rewrite Z.clearbit_neq, Z.clearbit_eq.
Qed.

Lemma call_run h ra l m : run h ra ([CALL] ++ l) m = (h ;; kmodify drop ;; run h ra l) (push ra m).
Proof.
  cbn [app run exec]. rewrite !run_bind_assoc, (run_bind_done _ _ m tt (push ra m)) by done. by rewrite run_bind_assoc.
Qed.

Lemma interrupted_run m h ra v code : interrupted h ra v code m =
  (h ;; kmodify drop ;; run h ra (restore (scratch v) ++ [IRET])) (push ra (steps prologue (steps (numbers v) (deliver v code m)))).
Proof.
  unfold interrupted. rewrite (run_bind_done _ _ m tt (deliver v code m)) by done. rewrite stub_shape, run_app.
  rewrite (run_bind_done _ _ _ _ _ (run_pure _ _ (numbers v) _ (numbers_pure v))), run_app.
  rewrite (run_bind_done _ _ _ _ _ (run_pure h ra prologue _ eq_refl)). apply call_run.
Qed.

(** A handler that has left the structure and what is above it alone. *)
Lemma after_handler m v code m1 m2 ra handler : room_below m 24 -> 0 <= sel m DS < 2 ^ 16 -> 0 <= cs m < 2 ^ 16 -> cs m mod 4 = 0 ->
  on_stack m (ra :: gpr m1 ESP + 8 :: handed m v code) m1 -> gpr m2 ESP = gpr m1 ESP ->
  (forall a, gpr m1 ESP + 8 <= a -> mem m2 a = mem m1 a) ->
  exists m', run handler ra (restore (scratch v) ++ [IRET]) (drop m2) = Done (tt, m') /\ resumed m m'.
Proof.
  intros Hr Hds Hc Hc4 [E1 W1 A1] Hesp Hmem.
  assert (H2 : on_stack m (mem m2 (gpr m2 ESP) :: mem m2 (gpr m2 ESP + 4) :: handed m v code) m2).
  { split; [by rewrite Hesp, E1| |].
    - intros [|[|i]] w Hi; [injection Hi as <-; f_equal; lia|injection Hi as <-; f_equal; lia|].
      rewrite Hesp, Hmem by lia. by apply W1.
    - intros a Ha. rewrite Hmem; [by apply A1|]. cbn [length handed] in E1. lia. }
  pose proof (drop_on m Hr _ _ _ H2 ltac:(cbn; lia)) as H3.
  assert (Hsc : scratch v <> ESP) by (unfold scratch; by destruct (v <? 32)).
  destruct (restore_on m Hr (scratch v) _ _ _ _ _ _ _ _ _ _ _ _ [eip m; cs m; eflags m] (drop m2) Hsc H3 ltac:(cbn; lia))
    as (H4 & M4 & S4 & R1 & R2 & R3 & R4 & R5 & R6 & R7).
  rewrite run_app, (run_bind_done _ _ _ _ _ (run_pure _ _ (restore (scratch v)) _ (restore_pure v))).
  generalize dependent (steps (restore (scratch v)) (drop m2)). intros m4 H4 M4 S4 R1 R2 R3 R4 R5 R6 R7.
  destruct (iret_on m Hr _ _ _ m4 H4 Hc Hc4) as (m5 & E5 & H5 & G5 & S5 & I5 & C5 & F5).
  exists m5. split; [cbn [run exec]; by rewrite (run_bind_done _ _ _ _ _ E5)|]. split; try done.
  - intros r. destruct (decide (r = ESP)) as [->|Hne]; [rewrite (os_esp _ _ _ H5); cbn; lia|]. rewrite G5 by done. by destruct r.
  - intros s. rewrite S5, S4. pose proof (Z.div_mod (gpr m EAX) (2 ^ 16) ltac:(lia)) as Hdm.
    replace (gpr m EAX - gpr m EAX mod 2 ^ 16 + sel m DS) with (sel m DS + gpr m EAX / 2 ^ 16 * 2 ^ 16) by lia.
    rewrite Z_mod_plus_full. by apply Z.mod_small.
  - apply (os_above _ _ _ H5).
Qed.

(** C34. The stubs of all exceptions and interrupts.  From any state of the
    kernel with room for 24 words on the stack, the processor and the stub call
    the handler with interrupts off, the direction flag clear and the kernel's
    data segments, and with the address of a [struct registers] on the stack:
    all registers as they were, the number of the vector, its error code (for
    an interrupt, its line; 0 if there is none) and the place to return to.  If
    the handler returns, leaving the stack from that structure on alone, the
    interrupted program goes on with every register, its flags and its stack as
    they were, whatever else the handler did to registers; a panic of the
    handler is a panic of the whole.  There are two exceptions: [ES], [FS] and
    [GS] become what [DS] was, and the last two fields of the structure, [esp]
    and [ss], are words of the interrupted stack, since the processor pushes
    them only when it leaves user mode. *)
Theorem interrupt_preserves_context m handler return_address v code :
  room_below m 24 -> 0 <= v < 48 -> 0 <= sel m DS < 2 ^ 16 -> 0 <= cs m < 2 ^ 16 -> cs m mod 4 = 0 ->
  exists m1, called m return_address v code m1 /\
    (mem m1 (gpr m1 ESP + 8 + 56) = mem m (gpr m ESP) /\ mem m1 (gpr m1 ESP + 8 + 60) = mem m (gpr m ESP + 4)) /\
    (forall msg, handler m1 = Panic msg -> interrupted handler return_address v code m = Panic msg) /\
    (forall m2, handler m1 = Done (tt, m2) -> gpr m2 ESP = gpr m1 ESP ->
       (forall a, gpr m1 ESP + 8 <= a -> mem m2 a = mem m1 a) ->
       exists m', interrupted handler return_address v code m = Done (tt, m') /\ resumed m m').
Proof.
  intros Hr Hv Hds Hc Hc4. destruct (before_call m v code Hr Hds return_address) as (m1 & Em1 & Hcall & H1).
  pose proof (interrupted_run m handler return_address v code) as Hrun. rewrite <- Em1 in Hrun. clear Em1.
  exists m1. split; [done|]. pose proof (call_place _ _ _ _ _ Hcall) as Hpl. split; [|split].
  - split; rewrite <- (call_above _ _ _ _ _ Hcall) by lia; f_equal; lia.
  - intros msg E. by rewrite Hrun, run_bind, E.
  - intros m2 E Hesp Hmem. rewrite Hrun, (run_bind_done _ _ _ _ _ E), (run_bind_done _ _ m2 tt (drop m2)) by done.
    apply (after_handler m v code m1 m2); done.
Qed.

(** The number that [interruptHandler] (Interrupts.v) looks up is the vector. *)
Lemma handler_reads_vector m ra v code m1 : called m ra v code m1 -> mem m1 (mem m1 (gpr m1 ESP + 4) + 4 * 9) = v.
Proof. intros H. rewrite (call_argument _ _ _ _ _ H). exact (call_fields _ _ _ _ _ H 9 ltac:(lia)). Qed.

(** ** A timer interrupt *)

Definition demo_machine : machine :=
  mkMachine (fun r => match r with EAX => 0xAAAA0001 | ECX => 2 | EDX => 3 | EBX => 4 | ESP => 0x9000 | EBP => 0x9040 | ESI => 6 | EDI => 7 end)
    (fun _ => 0x10) 8 0x100500 0x246 (fun a => a + 1).
(** It uses the registers that a C function may use, and its own stack. *)
Definition demo_handler : K machine unit :=
  kmodify (fun m => set_gpr EAX 1 (set_gpr ECX 2 (set_gpr EDX 3 (set_eflags 0x3 (set_mem (gpr m ESP - 4) 99 m))))).

Lemma interrupt_preserves_context_witness : exists m', interrupted demo_handler 0x100400 32 0 demo_machine = Done (tt, m') /\
  gpr m' EAX = 0xAAAA0001 /\ eflags m' = 0x246 /\ eip m' = 0x100500.
Proof.
  destruct (interrupt_preserves_context demo_machine demo_handler 0x100400 32 0) as (m1 & _ & _ & _ & Hret).
  - unfold room_below. cbn. lia.
  - lia.
  - cbn. lia.
  - cbn. lia.
  - reflexivity.
  - destruct (Hret _ eq_refl) as (m' & E & [Hg Hi _ Hf _ _]).
    + cbn [gpr set_gpr]. by rewrite !gpr_insert_ne by done.
    + intros a Ha. cbn [mem set_gpr set_eflags set_mem]. by rewrite fn_lookup_insert_ne by lia.
    + exists m'. split; [exact E|]. split; [apply Hg|]. split; [exact Hf|exact Hi].
Defined.
